(** * The looker worker: label normalisation and the chunked frame stream

    A shallow embedding of [app/packages/looker/src/worker.ts].

    The file has four layers.
    - [Js]: the JavaScript values the worker handles (what [response.json()]
      and a structured clone deliver, plus array buffers), property access
      on them, and the completion of a computation (a value, an exception,
      or a behaviour the model does not cover).
    - The label normaliser: [mapId], [DESERIALIZE], [handleLabels],
      [handleSample].
    - The chunked frame source and the worker session: [createReader], the
      readable stream that drives its [pull], [getSendChunk],
      [requestFrameChunk], [setStream], [onmessage], and the event loop
      that interleaves host messages with network responses.
    - [Selectors]: the selectors of the application state that follow the
      worker in the source, as far as they compute their value from what
      they read: the names of the elements of a view, the counts, the
      selected fields and the similarity keys.

    The constants [CHUNK_SIZE], [LABELS], [LABEL_LISTS] (./constants) and
    the codec [deserialize] (./numpy) are imported by the worker, and
    [RESERVED_FIELDS] (../utils/labels) by the selectors; they are
    parameters of the development. *)

From Stdlib Require Import String List ZArith Bool Lia.
From Stdlib Require Import Floats.SpecFloat.
Import ListNotations.
Open Scope string_scope.
Open Scope list_scope.

Set Warnings "-register-all".

(* ===================================================================== *)
(** * JavaScript values *)
(* ===================================================================== *)

Module Js.

(** A value is a JSON tree, extended with [undefined] and with array
    buffers.  An object keeps its own properties in enumeration order.
    Numbers are IEEE floats; only the truth value of a number is ever
    observed by the worker. *)
Inductive value : Type :=
| VUndefined
| VNull
| VBool (b : bool)
| VNumber (x : spec_float)
| VString (s : string)
| VArray (elems : list value)
| VObject (props : list (string * value))
| VBuffer (bytes : list Byte.byte).

Definition record : Type := list (string * value).

(** What a JavaScript exception carries, as far as the worker is concerned:
    [TypeError] is raised by the language itself, [DecodeError] by the
    codec, [Error msg] by [throw new Error(msg)]. *)
Inductive error : Type :=
| TypeError
| DecodeError
| Error (msg : string).

(** Completion of a synchronous computation.  [Unmodelled] marks the
    inputs on which the source relies on behaviour outside this model:
    named properties on arrays and buffers, enumeration of array and
    string indices, members inherited from [Object.prototype], and the
    conversion of a number or an object to a property key. *)
Inductive outcome (A : Type) : Type :=
| Return (a : A)
| Throw (e : error)
| Unmodelled.

Arguments Return {A} a.
Arguments Throw {A} e.
Arguments Unmodelled {A}.

Definition bind {A B} (c : outcome A) (k : A -> outcome B) : outcome B :=
  match c with
  | Return a => k a
  | Throw e => Throw e
  | Unmodelled => Unmodelled
  end.

Section Props.
Context {A : Type}.

(** [obj[k]] on the own properties. *)
Fixpoint lookup (k : string) (ps : list (string * A)) : option A :=
  match ps with
  | [] => None
  | (k', v) :: rest => if String.eqb k k' then Some v else lookup k rest
  end.

(** [obj[k] = v]: an existing property keeps its place, a new one goes
    last. *)
Fixpoint set_prop (k : string) (v : A) (ps : list (string * A))
  : list (string * A) :=
  match ps with
  | [] => [(k, v)]
  | (k', v') :: rest =>
      if String.eqb k k' then (k, v) :: rest
      else (k', v') :: set_prop k v rest
  end.

(** [delete obj[k]]. *)
Definition delete (k : string) (ps : list (string * A)) : list (string * A) :=
  filter (fun kv => negb (String.eqb k (fst kv))) ps.

Definition has_key (k : string) (ps : list (string * A)) : bool :=
  match lookup k ps with Some _ => true | None => false end.
End Props.

(** [obj[k]] as an expression: a missing property reads as [undefined]. *)
Definition get (ps : record) (k : string) : value :=
  match lookup k ps with
  | Some v => v
  | None => VUndefined
  end.

(** [v.k] for the property names the worker writes out ([_cls], [mask],
    [detections], [buffer], [frames]) and for a list field named by
    [LABEL_LISTS].  None of the written names is a built-in member of a
    string, number, boolean, array or array buffer, so those read as
    [undefined]. *)
Definition get_field (v : value) (k : string) : outcome value :=
  match v with
  | VUndefined | VNull => Throw TypeError
  | VObject ps => Return (get ps k)
  | _ => Return VUndefined
  end.

(** [ToBoolean]. *)
Definition ToBoolean (v : value) : bool :=
  match v with
  | VUndefined | VNull => false
  | VBool b => b
  | VNumber (S754_zero _) | VNumber S754_nan => false
  | VNumber _ => true
  | VString s => negb (String.eqb s "")
  | VArray _ | VObject _ | VBuffer _ => true
  end.

(** [ToPropertyKey], as used by [x in obj] and [obj[x]]. *)
Definition ToPropertyKey (v : value) : outcome string :=
  match v with
  | VString s => Return s
  | VUndefined => Return "undefined"
  | VNull => Return "null"
  | VBool true => Return "true"
  | VBool false => Return "false"
  | VNumber _ | VArray _ | VObject _ | VBuffer _ => Unmodelled
  end.

(** The members every object literal inherits from [Object.prototype];
    [k in obj] holds for them although [obj] does not own them. *)
Definition object_prototype_members : list string :=
  [ "constructor"; "hasOwnProperty"; "isPrototypeOf"; "propertyIsEnumerable";
    "toLocaleString"; "toString"; "valueOf"; "__proto__";
    "__defineGetter__"; "__defineSetter__";
    "__lookupGetter__"; "__lookupSetter__" ].

Definition inherited (k : string) : bool :=
  existsb (String.eqb k) object_prototype_members.

End Js.

Import Js.

Declare Scope js_scope.
Delimit Scope js_scope with js.
Notation "x <- c ;; k" := (bind c (fun x => k))
  (at level 61, c at next level, right associativity) : js_scope.
Notation "' p <- c ;; k" := (bind c (fun x => let p := x in k))
  (at level 61, p pattern, c at next level, right associativity) : js_scope.
Open Scope js_scope.

(* ===================================================================== *)
(** * Selectors of the application state *)
(* ===================================================================== *)

(** The selectors that follow the worker in the source derive values from
    the state description of the application.  A selector
    [selector({ get: ({ get }) => ... })] is embedded as the function that
    its [get] computes from the value of the atom, or of the selector whose
    source is not at hand, that it reads with [get(...)]. *)
Module Selectors.

(** [v === s] for a string [s]. *)
Definition is_string (s : string) (v : value) : bool :=
  match v with
  | VString t => String.eqb t s
  | _ => false
  end.

(** SameValueZero between an element [x] of an array literal of strings,
    [undefined] and [null], and any value [v]. *)
Definition same_value_zero (x v : value) : bool :=
  match x, v with
  | VUndefined, VUndefined => true
  | VNull, VNull => true
  | VString s, VString t => String.eqb s t
  | _, _ => false
  end.

(** [xs.includes(v)] for such an array literal [xs]. *)
Definition includes (xs : list value) (v : value) : bool :=
  existsb (fun x => same_value_zero x v) xs.

(** [v?.k] *)
Definition optional (v : value) (k : string) : outcome value :=
  match v with
  | VUndefined | VNull => Return VUndefined
  | _ => get_field v k
  end.

(** <<
    export const viewCls = selector<string>({
      get: ({ get }) => {
        const stateDescription = get(atoms.stateDescription);
        return stateDescription.view_cls;
      },
    });
    >> *)
Definition viewCls (stateDescription : record) : value :=
  get stateDescription "view_cls".

(** <<
    return [undefined, null, "fiftyone.core.view.DatasetView"].includes(
      get(viewCls)
    );
    >> *)
Definition isRootView (stateDescription : record) : bool :=
  includes [VUndefined; VNull; VString "fiftyone.core.view.DatasetView"]
    (viewCls stateDescription).

Definition CLIPS_VIEW : string := "fiftyone.core.clips.ClipsView".
Definition FRAMES_VIEW : string := "fiftyone.core.video.FramesView".
Definition EVALUATION_PATCHES_VIEW : string :=
  "fiftyone.core.patches.EvaluationPatchesView".
Definition PATCHES_VIEW : string := "fiftyone.core.patches.PatchesView".
Definition PATCH_VIEWS : list value :=
  [VString PATCHES_VIEW; VString EVALUATION_PATCHES_VIEW].

(** [enum ELEMENT_NAMES] *)
Module ELEMENT_NAMES.
Definition CLIP : string := "clip".
Definition FRAME : string := "frame".
Definition PATCH : string := "patch".
Definition SAMPLE : string := "sample".
End ELEMENT_NAMES.

(** [enum ELEMENT_NAMES_PLURAL] *)
Module ELEMENT_NAMES_PLURAL.
Definition CLIP : string := "clips".
Definition FRAME : string := "frames".
Definition PATCH : string := "patches".
Definition SAMPLE : string := "samples".
End ELEMENT_NAMES_PLURAL.

(** <<
    const cls = get(viewCls);
    if (PATCH_VIEWS.includes(cls)) { return ELEMENT_NAMES.PATCH; }
    if (cls === CLIPS_VIEW) return ELEMENT_NAMES.CLIP;
    if (cls === FRAMES_VIEW) return ELEMENT_NAMES.FRAME;
    return ELEMENT_NAMES.SAMPLE;
    >> *)
Definition rootElementName (stateDescription : record) : string :=
  let cls := viewCls stateDescription in
  if includes PATCH_VIEWS cls then ELEMENT_NAMES.PATCH
  else if is_string CLIPS_VIEW cls then ELEMENT_NAMES.CLIP
  else if is_string FRAMES_VIEW cls then ELEMENT_NAMES.FRAME
  else ELEMENT_NAMES.SAMPLE.

(** <<
    const elementName = get(rootElementName);
    switch (elementName) {
      case ELEMENT_NAMES.CLIP: return ELEMENT_NAMES_PLURAL.CLIP;
      case ELEMENT_NAMES.FRAME: return ELEMENT_NAMES_PLURAL.FRAME;
      case ELEMENT_NAMES.PATCH: return ELEMENT_NAMES_PLURAL.PATCH;
      default: return ELEMENT_NAMES_PLURAL.SAMPLE;
    }
    >> *)
Definition rootElementNamePlural (stateDescription : record) : string :=
  let elementName := rootElementName stateDescription in
  if String.eqb elementName ELEMENT_NAMES.CLIP then ELEMENT_NAMES_PLURAL.CLIP
  else if String.eqb elementName ELEMENT_NAMES.FRAME
  then ELEMENT_NAMES_PLURAL.FRAME
  else if String.eqb elementName ELEMENT_NAMES.PATCH
  then ELEMENT_NAMES_PLURAL.PATCH
  else ELEMENT_NAMES_PLURAL.SAMPLE.

(** The value of [elementNames]: [{ plural, singular }]. *)
Record ElementNames : Type := {
  plural : string;
  singular : string
}.

Definition elementNames (stateDescription : record) : ElementNames :=
  {| plural := rootElementNamePlural stateDescription;
     singular := rootElementName stateDescription |}.

(** [get(rootElementName) === ELEMENT_NAMES.CLIP] *)
Definition isClipsView (stateDescription : record) : bool :=
  String.eqb (rootElementName stateDescription) ELEMENT_NAMES.CLIP.

(** [get(rootElementName) === ELEMENT_NAMES.PATCH] *)
Definition isPatchesView (stateDescription : record) : bool :=
  String.eqb (rootElementName stateDescription) ELEMENT_NAMES.PATCH.

(** [get(rootElementName) === ELEMENT_NAMES.FRAME] *)
Definition isFramesView (stateDescription : record) : bool :=
  String.eqb (rootElementName stateDescription) ELEMENT_NAMES.FRAME.

(** [Boolean(!get(isRootView))] *)
Definition hasSource (stateDescription : record) : bool :=
  negb (isRootView stateDescription).

(** ** Counts *)

(** The reduction shared by [totalCount] and [filteredCount]:
    <<
    stats.reduce((acc, cur) => (cur.name === null ? cur.result : acc), null)
    >>
    Neither [name] nor [result] is a member of a built-in prototype of a
    value of the model. *)
Fixpoint reduce_count (stats : list value) (acc : value) : outcome value :=
  match stats with
  | [] => Return acc
  | cur :: rest =>
      name <- get_field cur "name" ;;
      acc' <- match name with
              | VNull => get_field cur "result"
              | _ => Return acc
              end ;;
      reduce_count rest acc'
  end.

(** [(stats || []).reduce(...)]: only an array has a [reduce] method. *)
Definition count (stats : value) : outcome value :=
  match (if ToBoolean stats then stats else VArray []) with
  | VArray elems => reduce_count elems VNull
  | _ => Throw TypeError
  end.

(** [totalCount], from the value of [datasetStats]. *)
Definition totalCount (datasetStats : value) : outcome value :=
  count datasetStats.

(** [filteredCount], from the value of [extendedDatasetStats]. *)
Definition filteredCount (extendedDatasetStats : value) : outcome value :=
  count extendedDatasetStats.

(** [get(filteredCount) || get(totalCount)] *)
Definition currentCount (extendedDatasetStats datasetStats : value)
  : outcome value :=
  filtered <- filteredCount extendedDatasetStats ;;
  if ToBoolean filtered then Return filtered else totalCount datasetStats.

(** ** Similarity keys *)

(** The value of [similarityKeys]. *)
Record SimilarityKeys : Type := {
  patches : list (string * value);
  samples : list string
}.

(** The parameter pattern [{ config: { f } }] applied to [v]: it throws
    unless [v] and [v.config] can be destructured. *)
Definition destructure_config (v : value) (f : string) : outcome value :=
  config <- get_field v "config" ;;
  get_field config f.

(** [Object.entries(v)] for a value that is neither [undefined] nor
    [null]. *)
Definition entries (v : value) : outcome (list (string * value)) :=
  match v with
  | VObject ps => Return ps
  | VUndefined | VNull => Throw TypeError
  | VBool _ | VNumber _ | VBuffer _ => Return []
  | VArray [] => Return []
  | VString s => if String.eqb s "" then Return [] else Unmodelled
  | VArray (_ :: _) => Unmodelled
  end.

(** <<
    .filter(([_, { config: { method } }]) => method === "similarity")
    >> *)
Fixpoint filter_similarity (es : list (string * value))
  : outcome (list (string * value)) :=
  match es with
  | [] => Return []
  | (key, v) :: rest =>
      method <- destructure_config v "method" ;;
      rest' <- filter_similarity rest ;;
      Return (if is_string "similarity" method then (key, v) :: rest'
              else rest')
  end.

(** <<
    .reduce(({ patches, samples }, [key, { config: { patches_field } }]) => {
        if (patches_field) { patches.push([key, patches_field]); }
        else { samples.push(key); }
        return { patches, samples };
      }, { patches: [], samples: [] })
    >> *)
Fixpoint reduce_keys (es : list (string * value)) (acc : SimilarityKeys)
  : outcome SimilarityKeys :=
  match es with
  | [] => Return acc
  | (key, v) :: rest =>
      patches_field <- destructure_config v "patches_field" ;;
      reduce_keys rest
        (if ToBoolean patches_field
         then {| patches := patches acc ++ [(key, patches_field)];
                 samples := samples acc |}
         else {| patches := patches acc; samples := samples acc ++ [key] |})
  end.

(** <<
    const state = get(atoms.stateDescription);
    const brainKeys = (state?.dataset?.brain_methods || {}) as BrainMethods;
    return Object.entries(brainKeys).filter(...).reduce(...);
    >> *)
Definition similarityKeys (stateDescription : value) : outcome SimilarityKeys :=
  dataset <- optional stateDescription "dataset" ;;
  brain_methods <- optional dataset "brain_methods" ;;
  let brainKeys :=
    if ToBoolean brain_methods then brain_methods else VObject [] in
  es <- entries brainKeys ;;
  kept <- filter_similarity es ;;
  reduce_keys kept {| patches := []; samples := [] |}.

(** ** Selected fields *)

(** A stage of the view, as far as [selectedFields] reads it: its class
    [_cls], and the field names [kwargs[0][1] ? kwargs[0][1] : []] that it
    was given, which are strings. *)
Record Stage : Type := {
  _cls : string;
  supplied : list string
}.

(** [n.slice("frames.".length)], a string being the sequence of its code
    units. *)
Definition slice_frames (n : string) : string :=
  String.substring 7 (String.length n - 7) n.

(** [names.has(f)] on a set of strings. *)
Definition has (names : list string) (f : string) : bool :=
  existsb (String.eqb f) names.

Section SelectedFields.

(** [RESERVED_FIELDS] is imported from ../utils/labels. *)
Variable RESERVED_FIELDS : list string.

(** The body of [view_.forEach(({ _cls, kwargs }) => { ... })], as the
    change it makes to [fields_]:
    <<
    if (_cls === "fiftyone.core.stages.SelectFields") {
      const supplied = kwargs[0][1] ? kwargs[0][1] : [];
      let names = new Set([...supplied, ...RESERVED_FIELDS]);
      if (video && params.dimension === "frame") {
        names = new Set(
          Array.from(names).map((n) => n.slice("frames.".length)));
      }
      Object.keys(fields_).forEach((f) => {
        if (!names.has(f)) { delete fields_[f]; }
      });
    } else if (_cls === "fiftyone.core.stages.ExcludeFields") {
      const supplied = kwargs[0][1] ? kwargs[0][1] : [];
      let names = Array.from(supplied);
      if (video && params.dimension === "frame") {
        names = names.map((n) => n.slice("frames.".length));
      } else if (video) {
        names = names.filter((n) => n.startsWith("frames."));
      }
      names.forEach((n) => { delete fields_[n]; });
    }
    >> *)
Definition apply_stage (video : bool) (dimension : string) (fields_ : record)
  (stage : Stage) : record :=
  if String.eqb (_cls stage) "fiftyone.core.stages.SelectFields" then
    let names := supplied stage ++ RESERVED_FIELDS in
    let names :=
      if video && String.eqb dimension "frame" then map slice_frames names
      else names in
    filter (fun kv => has names (fst kv)) fields_
  else if String.eqb (_cls stage) "fiftyone.core.stages.ExcludeFields" then
    let names := supplied stage in
    let names :=
      if video && String.eqb dimension "frame" then map slice_frames names
      else if video then filter (String.prefix "frames.") names
      else names in
    fold_left (fun fs n => delete n fs) names fields_
  else fields_.

(** [selectedFields], from the values of [view], of [fields(params)], of
    [isVideoDataset] and of [atoms.modalSourceSample], and from
    [params.dimension]:
    <<
    const fields_ = { ...get(fields(params)) };
    !source && view_.forEach(...);
    return fields_;
    >> *)
Definition selectedFields (view_ : list Stage) (fields : record)
  (video : bool) (source : value) (dimension : string) : record :=
  if negb (ToBoolean source)
  then fold_left (apply_stage video dimension) view_ fields
  else fields.

End SelectedFields.

(** ** Vocabulary *)

(** [v.k] where it is known not to throw: [undefined] unless [v] is an
    object that owns [k]. *)
Definition field (v : value) (k : string) : value :=
  match v with
  | VObject ps => get ps k
  | _ => VUndefined
  end.

(** [v.config.k], likewise. *)
Definition config_field (v : value) (k : string) : value :=
  field (field v "config") k.

(** The brain method [v] computes a similarity. *)
Definition is_similarity (v : value) : bool :=
  is_string "similarity" (config_field v "method").

(** A statistic that is not tied to a field: [cur.name === null]. *)
Definition unnamed (cur : value) : bool :=
  match field cur "name" with
  | VNull => true
  | _ => false
  end.

Definition is_object (v : value) : Prop := exists ps, v = VObject ps.

End Selectors.

(* ===================================================================== *)
(** * The label normaliser *)
(* ===================================================================== *)

Section Worker.

(** [LABELS t] is the test [t in LABELS].  [LABEL_LISTS t] is [Some f]
    when [t in LABEL_LISTS] holds and [LABEL_LISTS[t]] names the property
    [f]; it is [None] when the test fails. *)
Variable LABELS : string -> bool.
Variable LABEL_LISTS : string -> option string.

(** [deserialize text] is the decoded mask, or [None] when the codec
    rejects the text. *)
Variable deserialize : string -> option value.

Variable CHUNK_SIZE : Z.

(** <<
    const mapId = (obj) => {
      obj.id = obj._id;
      delete obj._id;
      return obj;
    };
    >> *)
Definition mapId_props (ps : record) : record :=
  delete "_id" (set_prop "id" (get ps "_id") ps).

(** The module is strict code: reading a property of [undefined] or
    [null] throws, and so does creating a property on a primitive. *)
Definition mapId (obj : value) : outcome value :=
  match obj with
  | VObject ps => Return (VObject (mapId_props ps))
  | VUndefined | VNull => Throw TypeError
  | VBool _ | VNumber _ | VString _ => Throw TypeError
  | VArray _ | VBuffer _ => Unmodelled
  end.

(** The body shared by the three entries of [DESERIALIZE]:
    <<
    if (typeof label.mask === "string") {
      label.mask = deserialize(label.mask);
      buffers.push(label.mask.buffer);
    }
    >> *)
Definition decode_mask (label : value) (buffers : list value)
  : outcome (value * list value) :=
  match label with
  | VUndefined | VNull => Throw TypeError
  | VObject ps =>
      match get ps "mask" with
      | VString text =>
          match deserialize text with
          | None => Throw DecodeError
          | Some mask =>
              buffer <- get_field mask "buffer" ;;
              Return (VObject (set_prop "mask" mask ps), buffers ++ [buffer])
          end
      | _ => Return (label, buffers)
      end
  | _ => Return (label, buffers)
  end.

(** [labels.forEach(f)] where [f] updates its argument in place and pushes
    onto [buffers]. *)
Fixpoint forEach (f : value -> list value -> outcome (value * list value))
  (labels : list value) (buffers : list value)
  : outcome (list value * list value) :=
  match labels with
  | [] => Return ([], buffers)
  | label :: rest =>
      ' (label', buffers1) <- f label buffers ;;
      ' (rest', buffers2) <- forEach f rest buffers1 ;;
      Return (label' :: rest', buffers2)
  end.

(** [DESERIALIZE.Detections]: [labels.detections.forEach(...)] throws
    unless [labels.detections] is an array. *)
Definition deserialize_detections (labels : value) (buffers : list value)
  : outcome (value * list value) :=
  match labels with
  | VObject ps =>
      match get ps "detections" with
      | VArray detections =>
          ' (detections', buffers') <- forEach decode_mask detections buffers ;;
          Return (VObject (set_prop "detections" (VArray detections') ps),
                  buffers')
      | _ => Throw TypeError
      end
  | VUndefined | VNull => Throw TypeError
  | _ => Throw TypeError
  end.

(** The own keys of [DESERIALIZE] with their handlers. *)
Definition DESERIALIZE (cls : string)
  : option (value -> list value -> outcome (value * list value)) :=
  if String.eqb cls "Detection" then Some decode_mask
  else if String.eqb cls "Detections" then Some deserialize_detections
  else if String.eqb cls "Segmentation" then Some decode_mask
  else None.

(** [list.map(mapId)]. *)
Fixpoint map_mapId (items : list value) : outcome (list value) :=
  match items with
  | [] => Return []
  | obj :: rest =>
      obj' <- mapId obj ;;
      rest' <- map_mapId rest ;;
      Return (obj' :: rest')
  end.

(** The branch [if (label._cls in LABEL_LISTS) { ... }] for the list
    property [f = LABEL_LISTS[label._cls]]:
    <<
    const list = label[f];
    if (Array.isArray(list)) {
      label[f] = list.map(mapId);
    }
    >> *)
Definition map_label_list (f : string) (label : value) : outcome value :=
  match label with
  | VObject ps =>
      match get ps f with
      | VArray items =>
          items' <- map_mapId items ;;
          Return (VObject (set_prop f (VArray items') ps))
      | _ => Return label
      end
  | VArray _ | VBuffer _ => Unmodelled
  | _ => Return label
  end.

(** One turn of the loop of [handleLabels], for the value [label] of the
    current field. *)
Definition handleLabel (label : value) (buffers : list value)
  : outcome (value * list value) :=
  if negb (ToBoolean label) then Return (label, buffers)
  else
    cls <- get_field label "_cls" ;;
    key <- ToPropertyKey cls ;;
    if inherited key then Unmodelled
    else
      ' (label1, buffers1) <-
          match DESERIALIZE key with
          | Some handler => handler label buffers
          | None => Return (label, buffers)
          end ;;
      if LABELS key then
        match LABEL_LISTS key with
        | Some f =>
            label2 <- map_label_list f label1 ;;
            Return (label2, buffers1)
        | None =>
            label2 <- mapId label1 ;;
            Return (label2, buffers1)
        end
      else Return (label1, buffers1).

(** The loop [for (const field in sample)], threading [buffers]. *)
Fixpoint handleFields (sample : record) (buffers : list value)
  : outcome (record * list value) :=
  match sample with
  | [] => Return ([], buffers)
  | (field, label) :: rest =>
      ' (label', buffers1) <- handleLabel label buffers ;;
      ' (rest', buffers2) <- handleFields rest buffers1 ;;
      Return ((field, label') :: rest', buffers2)
  end.

(** [handleLabels] returns the buffers it created; the record is updated
    in place, so the model returns it as well. *)
Definition handleLabels (sample : record) : outcome (record * list value) :=
  handleFields sample [].

(** [handleLabels(frame)] for an element of a [frames] array.  A value
    without enumerable properties runs no turn of the loop. *)
Definition handleLabels_frame (frame : value) : outcome (value * list value) :=
  match frame with
  | VObject ps =>
      ' (ps', buffers) <- handleLabels ps ;;
      Return (VObject ps', buffers)
  | VArray (_ :: _) => Unmodelled
  | VString (String _ _) => Unmodelled
  | _ => Return (frame, [])
  end.

(** [frames.map((frame) => handleLabels(frame)).flat()]. *)
Fixpoint handleFrames (frames : list value) : outcome (list value * list value) :=
  match frames with
  | [] => Return ([], [])
  | frame :: rest =>
      ' (frame', buffers1) <- handleLabels_frame frame ;;
      ' (rest', buffers2) <- handleFrames rest ;;
      Return (frame' :: rest', buffers1 ++ buffers2)
  end.

(** [v.length], as a truth value. *)
Definition truthy_length (v : value) : bool :=
  match v with
  | VArray elems => negb (Nat.eqb (List.length elems) 0)
  | VString s => negb (String.eqb s "")
  | VObject ps => ToBoolean (get ps "length")
  | _ => false
  end.

(** <<
    let buffers = handleLabels(sample);
    if (sample.frames && sample.frames.length) {
      buffers = [...buffers,
                 ...sample.frames.map((frame) => handleLabels(frame)).flat()];
    }
    mapId(sample);
    return buffers;
    >>
    Only an array has a [map] method among the values of the model. *)
Definition handleSample (sample : record) : outcome (record * list value) :=
  ' (sample1, buffers) <- handleLabels sample ;;
  ' (sample2, buffers') <-
      (let frames := get sample1 "frames" in
       if ToBoolean frames && truthy_length frames then
         match frames with
         | VArray elems =>
             ' (elems', more) <- handleFrames elems ;;
             Return (set_prop "frames" (VArray elems') sample1, buffers ++ more)
         | _ => Throw TypeError
         end
       else Return (sample1, buffers)) ;;
  Return (mapId_props sample2, buffers').

(* ===================================================================== *)
(** * The chunked frame source *)
(* ===================================================================== *)

Definition HIGH_WATER_MARK : nat := 6.

(** [FrameChunk], as declared in ./state and as the worker uses it. *)
Record FrameChunk : Type := {
  frames : list value;
  range : Z * Z
}.

(** The query of the request [fetch(`${url}/frames?...`)]. *)
Record FramesRequest : Type := {
  q_frameNumber : Z;
  q_numFrames : Z;
  q_frameCount : Z;
  q_sampleId : string;
  q_source : bool;
  q_url : string
}.

Inductive StreamState : Type := readable | closed | errored.

(** What [createReader] builds: the variables its closures [pull] and
    [cancel] share, the internal slots of the [ReadableStream] and of its
    default controller (Streams Standard, section 4), and the requests
    sent by [pull].  The stream is locked to the reader obtained by
    [getReader()]; a read request is the pending promise of a [read()],
    recorded with the [uuid] that its continuation [getSendChunk(uuid)]
    holds. *)
Record FrameStream : Type := {
  chunkSize : Z;
  frameCount : Z;
  frameNumber : Z;
  sampleId : string;
  source : bool;
  url : string;
  cancelled : bool;
  state : StreamState;
  started : bool;
  pulling : bool;
  pullAgain : bool;
  closeRequested : bool;
  queue : list FrameChunk;
  readRequests : list string;
  fetched : list FramesRequest;
  inflight : list FramesRequest
}.

Definition set_frameNumber (n : Z) (s : FrameStream) : FrameStream :=
  {| chunkSize := chunkSize s; frameCount := frameCount s; frameNumber := n;
     sampleId := sampleId s; source := source s; url := url s;
     cancelled := cancelled s; state := state s; started := started s;
     pulling := pulling s; pullAgain := pullAgain s;
     closeRequested := closeRequested s; queue := queue s;
     readRequests := readRequests s; fetched := fetched s;
     inflight := inflight s |}.

Definition set_cancelled (b : bool) (s : FrameStream) : FrameStream :=
  {| chunkSize := chunkSize s; frameCount := frameCount s;
     frameNumber := frameNumber s;
     sampleId := sampleId s; source := source s; url := url s;
     cancelled := b; state := state s; started := started s;
     pulling := pulling s; pullAgain := pullAgain s;
     closeRequested := closeRequested s; queue := queue s;
     readRequests := readRequests s; fetched := fetched s;
     inflight := inflight s |}.

Definition set_state (st : StreamState) (s : FrameStream) : FrameStream :=
  {| chunkSize := chunkSize s; frameCount := frameCount s;
     frameNumber := frameNumber s;
     sampleId := sampleId s; source := source s; url := url s;
     cancelled := cancelled s; state := st; started := started s;
     pulling := pulling s; pullAgain := pullAgain s;
     closeRequested := closeRequested s; queue := queue s;
     readRequests := readRequests s; fetched := fetched s;
     inflight := inflight s |}.

Definition set_started (b : bool) (s : FrameStream) : FrameStream :=
  {| chunkSize := chunkSize s; frameCount := frameCount s;
     frameNumber := frameNumber s;
     sampleId := sampleId s; source := source s; url := url s;
     cancelled := cancelled s; state := state s; started := b;
     pulling := pulling s; pullAgain := pullAgain s;
     closeRequested := closeRequested s; queue := queue s;
     readRequests := readRequests s; fetched := fetched s;
     inflight := inflight s |}.

Definition set_pulling (b : bool) (s : FrameStream) : FrameStream :=
  {| chunkSize := chunkSize s; frameCount := frameCount s;
     frameNumber := frameNumber s;
     sampleId := sampleId s; source := source s; url := url s;
     cancelled := cancelled s; state := state s; started := started s;
     pulling := b; pullAgain := pullAgain s;
     closeRequested := closeRequested s; queue := queue s;
     readRequests := readRequests s; fetched := fetched s;
     inflight := inflight s |}.

Definition set_pullAgain (b : bool) (s : FrameStream) : FrameStream :=
  {| chunkSize := chunkSize s; frameCount := frameCount s;
     frameNumber := frameNumber s;
     sampleId := sampleId s; source := source s; url := url s;
     cancelled := cancelled s; state := state s; started := started s;
     pulling := pulling s; pullAgain := b;
     closeRequested := closeRequested s; queue := queue s;
     readRequests := readRequests s; fetched := fetched s;
     inflight := inflight s |}.

Definition set_closeRequested (b : bool) (s : FrameStream) : FrameStream :=
  {| chunkSize := chunkSize s; frameCount := frameCount s;
     frameNumber := frameNumber s;
     sampleId := sampleId s; source := source s; url := url s;
     cancelled := cancelled s; state := state s; started := started s;
     pulling := pulling s; pullAgain := pullAgain s;
     closeRequested := b; queue := queue s;
     readRequests := readRequests s; fetched := fetched s;
     inflight := inflight s |}.

Definition set_queue (q : list FrameChunk) (s : FrameStream) : FrameStream :=
  {| chunkSize := chunkSize s; frameCount := frameCount s;
     frameNumber := frameNumber s;
     sampleId := sampleId s; source := source s; url := url s;
     cancelled := cancelled s; state := state s; started := started s;
     pulling := pulling s; pullAgain := pullAgain s;
     closeRequested := closeRequested s; queue := q;
     readRequests := readRequests s; fetched := fetched s;
     inflight := inflight s |}.

Definition set_readRequests (rs : list string) (s : FrameStream) : FrameStream :=
  {| chunkSize := chunkSize s; frameCount := frameCount s;
     frameNumber := frameNumber s;
     sampleId := sampleId s; source := source s; url := url s;
     cancelled := cancelled s; state := state s; started := started s;
     pulling := pulling s; pullAgain := pullAgain s;
     closeRequested := closeRequested s; queue := queue s;
     readRequests := rs; fetched := fetched s;
     inflight := inflight s |}.

Definition set_inflight (rs : list FramesRequest) (s : FrameStream) : FrameStream :=
  {| chunkSize := chunkSize s; frameCount := frameCount s;
     frameNumber := frameNumber s;
     sampleId := sampleId s; source := source s; url := url s;
     cancelled := cancelled s; state := state s; started := started s;
     pulling := pulling s; pullAgain := pullAgain s;
     closeRequested := closeRequested s; queue := queue s;
     readRequests := readRequests s; fetched := fetched s;
     inflight := rs |}.

(** [fetch(...)] as issued by [pull]: the request is logged and becomes
    outstanding. *)
Definition send (r : FramesRequest) (s : FrameStream) : FrameStream :=
  {| chunkSize := chunkSize s; frameCount := frameCount s;
     frameNumber := frameNumber s;
     sampleId := sampleId s; source := source s; url := url s;
     cancelled := cancelled s; state := state s; started := started s;
     pulling := pulling s; pullAgain := pullAgain s;
     closeRequested := closeRequested s; queue := queue s;
     readRequests := readRequests s; fetched := fetched s ++ [r];
     inflight := inflight s ++ [r] |}.

(** How the promise of a [read()] settles when it is fulfilled:
    [{ value, done: false }] or [{ value: undefined, done: true }]. *)
Inductive ReadResult : Type :=
| ReadValue (value : FrameChunk)
| ReadDone.

(** A fulfilled read, with the [uuid] of its continuation. *)
Definition delivery : Type := (string * ReadResult)%type.

Definition is_readable (s : FrameStream) : bool :=
  match state s with readable => true | _ => false end.

(** ReadableStreamDefaultControllerCanCloseOrEnqueue *)
Definition CanCloseOrEnqueue (s : FrameStream) : bool :=
  negb (closeRequested s) && is_readable s.

(** ReadableStreamDefaultControllerGetDesiredSize on a readable stream,
    with [CountQueuingStrategy({ highWaterMark: HIGH_WATER_MARK })]. *)
Definition desiredSize (s : FrameStream) : Z :=
  Z.of_nat HIGH_WATER_MARK - Z.of_nat (List.length (queue s)).

(** ReadableStreamDefaultControllerShouldCallPull *)
Definition ShouldCallPull (s : FrameStream) : bool :=
  if negb (CanCloseOrEnqueue s) then false
  else if negb (started s) then false
  else if negb (Nat.eqb (List.length (readRequests s)) 0) then true
  else (0 <? desiredSize s)%Z.

(** ReadableStreamClose: every pending read is fulfilled with
    [done: true]. *)
Definition ReadableStreamClose (s : FrameStream) : FrameStream * list delivery :=
  (set_readRequests [] (set_state closed s),
   map (fun uuid => (uuid, ReadDone)) (readRequests s)).

(** ReadableStreamDefaultControllerClose *)
Definition ControllerClose (s : FrameStream) : FrameStream * list delivery :=
  let s1 := set_closeRequested true s in
  match queue s1 with
  | [] => ReadableStreamClose s1
  | _ :: _ => (s1, [])
  end.

(** ReadableStreamDefaultControllerError: the queue is dropped and every
    pending read is rejected, so that no continuation [getSendChunk(uuid)]
    runs. *)
Definition ControllerError (s : FrameStream) : FrameStream :=
  if is_readable s then
    set_readRequests [] (set_state errored (set_queue [] s))
  else s.

Inductive PullPromise : Type := Fulfilled | Rejected | Pending.

Definition request_of (s : FrameStream) : FramesRequest :=
  {| q_frameNumber := frameNumber s; q_numFrames := chunkSize s;
     q_frameCount := frameCount s; q_sampleId := sampleId s;
     q_source := source s; q_url := url s |}.

(** The [pull] of the underlying source, up to the point where it returns
    its promise:
    <<
    if (frameNumber >= frameCount || cancelled) {
      controller.close();
      return Promise.resolve();
    }
    return new Promise((resolve, reject) => { fetch(...) ... });
    >>
    [controller.close()] throws when the stream cannot be closed, which
    the stream turns into a rejected promise. *)
Definition pull (s : FrameStream) : FrameStream * list delivery * PullPromise :=
  if (frameCount s <=? frameNumber s)%Z || cancelled s then
    if CanCloseOrEnqueue s then
      let (s1, ds) := ControllerClose s in (s1, ds, Fulfilled)
    else (s, [], Rejected)
  else (send (request_of s) s, [], Pending).

(** The reaction to the fulfilment of the promise of [pull]; [again] is
    ReadableStreamDefaultControllerCallPullIfNeeded. *)
Definition pullFulfilled (again : FrameStream -> FrameStream * list delivery)
  (s : FrameStream) : FrameStream * list delivery :=
  let s1 := set_pulling false s in
  if pullAgain s1 then again (set_pullAgain false s1) else (s1, []).

(** ReadableStreamDefaultControllerCallPullIfNeeded.  A promise that
    [pull] returns already resolved has its reaction run at once: no other
    code of the worker touches the stream before that microtask. *)
Definition CallPullIfNeeded_step
  (again : FrameStream -> FrameStream * list delivery)
  (s : FrameStream) : FrameStream * list delivery :=
  if negb (ShouldCallPull s) then (s, [])
  else if pulling s then (set_pullAgain true s, [])
  else
    match pull (set_pulling true s) with
    | (s1, ds, Pending) => (s1, ds)
    | (s1, ds, Fulfilled) =>
        let (s2, ds') := pullFulfilled again s1 in (s2, ds ++ ds')
    | (s1, ds, Rejected) => (ControllerError s1, ds)
    end.

(** [pull] returns a resolved promise only after it has closed the
    controller, and a closed controller is never pulled again: the
    recursive call has nothing left to do (see [CallPullIfNeeded_unfold]). *)
Definition CallPullIfNeeded : FrameStream -> FrameStream * list delivery :=
  CallPullIfNeeded_step (fun s => (s, [])).

(** [reader.read()], followed by [.then(getSendChunk(uuid))]
    (ReadableStreamDefaultReaderRead and the controller's pull steps). *)
Definition read (uuid : string) (s : FrameStream) : FrameStream * list delivery :=
  match state s with
  | closed => (s, [(uuid, ReadDone)])
  | errored => (s, [])
  | readable =>
      match queue s with
      | chunk :: rest =>
          let s1 := set_queue rest s in
          let (s2, ds) :=
            match rest with
            | [] => if closeRequested s1 then ReadableStreamClose s1
                    else CallPullIfNeeded s1
            | _ :: _ => CallPullIfNeeded s1
            end in
          (s2, ds ++ [(uuid, ReadValue chunk)])
      | [] =>
          CallPullIfNeeded (set_readRequests (readRequests s ++ [uuid]) s)
      end
  end.

(** The continuation of a successful fetch:
    <<
    .then(({ frames, range }: FrameChunk) => {
      controller.enqueue({ frames, range });
      frameNumber = range[1] + 1;
      resolve();
    })
    >>
    [controller.enqueue] throws when the stream cannot take a chunk; the
    [.catch] below it then rejects the promise of [pull]. *)
Definition receive (chunk : FrameChunk) (s : FrameStream)
  : FrameStream * list delivery :=
  if CanCloseOrEnqueue s then
    let (s1, ds1) :=
      match readRequests s with
      | uuid :: rest =>
          (set_readRequests rest s,
           [(uuid, ReadValue {| frames := frames chunk; range := range chunk |})])
      | [] =>
          (set_queue
             (queue s ++ [{| frames := frames chunk; range := range chunk |}]) s,
           [])
      end in
    let (s2, ds2) := CallPullIfNeeded s1 in
    let s3 := set_frameNumber (snd (range chunk) + 1) s2 in
    let (s4, ds4) := pullFulfilled CallPullIfNeeded s3 in
    (s4, ds1 ++ ds2 ++ ds4)
  else (ControllerError s, []).

(** [.catch((error) => { reject(error); })]: the promise of [pull] is
    rejected and the stream errors. *)
Definition pullRejected (s : FrameStream) : FrameStream * list delivery :=
  (ControllerError s, []).

(** [createReader]: a fresh stream, not yet started. *)
Definition createReader (chunkSize frameCount frameNumber : Z)
  (sampleId : string) (source : bool) (url : string) : FrameStream :=
  {| chunkSize := chunkSize; frameCount := frameCount;
     frameNumber := frameNumber; sampleId := sampleId; source := source;
     url := url; cancelled := false; state := readable; started := false;
     pulling := false; pullAgain := false; closeRequested := false;
     queue := []; readRequests := []; fetched := []; inflight := [] |}.

(** [cancel: () => (cancelled = true)] *)
Definition cancel (s : FrameStream) : FrameStream := set_cancelled true s.

(* ===================================================================== *)
(** * The worker session *)
(* ===================================================================== *)

(** The fields that the four handlers take from a message, with the types
    their interfaces ([ProcessSample], [RequestFrameChunk], [SetStream],
    [RequestSourceSample]) declare. *)
Record Args : Type := {
  uuid : string;
  sample : record;
  arg_sampleId : string;
  arg_source : bool;
  arg_frameNumber : Z;
  arg_frameCount : Z;
  arg_url : string
}.

(** [data] of a [MessageEvent]: [{ method, ...args }]. *)
Record MessageData : Type := {
  method : string;
  args : Args
}.

(** A call of [postMessage(message, transfer)]. *)
Inductive Posted : Type :=
| PostSample (method : string) (sample : record) (uuid : string)
    (transfer : list value)
| PostFrameChunk (frames : list value) (range : Z * Z) (uuid : string)
    (transfer : list value).

Definition posted_method (p : Posted) : string :=
  match p with
  | PostSample m _ _ _ => m
  | PostFrameChunk _ _ _ _ => "frameChunk"
  end.

Definition posted_uuid (p : Posted) : string :=
  match p with
  | PostSample _ _ u _ => u
  | PostFrameChunk _ _ u _ => u
  end.

(** An outstanding [fetch(`${url}/sample?...`)] of [requestSourceSample]. *)
Record SampleRequest : Type := {
  sr_sampleId : string;
  sr_url : string;
  sr_uuid : string
}.

(** The state of the worker: the globals [stream] and [streamId], the
    streams created so far ([stream] refers to one of them; a superseded
    stream lives on in the callbacks that still hold it), the outstanding
    sample requests, and the messages posted to the host, oldest first. *)
Record Worker : Type := {
  stream : option nat;
  streamId : option string;
  streams : list FrameStream;
  sampleRequests : list SampleRequest;
  posted : list Posted
}.

Definition initial : Worker :=
  {| stream := None; streamId := None; streams := [];
     sampleRequests := []; posted := [] |}.

(** [xs[i] = x] on the list of streams. *)
Fixpoint update {A : Type} (i : nat) (x : A) (xs : list A) : list A :=
  match xs, i with
  | [], _ => []
  | _ :: rest, O => x :: rest
  | y :: rest, S j => y :: update j x rest
  end.

(** The loop of [getSendChunk]:
    <<
    value.frames.forEach((frame) => {
      buffers = [...buffers, ...handleLabels(frame)];
    });
    >> *)
Fixpoint collectFrames (frames : list value) (buffers : list value)
  : outcome (list value * list value) :=
  match frames with
  | [] => Return ([], buffers)
  | frame :: rest =>
      ' (frame', more) <- handleLabels_frame frame ;;
      ' (rest', buffers') <- collectFrames rest (buffers ++ more) ;;
      Return (frame' :: rest', buffers')
  end.

(** [getSendChunk(uuid)({ value })], as the list of messages it posts. *)
Definition getSendChunk (uuid : string) (result : ReadResult)
  : outcome (list Posted) :=
  match result with
  | ReadValue value =>
      ' (frames', buffers) <- collectFrames (frames value) [] ;;
      Return [PostFrameChunk frames' (range value) uuid buffers]
  | ReadDone => Return []
  end.

(** The continuations of the reads fulfilled during one task, in the
    order in which their promises were fulfilled.  An exception inside a
    continuation rejects the promise that [.then] returned, which nothing
    observes.  [None]: a continuation leaves the model. *)
Fixpoint deliver (ds : list delivery) (out : list Posted)
  : option (list Posted) :=
  match ds with
  | [] => Some out
  | (uuid, result) :: rest =>
      match getSendChunk uuid result with
      | Return msgs => deliver rest (out ++ msgs)
      | Throw _ => deliver rest out
      | Unmodelled => None
      end
  end.

Definition modelled {A : Type} (o : option A) : outcome A :=
  match o with
  | Some a => Return a
  | None => Unmodelled
  end.

Definition with_stream (i : nat) (s : FrameStream) (out : list Posted)
  (w : Worker) : Worker :=
  {| stream := stream w; streamId := streamId w;
     streams := update i s (streams w);
     sampleRequests := sampleRequests w; posted := out |}.

(** <<
    const processSample = ({ sample, uuid }: ProcessSample) => {
      const buffers = handleSample(sample);
      postMessage({ method: "processSample", sample, uuid }, buffers);
    };
    >> *)
Definition processSample (a : Args) (w : Worker) : outcome Worker :=
  ' (sample', buffers) <- handleSample (sample a) ;;
  Return {| stream := stream w; streamId := streamId w;
            streams := streams w; sampleRequests := sampleRequests w;
            posted := posted w
                      ++ [PostSample "processSample" sample' (uuid a) buffers] |}.

(** <<
    const requestFrameChunk = ({ uuid }: RequestFrameChunk) => {
      if (uuid === streamId) {
        stream && stream.reader.read().then(getSendChunk(uuid));
      }
    };
    >> *)
Definition requestFrameChunk (a : Args) (w : Worker) : outcome Worker :=
  match streamId w with
  | Some id =>
      if String.eqb (uuid a) id then
        match stream w with
        | Some i =>
            match nth_error (streams w) i with
            | Some s =>
                let (s', ds) := read (uuid a) s in
                out <- modelled (deliver ds (posted w)) ;;
                Return (with_stream i s' out w)
            | None => Return w
            end
        | None => Return w
        end
      else Return w
  | None => Return w
  end.

(** [if (stream) { stream.cancel(); }], as the list of streams it leaves. *)
Definition cancel_current (w : Worker) : list FrameStream :=
  match stream w with
  | Some i =>
      match nth_error (streams w) i with
      | Some s => update i (cancel s) (streams w)
      | None => streams w
      end
  | None => streams w
  end.

(** <<
    if (stream) { stream.cancel(); }
    streamId = uuid;
    stream = createReader({ chunkSize: CHUNK_SIZE, frameCount, frameNumber,
                            sampleId, source, url });
    stream.reader.read().then(getSendChunk(uuid));
    >>
    The new stream starts once the handler has returned, before any other
    task: its start promise is already resolved. *)
Definition setStream (a : Args) (w : Worker) : outcome Worker :=
  let old := cancel_current w in
  let s0 := createReader CHUNK_SIZE (arg_frameCount a) (arg_frameNumber a)
              (arg_sampleId a) (arg_source a) (arg_url a) in
  let (s1, ds1) := read (uuid a) s0 in
  let (s2, ds2) := CallPullIfNeeded (set_started true s1) in
  out <- modelled (deliver (ds1 ++ ds2) (posted w)) ;;
  Return {| stream := Some (List.length old); streamId := Some (uuid a);
            streams := old ++ [s2];
            sampleRequests := sampleRequests w; posted := out |}.

(** [requestSourceSample] up to the call of [fetch]. *)
Definition requestSourceSample (a : Args) (w : Worker) : outcome Worker :=
  Return {| stream := stream w; streamId := streamId w;
            streams := streams w;
            sampleRequests :=
              sampleRequests w
              ++ [{| sr_sampleId := arg_sampleId a; sr_url := arg_url a;
                     sr_uuid := uuid a |}];
            posted := posted w |}.

(** The continuation of [requestSourceSample]:
    <<
    .then(({ sample }: { sample: Sample }) => {
      const buffers = handleSample(sample);
      postMessage({ method: "sourceSample", sample, uuid }, buffers);
    });
    >> *)
Definition sourceSample (r : SampleRequest) (sample : record)
  (out : list Posted) : outcome (list Posted) :=
  ' (sample', buffers) <- handleSample sample ;;
  Return (out ++ [PostSample "sourceSample" sample' (sr_uuid r) buffers]).

(** <<
    onmessage = ({ data: { method, ...args } }: MessageEvent<Method>) => {
      switch (method) {
        case "processSample": processSample(args); return;
        case "requestFrameChunk": requestFrameChunk(args); return;
        case "setStream": setStream(args); return;
        case "requestSourceSample": requestSourceSample(args); return;
        default: throw new Error("unknown method");
      }
    };
    >> *)
Definition onmessage (w : Worker) (data : MessageData) : outcome Worker :=
  if String.eqb (method data) "processSample" then
    processSample (args data) w
  else if String.eqb (method data) "requestFrameChunk" then
    requestFrameChunk (args data) w
  else if String.eqb (method data) "setStream" then
    setStream (args data) w
  else if String.eqb (method data) "requestSourceSample" then
    requestSourceSample (args data) w
  else Throw (Error "unknown method").

(** ** The event loop *)

(** A task of the worker: a message from the host, or the outcome of a
    request that is outstanding. *)
Inductive event : Type :=
| Message (data : MessageData)
| FramesResponse (i : nat) (chunk : FrameChunk)
| FramesFailure (i : nat)
| SampleResponse (k : nat) (sample : record)
| SampleFailure (k : nat).

Fixpoint remove_nth {A : Type} (k : nat) (xs : list A) : list A :=
  match xs, k with
  | [], _ => []
  | _ :: rest, O => rest
  | x :: rest, S j => x :: remove_nth j rest
  end.

(** One task, run to completion together with the promise reactions it
    triggers.  [None]: the event cannot occur in [w] (it answers no
    outstanding request), or the task leaves the model.  An exception that
    escapes [onmessage] is reported to the global scope; the handlers
    throw before they change any state. *)
Definition step (w : Worker) (e : event) : option Worker :=
  match e with
  | Message data =>
      match onmessage w data with
      | Return w' => Some w'
      | Throw _ => Some w
      | Unmodelled => None
      end
  | FramesResponse i chunk =>
      match nth_error (streams w) i with
      | Some s =>
          match inflight s with
          | _ :: rest =>
              let (s', ds) := receive chunk (set_inflight rest s) in
              match deliver ds (posted w) with
              | Some out => Some (with_stream i s' out w)
              | None => None
              end
          | [] => None
          end
      | None => None
      end
  | FramesFailure i =>
      match nth_error (streams w) i with
      | Some s =>
          match inflight s with
          | _ :: rest =>
              let (s', _) := pullRejected (set_inflight rest s) in
              Some (with_stream i s' (posted w) w)
          | [] => None
          end
      | None => None
      end
  | SampleResponse k sample =>
      match nth_error (sampleRequests w) k with
      | Some r =>
          let pending := remove_nth k (sampleRequests w) in
          match sourceSample r sample (posted w) with
          | Return out =>
              Some {| stream := stream w; streamId := streamId w;
                      streams := streams w; sampleRequests := pending;
                      posted := out |}
          | Throw _ =>
              Some {| stream := stream w; streamId := streamId w;
                      streams := streams w; sampleRequests := pending;
                      posted := posted w |}
          | Unmodelled => None
          end
      | None => None
      end
  | SampleFailure k =>
      match nth_error (sampleRequests w) k with
      | Some _ =>
          Some {| stream := stream w; streamId := streamId w;
                  streams := streams w;
                  sampleRequests := remove_nth k (sampleRequests w);
                  posted := posted w |}
      | None => None
      end
  end.

Fixpoint run (w : Worker) (es : list event) : option Worker :=
  match es with
  | [] => Some w
  | e :: rest =>
      match step w e with
      | Some w' => run w' rest
      | None => None
      end
  end.

(** The states the worker can be in. *)
Inductive reachable : Worker -> Prop :=
| reachable_initial : reachable initial
| reachable_step w e w' : reachable w -> step w e = Some w' -> reachable w'.

(* ===================================================================== *)
(** * Specification vocabulary *)
(* ===================================================================== *)

(** The four request kinds of [onmessage]. *)
Definition recognised (m : string) : bool :=
  existsb (String.eqb m)
    ["processSample"; "requestFrameChunk"; "setStream"; "requestSourceSample"].

(** A completion that is not an exception made by [throw new Error(...)]. *)
Definition not_Error {A : Type} (o : outcome A) : Prop :=
  match o with
  | Throw (Error _) => False
  | _ => True
  end.

(** The test with which [pull] decides to end the sequence. *)
Definition terminated (s : FrameStream) : bool :=
  (frameCount s <=? frameNumber s)%Z || cancelled s.

(** Every read of [ds] was fulfilled with [done: true]. *)
Definition all_done (ds : list delivery) : Prop :=
  Forall (fun d => snd d = ReadDone) ds.

(** What an operation on a stream leaves alone when its source no longer
    fetches: everything that [pull] and the network can see. *)
Definition quiet (s s' : FrameStream) : Prop :=
  fetched s' = fetched s /\ inflight s' = inflight s
  /\ cancelled s' = cancelled s /\ frameNumber s' = frameNumber s
  /\ frameCount s' = frameCount s.

(** What one task can do to a stream that exists already: nothing, cancel
    it, read from it, or settle the request it has outstanding. *)
Inductive stream_op (s : FrameStream) : FrameStream -> Prop :=
| op_none : stream_op s s
| op_cancel : stream_op s (cancel s)
| op_read u : stream_op s (fst (read u s))
| op_receive chunk r rest :
    inflight s = r :: rest ->
    stream_op s (fst (receive chunk (set_inflight rest s)))
| op_reject r rest :
    inflight s = r :: rest ->
    stream_op s (fst (pullRejected (set_inflight rest s))).

(** The stream that [setStream] leaves behind for the message [a]. *)
Definition new_stream (a : Args) : FrameStream :=
  fst (CallPullIfNeeded
         (set_started true
            (fst (read (uuid a)
                    (createReader CHUNK_SIZE (arg_frameCount a)
                       (arg_frameNumber a) (arg_sampleId a) (arg_source a)
                       (arg_url a)))))).

(** The bookkeeping that keeps the source single-flight and the queue
    bounded. *)
Record well_formed (s : FrameStream) : Prop := {
  wf_single : (List.length (inflight s) <= 1)%nat;
  wf_bound : (List.length (queue s) <= HIGH_WATER_MARK)%nat;
  wf_inflight :
    inflight s <> [] ->
    pulling s = true /\ CanCloseOrEnqueue s = true
    /\ (readRequests s <> [] \/ (List.length (queue s) < HIGH_WATER_MARK)%nat);
  wf_waiting : readRequests s <> [] -> queue s = []
}.

(** The stream that [setStream] leaves behind for [a] when frames remain:
    started, with the first read waiting and the first request
    outstanding. *)
Definition fetching (a : Args) : FrameStream :=
  let s0 := createReader CHUNK_SIZE (arg_frameCount a) (arg_frameNumber a)
              (arg_sampleId a) (arg_source a) (arg_url a) in
  send (request_of s0)
    (set_pulling true (set_started true (set_readRequests [uuid a] s0))).

(** ** The remote source and the consumer of the chunk-ordering property *)

(** The chunk that the remote source returns for a request of [numFrames]
    frames from [frameNumber] on, out of [frameCount]: the range
    [[n, min(n + C - 1, F - 1)]], with the frames [frames_of n]. *)
Definition answer (frames_of : Z -> list value) (r : FramesRequest) : FrameChunk :=
  {| frames := frames_of (q_frameNumber r);
     range := (q_frameNumber r,
               Z.min (q_frameNumber r + q_numFrames r - 1) (q_frameCount r - 1)) |}.

(** The request that the current stream has outstanding. *)
Definition outstanding (w : Worker) : option (nat * FramesRequest) :=
  match stream w with
  | Some i =>
      match nth_error (streams w) i with
      | Some s =>
          match inflight s with
          | r :: _ => Some (i, r)
          | [] => None
          end
      | None => None
      end
  | None => None
  end.

(** One round: the remote source answers the outstanding request of the
    current stream, then the host asks for the next chunk. *)
Definition round (frames_of : Z -> list value) (a : Args) (w : Worker)
  : option Worker :=
  match outstanding w with
  | Some (i, r) =>
      match step w (FramesResponse i (answer frames_of r)) with
      | Some w1 =>
          step w1 (Message {| method := "requestFrameChunk"; args := a |})
      | None => None
      end
  | None => None
  end.

Fixpoint rounds (frames_of : Z -> list value) (a : Args) (n : nat) (w : Worker)
  : option Worker :=
  match n with
  | O => Some w
  | S k =>
      match round frames_of a w with
      | Some w1 => rounds frames_of a k w1
      | None => None
      end
  end.

(** The ranges of the [frameChunk] messages among [out], in the order in
    which they were posted. *)
Fixpoint posted_ranges (out : list Posted) : list (Z * Z) :=
  match out with
  | [] => []
  | PostFrameChunk _ r _ _ :: rest => r :: posted_ranges rest
  | PostSample _ _ _ _ :: rest => posted_ranges rest
  end.

(** [tiles lo hi rs]: the ranges [rs], in order, cut [[lo, hi]] into
    non-empty pieces, each starting right after the one before it. *)
Inductive tiles : Z -> Z -> list (Z * Z) -> Prop :=
| tiles_last lo hi : (lo <= hi)%Z -> tiles lo hi [(lo, hi)]
| tiles_cons lo mid hi rs :
    (lo <= mid)%Z -> (mid < hi)%Z -> tiles (mid + 1) hi rs ->
    tiles lo hi ((lo, mid) :: rs).

(** The ranges that chunks of [C] frames cut [[n, F - 1]] into, at most
    [fuel] of them. *)
Fixpoint chunk_ranges (C F : Z) (fuel : nat) (n : Z) : list (Z * Z) :=
  match fuel with
  | O => []
  | S k =>
      let m := Z.min (n + C - 1) (F - 1) in
      (n, m) :: if (F <=? m + 1)%Z then [] else chunk_ranges C F k (m + 1)
  end.

(** A started stream with a read of [u] waiting and the request for the
    chunk at [n] outstanding. *)
Definition waiting_at (u : string) (n : Z) (s : FrameStream) : Prop :=
  frameNumber s = n /\ cancelled s = false /\ state s = readable
  /\ started s = true /\ pulling s = true /\ closeRequested s = false
  /\ queue s = [] /\ readRequests s = [u] /\ inflight s = [request_of s].

(** A started stream with no read waiting and the request for the chunk
    at [n] outstanding. *)
Definition fetching_at (n : Z) (s : FrameStream) : Prop :=
  frameNumber s = n /\ cancelled s = false /\ state s = readable
  /\ started s = true /\ pulling s = true /\ closeRequested s = false
  /\ queue s = [] /\ readRequests s = [] /\ inflight s = [request_of s].

(** ** The identifier rewrite *)

(** [rewritten e e']: [e'] is the object [e] after [mapId], up to the
    decoding of masks: it has [id] set to what [_id] was, and no [_id]. *)
Definition rewritten (e e' : value) : Prop :=
  exists q q', e = VObject q /\ e' = VObject q'
               /\ lookup "id" q' = Some (get q "_id")
               /\ lookup "_id" q' = None.

(** What an entry of [DESERIALIZE] does to the properties of a label. *)
Inductive deserialized (ps : record) : record -> Prop :=
| des_same : deserialized ps ps
| des_mask text mask :
    get ps "mask" = VString text ->
    deserialized ps (set_prop "mask" mask ps)
| des_detections ds ds' :
    get ps "detections" = VArray ds ->
    Forall2 (fun d d' => exists b b', decode_mask d b = Return (d', b')) ds ds' ->
    deserialized ps (set_prop "detections" (VArray ds') ps).

(** ** Records that need no normalising *)

(** No object inside [v] has an [_id] property. *)
Fixpoint no_internal_id (v : value) : bool :=
  match v with
  | VArray elems => forallb no_internal_id elems
  | VObject ps =>
      negb (has_key "_id" ps)
      && forallb (fun kv => no_internal_id (snd kv)) ps
  | _ => true
  end.

(** No object inside [v] has a [mask] property that is still text. *)
Fixpoint no_encoded_mask (v : value) : bool :=
  match v with
  | VArray elems => forallb no_encoded_mask elems
  | VObject ps =>
      match lookup "mask" ps with
      | Some (VString _) => false
      | _ => true
      end
      && forallb (fun kv => no_encoded_mask (snd kv)) ps
  | _ => true
  end.

(** [ps] without its [id] properties, each remaining value changed by [f]. *)
Definition strip_fields_with (f : value -> value)
  : record -> record :=
  fix strip (ps : record) : record :=
    match ps with
    | [] => []
    | (k, x) :: rest =>
        if String.eqb k "id" then strip rest else (k, f x) :: strip rest
    end.

(** [v] with the [id] property of every object inside it removed. *)
Fixpoint strip_id (v : value) : value :=
  match v with
  | VArray elems => VArray (map strip_id elems)
  | VObject ps => VObject (strip_fields_with strip_id ps)
  | _ => v
  end.

Definition strip_fields : record -> record := strip_fields_with strip_id.

(** The two hypotheses of the no-op property, for one value. *)
Definition clean (v : value) : Prop :=
  no_internal_id v = true /\ no_encoded_mask v = true.

(** ** An instance of the imported constants, and inputs for the examples *)

(** Modelled from the spec: the tables [LABELS] and [LABEL_LISTS] of
    ./constants, which is not among the sources.  The spec names a single
    detection, a list-valued detections container holding its detections,
    and a dense mask; [DESERIALIZE] reads the list of a container from its
    property [detections]. *)
Definition example_LABELS (t : string) : bool :=
  existsb (String.eqb t) ["Detection"; "Detections"; "Segmentation"].

Definition example_LABEL_LISTS (t : string) : option string :=
  if String.eqb t "Detections" then Some "detections" else None.

(** Modelled from the spec: [deserialize] of ./numpy, which is not among
    the sources.  A stand-in that rejects the empty text and decodes any
    other text to a mask over an empty buffer; no example below decodes a
    mask. *)
Definition example_deserialize (text : string) : option value :=
  if String.eqb text "" then None
  else Some (VObject [("buffer", VBuffer []); ("shape", VArray [])]).

(** The arguments of a message about the session [u], for a video of [F]
    frames. *)
Definition example_args (u : string) (F : Z) : Args :=
  {| uuid := u; sample := []; arg_sampleId := "sample"; arg_source := false;
     arg_frameNumber := 0; arg_frameCount := F;
     arg_url := "http://localhost:5151" |}.

Definition start_stream (u : string) (F : Z) : MessageData :=
  {| method := "setStream"; args := example_args u F |}.

Definition next_chunk (u : string) : MessageData :=
  {| method := "requestFrameChunk"; args := example_args u 0 |}.

(** A chunk without labels for the frames [lo] to [hi]. *)
Definition chunk_of (lo hi : Z) : FrameChunk :=
  {| frames := []; range := (lo, hi) |}.

(** A detections container with one detection, both with identifiers. *)
Definition example_detections_props : record :=
  [("_cls", VString "Detections"); ("_id", VString "c");
   ("detections",
    VArray [VObject [("_cls", VString "Detection"); ("_id", VString "d");
                     ("label", VString "cat")]])].

Definition example_detections : value := VObject example_detections_props.

(** A sample with an identifier and a detections container. *)
Definition example_sample : record :=
  [("_id", VString "x"); ("filepath", VString "a.png");
   ("ground_truth", example_detections)].

(** [example_sample] after [handleSample]. *)
Definition example_sample_normalised : record :=
  [("filepath", VString "a.png");
   ("ground_truth",
    VObject [("_cls", VString "Detections"); ("_id", VString "c");
             ("detections",
              VArray [VObject [("_cls", VString "Detection");
                               ("label", VString "cat");
                               ("id", VString "d")]])]);
   ("id", VString "x")].

(** A sample that has a public identifier already, and nothing to
    normalise. *)
Definition example_plain_sample : record :=
  [("id", VString "abc"); ("filepath", VString "a.png")].

(** ** The requests of a source *)

(** A request that a source with the settings of [s] may send: it asks
    for a frame that exists, and it carries the settings of [s]. *)
Definition request_in_bounds (s : FrameStream) (r : FramesRequest) : Prop :=
  (q_frameNumber r < q_frameCount r)%Z
  /\ q_frameCount r = frameCount s /\ q_numFrames r = chunkSize s
  /\ q_sampleId r = sampleId s /\ q_source r = source s /\ q_url r = url s.

(** What [createReader] fixes for the lifetime of a source. *)
Definition settings (s : FrameStream) : Z * Z * string * bool * string :=
  (chunkSize s, frameCount s, sampleId s, source s, url s).

(** [sends s s']: from [s] to [s'] the settings stay, and the requests
    sent in between are within bounds. *)
Definition sends (s s' : FrameStream) : Prop :=
  settings s' = settings s
  /\ exists rs, fetched s' = fetched s ++ rs
                /\ Forall (request_in_bounds s) rs.

(** ** Reads and their answers *)

(** The messages with which the host asks for a chunk: [setStream] reads
    the first chunk of the stream it creates, [requestFrameChunk] the next
    chunk of the current stream. *)
Definition asks_for_chunk (e : event) : bool :=
  match e with
  | Message data =>
      String.eqb (method data) "setStream"
      || String.eqb (method data) "requestFrameChunk"
  | _ => false
  end.

(** The number of reads that wait for a chunk, over all streams. *)
Definition reads_waiting (ss : list FrameStream) : nat :=
  list_sum (map (fun s => List.length (readRequests s)) ss).

(** The session identifiers that the host has announced with [setStream]. *)
Definition sessions (es : list event) : list string :=
  flat_map
    (fun e =>
       match e with
       | Message data =>
           if String.eqb (method data) "setStream" then [uuid (args data)]
           else []
       | _ => []
       end) es.

(** [serves us rr r]: an operation on a stream on which the reads [rr]
    were waiting, and which took the further reads [us], has led to the
    stream [fst r] and fulfilled the reads [snd r].  Every read that it
    fulfilled or left waiting is one of [rr] and [us], and none is counted
    twice. *)
Definition serves (us rr : list string) (r : FrameStream * list delivery)
  : Prop :=
  (List.length (snd r) + List.length (readRequests (fst r))
   <= List.length rr + List.length us)%nat
  /\ incl (map fst (snd r) ++ readRequests (fst r)) (rr ++ us).

(** The identifiers of the session, of the waiting reads and of the frame
    chunks posted are all among [U]. *)
Definition announced (U : list string) (w : Worker) : Prop :=
  (forall u, streamId w = Some u -> In u U)
  /\ (forall s, In s (streams w) -> incl (readRequests s) U)
  /\ (forall fr rg u t, In (PostFrameChunk fr rg u t) (posted w) -> In u U).

(** ** The order of the chunks *)

(** The chunks among the reads fulfilled, in the order in which their
    reads were fulfilled. *)
Fixpoint values (ds : list delivery) : list FrameChunk :=
  match ds with
  | [] => []
  | (_, ReadValue chunk) :: rest => chunk :: values rest
  | (_, ReadDone) :: rest => values rest
  end.

(** [handleLabels] throws on no frame of the chunk. *)
Definition normalisable (chunk : FrameChunk) : Prop :=
  exists fs bs, collectFrames (frames chunk) [] = Return (fs, bs).

(** [still s r]: the operation that led from [s] to [fst r] has given out
    no chunk and has left the queue alone. *)
Definition still (s : FrameStream) (r : FrameStream * list delivery) : Prop :=
  values (snd r) = [] /\ queue (fst r) = queue s.

(** [moves added q r]: the operation has led from a stream with the queue
    [q] to [fst r]; the chunks that it has given out, followed by those
    that are still queued, are those of [q] followed by [added]. *)
Definition moves (added q : list FrameChunk)
  (r : FrameStream * list delivery) : Prop :=
  values (snd r) ++ queue (fst r) = q ++ added.

(** The events of a session that runs undisturbed: no second [setStream],
    no request that fails, and only chunks that can be normalised. *)
Definition calm (e : event) : Prop :=
  match e with
  | Message data => method data <> "setStream"
  | FramesResponse _ chunk => normalisable chunk
  | FramesFailure _ => False
  | SampleResponse _ _ => True
  | SampleFailure _ => True
  end.

(** The ranges of the chunks that arrive, in the order of arrival. *)
Definition responses (es : list event) : list (Z * Z) :=
  flat_map
    (fun e =>
       match e with
       | FramesResponse _ chunk => [range chunk]
       | _ => []
       end) es.

(** The worker has one stream, and the chunks posted, followed by those
    that the stream has queued, have the ranges [arrived]. *)
Definition in_order (arrived : list (Z * Z)) (w : Worker) : Prop :=
  exists s,
    streams w = [s] /\ well_formed s /\ Forall normalisable (queue s)
    /\ posted_ranges (posted w) ++ map range (queue s) = arrived.

(** ** The schedules of a session *)

(** What happens next in a session: the remote source answers the request
    that the current stream has outstanding, or the host sends a
    message. *)
Inductive turn : Type :=
| Answer
| Host (data : MessageData).

Definition take_turn (frames_of : Z -> list value) (w : Worker) (t : turn)
  : option Worker :=
  match t with
  | Answer =>
      match outstanding w with
      | Some (i, r) => step w (FramesResponse i (answer frames_of r))
      | None => None
      end
  | Host data => step w (Message data)
  end.

(** A schedule: the turns of a session, in the order in which the worker
    runs them. *)
Fixpoint play (frames_of : Z -> list value) (w : Worker) (ts : list turn)
  : option Worker :=
  match ts with
  | [] => Some w
  | t :: rest =>
      match take_turn frames_of w t with
      | Some w' => play frames_of w' rest
      | None => None
      end
  end.

(** A turn that opens no other session. *)
Definition same_session (t : turn) : Prop :=
  match t with
  | Answer => True
  | Host data => method data <> "setStream"
  end.

(** The ranges of the chunks still to be fetched by a source of [F] frames
    whose cursor is at [n]. *)
Definition remaining (F n : Z) : list (Z * Z) :=
  if (n <? F)%Z then chunk_ranges CHUNK_SIZE F (Z.to_nat (F - n)) n else [].

(** A source of [F] frames that has not been cancelled and has not failed:
    the request it has outstanding, if any, is the one for its cursor; it
    has asked to close only with the cursor at the end; and it is closed
    only once its queue has been emptied. *)
Definition on_course (F : Z) (s : FrameStream) : Prop :=
  chunkSize s = CHUNK_SIZE /\ frameCount s = F /\ cancelled s = false
  /\ state s <> errored
  /\ (inflight s = []
      \/ (inflight s = [request_of s] /\ (frameNumber s < F)%Z
          /\ pulling s = true /\ CanCloseOrEnqueue s = true))
  /\ (pulling s = false -> inflight s = [])
  /\ (closeRequested s = true -> (F <= frameNumber s)%Z)
  /\ (state s = closed -> queue s = [] /\ closeRequested s = true).

(** A source that can go on: it has started, it is pulling only while a
    request is outstanding, and unless it has closed it has a request
    outstanding or a chunk queued for the next read. *)
Definition live (s : FrameStream) : Prop :=
  started s = true
  /\ (pulling s = true -> inflight s <> [])
  /\ (state s = closed \/ inflight s <> [] \/ queue s <> []).

(** The session of the current stream [i], a source of [F] frames: the
    ranges of the chunks posted, of the chunks queued in the stream and of
    the chunks still to be fetched are, in this order, the ranges
    [total]. *)
Definition session_at (F : Z) (i : nat) (total : list (Z * Z)) (w : Worker)
  : Prop :=
  stream w = Some i
  /\ exists s,
       nth_error (streams w) i = Some s
       /\ well_formed s /\ on_course F s /\ live s
       /\ (frameNumber s <= F)%Z
       /\ Forall normalisable (queue s)
       /\ posted_ranges (posted w) ++ map range (queue s)
          ++ remaining F (frameNumber s) = total.

(** What a session has left to do: two steps for each chunk still to be
    fetched, the response and the read, and one for each chunk queued. *)
Definition todo (F : Z) (s : FrameStream) : nat :=
  2 * List.length (remaining F (frameNumber s)) + List.length (queue s).

(** ** The sessions of the streams *)

(** [tagged U w]: the streams of [w] are those of the sessions [U], in
    the order in which [setStream] opened them; the identifier of the
    current session is the one of the current stream, and every read that
    waits on a stream holds the identifier of its session. *)
Definition tagged (U : list string) (w : Worker) : Prop :=
  List.length (streams w) = List.length U
  /\ (forall j u,
         stream w = Some j -> streamId w = Some u -> nth_error U j = Some u)
  /\ (forall j s u,
         nth_error (streams w) j = Some s -> In u (readRequests s) ->
         nth_error U j = Some u).

(* ===================================================================== *)
(** * Basic facts *)
(* ===================================================================== *)

Lemma bind_Return {A B : Type} (c : outcome A) (k : A -> outcome B) (b : B) :
  bind c k = Return b -> exists a, c = Return a /\ k a = Return b.
Proof.
  destruct c as [a| |]; simpl; intros H; try discriminate.
  exists a. split; [reflexivity | exact H].
Qed.

Lemma not_Error_bind {A B : Type} (c : outcome A) (k : A -> outcome B) :
  not_Error c -> (forall a, not_Error (k a)) -> not_Error (bind c k).
Proof.
  destruct c as [a|e|]; simpl; auto.
Qed.

Ltac inv_bind H :=
  let a := fresh "a" in
  let Ha := fresh "Ha" in
  apply bind_Return in H; destruct H as [a [Ha H]].

Lemma update_nth_error {A : Type} (xs : list A) (i : nat) (x : A) :
  nth_error xs i = Some x -> update i x xs = xs.
Proof.
  revert i; induction xs as [|y xs IH]; intros [|i]; simpl; intros H;
    try discriminate; try reflexivity.
  - congruence.
  - now rewrite IH.
Qed.

Lemma with_stream_same (w : Worker) (i : nat) (s : FrameStream) :
  nth_error (streams w) i = Some s -> with_stream i s (posted w) w = w.
Proof.
  intros H. unfold with_stream. rewrite (update_nth_error _ _ _ H).
  now destruct w.
Qed.

Lemma deliver_done (ds : list delivery) (out : list Posted) :
  Forall (fun d => snd d = ReadDone) ds -> deliver ds out = Some out.
Proof.
  induction 1 as [|[u r] ds Hd _ IH]; simpl in *; [reflexivity|].
  subst r. simpl. now rewrite app_nil_r.
Qed.

(** ** The normaliser raises only what the language and the codec raise *)

Lemma get_field_not_Error v k : not_Error (get_field v k).
Proof. destruct v; exact I. Qed.

Lemma mapId_not_Error v : not_Error (mapId v).
Proof. destruct v; exact I. Qed.

Lemma decode_mask_not_Error label buffers : not_Error (decode_mask label buffers).
Proof.
  destruct label; try exact I. simpl.
  destruct (get props "mask"); try exact I.
  destruct (deserialize s); [|exact I].
  apply not_Error_bind; [apply get_field_not_Error | intros; exact I].
Qed.

Lemma forEach_not_Error f labels buffers :
  (forall l b, not_Error (f l b)) -> not_Error (forEach f labels buffers).
Proof.
  intros Hf. revert buffers; induction labels as [|l ls IH]; intros b; simpl.
  - exact I.
  - apply not_Error_bind; [apply Hf|]. intros [l' b1].
    apply not_Error_bind; [apply IH|]. intros [ls' b2]. exact I.
Qed.

Lemma deserialize_detections_not_Error labels buffers :
  not_Error (deserialize_detections labels buffers).
Proof.
  destruct labels; try exact I. simpl.
  destruct (get props "detections"); try exact I.
  apply not_Error_bind.
  - apply forEach_not_Error, decode_mask_not_Error.
  - intros [d b]. exact I.
Qed.

Lemma map_mapId_not_Error items : not_Error (map_mapId items).
Proof.
  induction items as [|x xs IH]; simpl; [exact I|].
  apply not_Error_bind; [apply mapId_not_Error|]. intros x'.
  apply not_Error_bind; [exact IH|]. intros; exact I.
Qed.

Lemma map_label_list_not_Error f label : not_Error (map_label_list f label).
Proof.
  destruct label; try exact I. simpl.
  destruct (get props f); try exact I.
  apply not_Error_bind; [apply map_mapId_not_Error | intros; exact I].
Qed.

Lemma handleLabel_not_Error label buffers : not_Error (handleLabel label buffers).
Proof.
  unfold handleLabel. destruct (negb (ToBoolean label)); [exact I|].
  apply not_Error_bind; [apply get_field_not_Error|]. intros cls.
  apply not_Error_bind; [destruct cls as [| |[|]| | | | |]; exact I|]. intros key.
  destruct (inherited key); [exact I|].
  apply not_Error_bind.
  - unfold DESERIALIZE.
    destruct (String.eqb key "Detection"); [apply decode_mask_not_Error|].
    destruct (String.eqb key "Detections");
      [apply deserialize_detections_not_Error|].
    destruct (String.eqb key "Segmentation"); [apply decode_mask_not_Error|].
    exact I.
  - intros [l1 b1]. destruct (LABELS key); [|exact I].
    destruct (LABEL_LISTS key) as [f|].
    + apply not_Error_bind; [apply map_label_list_not_Error | intros; exact I].
    + apply not_Error_bind; [apply mapId_not_Error | intros; exact I].
Qed.

Lemma handleFields_not_Error sample buffers :
  not_Error (handleFields sample buffers).
Proof.
  revert buffers; induction sample as [|[k v] ps IH]; intros b; simpl.
  - exact I.
  - apply not_Error_bind; [apply handleLabel_not_Error|]. intros [v' b1].
    apply not_Error_bind; [apply IH|]. intros [ps' b2]. exact I.
Qed.

Lemma handleLabels_frame_not_Error frame : not_Error (handleLabels_frame frame).
Proof.
  destruct frame as [| | | |[|c s]|[|x xs]|ps|]; try exact I.
  simpl. apply not_Error_bind; [apply handleFields_not_Error|].
  intros [ps' b]. exact I.
Qed.

Lemma handleFrames_not_Error frames : not_Error (handleFrames frames).
Proof.
  induction frames as [|x xs IH]; simpl; [exact I|].
  apply not_Error_bind; [apply handleLabels_frame_not_Error|]. intros [x' b1].
  apply not_Error_bind; [exact IH|]. intros [xs' b2]. exact I.
Qed.

Lemma handleSample_not_Error sample : not_Error (handleSample sample).
Proof.
  unfold handleSample.
  apply not_Error_bind; [apply handleFields_not_Error|]. intros [s1 b1].
  apply not_Error_bind.
  - destruct (ToBoolean (get s1 "frames") && truthy_length (get s1 "frames"));
      [|exact I].
    destruct (get s1 "frames"); try exact I.
    apply not_Error_bind; [apply handleFrames_not_Error|]. intros [e m]. exact I.
  - intros [s2 b2]. exact I.
Qed.

Lemma modelled_not_Error {A : Type} (o : option A) : not_Error (modelled o).
Proof. destruct o; exact I. Qed.

(* ===================================================================== *)
(** * The message handler *)
(* ===================================================================== *)

(** C9.  [onmessage] raises its error "unknown method" exactly for the
    messages whose method is not one of the four request kinds; for each of
    the four kinds it runs the handler of that kind. *)
Theorem onmessage_unknown_method (w : Worker) (data : MessageData) :
  (onmessage w data = Throw (Error "unknown method")
   <-> recognised (method data) = false)
  /\ (method data = "processSample"
      -> onmessage w data = processSample (args data) w)
  /\ (method data = "requestFrameChunk"
      -> onmessage w data = requestFrameChunk (args data) w)
  /\ (method data = "setStream"
      -> onmessage w data = setStream (args data) w)
  /\ (method data = "requestSourceSample"
      -> onmessage w data = requestSourceSample (args data) w).
Proof.
  assert (Hp : not_Error (processSample (args data) w)).
  { unfold processSample.
    apply not_Error_bind; [apply handleSample_not_Error|].
    intros [s b]. exact I. }
  assert (Hr : not_Error (requestFrameChunk (args data) w)).
  { unfold requestFrameChunk.
    destruct (streamId w); [|exact I].
    destruct (String.eqb _ _); [|exact I].
    destruct (stream w); [|exact I].
    destruct (nth_error _ _); [|exact I].
    destruct (read _ _).
    apply not_Error_bind; [apply modelled_not_Error | intros; exact I]. }
  assert (Hs : not_Error (setStream (args data) w)).
  { unfold setStream.
    destruct (read _ _). destruct (CallPullIfNeeded _).
    apply not_Error_bind; [apply modelled_not_Error | intros; exact I]. }
  unfold onmessage, recognised, existsb.
  repeat split.
  - destruct (String.eqb (method data) "processSample");
      [intros H; rewrite H in Hp; destruct Hp|].
    destruct (String.eqb (method data) "requestFrameChunk");
      [intros H; rewrite H in Hr; destruct Hr|].
    destruct (String.eqb (method data) "setStream");
      [intros H; rewrite H in Hs; destruct Hs|].
    destruct (String.eqb (method data) "requestSourceSample");
      [discriminate | reflexivity].
  - destruct (String.eqb (method data) "processSample"); [discriminate|].
    destruct (String.eqb (method data) "requestFrameChunk"); [discriminate|].
    destruct (String.eqb (method data) "setStream"); [discriminate|].
    destruct (String.eqb (method data) "requestSourceSample");
      [discriminate | reflexivity].
  - intros ->. reflexivity.
  - intros ->. reflexivity.
  - intros ->. reflexivity.
  - intros ->. reflexivity.
Qed.

(** C8.  A [requestFrameChunk] whose [uuid] is not the current [streamId]
    changes nothing: no read, no request, no message.  In particular, once
    [setStream] has made another session current, a request that carries
    the old [uuid] is ignored. *)
Theorem stale_requestFrameChunk_ignored (w : Worker) (data : MessageData) :
  method data = "requestFrameChunk" ->
  streamId w <> Some (uuid (args data)) ->
  onmessage w data = Return w
  /\ forall (next : MessageData) (w' : Worker),
       method next = "setStream" ->
       uuid (args next) <> uuid (args data) ->
       onmessage w next = Return w' ->
       streamId w' = Some (uuid (args next))
       /\ onmessage w' data = Return w'.
Proof.
  intros Hm Hid.
  assert (Hstale : forall v, streamId v <> Some (uuid (args data)) ->
                             onmessage v data = Return v).
  { intros v Hv. unfold onmessage. rewrite Hm. simpl.
    unfold requestFrameChunk.
    destruct (streamId v) as [id|]; [|reflexivity].
    destruct (String.eqb_spec (uuid (args data)) id) as [E|]; [|reflexivity].
    elim Hv. now rewrite E. }
  split; [now apply Hstale|].
  intros next w' Hn Hne Hset.
  assert (Hcur : streamId w' = Some (uuid (args next))).
  { unfold onmessage in Hset. rewrite Hn in Hset. simpl in Hset.
    unfold setStream in Hset.
    destruct (read _ _) as [s1 ds1]. destruct (CallPullIfNeeded _) as [s2 ds2].
    inv_bind Hset. injection Hset as <-. reflexivity. }
  split; [exact Hcur|].
  apply Hstale. rewrite Hcur. congruence.
Qed.

(* ===================================================================== *)
(** * The stream after its source has terminated *)
(* ===================================================================== *)

Arguments ShouldCallPull : simpl never.
Arguments CanCloseOrEnqueue : simpl never.
Arguments desiredSize : simpl never.

Lemma all_done_app ds ds' : all_done ds -> all_done ds' -> all_done (ds ++ ds').
Proof. unfold all_done. intros; apply Forall_app; now split. Qed.

Lemma all_done_map (us : list string) :
  all_done (map (fun uuid => (uuid, ReadDone)) us).
Proof. induction us; constructor; simpl; auto. Qed.

Lemma quiet_refl s : quiet s s.
Proof. unfold quiet; auto. Qed.

Lemma quiet_trans s1 s2 s3 : quiet s1 s2 -> quiet s2 s3 -> quiet s1 s3.
Proof.
  unfold quiet. intros (A1 & A2 & A3 & A4 & A5) (B1 & B2 & B3 & B4 & B5).
  repeat split; congruence.
Qed.

Lemma quiet_terminated s s' : quiet s s' -> terminated s' = terminated s.
Proof.
  unfold quiet, terminated. intros (_ & _ & -> & -> & ->). reflexivity.
Qed.

Ltac quiet_setters := unfold quiet; simpl; repeat split; reflexivity.

Lemma ReadableStreamClose_quiet s :
  quiet s (fst (ReadableStreamClose s)) /\ all_done (snd (ReadableStreamClose s)).
Proof. split; [quiet_setters | apply all_done_map]. Qed.

Lemma ControllerClose_quiet s :
  quiet s (fst (ControllerClose s)) /\ all_done (snd (ControllerClose s)).
Proof.
  unfold ControllerClose. simpl. destruct (queue s); simpl.
  - split; [quiet_setters | apply all_done_map].
  - split; [quiet_setters | constructor].
Qed.

Lemma ControllerError_quiet s : quiet s (ControllerError s).
Proof.
  unfold ControllerError. destruct (is_readable s); [quiet_setters | apply quiet_refl].
Qed.

Lemma pull_terminated (s : FrameStream) :
  terminated s = true ->
  quiet s (fst (fst (pull s))) /\ all_done (snd (fst (pull s)))
  /\ snd (pull s) <> Pending.
Proof.
  unfold terminated, pull. intros ->.
  destruct (CanCloseOrEnqueue s).
  - destruct (ControllerClose_quiet s) as [Hq Hd].
    destruct (ControllerClose s) as [s1 ds]. simpl in *.
    split; [exact Hq | split; [exact Hd | discriminate]].
  - simpl. split; [apply quiet_refl | split; [constructor | discriminate]].
Qed.

Lemma CallPullIfNeeded_terminated (s : FrameStream) :
  terminated s = true ->
  quiet s (fst (CallPullIfNeeded s)) /\ all_done (snd (CallPullIfNeeded s)).
Proof.
  intros H. unfold CallPullIfNeeded, CallPullIfNeeded_step.
  destruct (ShouldCallPull s); simpl; [|split; [apply quiet_refl | constructor]].
  destruct (pulling s); simpl; [split; [quiet_setters | constructor]|].
  assert (Hq : quiet s (set_pulling true s)) by quiet_setters.
  assert (H' : terminated (set_pulling true s) = true)
    by now rewrite (quiet_terminated _ _ Hq).
  destruct (pull_terminated _ H') as (Hq1 & Hd1 & Hp).
  destruct (pull (set_pulling true s)) as [[s1 ds] p]. simpl in *.
  destruct p; [| |congruence]; simpl.
  - unfold pullFulfilled. simpl.
    destruct (pullAgain s1); simpl.
    + split; [|now rewrite app_nil_r].
      refine (quiet_trans _ _ _ (quiet_trans _ _ _ Hq Hq1) _). quiet_setters.
    + split; [|now rewrite app_nil_r].
      refine (quiet_trans _ _ _ (quiet_trans _ _ _ Hq Hq1) _). quiet_setters.
  - split; [|exact Hd1].
    exact (quiet_trans _ _ _ (quiet_trans _ _ _ Hq Hq1) (ControllerError_quiet _)).
Qed.

Lemma read_terminated (u : string) (s : FrameStream) :
  terminated s = true ->
  quiet s (fst (read u s))
  /\ (queue s = [] \/ state s = closed -> all_done (snd (read u s))).
Proof.
  intros H. unfold read.
  destruct (state s) eqn:Hst; simpl.
  - destruct (queue s) as [|chunk rest] eqn:Hq.
    + assert (Hq0 : quiet s (set_readRequests (readRequests s ++ [u]) s))
        by quiet_setters.
      assert (H' := H). rewrite <- (quiet_terminated _ _ Hq0) in H'.
      destruct (CallPullIfNeeded_terminated _ H') as [Hq1 Hd1].
      split; [exact (quiet_trans _ _ _ Hq0 Hq1) | intros _; exact Hd1].
    + assert (Hq0 : quiet s (set_queue rest s)) by quiet_setters.
      assert (H' := H). rewrite <- (quiet_terminated _ _ Hq0) in H'.
      destruct (CallPullIfNeeded_terminated _ H') as [Hq1 Hd1].
      destruct (ReadableStreamClose_quiet (set_queue rest s)) as [Hq2 Hd2].
      split; [|intros [?|?]; discriminate].
      destruct rest; simpl.
      * destruct (closeRequested s).
        -- destruct (ReadableStreamClose _); simpl in *.
           exact (quiet_trans _ _ _ Hq0 Hq2).
        -- destruct (CallPullIfNeeded _); simpl in *.
           exact (quiet_trans _ _ _ Hq0 Hq1).
      * destruct (CallPullIfNeeded _); simpl in *.
        exact (quiet_trans _ _ _ Hq0 Hq1).
  - split; [apply quiet_refl | intros _; repeat constructor].
  - split; [apply quiet_refl | intros _; constructor].
Qed.

(* ===================================================================== *)
(** * How a task changes the streams *)
(* ===================================================================== *)

Lemma nth_error_update {A : Type} (xs : list A) (i j : nat) (y : A) :
  nth_error (update j y xs) i =
  if Nat.eqb i j then
    match nth_error xs i with Some _ => Some y | None => None end
  else nth_error xs i.
Proof.
  revert i j; induction xs as [|x xs IH]; intros [|i] [|j]; simpl;
    try reflexivity.
  - now destruct (Nat.eqb i j).
  - apply IH.
Qed.

Lemma update_length {A : Type} (xs : list A) (j : nat) (y : A) :
  List.length (update j y xs) = List.length xs.
Proof.
  revert j; induction xs as [|x xs IH]; intros [|j]; simpl; auto.
Qed.

Lemma cancel_current_length (w : Worker) :
  List.length (cancel_current w) = List.length (streams w).
Proof.
  unfold cancel_current. destruct (stream w) as [j|]; [|reflexivity].
  destruct (nth_error (streams w) j); [|reflexivity]. apply update_length.
Qed.

Lemma with_stream_op (w : Worker) (j : nat) (sj sj' : FrameStream)
  (out : list Posted) (i : nat) (s : FrameStream) :
  nth_error (streams w) j = Some sj -> stream_op sj sj' ->
  nth_error (streams w) i = Some s ->
  exists s', nth_error (streams (with_stream j sj' out w)) i = Some s'
             /\ stream_op s s'.
Proof.
  intros Hj Hop Hi. simpl. rewrite nth_error_update.
  destruct (Nat.eqb_spec i j) as [->|Hne].
  - rewrite Hi. rewrite Hj in Hi. injection Hi as <-. eauto.
  - exists s. split; [exact Hi | constructor].
Qed.

Lemma onmessage_streams (w w' : Worker) (data : MessageData) (i : nat)
  (s : FrameStream) :
  onmessage w data = Return w' ->
  nth_error (streams w) i = Some s ->
  exists s', nth_error (streams w') i = Some s' /\ stream_op s s'.
Proof.
  intros H Hi. unfold onmessage in H.
  destruct (String.eqb (method data) "processSample").
  { unfold processSample in H. inv_bind H. destruct a as [s1 b1].
    injection H as <-. simpl. exists s. split; [exact Hi | constructor]. }
  destruct (String.eqb (method data) "requestFrameChunk").
  { unfold requestFrameChunk in H.
    assert (Hsame : Return w = Return w' ->
            exists s', nth_error (streams w') i = Some s' /\ stream_op s s').
    { intros E. injection E as <-. exists s. split; [exact Hi | constructor]. }
    destruct (streamId w) as [id|]; [|now apply Hsame].
    destruct (String.eqb (uuid (args data)) id); [|now apply Hsame].
    destruct (stream w) as [j|]; [|now apply Hsame].
    destruct (nth_error (streams w) j) as [sj|] eqn:Hj; [|now apply Hsame].
    pose proof (op_read sj (uuid (args data))) as Hop.
    destruct (read (uuid (args data)) sj) as [sj' ds]. simpl in Hop.
    inv_bind H. injection H as <-.
    eapply with_stream_op; eassumption. }
  destruct (String.eqb (method data) "setStream").
  { unfold setStream in H.
    destruct (read _ _) as [s1 ds1]. destruct (CallPullIfNeeded _) as [s2 ds2].
    inv_bind H. injection H as <-. simpl.
    assert (Hold : exists s',
               nth_error (cancel_current w) i = Some s' /\ stream_op s s').
    { unfold cancel_current.
      destruct (stream w) as [j|]; [|exists s; split; [exact Hi | constructor]].
      destruct (nth_error (streams w) j) as [sj|] eqn:Hj;
        [|exists s; split; [exact Hi | constructor]].
      rewrite nth_error_update. destruct (Nat.eqb_spec i j) as [->|Hne].
      - rewrite Hi. rewrite Hj in Hi. injection Hi as <-.
        eexists; split; [reflexivity | constructor].
      - exists s; split; [exact Hi | constructor]. }
    destruct Hold as (s' & Hs' & Hop). exists s'. split; [|exact Hop].
    rewrite nth_error_app1; [exact Hs'|].
    apply nth_error_Some. congruence. }
  destruct (String.eqb (method data) "requestSourceSample").
  { unfold requestSourceSample in H. injection H as <-. simpl.
    exists s. split; [exact Hi | constructor]. }
  discriminate.
Qed.

Lemma step_streams (w w' : Worker) (e : event) (i : nat) (s : FrameStream) :
  step w e = Some w' ->
  nth_error (streams w) i = Some s ->
  exists s', nth_error (streams w') i = Some s' /\ stream_op s s'.
Proof.
  intros H Hi. destruct e as [data|j chunk|j|k smp|k]; simpl in H.
  - destruct (onmessage w data) as [w1|err|] eqn:Hm; try discriminate.
    + injection H as <-. eapply onmessage_streams; eassumption.
    + injection H as <-. exists s. split; [exact Hi | constructor].
  - destruct (nth_error (streams w) j) as [sj|] eqn:Hj; [|discriminate].
    destruct (inflight sj) as [|r rest] eqn:Hin; [discriminate|].
    pose proof (op_receive sj chunk r rest Hin) as Hop.
    destruct (receive chunk (set_inflight rest sj)) as [sj' ds]. simpl in Hop.
    destruct (deliver ds (posted w)) as [out|]; [|discriminate].
    injection H as <-. eapply with_stream_op; eassumption.
  - destruct (nth_error (streams w) j) as [sj|] eqn:Hj; [|discriminate].
    destruct (inflight sj) as [|r rest] eqn:Hin; [discriminate|].
    pose proof (op_reject sj r rest Hin) as Hop.
    unfold pullRejected in Hop; simpl in Hop.
    injection H as <-. eapply with_stream_op; eassumption.
  - destruct (nth_error (sampleRequests w) k) as [r|]; [|discriminate].
    destruct (sourceSample r smp (posted w)); try discriminate;
      injection H as <-; simpl; exists s; (split; [exact Hi | constructor]).
  - destruct (nth_error (sampleRequests w) k) as [r|]; [|discriminate].
    injection H as <-; simpl; exists s; (split; [exact Hi | constructor]).
Qed.

(** A property of a stream that every operation keeps holds along every
    run. *)
Lemma run_streams (P : FrameStream -> Prop) :
  (forall s s', P s -> stream_op s s' -> P s') ->
  forall (es : list event) (w w' : Worker) (i : nat) (s : FrameStream),
    run w es = Some w' ->
    nth_error (streams w) i = Some s -> P s ->
    exists s', nth_error (streams w') i = Some s' /\ P s'.
Proof.
  intros HP. induction es as [|e es IH]; intros w w' i s Hrun Hi Hs;
    simpl in Hrun.
  - injection Hrun as <-. eauto.
  - destruct (step w e) as [w1|] eqn:Hstep; [|discriminate].
    destruct (step_streams _ _ _ _ _ Hstep Hi) as (s1 & Hi1 & Hop).
    eapply IH; eauto.
Qed.

Lemma cancelled_terminated s : cancelled s = true -> terminated s = true.
Proof. unfold terminated. intros ->. apply orb_true_r. Qed.

Lemma pullFulfilled_terminated (s : FrameStream) :
  terminated s = true ->
  quiet s (fst (pullFulfilled CallPullIfNeeded s))
  /\ all_done (snd (pullFulfilled CallPullIfNeeded s)).
Proof.
  intros H. unfold pullFulfilled. simpl.
  destruct (pullAgain s).
  - assert (Hq : quiet s (set_pullAgain false (set_pulling false s)))
      by quiet_setters.
    assert (H' := H). rewrite <- (quiet_terminated _ _ Hq) in H'.
    destruct (CallPullIfNeeded_terminated _ H') as [Hq1 Hd1].
    split; [exact (quiet_trans _ _ _ Hq Hq1) | exact Hd1].
  - split; [quiet_setters | constructor].
Qed.

Lemma receive_cancelled (chunk : FrameChunk) (s : FrameStream) :
  cancelled s = true ->
  cancelled (fst (receive chunk s)) = true
  /\ fetched (fst (receive chunk s)) = fetched s
  /\ inflight (fst (receive chunk s)) = inflight s.
Proof.
  intros Hc. unfold receive.
  destruct (CanCloseOrEnqueue s).
  - set (s1 := match readRequests s with
               | uuid :: rest =>
                   (set_readRequests rest s,
                    [(uuid, ReadValue {| frames := frames chunk;
                                         range := range chunk |})])
               | [] =>
                   (set_queue (queue s ++ [{| frames := frames chunk;
                                              range := range chunk |}]) s, [])
               end).
    assert (H1 : cancelled (fst s1) = true /\ fetched (fst s1) = fetched s
                 /\ inflight (fst s1) = inflight s).
    { subst s1. destruct (readRequests s); simpl; auto. }
    destruct s1 as [s1 ds1]. simpl in H1. destruct H1 as (C1 & F1 & I1).
    destruct (CallPullIfNeeded_terminated s1 (cancelled_terminated _ C1))
      as [(F2 & I2 & C2 & _) _].
    destruct (CallPullIfNeeded s1) as [s2 ds2]. simpl in *.
    assert (C3 : cancelled (set_frameNumber (snd (range chunk) + 1) s2) = true)
      by (simpl; congruence).
    destruct (pullFulfilled_terminated _ (cancelled_terminated _ C3))
      as [(F4 & I4 & C4 & _) _].
    destruct (pullFulfilled CallPullIfNeeded _) as [s4 ds4]. simpl in *.
    repeat split; congruence.
  - simpl. destruct (ControllerError_quiet s) as (F & I & C & _).
    repeat split; congruence.
Qed.

Lemma stream_op_cancelled (s s' : FrameStream) :
  cancelled s = true -> stream_op s s' ->
  cancelled s' = true /\ fetched s' = fetched s.
Proof.
  intros Hc Hop. destruct Hop as [| |u|chunk r rest Hin|r rest Hin].
  - auto.
  - auto.
  - destruct (read_terminated u s (cancelled_terminated _ Hc))
      as [(F & _ & C & _) _]. split; congruence.
  - destruct (receive_cancelled chunk (set_inflight rest s) Hc) as (C & F & _).
    auto.
  - unfold pullRejected. simpl.
    destruct (ControllerError_quiet (set_inflight rest s)) as (F & _ & C & _).
    simpl in *. split; congruence.
Qed.

(* ===================================================================== *)
(** * Cancellation *)
(* ===================================================================== *)

Lemma cancel_sets_cancelled (s : FrameStream) : cancelled (cancel s) = true.
Proof. reflexivity. Qed.

(** C4.  Once [cancel] has set the flag of a source, every call of its
    [pull] ends the sequence with [controller.close()] and sends no request;
    whatever tasks the worker runs afterwards, the list of requests that
    the source has sent stays as it was. *)
Theorem cancelled_source_sends_no_request (s : FrameStream) :
  cancelled s = true ->
  snd (pull s) <> Pending
  /\ fetched (fst (fst (pull s))) = fetched s
  /\ (CanCloseOrEnqueue s = true ->
      snd (pull s) = Fulfilled
      /\ closeRequested (fst (fst (pull s))) = true
      /\ (queue s = [] -> state (fst (fst (pull s))) = closed))
  /\ forall (w w' : Worker) (i : nat) (es : list event),
       nth_error (streams w) i = Some s ->
       run w es = Some w' ->
       exists s', nth_error (streams w') i = Some s'
                  /\ cancelled s' = true /\ fetched s' = fetched s.
Proof.
  intros Hc.
  destruct (pull_terminated s (cancelled_terminated _ Hc)) as ((F & _) & _ & Hp).
  repeat split; auto.
  - unfold pull. rewrite Hc, orb_true_r. rewrite H.
    now destruct (ControllerClose s).
  - unfold pull. rewrite Hc, orb_true_r. rewrite H.
    unfold ControllerClose. simpl. now destruct (queue s).
  - intros Hq. unfold pull. rewrite Hc, orb_true_r. rewrite H.
    unfold ControllerClose. simpl. now rewrite Hq.
  - intros w w' i es Hi Hrun.
    destruct (run_streams
                (fun x => cancelled x = true /\ fetched x = fetched s))
      with (es := es) (w := w) (w' := w') (i := i) (s := s)
      as (s' & Hi' & C & F'); auto.
    + intros x x' [Cx Fx] Hop.
      destruct (stream_op_cancelled x x' Cx Hop). split; congruence.
    + eauto.
Qed.

(* ===================================================================== *)
(** * Requests to a stream that has ended *)
(* ===================================================================== *)

(** A [requestFrameChunk] with the current [uuid] reads from the current
    stream. *)
Lemma requestFrameChunk_current (w : Worker) (data : MessageData)
  (i : nat) (s : FrameStream) :
  method data = "requestFrameChunk" ->
  streamId w = Some (uuid (args data)) ->
  stream w = Some i ->
  nth_error (streams w) i = Some s ->
  onmessage w data =
  let (s', ds) := read (uuid (args data)) s in
  out <- modelled (deliver ds (posted w)) ;;
  Return (with_stream i s' out w).
Proof.
  intros Hm Hid Hcur Hi.
  unfold onmessage. rewrite Hm. simpl. unfold requestFrameChunk.
  rewrite Hid, String.eqb_refl, Hcur, Hi. reflexivity.
Qed.

Lemma requestFrameChunk_closed (w : Worker) (data : MessageData)
  (i : nat) (s : FrameStream) :
  method data = "requestFrameChunk" ->
  streamId w = Some (uuid (args data)) ->
  stream w = Some i ->
  nth_error (streams w) i = Some s ->
  state s = closed -> onmessage w data = Return w.
Proof.
  intros Hm Hid Hcur Hi Hst.
  rewrite (requestFrameChunk_current w data i s Hm Hid Hcur Hi).
  unfold read. rewrite Hst. simpl.
  rewrite app_nil_r. now rewrite with_stream_same.
Qed.

(** C10.  A [requestFrameChunk] with the current [uuid] posts nothing and
    sends no request when the current stream is closed, or when its source
    has terminated (the cursor has reached the frame count, or the source
    is cancelled) and no chunk is left in its queue.  On a closed stream
    the request changes nothing at all. *)
Theorem requestFrameChunk_after_end (w : Worker) (data : MessageData)
  (i : nat) (s : FrameStream) :
  method data = "requestFrameChunk" ->
  streamId w = Some (uuid (args data)) ->
  stream w = Some i ->
  nth_error (streams w) i = Some s ->
  state s = closed \/ (queue s = [] /\ terminated s = true) ->
  (state s = closed -> onmessage w data = Return w)
  /\ exists (w' : Worker) (s' : FrameStream),
       onmessage w data = Return w'
       /\ posted w' = posted w
       /\ nth_error (streams w') i = Some s'
       /\ fetched s' = fetched s.
Proof.
  intros Hm Hid Hcur Hi Hend.
  pose proof (requestFrameChunk_current w data i s Hm Hid Hcur Hi) as Hon.
  pose proof (requestFrameChunk_closed w data i s Hm Hid Hcur Hi) as Hclosed.
  split; [exact Hclosed|].
  destruct Hend as [Hst|[Hq Ht]].
  - exists w, s. rewrite (Hclosed Hst). auto.
  - destruct (read_terminated (uuid (args data)) s Ht) as [(F & _) Hd].
    specialize (Hd (or_introl Hq)).
    destruct (read (uuid (args data)) s) as [s' ds]. simpl in *.
    exists (with_stream i s' (posted w) w), s'.
    rewrite Hon, (deliver_done _ _ Hd). simpl.
    rewrite nth_error_update, Nat.eqb_refl, Hi. auto.
Qed.

(* ===================================================================== *)
(** * Single flight and the bounded queue *)
(* ===================================================================== *)

Lemma ShouldCallPull_true (s : FrameStream) :
  ShouldCallPull s = true ->
  CanCloseOrEnqueue s = true /\ started s = true
  /\ (readRequests s <> [] \/ (List.length (queue s) < HIGH_WATER_MARK)%nat).
Proof.
  unfold ShouldCallPull.
  destruct (CanCloseOrEnqueue s); simpl; [|discriminate].
  destruct (started s); simpl; [|discriminate].
  destruct (readRequests s) as [|u us]; simpl.
  - unfold desiredSize. intros H. apply Z.ltb_lt in H.
    repeat split; auto. right. unfold HIGH_WATER_MARK in *. lia.
  - intros _. repeat split; auto. left. discriminate.
Qed.

Lemma no_inflight_when_idle (s : FrameStream) :
  well_formed s -> pulling s = false -> inflight s = [].
Proof.
  intros W Hp. destruct (inflight s) eqn:E; [reflexivity|].
  destruct (wf_inflight s W) as [Hp' _]; [congruence|]. congruence.
Qed.

Lemma well_formed_idle (s s' : FrameStream) :
  well_formed s ->
  inflight s' = [] -> queue s' = queue s ->
  (readRequests s' = readRequests s \/ readRequests s' = []) ->
  well_formed s'.
Proof.
  intros W Hi Hq Hr. constructor.
  - rewrite Hi. simpl. lia.
  - rewrite Hq. apply W.
  - rewrite Hi. congruence.
  - rewrite Hq. destruct Hr as [->| ->]; [apply W | congruence].
Qed.

Lemma ControllerClose_well_formed (s : FrameStream) :
  well_formed s -> inflight s = [] -> well_formed (fst (ControllerClose s)).
Proof.
  intros W Hi. unfold ControllerClose. simpl.
  destruct (queue s) eqn:Hq; simpl.
  - apply (well_formed_idle s); simpl; auto.
  - apply (well_formed_idle s); simpl; auto.
Qed.

Lemma ControllerError_well_formed (s : FrameStream) :
  well_formed s -> inflight s = [] -> well_formed (ControllerError s).
Proof.
  intros W Hi. unfold ControllerError. destruct (is_readable s); [|exact W].
  constructor; simpl; try rewrite Hi; simpl; try lia; congruence.
Qed.

Lemma send_well_formed (s : FrameStream) (r : FramesRequest) :
  well_formed s -> inflight s = [] -> pulling s = true ->
  ShouldCallPull s = true -> well_formed (send r s).
Proof.
  intros W Hi Hp Hs. destruct (ShouldCallPull_true s Hs) as (Hc & _ & Hd).
  constructor; simpl.
  - rewrite Hi. simpl. lia.
  - apply W.
  - intros _. auto.
  - apply W.
Qed.

Lemma CallPullIfNeeded_well_formed (s : FrameStream) :
  well_formed s -> well_formed (fst (CallPullIfNeeded s)).
Proof.
  intros W. unfold CallPullIfNeeded, CallPullIfNeeded_step.
  destruct (ShouldCallPull s) eqn:Hs; simpl; [|exact W].
  destruct (pulling s) eqn:Hp; simpl.
  { constructor; simpl; apply W. }
  pose proof (no_inflight_when_idle s W Hp) as Hi.
  assert (W0 : well_formed (set_pulling true s)).
  { constructor; simpl; try apply W. rewrite Hi. congruence. }
  unfold pull. simpl.
  destruct ((frameCount s <=? frameNumber s)%Z || cancelled s).
  - change (CanCloseOrEnqueue (set_pulling true s)) with (CanCloseOrEnqueue s).
    destruct (ShouldCallPull_true s Hs) as (-> & _ & _).
    pose proof (ControllerClose_well_formed _ W0 Hi) as W1.
    assert (I1 : inflight (fst (ControllerClose (set_pulling true s))) = []).
    { unfold ControllerClose. simpl. now destruct (queue s). }
    destruct (ControllerClose (set_pulling true s)) as [s1 ds]. simpl in *.
    unfold pullFulfilled. simpl.
    destruct (pullAgain s1); simpl; apply (well_formed_idle s1); simpl; auto.
  - simpl. apply send_well_formed; auto.
Qed.

Lemma CallPullIfNeeded_pulling (s : FrameStream) :
  pulling s = true ->
  inflight (fst (CallPullIfNeeded s)) = inflight s
  /\ queue (fst (CallPullIfNeeded s)) = queue s
  /\ readRequests (fst (CallPullIfNeeded s)) = readRequests s.
Proof.
  intros Hp. unfold CallPullIfNeeded, CallPullIfNeeded_step.
  destruct (ShouldCallPull s); simpl; auto. rewrite Hp. simpl. auto.
Qed.

Lemma read_well_formed (u : string) (s : FrameStream) :
  well_formed s -> well_formed (fst (read u s)).
Proof.
  intros W. unfold read. destruct (state s) eqn:Hst; simpl; auto.
  destruct (queue s) as [|chunk rest] eqn:Hq.
  - apply CallPullIfNeeded_well_formed.
    constructor; simpl.
    + apply W.
    + apply W.
    + intros Hi. destruct (wf_inflight s W Hi) as (A & B & _).
      split; [exact A | split; [exact B | left; now destruct (readRequests s)]].
    + auto.
  - assert (Hr : readRequests s = []).
    { destruct (readRequests s) eqn:E; [reflexivity|].
      pose proof (wf_waiting s W). rewrite E in H.
      assert (chunk :: rest = []) by (rewrite <- Hq; apply H; discriminate).
      discriminate. }
    assert (W1 : well_formed (set_queue rest s)).
    { pose proof (wf_bound s W) as Hb. rewrite Hq in Hb. simpl in Hb.
      constructor; simpl.
      - apply W.
      - lia.
      - intros Hi. destruct (wf_inflight s W Hi) as (A & B & _).
        split; [exact A | split; [exact B | right; lia]].
      - rewrite Hr. congruence. }
    destruct rest as [|c' rest']; simpl.
    + destruct (closeRequested s) eqn:Hcr.
      * simpl. apply (well_formed_idle (set_queue [] s)); simpl; auto.
        destruct (inflight s) eqn:E; [reflexivity|].
        destruct (wf_inflight s W) as (_ & B & _); [congruence|].
        unfold CanCloseOrEnqueue in B. rewrite Hcr in B. discriminate.
      * pose proof (CallPullIfNeeded_well_formed _ W1).
        now destruct (CallPullIfNeeded (set_queue [] s)).
    + pose proof (CallPullIfNeeded_well_formed _ W1).
      now destruct (CallPullIfNeeded (set_queue (c' :: rest') s)).
Qed.

Lemma receive_well_formed (chunk : FrameChunk) (s : FrameStream)
  (r : FramesRequest) (rest : list FramesRequest) :
  well_formed s -> inflight s = r :: rest ->
  well_formed (fst (receive chunk (set_inflight rest s))).
Proof.
  intros W Hi.
  assert (Hrest : rest = []).
  { pose proof (wf_single s W) as H. rewrite Hi in H. simpl in H.
    destruct rest; [reflexivity | simpl in H; lia]. }
  subst rest.
  destruct (wf_inflight s W) as (Hp & Hc & Hd); [congruence|].
  unfold receive.
  change (CanCloseOrEnqueue (set_inflight [] s)) with (CanCloseOrEnqueue s).
  rewrite Hc. simpl.
  set (e := match readRequests s with
            | uuid :: rest => _
            | [] => _
            end).
  assert (He : well_formed (fst e) /\ inflight (fst e) = []
               /\ pulling (fst e) = true).
  { subst e. destruct (readRequests s) as [|u us] eqn:Hr; simpl.
    - split; [|split; [reflexivity | exact Hp]]. constructor; simpl.
      + lia.
      + rewrite length_app. simpl. destruct Hd as [Hd|Hd]; [congruence|].
        unfold HIGH_WATER_MARK in *. lia.
      + intros H. now elim H.
      + rewrite Hr. intros H. now elim H.
    - split; [|split; [reflexivity | exact Hp]]. constructor; simpl.
      + lia.
      + apply W.
      + intros H. now elim H.
      + intros _. apply W. rewrite Hr. discriminate. }
  destruct e as [s1 ds1]. simpl in He. destruct He as (W1 & I1 & P1).
  pose proof (CallPullIfNeeded_well_formed s1 W1) as W2.
  destruct (CallPullIfNeeded_pulling s1 P1) as (I2 & _ & _).
  destruct (CallPullIfNeeded s1) as [s2 ds2]. simpl in *.
  unfold pullFulfilled. simpl.
  assert (W3 : forall b,
             well_formed
               (set_pullAgain b
                  (set_pulling false
                     (set_frameNumber (snd (range chunk) + 1) s2)))).
  { intros b. apply (well_formed_idle s2); simpl; auto. congruence. }
  destruct (pullAgain s2).
  - pose proof (CallPullIfNeeded_well_formed _ (W3 false)) as W4.
    now destruct (CallPullIfNeeded _).
  - simpl. apply (well_formed_idle s2); simpl; auto. congruence.
Qed.

Lemma stream_op_well_formed (s s' : FrameStream) :
  well_formed s -> stream_op s s' -> well_formed s'.
Proof.
  intros W Hop. destruct Hop as [| |u|chunk r rest Hin|r rest Hin].
  - exact W.
  - constructor; simpl; apply W.
  - now apply read_well_formed.
  - eapply receive_well_formed; eassumption.
  - unfold pullRejected. simpl.
    assert (Hrest : rest = []).
    { pose proof (wf_single s W) as H. rewrite Hin in H. simpl in H.
      destruct rest; [reflexivity | simpl in H; lia]. }
    subst rest. apply ControllerError_well_formed; [|reflexivity].
    apply (well_formed_idle s); simpl; auto.
    (* the queue and the read requests are those of [s] *)
Qed.

Lemma new_stream_well_formed (a : Args) : well_formed (new_stream a).
Proof.
  unfold new_stream. apply CallPullIfNeeded_well_formed.
  set (s0 := createReader _ _ _ _ _ _).
  assert (W0 : well_formed s0).
  { constructor; simpl; try lia; intros H; now elim H. }
  pose proof (read_well_formed (uuid a) s0 W0) as W1.
  constructor; simpl; apply W1.
Qed.

Lemma with_stream_new (w : Worker) (j : nat) (sj : FrameStream)
  (out : list Posted) (i : nat) (s' : FrameStream) :
  nth_error (streams w) i = None ->
  nth_error (streams (with_stream j sj out w)) i = Some s' -> False.
Proof.
  simpl. rewrite nth_error_update. intros ->.
  destruct (Nat.eqb i j); discriminate.
Qed.

Lemma onmessage_new_stream (w w' : Worker) (data : MessageData) (i : nat)
  (s' : FrameStream) :
  onmessage w data = Return w' ->
  nth_error (streams w) i = None ->
  nth_error (streams w') i = Some s' ->
  s' = new_stream (args data).
Proof.
  intros H Hi Hi'. unfold onmessage in H.
  destruct (String.eqb (method data) "processSample").
  { unfold processSample in H. inv_bind H. destruct a as [s1 b1].
    injection H as <-. simpl in Hi'. congruence. }
  destruct (String.eqb (method data) "requestFrameChunk").
  { unfold requestFrameChunk in H.
    assert (Hsame : Return w = Return w' -> s' = new_stream (args data)).
    { intros E. injection E as <-. congruence. }
    destruct (streamId w) as [id|]; [|now apply Hsame].
    destruct (String.eqb (uuid (args data)) id); [|now apply Hsame].
    destruct (stream w) as [j|]; [|now apply Hsame].
    destruct (nth_error (streams w) j) as [sj|] eqn:Hj; [|now apply Hsame].
    destruct (read (uuid (args data)) sj) as [sj' ds].
    inv_bind H. injection H as <-.
    exfalso. eapply with_stream_new; eassumption. }
  destruct (String.eqb (method data) "setStream").
  { unfold setStream in H. unfold new_stream.
    destruct (read _ _) as [s1 ds1]. simpl.
    destruct (CallPullIfNeeded _) as [s2 ds2]. simpl.
    inv_bind H. injection H as <-. simpl in Hi'.
    set (old := cancel_current w) in *.
    assert (Hlen : List.length old = List.length (streams w))
      by apply cancel_current_length.
    apply nth_error_None in Hi.
    rewrite nth_error_app2 in Hi' by lia.
    destruct (i - List.length old)%nat as [|k]; simpl in Hi'.
    - congruence.
    - destruct k; discriminate. }
  destruct (String.eqb (method data) "requestSourceSample").
  { unfold requestSourceSample in H. injection H as <-. simpl in Hi'.
    congruence. }
  discriminate.
Qed.

Lemma step_new_stream (w w' : Worker) (e : event) (i : nat) (s' : FrameStream) :
  step w e = Some w' ->
  nth_error (streams w) i = None ->
  nth_error (streams w') i = Some s' ->
  exists a, s' = new_stream a.
Proof.
  intros H Hi Hi'. destruct e as [data|j chunk|j|k smp|k]; simpl in H.
  - destruct (onmessage w data) as [w1|err|] eqn:Hm; try discriminate.
    + injection H as <-. eexists. eapply onmessage_new_stream; eassumption.
    + injection H as <-. congruence.
  - destruct (nth_error (streams w) j) as [sj|]; [|discriminate].
    destruct (inflight sj) as [|r rest]; [discriminate|].
    destruct (receive chunk (set_inflight rest sj)) as [sj' ds].
    destruct (deliver ds (posted w)) as [out|]; [|discriminate].
    injection H as <-. exfalso. eapply with_stream_new; eassumption.
  - destruct (nth_error (streams w) j) as [sj|]; [|discriminate].
    destruct (inflight sj) as [|r rest]; [discriminate|].
    injection H as <-. exfalso. eapply with_stream_new; eassumption.
  - destruct (nth_error (sampleRequests w) k) as [r|]; [|discriminate].
    destruct (sourceSample r smp (posted w)); try discriminate;
      injection H as <-; simpl in Hi'; congruence.
  - destruct (nth_error (sampleRequests w) k) as [r|]; [|discriminate].
    injection H as <-; simpl in Hi'; congruence.
Qed.

(** A property that every stream has when [setStream] leaves it behind,
    and that every operation keeps, holds of every stream of every state
    the worker reaches. *)
Lemma reachable_streams (P : FrameStream -> Prop) :
  (forall a, P (new_stream a)) ->
  (forall s s', P s -> stream_op s s' -> P s') ->
  forall w, reachable w ->
  forall i s, nth_error (streams w) i = Some s -> P s.
Proof.
  intros Hnew Hop w Hw. induction Hw as [|w e w' Hw IH Hstep]; intros i s Hi.
  - destruct i; discriminate.
  - destruct (nth_error (streams w) i) as [s0|] eqn:Hi0.
    + destruct (step_streams _ _ _ _ _ Hstep Hi0) as (s1 & Hi1 & Hop1).
      assert (s1 = s) by congruence. subst s1. eauto.
    + destruct (step_new_stream _ _ _ _ _ Hstep Hi0 Hi) as [a ->]. apply Hnew.
Qed.

(** C5.  In every state the worker reaches, every stream has at most one
    request outstanding and at most [HIGH_WATER_MARK] chunks in its queue,
    and a request is outstanding only while a read is waiting for a chunk
    or the queue holds fewer than [HIGH_WATER_MARK] chunks. *)
Theorem single_flight_bounded_queue (w : Worker) (i : nat) (s : FrameStream) :
  reachable w ->
  nth_error (streams w) i = Some s ->
  (List.length (inflight s) <= 1)%nat
  /\ (List.length (queue s) <= HIGH_WATER_MARK)%nat
  /\ (inflight s <> [] ->
      pulling s = true
      /\ (readRequests s <> []
          \/ (List.length (queue s) < HIGH_WATER_MARK)%nat)).
Proof.
  intros Hw Hi.
  assert (W : well_formed s).
  { apply (reachable_streams well_formed) with (w := w) (i := i); auto.
    - apply new_stream_well_formed.
    - apply stream_op_well_formed. }
  split; [apply W | split; [apply W|]].
  intros Hin. destruct (wf_inflight s W Hin) as (A & _ & C). auto.
Qed.

(* ===================================================================== *)
(** * The stream that a new session starts with *)
(* ===================================================================== *)

Lemma nth_error_last {A : Type} (xs : list A) (x : A) :
  nth_error (xs ++ [x]) (List.length xs) = Some x.
Proof.
  rewrite nth_error_app2 by lia. now rewrite Nat.sub_diag.
Qed.

Lemma update_last {A : Type} (xs : list A) (x y : A) :
  update (List.length xs) y (xs ++ [x]) = xs ++ [y].
Proof. induction xs as [|z xs IH]; simpl; [reflexivity | now rewrite IH]. Qed.

Lemma update_app1 {A : Type} (xs ys : list A) (i : nat) (y : A) :
  (i < List.length xs)%nat -> update i y (xs ++ ys) = update i y xs ++ ys.
Proof.
  revert i; induction xs as [|z xs IH]; intros [|i] H; simpl in *; try lia.
  - reflexivity.
  - rewrite IH by lia. reflexivity.
Qed.

Lemma new_stream_fetching (a : Args) :
  (arg_frameNumber a < arg_frameCount a)%Z ->
  new_stream a = fetching a
  /\ snd (read (uuid a)
            (createReader CHUNK_SIZE (arg_frameCount a) (arg_frameNumber a)
               (arg_sampleId a) (arg_source a) (arg_url a))) = []
  /\ snd (CallPullIfNeeded
            (set_started true
               (fst (read (uuid a)
                       (createReader CHUNK_SIZE (arg_frameCount a)
                          (arg_frameNumber a) (arg_sampleId a) (arg_source a)
                          (arg_url a)))))) = [].
Proof.
  intros Hlt. apply Z.leb_gt in Hlt.
  unfold new_stream, fetching, read, CallPullIfNeeded, CallPullIfNeeded_step,
    ShouldCallPull, CanCloseOrEnqueue, pull. simpl. rewrite Hlt. simpl. auto.
Qed.

Lemma setStream_fetching (a : Args) (w : Worker) :
  (arg_frameNumber a < arg_frameCount a)%Z ->
  setStream a w =
  Return {| stream := Some (List.length (cancel_current w));
            streamId := Some (uuid a);
            streams := cancel_current w ++ [fetching a];
            sampleRequests := sampleRequests w;
            posted := posted w |}.
Proof.
  intros Hlt. destruct (new_stream_fetching a Hlt) as (E & D1 & D2).
  unfold new_stream in E. unfold setStream.
  destruct (read (uuid a) _) as [s1 ds1]. simpl in *.
  destruct (CallPullIfNeeded (set_started true s1)) as [s2 ds2]. simpl in *.
  subst. reflexivity.
Qed.

(* ===================================================================== *)
(** * Chunk ordering: the host asks after each chunk *)
(* ===================================================================== *)

Lemma posted_ranges_app (out out' : list Posted) :
  posted_ranges (out ++ out') = posted_ranges out ++ posted_ranges out'.
Proof.
  induction out as [|[m s u t|f r u t] out IH]; simpl; congruence.
Qed.

Lemma nth_error_update_same {A : Type} (xs : list A) (i : nat) (x y : A) :
  nth_error xs i = Some x -> nth_error (update i y xs) i = Some y.
Proof. intros H. now rewrite nth_error_update, Nat.eqb_refl, H. Qed.

(** What a response does to a stream on which one read waits. *)
Lemma receive_waiting (u : string) (n : Z) (s : FrameStream)
  (chunk : FrameChunk) :
  waiting_at u n s ->
  exists s1,
    receive chunk (set_inflight [] s)
    = (s1, [(u, ReadValue {| frames := frames chunk; range := range chunk |})])
    /\ chunkSize s1 = chunkSize s /\ frameCount s1 = frameCount s
    /\ frameNumber s1 = (snd (range chunk) + 1)%Z
    /\ if (frameCount s <=? snd (range chunk) + 1)%Z
       then state s1 = closed /\ inflight s1 = []
            /\ fetched s1 = fetched s
       else fetching_at (snd (range chunk) + 1)%Z s1
            /\ fetched s1 = fetched s ++ [request_of s1].
Proof.
  destruct s as [cs fc fn sid src url c st sta pl pa cr q rr fe inf].
  unfold waiting_at. simpl.
  intros (-> & -> & -> & -> & -> & -> & -> & -> & ->).
  unfold receive, CallPullIfNeeded, CallPullIfNeeded_step,
    ShouldCallPull, CanCloseOrEnqueue, pullFulfilled, pull, ControllerClose,
    ReadableStreamClose, desiredSize. simpl.
  rewrite orb_false_r.
  destruct (fc <=? snd (range chunk) + 1)%Z eqn:E; simpl.
  - eexists. split; [reflexivity|]. simpl. repeat split; reflexivity.
  - eexists. split; [reflexivity|]. simpl. unfold fetching_at. simpl.
    repeat split; reflexivity.
Qed.

Lemma read_fetching (u : string) (n : Z) (s : FrameStream) :
  fetching_at n s ->
  exists s1,
    read u s = (s1, [])
    /\ chunkSize s1 = chunkSize s /\ frameCount s1 = frameCount s
    /\ fetched s1 = fetched s /\ request_of s1 = request_of s
    /\ waiting_at u n s1.
Proof.
  destruct s as [cs fc fn sid src url c st sta pl pa cr q rr fe inf].
  unfold fetching_at. simpl.
  intros (-> & -> & -> & -> & -> & -> & -> & -> & ->).
  unfold read, CallPullIfNeeded, CallPullIfNeeded_step, ShouldCallPull,
    CanCloseOrEnqueue. simpl.
  eexists. split; [reflexivity|]. unfold waiting_at. simpl.
  repeat split; reflexivity.
Qed.

Lemma read_closed (u : string) (s : FrameStream) :
  state s = closed -> read u s = (s, [(u, ReadDone)]).
Proof. intros H. unfold read. now rewrite H. Qed.

(** One round on a stream on which a read waits: the chunk is posted, and
    the stream either waits for the next chunk or is closed. *)
Lemma round_waiting (frames_of : Z -> list value) (a : Args) (w : Worker)
  (i : nat) (s : FrameStream) (n m : Z) (frames' buffers : list value) :
  stream w = Some i -> streamId w = Some (uuid a) ->
  nth_error (streams w) i = Some s ->
  waiting_at (uuid a) n s ->
  collectFrames (frames_of n) [] = Return (frames', buffers) ->
  m = Z.min (n + chunkSize s - 1) (frameCount s - 1) ->
  exists (w1 : Worker) (s1 : FrameStream),
    round frames_of a w = Some w1
    /\ stream w1 = Some i /\ streamId w1 = Some (uuid a)
    /\ nth_error (streams w1) i = Some s1
    /\ posted w1 = posted w ++ [PostFrameChunk frames' (n, m) (uuid a) buffers]
    /\ chunkSize s1 = chunkSize s /\ frameCount s1 = frameCount s
    /\ frameNumber s1 = (m + 1)%Z
    /\ if (frameCount s <=? m + 1)%Z
       then state s1 = closed /\ inflight s1 = [] /\ fetched s1 = fetched s
       else waiting_at (uuid a) (m + 1)%Z s1
            /\ fetched s1 = fetched s ++ [request_of s1].
Proof.
  intros Hcur Hid Hi Hw Hframes Hm.
  assert (Hn : frameNumber s = n) by apply Hw.
  assert (Hin : inflight s = [request_of s]) by apply Hw.
  destruct (receive_waiting (uuid a) n s (answer frames_of (request_of s)) Hw)
    as (s1 & Hrec & Hcs & Hfc & Hfn & Hcase).
  assert (Hrange : snd (range (answer frames_of (request_of s))) = m).
  { simpl. rewrite Hn. symmetry. exact Hm. }
  rewrite Hrange in Hfn, Hcase.
  unfold round, outstanding. rewrite Hcur, Hi, Hin.
  unfold step at 1. rewrite Hi, Hin, Hrec.
  cbn [deliver getSendChunk answer frames range q_frameNumber request_of
       q_numFrames q_frameCount].
  rewrite Hn, Hframes. cbn [bind deliver].
  rewrite <- Hm.
  set (out := posted w ++ [PostFrameChunk frames' (n, m) (uuid a) buffers]).
  set (w1 := with_stream i s1 out w).
  assert (Hi1 : nth_error (streams w1) i = Some s1).
  { subst w1. simpl. eapply nth_error_update_same; eassumption. }
  unfold step, onmessage. cbn [method args].
  change (String.eqb "requestFrameChunk" "processSample") with false.
  change (String.eqb "requestFrameChunk" "requestFrameChunk") with true.
  cbv iota. unfold requestFrameChunk.
  change (streamId w1) with (streamId w). change (stream w1) with (stream w).
  rewrite Hid, String.eqb_refl, Hcur, Hi1.
  destruct (frameCount s <=? m + 1)%Z.
  - destruct Hcase as (Hst & Hinf & Hfe).
    rewrite (read_closed _ _ Hst).
    cbn [deliver getSendChunk]. rewrite app_nil_r. cbn [modelled bind].
    exists (with_stream i s1 (posted w1) w1), s1.
    split; [reflexivity|]. simpl.
    rewrite nth_error_update, Nat.eqb_refl, nth_error_update, Nat.eqb_refl, Hi.
    repeat split; auto.
  - destruct Hcase as (Hfetch & Hfe).
    destruct (read_fetching (uuid a) _ _ Hfetch)
      as (s2 & Hread & Hcs2 & Hfc2 & Hfe2 & Hreq & Hw2).
    rewrite Hread. cbn [deliver modelled bind].
    exists (with_stream i s2 (posted w1) w1), s2.
    split; [reflexivity|]. simpl.
    rewrite nth_error_update, Nat.eqb_refl, nth_error_update, Nat.eqb_refl, Hi.
    assert (Hfn2 : frameNumber s2 = (m + 1)%Z) by apply Hw2.
    split; [auto|]. split; [auto|]. split; [reflexivity|].
    split; [reflexivity|]. split; [congruence|]. split; [congruence|].
    split; [exact Hfn2|]. split; [exact Hw2 | congruence].
Qed.

Lemma tiles_chunk_ranges (C F : Z) (fuel : nat) (n : Z) :
  (0 < C)%Z -> (n < F)%Z -> (F - n <= Z.of_nat fuel * C)%Z ->
  tiles n (F - 1) (chunk_ranges C F fuel n).
Proof.
  intros HC. revert n. induction fuel as [|k IH]; intros n Hn Hfuel.
  - simpl in Hfuel. lia.
  - cbn [chunk_ranges]. cbv zeta.
    destruct (Z.leb_spec F (Z.min (n + C - 1) (F - 1) + 1)) as [Hle|Hgt].
    + replace (Z.min (n + C - 1) (F - 1)) with (F - 1)%Z by lia.
      apply tiles_last. lia.
    + assert (Hmin : Z.min (n + C - 1) (F - 1) = (n + C - 1)%Z) by lia.
      rewrite Hmin in *. apply tiles_cons; try lia.
      apply IH; lia.
Qed.

Lemma rounds_waiting (frames_of : Z -> list value) (a : Args) (C F : Z) :
  (0 < C)%Z ->
  (forall n, exists fs bs, collectFrames (frames_of n) [] = Return (fs, bs)) ->
  forall (fuel : nat) (n : Z) (w : Worker) (i : nat) (s : FrameStream),
    (n < F)%Z -> (F - n <= Z.of_nat fuel * C)%Z ->
    chunkSize s = C -> frameCount s = F ->
    stream w = Some i -> streamId w = Some (uuid a) ->
    nth_error (streams w) i = Some s ->
    waiting_at (uuid a) n s ->
    exists (w' : Worker) (s' : FrameStream),
      rounds frames_of a (List.length (chunk_ranges C F fuel n)) w = Some w'
      /\ posted_ranges (posted w')
         = posted_ranges (posted w) ++ chunk_ranges C F fuel n
      /\ stream w' = Some i /\ streamId w' = Some (uuid a)
      /\ nth_error (streams w') i = Some s'
      /\ state s' = closed /\ frameNumber s' = F /\ inflight s' = []
      /\ S (List.length (fetched s'))
         = (List.length (fetched s) + List.length (chunk_ranges C F fuel n))%nat.
Proof.
  intros HC Hframes. induction fuel as [|k IH];
    intros n w i s Hn Hfuel Hcs Hfc Hcur Hid Hi Hw.
  - simpl in Hfuel. lia.
  - destruct (Hframes n) as (fs & bs & Hfs).
    destruct (round_waiting frames_of a w i s n
                (Z.min (n + chunkSize s - 1) (frameCount s - 1)) fs bs
                Hcur Hid Hi Hw Hfs eq_refl)
      as (w1 & s1 & Hround & Hcur1 & Hid1 & Hi1 & Hout & Hcs1 & Hfc1 & Hfn1
          & Hcase).
    rewrite Hcs, Hfc in *.
    cbn [chunk_ranges]. cbv zeta.
    destruct (Z.leb_spec F (Z.min (n + C - 1) (F - 1) + 1)) as [Hle|Hgt].
    + destruct Hcase as (Hst & Hin & Hfe).
      exists w1, s1. cbn [List.length rounds]. rewrite Hround.
      rewrite Hout, posted_ranges_app. simpl.
      repeat split; auto; try lia.
      rewrite Hfe. lia.
    + destruct Hcase as (Hw1 & Hfe).
      assert (Hmin : Z.min (n + C - 1) (F - 1) = (n + C - 1)%Z) by lia.
      rewrite Hmin in *.
      destruct (IH (n + C - 1 + 1)%Z w1 i s1) as (w' & s' & Hrounds & Hout'
          & Hcur' & Hid' & Hi' & Hst' & Hfn' & Hin' & Hfe'); auto; try lia.
      exists w', s'. cbn [List.length rounds]. rewrite Hround, Hrounds.
      rewrite Hout', Hout, posted_ranges_app. simpl.
      rewrite <- app_assoc. simpl.
      repeat split; auto.
      rewrite Hfe'. rewrite Hfe, length_app. simpl. lia.
Qed.

Lemma fetching_waiting (a : Args) :
  waiting_at (uuid a) (arg_frameNumber a) (fetching a)
  /\ chunkSize (fetching a) = CHUNK_SIZE
  /\ frameCount (fetching a) = arg_frameCount a
  /\ List.length (fetched (fetching a)) = 1%nat.
Proof. unfold waiting_at, fetching. simpl. repeat split; reflexivity. Qed.

(** ** The cursor moves only when a chunk has been retrieved *)

Lemma ControllerClose_frameNumber s :
  frameNumber (fst (ControllerClose s)) = frameNumber s.
Proof. unfold ControllerClose. simpl. now destruct (queue s). Qed.

Lemma ControllerError_frameNumber s :
  frameNumber (ControllerError s) = frameNumber s.
Proof. unfold ControllerError. now destruct (is_readable s). Qed.

Lemma pull_frameNumber s : frameNumber (fst (fst (pull s))) = frameNumber s.
Proof.
  unfold pull. destruct (_ || _); [|reflexivity].
  destruct (CanCloseOrEnqueue s); [|reflexivity].
  pose proof (ControllerClose_frameNumber s).
  now destruct (ControllerClose s).
Qed.

Lemma CallPullIfNeeded_frameNumber s :
  frameNumber (fst (CallPullIfNeeded s)) = frameNumber s.
Proof.
  unfold CallPullIfNeeded, CallPullIfNeeded_step.
  destruct (ShouldCallPull s); simpl; [|reflexivity].
  destruct (pulling s); simpl; [reflexivity|].
  pose proof (pull_frameNumber (set_pulling true s)) as H.
  destruct (pull (set_pulling true s)) as [[s1 ds] p]. simpl in H.
  destruct p; simpl; auto.
  - unfold pullFulfilled. simpl. now destruct (pullAgain s1).
  - now rewrite ControllerError_frameNumber.
Qed.

Lemma receive_frameNumber chunk s :
  CanCloseOrEnqueue s = true ->
  frameNumber (fst (receive chunk s)) = (snd (range chunk) + 1)%Z.
Proof.
  intros H. unfold receive. rewrite H.
  destruct (match readRequests s with
            | uuid :: rest => _
            | [] => _
            end) as [s1 ds1].
  destruct (CallPullIfNeeded s1) as [s2 ds2].
  unfold pullFulfilled. simpl.
  destruct (pullAgain s2).
  - pose proof (CallPullIfNeeded_frameNumber
                  (set_pullAgain false
                     (set_pulling false
                        (set_frameNumber (snd (range chunk) + 1) s2)))) as E.
    destruct (CallPullIfNeeded _) as [s4 ds4]. simpl in *. exact E.
  - reflexivity.
Qed.

(* ===================================================================== *)
(** * Properties of objects *)
(* ===================================================================== *)

Section PropsFacts.
Context {A : Type}.
Implicit Types (ps : list (string * A)) (k : string) (v : A).

Lemma lookup_set_prop_same k v ps : lookup k (set_prop k v ps) = Some v.
Proof.
  induction ps as [|[k' v'] ps IH]; simpl.
  - now rewrite String.eqb_refl.
  - destruct (String.eqb k k') eqn:E; simpl.
    + now rewrite String.eqb_refl.
    + now rewrite E.
Qed.

Lemma lookup_set_prop_other k k' v ps :
  k <> k' -> lookup k' (set_prop k v ps) = lookup k' ps.
Proof.
  intros Hne. induction ps as [|[k0 v0] ps IH]; simpl.
  - destruct (String.eqb_spec k' k); [congruence | reflexivity].
  - destruct (String.eqb_spec k k0) as [->|]; simpl.
    + destruct (String.eqb_spec k' k0); [congruence | reflexivity].
    + now rewrite IH.
Qed.

Lemma lookup_delete_same k ps : lookup k (delete k ps) = None.
Proof.
  unfold delete. induction ps as [|[k0 v0] ps IH]; simpl; [reflexivity|].
  destruct (String.eqb k k0) eqn:E; simpl; [exact IH|]. now rewrite E.
Qed.

Lemma lookup_delete_other k k' ps :
  k <> k' -> lookup k' (delete k ps) = lookup k' ps.
Proof.
  intros Hne. unfold delete.
  induction ps as [|[k0 v0] ps IH]; simpl; [reflexivity|].
  destruct (String.eqb_spec k k0) as [->|]; simpl.
  - destruct (String.eqb_spec k' k0); [congruence | exact IH].
  - now rewrite IH.
Qed.

Lemma has_key_set_prop k k' v ps :
  has_key k' (set_prop k v ps) = String.eqb k k' || has_key k' ps.
Proof.
  unfold has_key. destruct (String.eqb_spec k k') as [->|Hne]; simpl.
  - now rewrite lookup_set_prop_same.
  - now rewrite lookup_set_prop_other.
Qed.

End PropsFacts.

Lemma get_set_prop_same k v (ps : record) : get (set_prop k v ps) k = v.
Proof. unfold get. now rewrite lookup_set_prop_same. Qed.

Lemma get_set_prop_other k k' v (ps : record) :
  k <> k' -> get (set_prop k v ps) k' = get ps k'.
Proof. intros. unfold get. now rewrite lookup_set_prop_other. Qed.

Lemma mapId_props_id (ps : record) :
  lookup "id" (mapId_props ps) = Some (get ps "_id").
Proof.
  unfold mapId_props. rewrite lookup_delete_other by discriminate.
  apply lookup_set_prop_same.
Qed.

Lemma mapId_props__id (ps : record) : lookup "_id" (mapId_props ps) = None.
Proof. apply lookup_delete_same. Qed.

Lemma mapId_props_other (ps : record) (k : string) :
  k <> "id" -> k <> "_id" -> lookup k (mapId_props ps) = lookup k ps.
Proof.
  intros H1 H2. unfold mapId_props.
  rewrite lookup_delete_other by congruence.
  apply lookup_set_prop_other. congruence.
Qed.

(* ===================================================================== *)
(** * What the normaliser does to a label *)
(* ===================================================================== *)

Lemma decode_mask_object (q : record) (b : list value) (d' : value)
  (b' : list value) :
  decode_mask (VObject q) b = Return (d', b') ->
  exists q', d' = VObject q'
             /\ forall k, k <> "mask" -> lookup k q' = lookup k q.
Proof.
  simpl. intros H.
  destruct (get q "mask"); try (injection H as <- <-; eauto).
  destruct (deserialize s) as [mask|]; [|discriminate].
  inv_bind H. injection H as <- <-.
  eexists; split; [reflexivity|]. intros k Hk.
  apply lookup_set_prop_other. congruence.
Qed.

Lemma decode_mask_not_object (d : value) (b : list value) (d' : value)
  (b' : list value) :
  decode_mask d b = Return (d', b') ->
  (forall q, d <> VObject q) -> d' = d /\ b' = b.
Proof.
  intros H Hd. destruct d; simpl in H; try discriminate;
    try (injection H as <- <-; auto).
  now elim (Hd props).
Qed.

Lemma forEach_Forall2 f (ls ls' : list value) (b b' : list value) :
  forEach f ls b = Return (ls', b') ->
  Forall2 (fun l l' => exists b1 b2, f l b1 = Return (l', b2)) ls ls'.
Proof.
  revert ls' b b'. induction ls as [|l ls IH]; intros ls' b b' H; simpl in H.
  - injection H as <- <-. constructor.
  - inv_bind H. destruct a as [l1 b1]. inv_bind H. destruct a as [ls1 b2].
    injection H as <- <-. constructor; eauto.
Qed.

Lemma map_mapId_Forall2 (items items' : list value) :
  map_mapId items = Return items' ->
  Forall2 (fun e e' => mapId e = Return e') items items'.
Proof.
  revert items'. induction items as [|e es IH]; intros items' H; simpl in H.
  - injection H as <-. constructor.
  - inv_bind H. inv_bind H. injection H as <-. constructor; auto.
Qed.

Lemma DESERIALIZE_deserialized (key : string) (ps : record) (b : list value)
  (v1 : value) (b1 : list value) :
  match DESERIALIZE key with
  | Some handler => handler (VObject ps) b
  | None => Return (VObject ps, b)
  end = Return (v1, b1) ->
  exists ps1, v1 = VObject ps1 /\ deserialized ps ps1.
Proof.
  assert (Hmask : decode_mask (VObject ps) b = Return (v1, b1) ->
                  exists ps1, v1 = VObject ps1 /\ deserialized ps ps1).
  { simpl. intros H.
    destruct (get ps "mask") eqn:Hm;
      try (injection H as <- <-; eexists; split; [reflexivity | constructor]).
    destruct (deserialize s) as [mask|]; [|discriminate].
    inv_bind H. injection H as <- <-.
    eexists; split; [reflexivity|]. econstructor. eassumption. }
  unfold DESERIALIZE.
  destruct (String.eqb key "Detection"); [exact Hmask|].
  destruct (String.eqb key "Detections").
  - simpl. intros H. destruct (get ps "detections") eqn:Hd; try discriminate.
    inv_bind H. destruct a as [ds' b2]. injection H as <- <-.
    eexists; split; [reflexivity|]. econstructor; [eassumption|].
    eapply forEach_Forall2; eassumption.
  - destruct (String.eqb key "Segmentation"); [exact Hmask|].
    intros H. injection H as <- <-.
    eexists; split; [reflexivity | constructor].
Qed.

Lemma deserialized_lookup (ps ps1 : record) (k : string) :
  deserialized ps ps1 -> k <> "mask" -> k <> "detections" ->
  lookup k ps1 = lookup k ps.
Proof.
  intros [|text mask Hm|ds ds' Hd Hall] H1 H2.
  - reflexivity.
  - apply lookup_set_prop_other. congruence.
  - apply lookup_set_prop_other. congruence.
Qed.

Lemma deserialized_has_key (ps ps1 : record) (k : string) :
  deserialized ps ps1 -> has_key k ps1 = has_key k ps.
Proof.
  intros [|text mask Hm|ds ds' Hd Hall].
  - reflexivity.
  - rewrite has_key_set_prop.
    destruct (String.eqb_spec "mask" k) as [<-|]; [|reflexivity].
    unfold get in Hm. unfold has_key.
    destruct (lookup "mask" ps); [reflexivity | discriminate].
  - rewrite has_key_set_prop.
    destruct (String.eqb_spec "detections" k) as [<-|]; [|reflexivity].
    unfold get in Hd. unfold has_key.
    destruct (lookup "detections" ps); [reflexivity | discriminate].
Qed.

(** The list that a list-valued label holds under [f], after the entry of
    [DESERIALIZE] has run: its elements are those of the list before, with
    masks decoded. *)
Lemma deserialized_list (ps ps1 : record) (f : string) (l : list value) :
  deserialized ps ps1 -> get ps f = VArray l ->
  exists l1, get ps1 f = VArray l1
             /\ Forall2 (fun e e1 => e1 = e \/
                           exists b b', decode_mask e b = Return (e1, b'))
                  l l1.
Proof.
  assert (Hrefl : Forall2 (fun e e1 : value => e1 = e \/
                    exists b b', decode_mask e b = Return (e1, b')) l l).
  { induction l; constructor; auto. }
  intros [|text mask Hm|ds ds' Hd Hall] Hl.
  - eauto.
  - destruct (String.eqb_spec "mask" f) as [<-|Hne]; [congruence|].
    rewrite get_set_prop_other by exact Hne. eauto.
  - destruct (String.eqb_spec "detections" f) as [<-|Hne].
    + rewrite get_set_prop_same. rewrite Hd in Hl. injection Hl as <-.
      eexists; split; [reflexivity|].
      eapply Forall2_impl; [|exact Hall]. simpl. auto.
    + rewrite get_set_prop_other by exact Hne. eauto.
Qed.

Lemma rewritten_after_decode (e e1 e' : value) :
  (e1 = e \/ exists b b', decode_mask e b = Return (e1, b')) ->
  mapId e1 = Return e' -> rewritten e e'.
Proof.
  intros He Hm.
  destruct e1 as [| | | | | |q1|]; simpl in Hm; try discriminate.
  injection Hm as <-.
  assert (Hq : exists q, e = VObject q /\ get q1 "_id" = get q "_id").
  { destruct He as [E|(b & b' & Hd)]; [subst e; eauto|].
    destruct e as [| | | | | |q|];
      try (destruct (decode_mask_not_object _ _ _ _ Hd) as [E _];
           [intros; discriminate | discriminate]).
    destruct (decode_mask_object _ _ _ _ Hd) as (q' & E & Hk).
    injection E as <-. exists q. split; [reflexivity|].
    unfold get. now rewrite Hk by discriminate. }
  destruct Hq as (q & -> & Hid).
  exists q, (mapId_props q1). repeat split.
  - rewrite mapId_props_id. now rewrite Hid.
  - apply mapId_props__id.
Qed.

Lemma handleLabel_object (ps : record) (b : list value) (v' : value)
  (b' : list value) :
  handleLabel (VObject ps) b = Return (v', b') ->
  exists key ps1,
    ToPropertyKey (get ps "_cls") = Return key
    /\ deserialized ps ps1
    /\ if LABELS key then
         match LABEL_LISTS key with
         | Some f => map_label_list f (VObject ps1) = Return v'
         | None => mapId (VObject ps1) = Return v'
         end
       else v' = VObject ps1.
Proof.
  unfold handleLabel. simpl. intros H.
  inv_bind H. rename a into key.
  destruct (inherited key); [discriminate|].
  inv_bind H. destruct a as [v1 b1].
  destruct (DESERIALIZE_deserialized _ _ _ _ _ Ha0) as (ps1 & -> & Hd).
  exists key, ps1. split; [exact Ha|]. split; [exact Hd|].
  destruct (LABELS key).
  - destruct (LABEL_LISTS key) as [f|]; inv_bind H; injection H as <- <-;
      assumption.
  - now injection H as <- <-.
Qed.

Lemma handleLabel_not_object (v : value) (b : list value) (v' : value)
  (b' : list value) :
  handleLabel v b = Return (v', b') ->
  (forall ps, v <> VObject ps) -> v' = v /\ b' = b.
Proof.
  unfold handleLabel. intros H Hv.
  destruct (negb (ToBoolean v)); [now injection H as <- <-|].
  destruct v as [| |bb|x|s|l|ps|bytes]; simpl in H; try discriminate;
    try (now elim (Hv ps));
    change (inherited "undefined") with false in H; cbv iota in H;
    change (DESERIALIZE "undefined") with
      (@None (value -> list value -> outcome (value * list value))) in H;
    simpl in H;
    (destruct (LABELS "undefined"); [|now injection H as <- <-]);
    (destruct (LABEL_LISTS "undefined") as [f|]; simpl in H;
     try discriminate; now injection H as <- <-).
Qed.

Lemma handleLabel_object_object (ps : record) (b : list value) (v' : value)
  (b' : list value) :
  handleLabel (VObject ps) b = Return (v', b') -> exists ps', v' = VObject ps'.
Proof.
  intros H. destruct (handleLabel_object _ _ _ _ H) as (key & ps1 & _ & _ & Hc).
  destruct (LABELS key); [|eauto].
  destruct (LABEL_LISTS key) as [f|].
  - simpl in Hc. destruct (get ps1 f); try (injection Hc as <-; eauto).
    inv_bind Hc. injection Hc as <-. eauto.
  - simpl in Hc. injection Hc as <-. eauto.
Qed.

(** A recognised label that is not list-valued gets the rewrite itself. *)
Lemma handleLabel_single (ps : record) (b : list value) (v' : value)
  (b' : list value) (key : string) :
  handleLabel (VObject ps) b = Return (v', b') ->
  ToPropertyKey (get ps "_cls") = Return key ->
  LABELS key = true -> LABEL_LISTS key = None ->
  exists ps', v' = VObject ps'
              /\ lookup "id" ps' = Some (get ps "_id")
              /\ lookup "_id" ps' = None.
Proof.
  intros H Hkey HL HLL.
  destruct (handleLabel_object _ _ _ _ H) as (key' & ps1 & Hkey' & Hd & Hc).
  assert (key' = key) by congruence. subst key'.
  rewrite HL, HLL in Hc. simpl in Hc. injection Hc as <-.
  eexists; split; [reflexivity|]. split; [|apply mapId_props__id].
  rewrite mapId_props_id. unfold get.
  now rewrite (deserialized_lookup _ _ "_id" Hd) by discriminate.
Qed.

(** A recognised list-valued label keeps its own identifier fields; the
    rewrite goes to the elements of its list. *)
Lemma handleLabel_list (ps : record) (b : list value) (v' : value)
  (b' : list value) (key f : string) :
  handleLabel (VObject ps) b = Return (v', b') ->
  ToPropertyKey (get ps "_cls") = Return key ->
  LABELS key = true -> LABEL_LISTS key = Some f ->
  exists ps', v' = VObject ps'
              /\ has_key "_id" ps' = has_key "_id" ps
              /\ (f <> "_id" -> lookup "_id" ps' = lookup "_id" ps)
              /\ (f <> "id" -> lookup "id" ps' = lookup "id" ps)
              /\ forall l, get ps f = VArray l ->
                   exists l', get ps' f = VArray l' /\ Forall2 rewritten l l'.
Proof.
  intros H Hkey HL HLL.
  destruct (handleLabel_object _ _ _ _ H) as (key' & ps1 & Hkey' & Hd & Hc).
  assert (key' = key) by congruence. subst key'.
  rewrite HL, HLL in Hc. simpl in Hc.
  assert (Hid : lookup "_id" ps1 = lookup "_id" ps)
    by (apply deserialized_lookup; [exact Hd | discriminate | discriminate]).
  assert (Hid' : lookup "id" ps1 = lookup "id" ps)
    by (apply deserialized_lookup; [exact Hd | discriminate | discriminate]).
  assert (Hk : has_key "_id" ps1 = has_key "_id" ps)
    by (unfold has_key; now rewrite Hid).
  destruct (get ps1 f) as [| | | | |l1| |] eqn:Hf;
    try (injection Hc as <-; exists ps1;
         split; [reflexivity|]; split; [exact Hk|]; split; [auto|];
         split; [auto|]; intros l Hl;
         destruct (deserialized_list _ _ _ _ Hd Hl) as (l1' & Hl1 & _);
         congruence).
  inv_bind Hc. rename a into l'. injection Hc as <-.
  exists (set_prop f (VArray l') ps1). split; [reflexivity|].
  split.
  { rewrite has_key_set_prop, Hk.
    destruct (String.eqb_spec f "_id") as [->|]; [|reflexivity].
    unfold get in Hf. unfold has_key. rewrite <- Hid.
    destruct (lookup "_id" ps1); [reflexivity | discriminate]. }
  split; [intros; now rewrite lookup_set_prop_other|].
  split; [intros; now rewrite lookup_set_prop_other|].
  intros l Hl. exists l'. split; [apply get_set_prop_same|].
  destruct (deserialized_list _ _ _ _ Hd Hl) as (l1' & Hl1 & Hall).
  assert (l1' = l1) by congruence. subst l1'.
  apply map_mapId_Forall2 in Ha.
  clear - Hall Ha. revert l' Ha.
  induction Hall as [|e e1 l l1 He Hall IH]; intros l' Ha;
    inversion Ha; subst; constructor.
  - eapply rewritten_after_decode; eassumption.
  - now apply IH.
Qed.

(** ** The loop over the fields *)

Lemma handleFields_Forall2 (sample sample' : record) (b b' : list value) :
  handleFields sample b = Return (sample', b') ->
  Forall2 (fun kv kv' =>
             fst kv = fst kv'
             /\ exists b1 b2, handleLabel (snd kv) b1 = Return (snd kv', b2))
    sample sample'.
Proof.
  revert sample' b b'.
  induction sample as [|[k v] ps IH]; intros sample' b b' H; simpl in H.
  - injection H as <- <-. constructor.
  - inv_bind H. destruct a as [v1 b1]. inv_bind H. destruct a as [ps1 b2].
    injection H as <- <-. constructor; simpl; eauto.
Qed.

Lemma lookup_Forall2 {A B : Type} (R : A -> B -> Prop)
  (ps : list (string * A)) (ps' : list (string * B)) (k : string) :
  Forall2 (fun kv kv' => fst kv = fst kv' /\ R (snd kv) (snd kv')) ps ps' ->
  match lookup k ps with
  | Some v => exists v', lookup k ps' = Some v' /\ R v v'
  | None => lookup k ps' = None
  end.
Proof.
  induction 1 as [|[k1 v1] [k2 v2] ps ps' [Hk Hr] Hall IH]; simpl in *.
  - reflexivity.
  - subst k2. destruct (String.eqb k k1); [eauto | exact IH].
Qed.

(** The field [k] of a record after the loop, for a field that held an
    object. *)
Lemma handleLabels_field (sample sample' : record) (buffers : list value)
  (k : string) (v : value) :
  handleLabels sample = Return (sample', buffers) ->
  lookup k sample = Some v ->
  exists v' b b', lookup k sample' = Some v'
                  /\ handleLabel v b = Return (v', b').
Proof.
  intros H Hk. apply handleFields_Forall2 in H.
  pose proof (lookup_Forall2
                (fun x x' => exists b1 b2, handleLabel x b1 = Return (x', b2))
                _ _ k H) as L. rewrite Hk in L.
  destruct L as (v' & Hk' & b & b' & Hl). eauto.
Qed.

Lemma handleLabels_no_field (sample sample' : record) (buffers : list value)
  (k : string) :
  handleLabels sample = Return (sample', buffers) ->
  lookup k sample = None -> lookup k sample' = None.
Proof.
  intros H Hk. apply handleFields_Forall2 in H.
  pose proof (lookup_Forall2
                (fun x x' => exists b1 b2, handleLabel x b1 = Return (x', b2))
                _ _ k H) as L. now rewrite Hk in L.
Qed.

(** C6.  After [handleLabels], a field whose value carries a recognised
    tag of a single label has [id] set to what its [_id] was and no [_id].
    A field whose value carries a recognised list-valued tag keeps its own
    [_id] and [id] as they were; the rewrite is applied to every element of
    its list instead. *)
Theorem labels_after_normalisation (sample sample' : record)
  (buffers : list value) (k : string) (ps : record) (key : string) :
  handleLabels sample = Return (sample', buffers) ->
  lookup k sample = Some (VObject ps) ->
  ToPropertyKey (get ps "_cls") = Return key ->
  LABELS key = true ->
  exists ps',
    lookup k sample' = Some (VObject ps')
    /\ match LABEL_LISTS key with
       | None =>
           lookup "id" ps' = Some (get ps "_id") /\ lookup "_id" ps' = None
       | Some f =>
           has_key "_id" ps' = has_key "_id" ps
           /\ (f <> "_id" -> lookup "_id" ps' = lookup "_id" ps)
           /\ (f <> "id" -> lookup "id" ps' = lookup "id" ps)
           /\ forall l, get ps f = VArray l ->
                exists l', get ps' f = VArray l' /\ Forall2 rewritten l l'
       end.
Proof.
  intros H Hk Hkey HL.
  destruct (handleLabels_field _ _ _ _ _ H Hk) as (v' & b & b' & Hk' & Hl).
  destruct (LABEL_LISTS key) as [f|] eqn:HLL.
  - destruct (handleLabel_list _ _ _ _ _ _ Hl Hkey HL HLL)
      as (ps' & -> & Hrest).
    exists ps'. split; [exact Hk' | exact Hrest].
  - destruct (handleLabel_single _ _ _ _ _ Hl Hkey HL HLL)
      as (ps' & -> & Hrest).
    exists ps'. split; [exact Hk' | exact Hrest].
Qed.

(* ===================================================================== *)
(** * What the normaliser does to a sample *)
(* ===================================================================== *)

Lemma handleSample_inv (sample sample' : record) (buffers : list value) :
  handleSample sample = Return (sample', buffers) ->
  exists sample1 b1 sample2,
    handleLabels sample = Return (sample1, b1)
    /\ sample' = mapId_props sample2
    /\ ((sample2 = sample1 /\ buffers = b1)
        \/ exists elems elems' more,
             get sample1 "frames" = VArray elems
             /\ handleFrames elems = Return (elems', more)
             /\ sample2 = set_prop "frames" (VArray elems') sample1
             /\ buffers = b1 ++ more).
Proof.
  unfold handleSample. intros H.
  inv_bind H. destruct a as [sample1 b1].
  inv_bind H. destruct a as [sample2 b2]. injection H as <- <-.
  exists sample1, b1, sample2. split; [exact Ha|]. split; [reflexivity|].
  destruct (ToBoolean (get sample1 "frames")
            && truthy_length (get sample1 "frames")).
  - destruct (get sample1 "frames") as [| | | | |elems| |]; try discriminate.
    inv_bind Ha0. destruct a as [elems' more]. injection Ha0 as <- <-.
    right. exists elems, elems', more. auto.
  - injection Ha0 as <- <-. auto.
Qed.

(** C2.  When a record with [_id] holding [x] has been normalised by
    [handleSample], it has no [_id], and its [id] holds [x] as the loop
    over the fields left it, which is [x] itself unless [x] is an object.
    Every other field whose value carries a recognised list-valued tag
    holds, under the list property of its tag, the elements of the list it
    held before, each with the rewrite applied. *)
Theorem identifier_rewrite (sample sample' : record) (buffers : list value)
  (x : value) :
  lookup "_id" sample = Some x ->
  handleSample sample = Return (sample', buffers) ->
  (exists x',
     lookup "id" sample' = Some x'
     /\ (exists b b', handleLabel x b = Return (x', b'))
     /\ ((forall ps, x <> VObject ps) -> x' = x))
  /\ lookup "_id" sample' = None
  /\ forall (k : string) (ps : record) (key f : string) (l : list value),
       k <> "id" -> k <> "_id" ->
       lookup k sample = Some (VObject ps) ->
       ToPropertyKey (get ps "_cls") = Return key ->
       LABELS key = true -> LABEL_LISTS key = Some f ->
       get ps f = VArray l ->
       exists ps' l',
         lookup k sample' = Some (VObject ps')
         /\ get ps' f = VArray l' /\ Forall2 rewritten l l'.
Proof.
  intros Hx H.
  destruct (handleSample_inv _ _ _ H)
    as (sample1 & b1 & sample2 & H1 & -> & Hframes).
  assert (Hother : forall k v, lookup k sample1 = Some v ->
                     (forall l, v <> VArray l) -> lookup k sample2 = Some v).
  { intros k v Hk Hv.
    destruct Hframes as [[-> _]|(elems & elems' & more & Hf & _ & -> & _)];
      [exact Hk|].
    destruct (String.eqb_spec "frames" k) as [<-|Hne].
    - unfold get in Hf. rewrite Hk in Hf. now elim (Hv elems).
    - now rewrite lookup_set_prop_other. }
  split; [|split].
  - destruct (handleLabels_field _ _ _ _ _ H1 Hx) as (x' & b & b' & Hx' & Hl).
    exists x'. split; [|split].
    + rewrite mapId_props_id. unfold get.
      destruct Hframes as [[-> _]|(elems & elems' & more & _ & _ & -> & _)].
      * now rewrite Hx'.
      * rewrite lookup_set_prop_other by discriminate. now rewrite Hx'.
    + eauto.
    + intros Hno. now destruct (handleLabel_not_object _ _ _ _ Hl Hno).
  - apply mapId_props__id.
  - intros k ps key f l Hk1 Hk2 Hk Hkey HL HLL Hl.
    destruct (handleLabels_field _ _ _ _ _ H1 Hk) as (v' & b & b' & Hk' & Hv).
    destruct (handleLabel_list _ _ _ _ _ _ Hv Hkey HL HLL)
      as (ps' & -> & _ & _ & _ & Hlist).
    destruct (Hlist l Hl) as (l' & Hl' & Hall).
    exists ps', l'. split; [|auto].
    rewrite mapId_props_other by assumption.
    apply Hother; [exact Hk' | discriminate].
Qed.

(* ===================================================================== *)
(** * Records that need no normalising *)
(* ===================================================================== *)

Lemma strip_id_object (ps : record) :
  strip_id (VObject ps) = VObject (strip_fields ps).
Proof. reflexivity. Qed.

Lemma strip_fields_cons (k : string) (x : value) (ps : record) :
  strip_fields ((k, x) :: ps) =
  if String.eqb k "id" then strip_fields ps
  else (k, strip_id x) :: strip_fields ps.
Proof. reflexivity. Qed.

Lemma strip_fields_set_prop (f : string) (v v' : value) (ps : record) :
  lookup f ps = Some v -> strip_id v' = strip_id v ->
  strip_fields (set_prop f v' ps) = strip_fields ps.
Proof.
  intros Hl Hs. induction ps as [|[k x] ps IH]; simpl in Hl; [discriminate|].
  cbn [set_prop]. destruct (String.eqb_spec f k) as [->|Hne].
  - injection Hl as ->. rewrite !strip_fields_cons.
    destruct (String.eqb k "id"); [reflexivity | now rewrite Hs].
  - rewrite !strip_fields_cons. rewrite (IH Hl). reflexivity.
Qed.

Lemma strip_fields_set_id (u : value) (ps : record) :
  strip_fields (set_prop "id" u ps) = strip_fields ps.
Proof.
  induction ps as [|[k x] ps IH]; [reflexivity|].
  cbn [set_prop]. destruct (String.eqb_spec "id" k) as [<-|Hne].
  - reflexivity.
  - rewrite !strip_fields_cons. now rewrite IH.
Qed.

Lemma delete_absent {A : Type} (k : string) (ps : list (string * A)) :
  has_key k ps = false -> delete k ps = ps.
Proof.
  unfold has_key, delete. induction ps as [|[k' v] ps IH]; simpl;
    [reflexivity|].
  destruct (String.eqb k k'); simpl; [discriminate|].
  intros H. now rewrite IH.
Qed.

Lemma strip_fields_mapId (ps : record) :
  has_key "_id" ps = false ->
  strip_fields (mapId_props ps) = strip_fields ps
  /\ lookup "id" (mapId_props ps) = Some VUndefined.
Proof.
  intros H. split.
  - unfold mapId_props. rewrite delete_absent.
    + apply strip_fields_set_id.
    + now rewrite has_key_set_prop.
  - rewrite mapId_props_id. unfold get. unfold has_key in H.
    now destruct (lookup "_id" ps).
Qed.

Lemma forallb_lookup (P : value -> bool) (ps : record) (k : string)
  (v : value) :
  forallb (fun kv => P (snd kv)) ps = true ->
  lookup k ps = Some v -> P v = true.
Proof.
  induction ps as [|[k' x] ps IH]; simpl; [discriminate|].
  intros H Hl. apply andb_true_iff in H. destruct H as [Hx Hps].
  destruct (String.eqb k k'); [now injection Hl as <- | now apply IH].
Qed.

Lemma set_prop_same_value {A : Type} (k : string) (v : A)
  (ps : list (string * A)) :
  lookup k ps = Some v -> set_prop k v ps = ps.
Proof.
  induction ps as [|[k' x] ps IH]; simpl; [discriminate|].
  destruct (String.eqb_spec k k') as [->|].
  - now intros [= ->].
  - intros H. now rewrite IH.
Qed.

Lemma clean_object (ps : record) :
  clean (VObject ps) ->
  has_key "_id" ps = false
  /\ (forall text, lookup "mask" ps <> Some (VString text))
  /\ forall k v, lookup k ps = Some v -> clean v.
Proof.
  intros [Hid Hmask]. simpl in Hid, Hmask.
  apply andb_true_iff in Hid. destruct Hid as [Hid Hids].
  apply andb_true_iff in Hmask. destruct Hmask as [Hmask Hmasks].
  split; [now apply negb_true_iff|]. split.
  - intros text E. rewrite E in Hmask. discriminate.
  - intros k v Hk. split; eapply forallb_lookup; eassumption.
Qed.

Lemma clean_array (elems : list value) :
  clean (VArray elems) -> Forall clean elems.
Proof.
  intros [Hid Hmask]. simpl in Hid, Hmask.
  rewrite forallb_forall in Hid, Hmask.
  apply Forall_forall. intros x Hx. split; auto.
Qed.

Lemma clean_fields (ps : record) :
  clean (VObject ps) -> Forall (fun kv => clean (snd kv)) ps.
Proof.
  intros [Hid Hmask]. simpl in Hid, Hmask.
  apply andb_true_iff in Hid. destruct Hid as [_ Hids].
  apply andb_true_iff in Hmask. destruct Hmask as [_ Hmasks].
  rewrite forallb_forall in Hids, Hmasks.
  apply Forall_forall. intros x Hx. split; auto.
Qed.

Lemma decode_mask_clean (d : value) (b : list value) (d' : value)
  (b' : list value) :
  clean d -> decode_mask d b = Return (d', b') -> d' = d /\ b' = b.
Proof.
  intros Hc H. destruct d as [| | | | | |q|]; simpl in H; try discriminate;
    try (now injection H as <- <-).
  destruct (clean_object q Hc) as (_ & Hm & _).
  unfold get in H. destruct (lookup "mask" q) as [[]|] eqn:E;
    try (now injection H as <- <-).
  now elim (Hm s).
Qed.

Lemma forEach_decode_clean (ds : list value) (b : list value)
  (ds' : list value) (b' : list value) :
  Forall clean ds -> forEach decode_mask ds b = Return (ds', b') ->
  ds' = ds /\ b' = b.
Proof.
  intros Hc. revert b ds' b'.
  induction Hc as [|d ds Hd Hds IH]; intros b ds' b' H; simpl in H.
  - now injection H as <- <-.
  - inv_bind H. destruct a as [d1 b1]. inv_bind H. destruct a as [ds1 b2].
    injection H as <- <-.
    destruct (decode_mask_clean _ _ _ _ Hd Ha) as [-> ->].
    destruct (IH _ _ _ Ha0) as [-> ->]. auto.
Qed.

Lemma DESERIALIZE_clean (key : string) (ps : record) (b : list value)
  (v1 : value) (b1 : list value) :
  clean (VObject ps) ->
  match DESERIALIZE key with
  | Some handler => handler (VObject ps) b
  | None => Return (VObject ps, b)
  end = Return (v1, b1) ->
  v1 = VObject ps /\ b1 = b.
Proof.
  intros Hc. unfold DESERIALIZE.
  destruct (String.eqb key "Detection"); [apply decode_mask_clean, Hc|].
  destruct (String.eqb key "Detections").
  - simpl. intros H.
    destruct (clean_object ps Hc) as (_ & _ & Hv).
    unfold get in H. destruct (lookup "detections" ps) as [[]|] eqn:E;
      try discriminate.
    inv_bind H. destruct a as [ds' b2]. injection H as <- <-.
    destruct (forEach_decode_clean _ _ _ _ (clean_array _ (Hv _ _ E)) Ha)
      as [-> ->].
    now rewrite (set_prop_same_value _ _ _ E).
  - destruct (String.eqb key "Segmentation"); [apply decode_mask_clean, Hc|].
    now intros [= <- <-].
Qed.

Lemma mapId_clean (e e' : value) :
  clean e -> mapId e = Return e' -> strip_id e' = strip_id e.
Proof.
  intros Hc H. destruct e as [| | | | | |q|]; simpl in H; try discriminate.
  injection H as <-. rewrite !strip_id_object.
  destruct (clean_object q Hc) as (Hid & _).
  now destruct (strip_fields_mapId q Hid) as [-> _].
Qed.

Lemma map_mapId_clean (items items' : list value) :
  Forall clean items -> map_mapId items = Return items' ->
  map strip_id items' = map strip_id items.
Proof.
  intros Hc. revert items'.
  induction Hc as [|e es He Hes IH]; intros items' H; simpl in H.
  - now injection H as <-.
  - inv_bind H. inv_bind H. injection H as <-. simpl.
    now rewrite (mapId_clean _ _ He Ha), (IH _ Ha0).
Qed.

Lemma handleLabel_clean (v : value) (b : list value) (v' : value)
  (b' : list value) :
  clean v -> handleLabel v b = Return (v', b') ->
  b' = b /\ strip_id v' = strip_id v.
Proof.
  intros Hc H.
  destruct v as [| | | | | |ps|];
    try (destruct (handleLabel_not_object _ _ _ _ H) as [-> ->];
         [intros; discriminate | auto]).
  unfold handleLabel in H. simpl in H.
  inv_bind H. rename a into key.
  destruct (inherited key); [discriminate|].
  inv_bind H. destruct a as [v1 b1].
  destruct (DESERIALIZE_clean _ _ _ _ _ Hc Ha0) as [-> ->].
  destruct (clean_object ps Hc) as (Hid & _ & Hv).
  destruct (LABELS key); [|now injection H as <- <-].
  destruct (LABEL_LISTS key) as [f|].
  - inv_bind H. injection H as <- <-. split; [reflexivity|].
    simpl in Ha1. unfold get in Ha1.
    destruct (lookup f ps) as [[]|] eqn:E; try (now injection Ha1 as <-).
    inv_bind Ha1. injection Ha1 as <-. rewrite !strip_id_object. f_equal.
    apply (strip_fields_set_prop f (VArray elems)); [exact E|].
    simpl. f_equal.
    apply map_mapId_clean; [|assumption].
    apply clean_array. eapply Hv. eassumption.
  - inv_bind H. injection H as <- <-. split; [reflexivity|].
    now apply mapId_clean.
Qed.

Lemma handleFields_clean (sample : record) (b : list value)
  (sample' : record) (b' : list value) :
  Forall (fun kv => clean (snd kv)) sample ->
  handleFields sample b = Return (sample', b') ->
  b' = b /\ strip_fields sample' = strip_fields sample.
Proof.
  intros Hc. revert b sample' b'.
  induction Hc as [|[k v] ps Hv Hps IH]; intros b sample' b' H; simpl in H.
  - now injection H as <- <-.
  - inv_bind H. destruct a as [v1 b1]. inv_bind H. destruct a as [ps1 b2].
    injection H as <- <-.
    destruct (handleLabel_clean _ _ _ _ Hv Ha) as [-> Hs].
    destruct (IH _ _ _ Ha0) as [-> Hss].
    split; [reflexivity|]. rewrite !strip_fields_cons. now rewrite Hs, Hss.
Qed.

Lemma handleLabels_frame_clean (frame frame' : value) (bs : list value) :
  clean frame -> handleLabels_frame frame = Return (frame', bs) ->
  bs = [] /\ strip_id frame' = strip_id frame.
Proof.
  intros Hc H.
  destruct frame as [| | | |[|c s]|[|x xs]|ps|]; simpl in H;
    try discriminate; try (now injection H as <- <-).
  inv_bind H. destruct a as [ps' b]. injection H as <- <-.
  destruct (handleFields_clean _ _ _ _ (clean_fields _ Hc) Ha) as [-> Hs].
  split; [reflexivity|]. rewrite !strip_id_object. now f_equal.
Qed.

Lemma handleFrames_clean (elems elems' more : list value) :
  Forall clean elems -> handleFrames elems = Return (elems', more) ->
  more = [] /\ map strip_id elems' = map strip_id elems.
Proof.
  intros Hc. revert elems' more.
  induction Hc as [|x xs Hx Hxs IH]; intros elems' more H; simpl in H.
  - now injection H as <- <-.
  - inv_bind H. destruct a as [x' b1]. inv_bind H. destruct a as [xs' b2].
    injection H as <- <-.
    destruct (handleLabels_frame_clean _ _ _ Hx Ha) as [-> Hs].
    destruct (IH _ _ Ha0) as [-> Hss].
    split; [reflexivity|]. simpl. now rewrite Hs, Hss.
Qed.

(** C7.  Let no object of a record have an [_id] property or a [mask]
    that is still text.  When [handleSample] returns, it returns no
    buffer, and the record differs from what it was in [id] properties
    only: its own [id] is [undefined], and with every [id] left out the
    record is what it was. *)
Theorem normalisation_without_identifiers (sample sample' : record)
  (buffers : list value) :
  no_internal_id (VObject sample) = true ->
  no_encoded_mask (VObject sample) = true ->
  handleSample sample = Return (sample', buffers) ->
  buffers = []
  /\ lookup "id" sample' = Some VUndefined
  /\ strip_id (VObject sample') = strip_id (VObject sample).
Proof.
  intros Hid Hmask H.
  assert (Hc : clean (VObject sample)) by (split; assumption).
  destruct (clean_object sample Hc) as (Hno & _ & Hv).
  destruct (handleSample_inv _ _ _ H)
    as (sample1 & b1 & sample2 & H1 & -> & Hframes).
  destruct (handleFields_clean _ _ _ _ (clean_fields _ Hc) H1) as [-> Hs1].
  assert (Hno1 : has_key "_id" sample1 = false).
  { unfold has_key in *.
    destruct (lookup "_id" sample) eqn:E; [discriminate|].
    now rewrite (handleLabels_no_field _ _ _ _ H1 E). }
  assert (H2 : buffers = [] /\ strip_fields sample2 = strip_fields sample
               /\ has_key "_id" sample2 = false).
  { destruct Hframes as [[-> ->]|(elems & elems' & more & Hf & Hfr & -> & ->)];
      [auto|].
    unfold get in Hf.
    destruct (lookup "frames" sample1) as [fr|] eqn:E1; [|discriminate].
    subst fr.
    assert (E : lookup "frames" sample = Some (VArray elems)).
    { destruct (lookup "frames" sample) as [v|] eqn:E.
      - destruct (handleLabels_field _ _ _ _ _ H1 E)
          as (v' & b & b' & E' & Hl).
        assert (v' = VArray elems) by congruence. subst v'.
        destruct v as [| | | | | |ps|];
          try (destruct (handleLabel_not_object _ _ _ _ Hl) as [-> _];
               [intros; discriminate | reflexivity]).
        destruct (handleLabel_object_object _ _ _ _ Hl). discriminate.
      - rewrite (handleLabels_no_field _ _ _ _ H1 E) in E1. discriminate. }
    destruct (handleFrames_clean _ _ _ (clean_array _ (Hv _ _ E)) Hfr)
      as [-> Hss].
    split; [reflexivity|]. split.
    - rewrite <- Hs1. apply (strip_fields_set_prop _ (VArray elems));
        [exact E1|]. simpl. now f_equal.
    - now rewrite has_key_set_prop. }
  destruct H2 as (-> & Hs2 & Hno2).
  destruct (strip_fields_mapId sample2 Hno2) as [Hs Hl].
  split; [reflexivity|]. split; [exact Hl|].
  rewrite !strip_id_object. f_equal. congruence.
Qed.

Lemma run_reachable (es : list event) (w w' : Worker) :
  reachable w -> run w es = Some w' -> reachable w'.
Proof.
  revert w. induction es as [|e es IH]; intros w Hw H; simpl in H.
  - now injection H as <-.
  - destruct (step w e) as [w1|] eqn:Hstep; [|discriminate].
    eapply IH; [|exact H]. econstructor; eassumption.
Qed.

(* ===================================================================== *)
(** * Further properties of the label normaliser *)
(* ===================================================================== *)

(** ** The fields of a normalised record *)

Lemma keys_set_prop {A : Type} (k : string) (v : A) (ps : list (string * A)) :
  map fst (set_prop k v ps)
  = if has_key k ps then map fst ps else map fst ps ++ [k].
Proof.
  induction ps as [|[k' v'] ps IH]; simpl; [reflexivity|].
  unfold has_key in *. simpl.
  destruct (String.eqb k k') eqn:E.
  - apply String.eqb_eq in E. subst. reflexivity.
  - simpl. rewrite IH. destruct (lookup k ps); reflexivity.
Qed.

Lemma keys_delete {A : Type} (k : string) (ps : list (string * A)) :
  map fst (delete k ps)
  = filter (fun k' => negb (String.eqb k k')) (map fst ps).
Proof.
  unfold delete. induction ps as [|[k' v'] ps IH]; simpl; [reflexivity|].
  destruct (String.eqb k k'); simpl; now rewrite IH.
Qed.

Lemma has_key_keys {A B : Type} (k : string) (ps : list (string * A))
  (ps' : list (string * B)) :
  map fst ps' = map fst ps -> has_key k ps' = has_key k ps.
Proof.
  revert ps'. induction ps as [|[k1 v1] ps IH]; intros [|[k2 v2] ps'] H;
    simpl in H; try discriminate; [reflexivity|].
  injection H as -> H. unfold has_key in *. simpl.
  destruct (String.eqb k k1); [reflexivity|]. now apply IH.
Qed.

Lemma handleFields_keys (sample sample' : record) (b b' : list value) :
  handleFields sample b = Return (sample', b') ->
  map fst sample' = map fst sample.
Proof.
  intros H. apply handleFields_Forall2 in H.
  induction H as [|[k v] [k' v'] ps ps' [Hk _] _ IH]; simpl in *;
    [reflexivity|].
  now rewrite Hk, IH.
Qed.

(** X1.  Normalisation keeps the fields of a record and their order:
    [handleLabels] returns a record with the same field names, and
    [handleSample] one whose field names are those of the input with [_id]
    dropped and with [id] added at the end unless the input has an [id]
    already. *)
Theorem normalisation_keeps_fields (sample sample' : record)
  (buffers : list value) :
  (handleLabels sample = Return (sample', buffers) ->
   map fst sample' = map fst sample)
  /\ (handleSample sample = Return (sample', buffers) ->
      map fst sample'
      = filter (fun k => negb (String.eqb "_id" k))
          (if has_key "id" sample then map fst sample
           else map fst sample ++ ["id"])).
Proof.
  split.
  - apply handleFields_keys.
  - intros H.
    destruct (handleSample_inv _ _ _ H)
      as (s1 & b1 & s2 & H1 & -> & Hf).
    apply handleFields_keys in H1.
    assert (H2 : map fst s2 = map fst sample).
    { destruct Hf as [[-> _] | (elems & elems' & more & Hg & _ & -> & _)];
        [exact H1|].
      rewrite keys_set_prop.
      unfold has_key. unfold get in Hg.
      destruct (lookup "frames" s1); [exact H1 | discriminate]. }
    unfold mapId_props. rewrite keys_delete, keys_set_prop.
    rewrite (has_key_keys "id" sample s2 H2), H2. reflexivity.
Qed.

(** ** Fields that hold no recognised label *)

(** X2.  [handleLabels] leaves alone every field that does not hold a
    label of a kind it knows: a value that is not an object, and an object
    whose [_cls] is a key neither of [DESERIALIZE] nor of [LABELS].  It does
    not look inside such a value. *)
Theorem unrecognised_field_unchanged (sample sample' : record)
  (buffers : list value) (k : string) (v : value) :
  handleLabels sample = Return (sample', buffers) ->
  lookup k sample = Some v ->
  (forall ps key,
      v = VObject ps -> ToPropertyKey (get ps "_cls") = Return key ->
      DESERIALIZE key = None /\ LABELS key = false) ->
  lookup k sample' = Some v.
Proof.
  intros H Hk Hv.
  destruct (handleLabels_field _ _ _ _ _ H Hk) as (v' & b & b' & Hl & Hh).
  rewrite Hl. f_equal.
  destruct v as [| | | | | |ps|];
    try (apply handleLabel_not_object in Hh;
         [exact (proj1 Hh) | intros ps0; discriminate]).
  unfold handleLabel in Hh. simpl in Hh.
  destruct (ToPropertyKey (get ps "_cls")) as [key| |] eqn:Ek;
    simpl in Hh; try discriminate.
  destruct (Hv ps key eq_refl Ek) as [HD HL].
  destruct (inherited key); [discriminate|].
  rewrite HD, HL in Hh. simpl in Hh. now injection Hh as <- _.
Qed.

(** ** Normalising twice *)

(** X3.  Normalisation is not idempotent.  A record that [handleSample]
    has returned has no [_id] left, so that a second [handleSample] stores
    [undefined] as its [id]. *)
Theorem normalising_twice_erases_id (sample s1 s2 : record)
  (b1 b2 : list value) :
  handleSample sample = Return (s1, b1) ->
  handleSample s1 = Return (s2, b2) ->
  lookup "_id" s1 = None
  /\ lookup "id" s2 = Some VUndefined
  /\ lookup "_id" s2 = None.
Proof.
  intros H1 H2.
  destruct (handleSample_inv _ _ _ H1) as (t1 & c1 & t2 & _ & -> & _).
  destruct (handleSample_inv _ _ _ H2) as (u1 & d1 & u2 & Hu & -> & Hf).
  split; [apply mapId_props__id|]. split; [|apply mapId_props__id].
  rewrite mapId_props_id. f_equal.
  assert (Hn : lookup "_id" u1 = None).
  { eapply handleLabels_no_field; [exact Hu | apply mapId_props__id]. }
  unfold get.
  destruct Hf as [[-> _] | (elems & elems' & more & _ & _ & -> & _)].
  - now rewrite Hn.
  - rewrite lookup_set_prop_other; [now rewrite Hn | discriminate].
Qed.

(** ** The frames of a sample *)

Lemma handleFrames_Forall2 (elems elems' more : list value) :
  handleFrames elems = Return (elems', more) ->
  Forall2 (fun x x' => exists b, handleLabels_frame x = Return (x', b))
    elems elems'.
Proof.
  revert elems' more. induction elems as [|x xs IH]; intros xs' more H;
    simpl in H.
  - injection H as <- <-. constructor.
  - inv_bind H. destruct a as [x' bx]. inv_bind H. destruct a as [r' br].
    injection H as <- <-.
    constructor; [exists bx; exact Ha | eapply IH; exact Ha0].
Qed.

(** X4.  [handleSample] normalises the labels of every frame of a sample
    that carries its frames: each element of [sample.frames] is replaced by
    what [handleLabels] makes of it. *)
Theorem sample_frames_normalised (sample sample' : record)
  (buffers : list value) (x : value) (xs : list value) :
  handleSample sample = Return (sample', buffers) ->
  lookup "frames" sample = Some (VArray (x :: xs)) ->
  exists elems',
    lookup "frames" sample' = Some (VArray elems')
    /\ Forall2 (fun y y' => exists b, handleLabels_frame y = Return (y', b))
         (x :: xs) elems'.
Proof.
  intros H Hk. unfold handleSample in H.
  inv_bind H. destruct a as [s1 b1].
  destruct (handleLabels_field _ _ _ _ _ Ha Hk) as (v' & b & b' & Hl & Hh).
  apply handleLabel_not_object in Hh; [|intros ps0; discriminate].
  destruct Hh as [-> _].
  cbv beta iota zeta in H. unfold get in H. rewrite Hl in H.
  simpl in H. inv_bind H. destruct a as [s2 b2].
  inv_bind Ha0. destruct a as [elems' more].
  injection Ha0 as <- <-. injection H as <- _.
  exists elems'. split.
  - rewrite mapId_props_other; [|discriminate|discriminate].
    apply lookup_set_prop_same.
  - eapply handleFrames_Forall2. exact Ha1.
Qed.

(** X5.  The two loops over frames agree: the loop of [getSendChunk],
    which appends the buffers of each frame to those collected so far, and
    the [map] followed by [flat] of [handleSample] yield the same frames,
    the same buffers in the same order, and the same exception. *)
Theorem collectFrames_handleFrames (elems : list value) (buffers : list value) :
  collectFrames elems buffers
  = (' (elems', more) <- handleFrames elems ;;
     Return (elems', buffers ++ more)).
Proof.
  revert buffers. induction elems as [|x xs IH]; intros buffers; simpl.
  - now rewrite app_nil_r.
  - destruct (handleLabels_frame x) as [[x' bx]| |]; simpl; try reflexivity.
    rewrite IH.
    destruct (handleFrames xs) as [[xs' bs]| |]; simpl; try reflexivity.
    now rewrite app_assoc.
Qed.

(** ** A mask that the codec rejects *)

Lemma handleFields_app (xs ys : record) (b : list value) :
  handleFields (xs ++ ys) b
  = (' (xs', b1) <- handleFields xs b ;;
     ' (ys', b2) <- handleFields ys b1 ;;
     Return (xs' ++ ys', b2)).
Proof.
  revert b. induction xs as [|[k v] xs IH]; intros b; simpl.
  - destruct (handleFields ys b) as [[ys' b2]| |]; reflexivity.
  - destruct (handleLabel v b) as [[v' b1]| |]; simpl; try reflexivity.
    rewrite IH.
    destruct (handleFields xs b1) as [[xs' b2]| |]; simpl; try reflexivity.
    destruct (handleFields ys b2) as [[ys' b3]| |]; reflexivity.
Qed.

(** X6.  A sample in which a detection or a segmentation has a mask that
    [deserialize] rejects is not answered.  When the fields before that
    label are normalised without an exception, [handleSample] throws what
    the codec threw, the exception escapes [onmessage], and the worker
    posts no message and stays as it was. *)
Theorem undecodable_mask_no_answer (a : Args) (w : Worker)
  (before rest before' : record) (b0 : list value) (k : string) (ps : record)
  (cls text : string) :
  sample a = before ++ (k, VObject ps) :: rest ->
  handleLabels before = Return (before', b0) ->
  get ps "_cls" = VString cls ->
  cls = "Detection" \/ cls = "Segmentation" ->
  get ps "mask" = VString text ->
  deserialize text = None ->
  handleSample (sample a) = Throw DecodeError
  /\ onmessage w {| method := "processSample"; args := a |}
     = Throw DecodeError
  /\ step w (Message {| method := "processSample"; args := a |}) = Some w.
Proof.
  intros Hs Hb Hc Hcls Hm Hd.
  assert (Hl : forall b, handleLabel (VObject ps) b = Throw DecodeError).
  { intros b. unfold handleLabel. simpl. rewrite Hc. simpl.
    assert (Hi : inherited cls = false /\ DESERIALIZE cls = Some decode_mask)
      by (destruct Hcls as [-> | ->]; split; reflexivity).
    destruct Hi as [-> ->]. simpl. rewrite Hm, Hd. reflexivity. }
  assert (Hh : handleSample (sample a) = Throw DecodeError).
  { unfold handleSample, handleLabels. rewrite Hs, handleFields_app.
    unfold handleLabels in Hb. rewrite Hb. simpl. rewrite Hl. reflexivity. }
  split; [exact Hh|].
  assert (Ho : onmessage w {| method := "processSample"; args := a |}
               = Throw DecodeError).
  { unfold onmessage, processSample. simpl. rewrite Hh. reflexivity. }
  split; [exact Ho|]. unfold step. now rewrite Ho.
Qed.

(* ===================================================================== *)
(** * Further properties of the chunked frame source *)
(* ===================================================================== *)

(** ** A stream for which no frame remains *)

Lemma new_stream_without_frames (a : Args) :
  (arg_frameCount a <= arg_frameNumber a)%Z ->
  (state (new_stream a) = closed /\ fetched (new_stream a) = []
   /\ inflight (new_stream a) = [] /\ queue (new_stream a) = []
   /\ readRequests (new_stream a) = [])
  /\ snd (read (uuid a)
            (createReader CHUNK_SIZE (arg_frameCount a) (arg_frameNumber a)
               (arg_sampleId a) (arg_source a) (arg_url a))) = []
  /\ snd (CallPullIfNeeded
            (set_started true
               (fst (read (uuid a)
                       (createReader CHUNK_SIZE (arg_frameCount a)
                          (arg_frameNumber a) (arg_sampleId a) (arg_source a)
                          (arg_url a)))))) = [(uuid a, ReadDone)].
Proof.
  intros Hle. apply Z.leb_le in Hle.
  unfold new_stream, read, CallPullIfNeeded, CallPullIfNeeded_step,
    ShouldCallPull, CanCloseOrEnqueue, pull, ControllerClose,
    ReadableStreamClose, pullFulfilled.
  simpl. rewrite Hle. simpl. repeat split; reflexivity.
Qed.

(** X7.  [setStream] for a range without frames ([frameNumber >=
    frameCount]) sends no request and posts no message: the first [pull]
    closes the stream, and the first read ends with [done: true], on which
    [getSendChunk] does nothing. *)
Theorem setStream_without_frames (a : Args) (w : Worker) :
  (arg_frameCount a <= arg_frameNumber a)%Z ->
  exists s : FrameStream,
    setStream a w
    = Return {| stream := Some (List.length (cancel_current w));
                streamId := Some (uuid a);
                streams := cancel_current w ++ [s];
                sampleRequests := sampleRequests w;
                posted := posted w |}
    /\ state s = closed /\ fetched s = [] /\ inflight s = []
    /\ queue s = [] /\ readRequests s = [].
Proof.
  intros Hle. destruct (new_stream_without_frames a Hle) as (E & D1 & D2).
  unfold new_stream in E. unfold setStream.
  destruct (read (uuid a) _) as [s1 ds1]. simpl in *.
  destruct (CallPullIfNeeded (set_started true s1)) as [s2 ds2]. simpl in *.
  subst ds1 ds2. simpl. rewrite app_nil_r.
  exists s2. split; [reflexivity | exact E].
Qed.

(** ** A request that fails *)

(** X8.  When the request of a source fails, the failure is not reported
    to the host.  The stream errors: the chunks it had buffered are
    dropped, the reads that were waiting are rejected without a message,
    and from then on a read yields nothing, so that every later
    [requestFrameChunk] for the session leaves the worker as it is. *)
Theorem failed_request_silences_session (w : Worker) (i : nat)
  (s : FrameStream) (r : FramesRequest) (rest : list FramesRequest) :
  nth_error (streams w) i = Some s ->
  inflight s = r :: rest ->
  state s = readable ->
  exists (w' : Worker) (s' : FrameStream),
    step w (FramesFailure i) = Some w'
    /\ posted w' = posted w
    /\ stream w' = stream w /\ streamId w' = streamId w
    /\ nth_error (streams w') i = Some s'
    /\ state s' = errored /\ queue s' = [] /\ readRequests s' = []
    /\ fetched s' = fetched s /\ inflight s' = rest
    /\ (forall u, read u s' = (s', []))
    /\ (forall data,
           method data = "requestFrameChunk" -> stream w = Some i ->
           onmessage w' data = Return w').
Proof.
  intros Hi Hin Hst.
  pose (s' := ControllerError (set_inflight rest s)).
  assert (Hs' : state s' = errored /\ queue s' = [] /\ readRequests s' = []
                /\ fetched s' = fetched s /\ inflight s' = rest).
  { unfold s', ControllerError, is_readable. simpl. rewrite Hst. simpl.
    repeat split; reflexivity. }
  destruct Hs' as (E1 & E2 & E3 & E4 & E5).
  assert (Hread : forall u, read u s' = (s', []))
    by (intros u; unfold read; now rewrite E1).
  assert (Hw' : exists w',
             w' = with_stream i s' (posted w) w
             /\ posted w' = posted w /\ stream w' = stream w
             /\ streamId w' = streamId w
             /\ nth_error (streams w') i = Some s').
  { eexists. split; [reflexivity|]. repeat split; try reflexivity.
    simpl. eapply nth_error_update_same. exact Hi. }
  destruct Hw' as (w' & Ew & P1 & P2 & P3 & Hi').
  exists w', s'.
  split; [unfold step; rewrite Hi, Hin; simpl; now rewrite Ew|].
  split; [exact P1|]. split; [exact P2|]. split; [exact P3|].
  split; [exact Hi'|].
  split; [exact E1|]. split; [exact E2|]. split; [exact E3|].
  split; [exact E4|]. split; [exact E5|]. split; [exact Hread|].
  clear Ew. intros data Hm Hcur.
  unfold onmessage. rewrite Hm. simpl. unfold requestFrameChunk.
  rewrite P3, P2, Hcur.
  destruct (streamId w) as [id|]; [|reflexivity].
  destruct (String.eqb (uuid (args data)) id); [|reflexivity].
  rewrite Hi', Hread. simpl.
  f_equal. apply with_stream_same. exact Hi'.
Qed.

(** ** The requests that a source sends *)

Lemma sends_refl s : sends s s.
Proof.
  split; [reflexivity|]. exists []. rewrite app_nil_r.
  split; [reflexivity | constructor].
Qed.

Lemma request_in_bounds_settings (s s' : FrameStream) (r : FramesRequest) :
  settings s' = settings s -> request_in_bounds s' r -> request_in_bounds s r.
Proof.
  unfold settings, request_in_bounds. intros E. injection E as -> -> -> -> ->.
  auto.
Qed.

Lemma sends_trans s1 s2 s3 : sends s1 s2 -> sends s2 s3 -> sends s1 s3.
Proof.
  intros [E1 (rs1 & F1 & B1)] [E2 (rs2 & F2 & B2)].
  split; [congruence|]. exists (rs1 ++ rs2).
  split; [rewrite F2, F1; now rewrite app_assoc|].
  apply Forall_app. split; [exact B1|].
  eapply Forall_impl; [|exact B2].
  intros r. now apply request_in_bounds_settings.
Qed.

Ltac sends_setters :=
  unfold sends, settings; simpl; split;
  [reflexivity
  | exists []; rewrite app_nil_r; split; [reflexivity | constructor]].

Lemma ReadableStreamClose_sends s : sends s (fst (ReadableStreamClose s)).
Proof. sends_setters. Qed.

Lemma ControllerClose_sends s : sends s (fst (ControllerClose s)).
Proof.
  unfold ControllerClose. simpl. destruct (queue s); simpl; sends_setters.
Qed.

Lemma ControllerError_sends s : sends s (ControllerError s).
Proof.
  unfold ControllerError.
  destruct (is_readable s); [sends_setters | apply sends_refl].
Qed.

Lemma pull_sends s : sends s (fst (fst (pull s))).
Proof.
  unfold pull.
  destruct ((frameCount s <=? frameNumber s)%Z || cancelled s) eqn:T.
  - destruct (CanCloseOrEnqueue s); [|apply sends_refl].
    assert (H := ControllerClose_sends s).
    destruct (ControllerClose s) as [s1 ds]. exact H.
  - apply orb_false_iff in T. destruct T as [T _]. apply Z.leb_gt in T.
    simpl. split; [reflexivity|]. exists [request_of s].
    split; [reflexivity|]. constructor; [|constructor].
    unfold request_in_bounds, request_of. simpl.
    repeat split; try reflexivity. exact T.
Qed.

Lemma pullFulfilled_sends (again : FrameStream -> FrameStream * list delivery)
  (s : FrameStream) :
  (forall t, sends t (fst (again t))) ->
  sends s (fst (pullFulfilled again s)).
Proof.
  intros Hagain. unfold pullFulfilled. simpl.
  destruct (pullAgain s); simpl; [|sends_setters].
  refine (sends_trans _ _ _ _ (Hagain _)). sends_setters.
Qed.

Lemma CallPullIfNeeded_step_sends
  (again : FrameStream -> FrameStream * list delivery) (s : FrameStream) :
  (forall t, sends t (fst (again t))) ->
  sends s (fst (CallPullIfNeeded_step again s)).
Proof.
  intros Hagain. unfold CallPullIfNeeded_step.
  destruct (ShouldCallPull s); simpl; [|apply sends_refl].
  destruct (pulling s); simpl; [sends_setters|].
  assert (H0 : sends s (set_pulling true s)) by sends_setters.
  assert (H1 := pull_sends (set_pulling true s)).
  destruct (pull (set_pulling true s)) as [[s1 ds] p]. simpl in H1.
  destruct p; simpl.
  - assert (H2 := pullFulfilled_sends again s1 Hagain).
    destruct (pullFulfilled again s1) as [s2 ds']. simpl in *.
    exact (sends_trans _ _ _ (sends_trans _ _ _ H0 H1) H2).
  - exact (sends_trans _ _ _ (sends_trans _ _ _ H0 H1)
             (ControllerError_sends _)).
  - exact (sends_trans _ _ _ H0 H1).
Qed.

Lemma CallPullIfNeeded_sends s : sends s (fst (CallPullIfNeeded s)).
Proof.
  apply CallPullIfNeeded_step_sends. intros t. apply sends_refl.
Qed.

Lemma read_sends (u : string) (s : FrameStream) : sends s (fst (read u s)).
Proof.
  unfold read. destruct (state s); simpl; try apply sends_refl.
  destruct (queue s) as [|chunk rest].
  - refine (sends_trans _ _ _ _ (CallPullIfNeeded_sends _)). sends_setters.
  - assert (H0 : sends s (set_queue rest s)) by sends_setters.
    assert (H1 := CallPullIfNeeded_sends (set_queue rest s)).
    assert (H2 := ReadableStreamClose_sends (set_queue rest s)).
    destruct rest; simpl.
    + destruct (closeRequested s).
      * destruct (ReadableStreamClose _); simpl in *.
        exact (sends_trans _ _ _ H0 H2).
      * destruct (CallPullIfNeeded _); simpl in *.
        exact (sends_trans _ _ _ H0 H1).
    + destruct (CallPullIfNeeded _); simpl in *.
      exact (sends_trans _ _ _ H0 H1).
Qed.

Lemma receive_sends (chunk : FrameChunk) (s : FrameStream) :
  sends s (fst (receive chunk s)).
Proof.
  unfold receive.
  destruct (CanCloseOrEnqueue s); [|apply ControllerError_sends].
  assert (H1 : sends s
                 (fst (match readRequests s with
                       | uuid :: rest =>
                           (set_readRequests rest s,
                            [(uuid, ReadValue {| frames := frames chunk;
                                                 range := range chunk |})])
                       | [] =>
                           (set_queue
                              (queue s ++ [{| frames := frames chunk;
                                              range := range chunk |}]) s,
                            [])
                       end)))
    by (destruct (readRequests s); simpl; sends_setters).
  destruct (match readRequests s with
            | uuid :: rest => _
            | [] => _
            end) as [s1 ds1].
  simpl in H1.
  assert (H2 := CallPullIfNeeded_sends s1).
  destruct (CallPullIfNeeded s1) as [s2 ds2]. simpl in H2.
  assert (H3 : sends s2 (set_frameNumber (snd (range chunk) + 1) s2))
    by sends_setters.
  assert (H4 := pullFulfilled_sends CallPullIfNeeded
                  (set_frameNumber (snd (range chunk) + 1) s2)
                  CallPullIfNeeded_sends).
  destruct (pullFulfilled CallPullIfNeeded _) as [s4 ds4]. simpl in *.
  exact (sends_trans _ _ _ (sends_trans _ _ _ (sends_trans _ _ _ H1 H2) H3) H4).
Qed.

Lemma stream_op_sends (s s' : FrameStream) : stream_op s s' -> sends s s'.
Proof.
  intros [ | |u|chunk r rest Hin|r rest Hin].
  - apply sends_refl.
  - sends_setters.
  - apply read_sends.
  - refine (sends_trans _ _ _ _ (receive_sends _ _)). sends_setters.
  - refine (sends_trans _ _ _ _ (ControllerError_sends _)). sends_setters.
Qed.

(** X9.  A source never asks for frames beyond the end.  In every state
    the worker reaches, every request that a stream has sent asked for a
    frame number below the frame count, for [CHUNK_SIZE] frames, and with
    the frame count, sample, source flag and address that [setStream] gave
    the stream. *)
Theorem requests_within_bounds (w : Worker) (i : nat) (s : FrameStream)
  (r : FramesRequest) :
  reachable w ->
  nth_error (streams w) i = Some s ->
  In r (fetched s) ->
  (q_frameNumber r < q_frameCount r)%Z
  /\ q_numFrames r = CHUNK_SIZE
  /\ q_frameCount r = frameCount s /\ q_sampleId r = sampleId s
  /\ q_source r = source s /\ q_url r = url s.
Proof.
  intros Hw Hi Hr.
  assert (P : chunkSize s = CHUNK_SIZE
              /\ Forall (request_in_bounds s) (fetched s)).
  { clear Hr. revert w Hw i s Hi.
    apply (reachable_streams
             (fun s => chunkSize s = CHUNK_SIZE
                       /\ Forall (request_in_bounds s) (fetched s))).
    - intros a. unfold new_stream.
      set (s0 := createReader CHUNK_SIZE (arg_frameCount a)
                   (arg_frameNumber a) (arg_sampleId a) (arg_source a)
                   (arg_url a)).
      assert (H1 := read_sends (uuid a) s0).
      assert (H2 : forall t, sends t (set_started true t))
        by (intros t; sends_setters).
      specialize (H2 (fst (read (uuid a) s0))).
      assert (H3 := CallPullIfNeeded_sends
                      (set_started true (fst (read (uuid a) s0)))).
      destruct (sends_trans _ _ _ (sends_trans _ _ _ H1 H2) H3)
        as [E (rs & F & B)].
      split.
      + unfold settings in E. injection E as E1 _ _ _ _. exact E1.
      + rewrite F. simpl. eapply Forall_impl; [|exact B].
        intros q. apply request_in_bounds_settings. now symmetry.
    - intros t t' [Hc Hf] Hop. apply stream_op_sends in Hop.
      destruct Hop as [E (rs & F & B)]. split.
      + unfold settings in E. injection E as -> _ _ _ _. exact Hc.
      + rewrite F. apply Forall_app. split.
        * eapply Forall_impl; [|exact Hf].
          intros q. apply request_in_bounds_settings. now symmetry.
        * eapply Forall_impl; [|exact B].
          intros q. apply request_in_bounds_settings. now symmetry. }
  destruct P as [Hc Hf].
  rewrite Forall_forall in Hf.
  destruct (Hf r Hr) as (A1 & A2 & A3 & A4 & A5 & A6).
  rewrite <- Hc. repeat split; assumption.
Qed.

(** ** The sources that a session leaves behind *)

Lemma onmessage_session (w w' : Worker) (data : MessageData) :
  onmessage w data = Return w' ->
  (stream w' = stream w /\ streamId w' = streamId w
   /\ List.length (streams w') = List.length (streams w))
  \/ (exists s,
         stream w' = Some (List.length (streams w))
         /\ streamId w' = Some (uuid (args data))
         /\ streams w' = cancel_current w ++ [s]).
Proof.
  intros H. unfold onmessage in H.
  destruct (String.eqb (method data) "processSample").
  { unfold processSample in H. inv_bind H. destruct a as [s1 b1].
    injection H as <-. left. simpl. auto. }
  destruct (String.eqb (method data) "requestFrameChunk").
  { unfold requestFrameChunk in H. left.
    assert (Hsame : Return w = Return w' ->
              stream w' = stream w /\ streamId w' = streamId w
              /\ List.length (streams w') = List.length (streams w))
      by (intros E; injection E as <-; auto).
    destruct (streamId w) as [id|] eqn:Hid; [|now apply Hsame].
    destruct (String.eqb (uuid (args data)) id); [|now apply Hsame].
    destruct (stream w) as [j|] eqn:Hcur; [|now apply Hsame].
    destruct (nth_error (streams w) j) as [sj|]; [|now apply Hsame].
    destruct (read (uuid (args data)) sj) as [sj' ds].
    inv_bind H. injection H as <-. simpl.
    split; [exact Hcur|]. split; [exact Hid|]. apply update_length. }
  destruct (String.eqb (method data) "setStream").
  { unfold setStream in H.
    destruct (read _ _) as [s1 ds1]. destruct (CallPullIfNeeded _) as [s2 ds2].
    inv_bind H. injection H as <-. right. exists s2. simpl.
    rewrite cancel_current_length. auto. }
  destruct (String.eqb (method data) "requestSourceSample").
  { unfold requestSourceSample in H. injection H as <-. left. simpl. auto. }
  discriminate.
Qed.

Lemma step_session (w w' : Worker) (e : event) :
  step w e = Some w' ->
  (stream w' = stream w /\ streamId w' = streamId w
   /\ List.length (streams w') = List.length (streams w))
  \/ (exists s u,
         stream w' = Some (List.length (streams w))
         /\ streamId w' = Some u
         /\ streams w' = cancel_current w ++ [s]).
Proof.
  intros H. destruct e as [data|j chunk|j|k smp|k]; simpl in H.
  - destruct (onmessage w data) as [w1|err|] eqn:Hm; try discriminate.
    + injection H as <-.
      destruct (onmessage_session _ _ _ Hm) as [Hs | (s & Hs)];
        [left; exact Hs | right; eauto].
    + injection H as <-. left. auto.
  - destruct (nth_error (streams w) j) as [sj|]; [|discriminate].
    destruct (inflight sj) as [|r rest]; [discriminate|].
    destruct (receive chunk (set_inflight rest sj)) as [sj' ds].
    destruct (deliver ds (posted w)) as [out|]; [|discriminate].
    injection H as <-. left. simpl.
    repeat split; try reflexivity. apply update_length.
  - destruct (nth_error (streams w) j) as [sj|]; [|discriminate].
    destruct (inflight sj) as [|r rest]; [discriminate|].
    unfold pullRejected in H. simpl in H.
    injection H as <-. left. simpl.
    repeat split; try reflexivity. apply update_length.
  - destruct (nth_error (sampleRequests w) k) as [r|]; [|discriminate].
    destruct (sourceSample r smp (posted w)); try discriminate;
      injection H as <-; left; simpl; auto.
  - destruct (nth_error (sampleRequests w) k) as [r|]; [|discriminate].
    injection H as <-. left. simpl. auto.
Qed.

(** X10.  At most one source is live.  In every state the worker reaches,
    [stream] and [streamId] are set together; the current stream is the
    one created last, and every stream created before it has been
    cancelled. *)
Theorem superseded_sources_cancelled (w : Worker) :
  reachable w ->
  (stream w = None -> streamId w = None /\ streams w = [])
  /\ forall i : nat,
       stream w = Some i ->
       S i = List.length (streams w)
       /\ (exists u, streamId w = Some u)
       /\ forall (j : nat) (s : FrameStream),
            j <> i -> nth_error (streams w) j = Some s -> cancelled s = true.
Proof.
  induction 1 as [|w e w' Hw IH Hstep].
  - split; [auto | discriminate].
  - destruct IH as [IHn IHs].
    destruct (step_session _ _ _ Hstep)
      as [(E1 & E2 & E3) | (s & u & E1 & E2 & E3)].
    + rewrite E1, E2. split.
      * intros Hn. destruct (IHn Hn) as [Hid Hss]. split; [exact Hid|].
        rewrite Hss in E3. now destruct (streams w').
      * intros i Hi. destruct (IHs i Hi) as (Hlen & Hu & Hc).
        split; [congruence|]. split; [exact Hu|].
        intros j t Hne Hj.
        assert (Hj0 : (j < List.length (streams w))%nat).
        { rewrite <- E3. apply nth_error_Some. congruence. }
        apply nth_error_Some in Hj0.
        destruct (nth_error (streams w) j) as [t0|] eqn:Hj1; [|congruence].
        destruct (step_streams _ _ _ _ _ Hstep Hj1) as (t' & Hj' & Hop).
        rewrite Hj in Hj'. injection Hj' as <-.
        exact (proj1 (stream_op_cancelled _ _ (Hc j t0 Hne Hj1) Hop)).
    + rewrite E1, E2, E3. split; [discriminate|].
      intros i Hi. injection Hi as <-.
      split; [rewrite length_app, cancel_current_length; simpl; lia|].
      split; [eauto|].
      intros j t Hne Hj.
      assert (Hlt : (j < List.length (cancel_current w))%nat).
      { assert (Hj0 : (j < List.length (cancel_current w ++ [s]))%nat)
          by (apply nth_error_Some; congruence).
        rewrite length_app in Hj0. simpl in Hj0.
        rewrite cancel_current_length in *. lia. }
      rewrite nth_error_app1 in Hj by exact Hlt.
      unfold cancel_current in Hj.
      destruct (stream w) as [i|] eqn:Hcur.
      * destruct (IHs i eq_refl) as (Hlen & _ & Hc).
        destruct (nth_error (streams w) i) as [si|] eqn:Hsi.
        -- rewrite nth_error_update in Hj.
           destruct (Nat.eqb_spec j i) as [->|Hji].
           ++ rewrite Hsi in Hj. injection Hj as <-. reflexivity.
           ++ exact (Hc j t Hji Hj).
        -- apply nth_error_None in Hsi. lia.
      * destruct (IHn eq_refl) as [_ Hss]. rewrite Hss in Hj.
        destruct j; discriminate.
Qed.

(** ** Reads and their answers *)

Lemma serves_refl (s : FrameStream) : serves [] (readRequests s) (s, []).
Proof.
  split; simpl; [lia|]. rewrite app_nil_r. apply incl_refl.
Qed.

Lemma serves_same (rr : list string) (s : FrameStream) :
  readRequests s = rr -> serves [] rr (s, []).
Proof. intros <-. apply serves_refl. Qed.

Lemma serves_seq (us rr : list string) (s1 : FrameStream)
  (ds1 : list delivery) (r2 : FrameStream * list delivery) :
  serves [] rr (s1, ds1) -> serves us (readRequests s1) r2 ->
  serves us rr (fst r2, ds1 ++ snd r2).
Proof.
  destruct r2 as [s2 ds2]. unfold serves. cbn [fst snd].
  intros [L1 I1] [L2 I2]. split.
  - rewrite length_app. cbn [List.length] in L1. lia.
  - rewrite app_nil_r in I1. intros x Hx.
    rewrite map_app in Hx. rewrite !in_app_iff in Hx.
    destruct Hx as [[Hx | Hx] | Hx].
    + apply in_or_app. left. apply I1. apply in_or_app. now left.
    + assert (H : In x (readRequests s1 ++ us))
        by (apply I2; apply in_or_app; now left).
      apply in_app_or in H. destruct H as [H | H].
      * apply in_or_app. left. apply I1. apply in_or_app. now right.
      * apply in_or_app. now right.
    + assert (H : In x (readRequests s1 ++ us))
        by (apply I2; apply in_or_app; now right).
      apply in_app_or in H. destruct H as [H | H].
      * apply in_or_app. left. apply I1. apply in_or_app. now right.
      * apply in_or_app. now right.
Qed.

Lemma serves_seq0 (rr : list string) (s1 s2 : FrameStream)
  (ds1 ds2 : list delivery) :
  serves [] rr (s1, ds1) -> serves [] (readRequests s1) (s2, ds2) ->
  serves [] rr (s2, ds1 ++ ds2).
Proof. intros H1 H2. exact (serves_seq [] rr s1 ds1 (s2, ds2) H1 H2). Qed.

Lemma serves_added (us rr : list string) (r : FrameStream * list delivery) :
  serves [] (rr ++ us) r -> serves us rr r.
Proof.
  intros [L I]. split.
  - rewrite length_app in L. simpl in L. lia.
  - now rewrite app_nil_r in I.
Qed.

Lemma serves_snoc (u : string) (v : ReadResult) (rr : list string)
  (s : FrameStream) (ds : list delivery) :
  serves [] rr (s, ds) -> serves [u] rr (s, ds ++ [(u, v)]).
Proof.
  unfold serves. cbn [fst snd]. intros [L I]. split.
  - rewrite length_app. cbn [List.length] in *. lia.
  - rewrite app_nil_r in I. intros x Hx.
    rewrite map_app in Hx. rewrite !in_app_iff in Hx. simpl in Hx.
    apply in_or_app.
    destruct Hx as [[Hx | [Hx | []]] | Hx].
    + left. apply I. apply in_or_app. now left.
    + right. now left.
    + left. apply I. apply in_or_app. now right.
Qed.

Lemma ReadableStreamClose_serves s :
  serves [] (readRequests s) (ReadableStreamClose s).
Proof.
  unfold ReadableStreamClose. split; simpl.
  - rewrite length_map. lia.
  - rewrite map_map. simpl. rewrite map_id, !app_nil_r. apply incl_refl.
Qed.

Lemma ControllerClose_serves s : serves [] (readRequests s) (ControllerClose s).
Proof.
  unfold ControllerClose. simpl. destruct (queue s).
  - exact (ReadableStreamClose_serves (set_closeRequested true s)).
  - exact (serves_refl (set_closeRequested true s)).
Qed.

Lemma ControllerError_serves s :
  serves [] (readRequests s) (ControllerError s, []).
Proof.
  unfold ControllerError. destruct (is_readable s); [|apply serves_refl].
  split; simpl; [lia | apply incl_nil_l].
Qed.

Lemma pull_serves s : serves [] (readRequests s) (fst (pull s)).
Proof.
  unfold pull.
  destruct ((frameCount s <=? frameNumber s)%Z || cancelled s).
  - destruct (CanCloseOrEnqueue s); [|apply serves_refl].
    assert (H := ControllerClose_serves s).
    destruct (ControllerClose s) as [s1 ds]. exact H.
  - exact (serves_refl (send (request_of s) s)).
Qed.

Lemma pullFulfilled_serves
  (again : FrameStream -> FrameStream * list delivery) (s : FrameStream) :
  (forall t, serves [] (readRequests t) (again t)) ->
  serves [] (readRequests s) (pullFulfilled again s).
Proof.
  intros Hagain. unfold pullFulfilled. simpl.
  destruct (pullAgain s); simpl.
  - exact (Hagain (set_pullAgain false (set_pulling false s))).
  - exact (serves_refl (set_pulling false s)).
Qed.

Lemma CallPullIfNeeded_step_serves
  (again : FrameStream -> FrameStream * list delivery) (s : FrameStream) :
  (forall t, serves [] (readRequests t) (again t)) ->
  serves [] (readRequests s) (CallPullIfNeeded_step again s).
Proof.
  intros Hagain. unfold CallPullIfNeeded_step.
  destruct (ShouldCallPull s); simpl; [|apply serves_refl].
  destruct (pulling s); simpl; [exact (serves_refl (set_pullAgain true s))|].
  assert (H1 := pull_serves (set_pulling true s)).
  destruct (pull (set_pulling true s)) as [[s1 ds] p].
  simpl in H1. destruct p.
  - assert (H2 := pullFulfilled_serves again s1 Hagain).
    destruct (pullFulfilled again s1) as [s2 ds'].
    exact (serves_seq0 _ _ _ _ _ H1 H2).
  - assert (H2 := ControllerError_serves s1).
    assert (H3 := serves_seq0 _ _ _ _ _ H1 H2).
    now rewrite app_nil_r in H3.
  - exact H1.
Qed.

Lemma CallPullIfNeeded_serves s :
  serves [] (readRequests s) (CallPullIfNeeded s).
Proof.
  apply CallPullIfNeeded_step_serves. intros t. apply serves_refl.
Qed.

Lemma read_serves (u : string) (s : FrameStream) :
  serves [u] (readRequests s) (read u s).
Proof.
  unfold read. destruct (state s).
  - destruct (queue s) as [|chunk rest].
    + apply serves_added.
      exact (CallPullIfNeeded_serves
               (set_readRequests (readRequests s ++ [u]) s)).
    + assert (H1 := CallPullIfNeeded_serves (set_queue rest s)).
      assert (H2 := ReadableStreamClose_serves (set_queue rest s)).
      simpl in H1, H2.
      destruct rest; simpl.
      * destruct (closeRequested s).
        -- destruct (ReadableStreamClose _) as [s2 ds].
           now apply serves_snoc.
        -- destruct (CallPullIfNeeded _) as [s2 ds].
           now apply serves_snoc.
      * destruct (CallPullIfNeeded _) as [s2 ds].
        now apply serves_snoc.
  - exact (serves_snoc u ReadDone _ s [] (serves_refl s)).
  - split; simpl; [lia | apply incl_appl, incl_refl].
Qed.

Lemma receive_serves (chunk : FrameChunk) (s : FrameStream) :
  serves [] (readRequests s) (receive chunk s).
Proof.
  unfold receive.
  destruct (CanCloseOrEnqueue s); [|apply ControllerError_serves].
  assert (H1 : serves [] (readRequests s)
                 (match readRequests s with
                  | uuid :: rest =>
                      (set_readRequests rest s,
                       [(uuid, ReadValue {| frames := frames chunk;
                                            range := range chunk |})])
                  | [] =>
                      (set_queue
                         (queue s ++ [{| frames := frames chunk;
                                         range := range chunk |}]) s,
                       [])
                  end)).
  { destruct (readRequests s) as [|u rest] eqn:E.
    - apply serves_same. exact E.
    - split; simpl; [lia|]. rewrite app_nil_r. apply incl_refl. }
  destruct (match readRequests s with
            | uuid :: rest => _
            | [] => _
            end) as [s1 ds1].
  assert (H2 := CallPullIfNeeded_serves s1).
  destruct (CallPullIfNeeded s1) as [s2 ds2].
  assert (H4 := pullFulfilled_serves CallPullIfNeeded
                  (set_frameNumber (snd (range chunk) + 1) s2)
                  CallPullIfNeeded_serves).
  destruct (pullFulfilled CallPullIfNeeded _) as [s4 ds4].
  simpl in H4.
  exact (serves_seq0 _ _ _ _ _ H1 (serves_seq0 _ _ _ _ _ H2 H4)).
Qed.

Lemma createReader_serves (a : Args) :
  serves [uuid a] []
    (let s0 := createReader CHUNK_SIZE (arg_frameCount a) (arg_frameNumber a)
                 (arg_sampleId a) (arg_source a) (arg_url a) in
     let (s1, ds1) := read (uuid a) s0 in
     let (s2, ds2) := CallPullIfNeeded (set_started true s1) in
     (s2, ds1 ++ ds2)).
Proof.
  cbv zeta.
  assert (H1 := read_serves (uuid a)
                  (createReader CHUNK_SIZE (arg_frameCount a)
                     (arg_frameNumber a) (arg_sampleId a) (arg_source a)
                     (arg_url a))).
  destruct (read (uuid a) _) as [s1 ds1].
  assert (H2 := CallPullIfNeeded_serves (set_started true s1)).
  destruct (CallPullIfNeeded (set_started true s1)) as [s2 ds2].
  change (readRequests (createReader CHUNK_SIZE (arg_frameCount a)
                          (arg_frameNumber a) (arg_sampleId a)
                          (arg_source a) (arg_url a)))
    with (@nil string) in H1.
  change (readRequests (set_started true s1)) with (readRequests s1) in H2.
  destruct H1 as [L1 I1], H2 as [L2 I2]. simpl in *. split; simpl.
  - rewrite length_app. lia.
  - intros x Hx. rewrite map_app in Hx. rewrite !in_app_iff in Hx.
    rewrite app_nil_r in I2.
    destruct Hx as [[Hx | Hx] | Hx].
    + apply I1. apply in_or_app. now left.
    + apply I1. apply in_or_app. right. apply I2. apply in_or_app. now left.
    + apply I1. apply in_or_app. right. apply I2. apply in_or_app. now right.
Qed.

(** What one task does to the worker: it leaves the streams alone, it
    runs one operation on a stream, or it creates a stream. *)
Lemma step_shape (w w' : Worker) (e : event) :
  step w e = Some w' ->
  (streams w' = streams w /\ streamId w' = streamId w
   /\ (posted w' = posted w
       \/ exists m smp u t, posted w' = posted w ++ [PostSample m smp u t]))
  \/ (exists j sj sj' ds us,
         nth_error (streams w) j = Some sj
         /\ streams w' = update j sj' (streams w)
         /\ streamId w' = streamId w
         /\ serves us (readRequests sj) (sj', ds)
         /\ deliver ds (posted w) = Some (posted w')
         /\ (us = []
             \/ exists u, us = [u] /\ streamId w = Some u
                          /\ asks_for_chunk e = true))
  \/ (exists a s2 ds,
         e = Message a /\ method a = "setStream"
         /\ streams w' = cancel_current w ++ [s2]
         /\ streamId w' = Some (uuid (args a))
         /\ serves [uuid (args a)] [] (s2, ds)
         /\ deliver ds (posted w) = Some (posted w')).
Proof.
  intros H. destruct e as [data|j chunk|j|k smp|k]; simpl in H.
  - destruct (onmessage w data) as [w1|err|] eqn:Hm; try discriminate;
      injection H as <-; [|left; auto].
    unfold onmessage in Hm.
    destruct (String.eqb (method data) "processSample").
    { unfold processSample in Hm. inv_bind Hm. destruct a as [s1 b1].
      injection Hm as <-. left. simpl. eauto 8. }
    destruct (String.eqb (method data) "requestFrameChunk") eqn:Em.
    { unfold requestFrameChunk in Hm.
      assert (Hsame : Return w = Return w1 ->
                streams w1 = streams w /\ streamId w1 = streamId w
                /\ (posted w1 = posted w
                    \/ exists m smp u t,
                         posted w1 = posted w ++ [PostSample m smp u t]))
        by (intros E; injection E as <-; auto).
      destruct (streamId w) as [id|] eqn:Hid; [|left; now apply Hsame].
      destruct (String.eqb (uuid (args data)) id) eqn:Eu;
        [|left; now apply Hsame].
      destruct (stream w) as [j|]; [|left; now apply Hsame].
      destruct (nth_error (streams w) j) as [sj|] eqn:Hj;
        [|left; now apply Hsame].
      assert (Hs := read_serves (uuid (args data)) sj).
      destruct (read (uuid (args data)) sj) as [sj' ds].
      inv_bind Hm. injection Hm as <-.
      right. left. exists j, sj, sj', ds, [uuid (args data)].
      split; [exact Hj|]. split; [reflexivity|]. split; [exact Hid|].
      split; [exact Hs|]. split.
      - simpl. destruct (deliver ds (posted w)); [|discriminate].
        simpl in Ha. now injection Ha as ->.
      - right. exists (uuid (args data)). split; [reflexivity|].
        apply String.eqb_eq in Eu. split; [now rewrite Eu|].
        simpl. rewrite Em. apply orb_true_r. }
    destruct (String.eqb (method data) "setStream") eqn:Es.
    { unfold setStream in Hm.
      assert (Hs := createReader_serves (args data)). cbv zeta in Hs.
      destruct (read _ _) as [s1 ds1].
      destruct (CallPullIfNeeded _) as [s2 ds2].
      inv_bind Hm. injection Hm as <-.
      right. right. exists data, s2, (ds1 ++ ds2).
      split; [reflexivity|]. split; [now apply String.eqb_eq|].
      split; [reflexivity|]. split; [reflexivity|]. split; [exact Hs|].
      simpl. destruct (deliver (ds1 ++ ds2) (posted w)); [|discriminate].
      simpl in Ha. now injection Ha as ->. }
    destruct (String.eqb (method data) "requestSourceSample").
    { unfold requestSourceSample in Hm. injection Hm as <-. left. simpl. auto. }
    discriminate.
  - destruct (nth_error (streams w) j) as [sj|] eqn:Hj; [|discriminate].
    destruct (inflight sj) as [|r rest]; [discriminate|].
    assert (Hs := receive_serves chunk (set_inflight rest sj)).
    destruct (receive chunk (set_inflight rest sj)) as [sj' ds].
    destruct (deliver ds (posted w)) as [out|] eqn:Hd; [|discriminate].
    injection H as <-.
    right. left. exists j, sj, sj', ds, []. simpl. auto 8.
  - destruct (nth_error (streams w) j) as [sj|] eqn:Hj; [|discriminate].
    destruct (inflight sj) as [|r rest]; [discriminate|].
    unfold pullRejected in H. simpl in H. injection H as <-.
    right. left.
    exists j, sj, (ControllerError (set_inflight rest sj)), [], [].
    split; [exact Hj|]. split; [reflexivity|]. split; [reflexivity|].
    split; [exact (ControllerError_serves (set_inflight rest sj))|].
    split; [reflexivity | now left].
  - destruct (nth_error (sampleRequests w) k) as [r|]; [|discriminate].
    unfold sourceSample in H.
    destruct (handleSample smp) as [[smp' bs]| |]; simpl in H;
      try discriminate; injection H as <-; left; simpl; eauto 8.
  - destruct (nth_error (sampleRequests w) k) as [r|]; [|discriminate].
    injection H as <-. left. simpl. auto.
Qed.

(** ** One chunk for each request *)

Lemma deliver_count (ds : list delivery) (out out' : list Posted) :
  deliver ds out = Some out' ->
  (List.length (posted_ranges out')
   <= List.length (posted_ranges out) + List.length ds)%nat.
Proof.
  revert out. induction ds as [|[u r] ds IH]; intros out H; simpl in H.
  - injection H as <-. lia.
  - destruct (getSendChunk u r) as [msgs| |] eqn:Hg; [| |discriminate].
    + apply IH in H. rewrite posted_ranges_app, length_app in H.
      assert (Hm : (List.length (posted_ranges msgs) <= 1)%nat).
      { unfold getSendChunk in Hg. destruct r as [v|].
        - inv_bind Hg. destruct a as [fs bs]. injection Hg as <-. simpl. lia.
        - injection Hg as <-. simpl. lia. }
      simpl. lia.
    + apply IH in H. simpl. lia.
Qed.

Lemma reads_waiting_update (ss : list FrameStream) (j : nat)
  (sj sj' : FrameStream) :
  nth_error ss j = Some sj ->
  (reads_waiting (update j sj' ss) + List.length (readRequests sj)
   = reads_waiting ss + List.length (readRequests sj'))%nat.
Proof.
  unfold reads_waiting. revert j.
  induction ss as [|s ss IH]; intros [|j] H; simpl in *; try discriminate.
  - injection H as ->. lia.
  - specialize (IH j H). lia.
Qed.

Lemma reads_waiting_app (ss ss' : list FrameStream) :
  reads_waiting (ss ++ ss') = (reads_waiting ss + reads_waiting ss')%nat.
Proof.
  unfold reads_waiting. now rewrite map_app, list_sum_app.
Qed.

Lemma reads_waiting_cancel_current (w : Worker) :
  reads_waiting (cancel_current w) = reads_waiting (streams w).
Proof.
  unfold cancel_current. destruct (stream w) as [i|]; [|reflexivity].
  destruct (nth_error (streams w) i) as [s|] eqn:Hi; [|reflexivity].
  assert (H := reads_waiting_update _ _ _ (cancel s) Hi).
  simpl in H. lia.
Qed.

Lemma step_count (w w' : Worker) (e : event) :
  step w e = Some w' ->
  (List.length (posted_ranges (posted w')) + reads_waiting (streams w')
   <= List.length (posted_ranges (posted w)) + reads_waiting (streams w)
      + (if asks_for_chunk e then 1 else 0))%nat.
Proof.
  intros H.
  destruct (step_shape _ _ _ H)
    as [(E1 & _ & Hp)
       | [(j & sj & sj' & ds & us & Hj & E1 & _ & [L _] & Hd & Hus)
         | (a & s2 & ds & -> & Hm & E1 & _ & [L _] & Hd)]].
  - rewrite E1.
    assert (Hc : posted_ranges (posted w') = posted_ranges (posted w)).
    { destruct Hp as [-> | (m & smp & u & t & ->)]; [reflexivity|].
      rewrite posted_ranges_app. simpl. now rewrite app_nil_r. }
    rewrite Hc. lia.
  - rewrite E1. apply deliver_count in Hd.
    assert (Hu := reads_waiting_update _ _ _ sj' Hj). simpl in L.
    assert (Hn : (List.length us <= if asks_for_chunk e then 1 else 0)%nat).
    { destruct Hus as [-> | (u & -> & _ & ->)]; simpl; lia. }
    lia.
  - rewrite E1, reads_waiting_app, reads_waiting_cancel_current.
    apply deliver_count in Hd. simpl in L. unfold reads_waiting at 2.
    simpl. rewrite Hm. simpl. lia.
Qed.

(** X11.  The worker posts at most one frame chunk for each request: along
    every run, the number of [frameChunk] messages posted, together with
    the number of reads still waiting for a chunk, never exceeds the number
    of [setStream] and [requestFrameChunk] messages received. *)
Theorem one_chunk_per_request (es : list event) (w : Worker) :
  run initial es = Some w ->
  (List.length (posted_ranges (posted w)) + reads_waiting (streams w)
   <= List.length (filter asks_for_chunk es))%nat.
Proof.
  assert (G : forall es w0 w1,
             run w0 es = Some w1 ->
             (List.length (posted_ranges (posted w1))
              + reads_waiting (streams w1)
              <= List.length (posted_ranges (posted w0))
                 + reads_waiting (streams w0)
                 + List.length (filter asks_for_chunk es))%nat).
  { clear es w. induction es as [|e es IH]; intros w0 w1 H; simpl in H.
    - injection H as <-. simpl. lia.
    - destruct (step w0 e) as [w2|] eqn:Hs; [|discriminate].
      apply step_count in Hs. apply IH in H. simpl.
      destruct (asks_for_chunk e); simpl; lia. }
  intros H. apply G in H. simpl in H. exact H.
Qed.

(** ** The identifiers of the chunks posted *)

Lemma deliver_uuid (ds : list delivery) (out out' : list Posted) :
  deliver ds out = Some out' ->
  forall fr rg u t,
    In (PostFrameChunk fr rg u t) out' ->
    In (PostFrameChunk fr rg u t) out \/ In u (map fst ds).
Proof.
  revert out. induction ds as [|[u0 r] ds IH]; intros out H fr rg u t Hin;
    simpl in H.
  - injection H as <-. now left.
  - destruct (getSendChunk u0 r) as [msgs| |] eqn:Hg; [| |discriminate].
    + destruct (IH _ H _ _ _ _ Hin) as [Ho | Ho]; [|right; now right].
      apply in_app_or in Ho. destruct Ho as [Ho | Ho]; [now left|].
      right. left. simpl.
      unfold getSendChunk in Hg. destruct r as [v|].
      * inv_bind Hg. destruct a as [fs bs]. injection Hg as <-.
        destruct Ho as [Ho | []]. now injection Ho as _ _ -> _.
      * injection Hg as <-. destruct Ho.
    + destruct (IH _ H _ _ _ _ Hin) as [Ho | Ho];
        [now left | right; now right].
Qed.

Lemma In_update {A : Type} (xs : list A) (j : nat) (y x : A) :
  In x (update j y xs) -> x = y \/ In x xs.
Proof.
  revert j. induction xs as [|z xs IH]; intros [|j] H; simpl in *;
    try contradiction.
  - destruct H as [<- | H]; auto.
  - destruct H as [<- | H]; auto. destruct (IH _ H); auto.
Qed.

Lemma announced_incl (U U' : list string) (w : Worker) :
  incl U U' -> announced U w -> announced U' w.
Proof.
  intros HU (A1 & A2 & A3). split; [|split].
  - intros u Hu. apply HU. now apply A1.
  - intros s Hs x Hx. apply HU. now apply (A2 s).
  - intros fr rg u t Hp. apply HU. eapply A3. exact Hp.
Qed.

Lemma step_announced (U : list string) (w w' : Worker) (e : event) :
  announced U w -> step w e = Some w' -> announced (U ++ sessions [e]) w'.
Proof.
  intros (A1 & A2 & A3) H.
  destruct (step_shape _ _ _ H)
    as [(E1 & E2 & Hp)
       | [(j & sj & sj' & ds & us & Hj & E1 & E2 & [_ I] & Hd & Hus)
         | (a & s2 & ds & -> & Hm & E1 & E2 & [_ I] & Hd)]].
  - apply (announced_incl U); [apply incl_appl, incl_refl|].
    split; [|split].
    + rewrite E2. exact A1.
    + rewrite E1. exact A2.
    + intros fr rg u t Hin.
      destruct Hp as [Hp | (m & smp & u0 & t0 & Hp)]; rewrite Hp in Hin.
      * eapply A3. exact Hin.
      * apply in_app_or in Hin. destruct Hin as [Hin | [Hin | []]];
          [eapply A3; exact Hin | discriminate].
  - apply (announced_incl U); [apply incl_appl, incl_refl|].
    assert (Hrr : incl (readRequests sj) U)
      by (apply A2; eapply nth_error_In; exact Hj).
    assert (Hus' : incl us U).
    { destruct Hus as [-> | (u & -> & Hu & _)]; [apply incl_nil_l|].
      intros x [<- | []]. now apply A1. }
    assert (HI : incl (map fst ds ++ readRequests sj') U).
    { intros x Hx. apply I in Hx. apply in_app_or in Hx.
      destruct Hx as [Hx | Hx]; [now apply Hrr | now apply Hus']. }
    split; [|split].
    + rewrite E2. exact A1.
    + rewrite E1. intros s Hs. apply In_update in Hs.
      destruct Hs as [-> | Hs]; [|now apply A2].
      intros x Hx. apply HI. apply in_or_app. now right.
    + intros fr rg u t Hin.
      destruct (deliver_uuid _ _ _ Hd _ _ _ _ Hin) as [Ho | Ho].
      * eapply A3. exact Ho.
      * apply HI. apply in_or_app. now left.
  - assert (Es : sessions [Message a] = [uuid (args a)])
      by (simpl; rewrite Hm; reflexivity).
    rewrite Es.
    assert (HI : incl (map fst ds ++ readRequests s2) (U ++ [uuid (args a)])).
    { intros x Hx. apply I in Hx. simpl in Hx. apply in_or_app. now right. }
    split; [|split].
    + rewrite E2. intros u Hu. injection Hu as <-.
      apply in_or_app. right. now left.
    + rewrite E1. intros s Hs. apply in_app_or in Hs.
      destruct Hs as [Hs | [<- | []]].
      * apply incl_appl.
        unfold cancel_current in Hs.
        destruct (stream w) as [i|]; [|now apply A2].
        destruct (nth_error (streams w) i) as [si|] eqn:Hi; [|now apply A2].
        apply In_update in Hs. destruct Hs as [-> | Hs]; [|now apply A2].
        apply (A2 si). eapply nth_error_In. exact Hi.
      * intros x Hx. apply HI. apply in_or_app. now right.
    + intros fr rg u t Hin.
      destruct (deliver_uuid _ _ _ Hd _ _ _ _ Hin) as [Ho | Ho].
      * apply in_or_app. left. eapply A3. exact Ho.
      * apply HI. apply in_or_app. now left.
Qed.

Lemma sessions_In (es : list event) (u : string) :
  In u (sessions es) ->
  exists data,
    In (Message data) es /\ method data = "setStream"
    /\ uuid (args data) = u.
Proof.
  unfold sessions. intros H. apply in_flat_map in H.
  destruct H as (e & He & Hu). destruct e as [data| | | |]; try contradiction.
  destruct (String.eqb (method data) "setStream") eqn:Em; [|contradiction].
  destruct Hu as [<- | []]. exists data.
  split; [exact He|]. split; [now apply String.eqb_eq | reflexivity].
Qed.

(** X12.  The worker invents no session.  Every [frameChunk] message that
    it posts carries the [uuid] of a [setStream] message that it received
    before. *)
Theorem chunks_carry_announced_sessions (es : list event) (w : Worker)
  (fr : list value) (rg : Z * Z) (u : string) (t : list value) :
  run initial es = Some w ->
  In (PostFrameChunk fr rg u t) (posted w) ->
  exists data,
    In (Message data) es /\ method data = "setStream"
    /\ uuid (args data) = u.
Proof.
  assert (G : forall es U w0 w1,
             announced U w0 -> run w0 es = Some w1 ->
             announced (U ++ sessions es) w1).
  { clear. induction es as [|e es IH]; intros U w0 w1 HA H; simpl in H.
    - injection H as <-. simpl. now rewrite app_nil_r.
    - destruct (step w0 e) as [w2|] eqn:Hs; [|discriminate].
      assert (HA2 := step_announced _ _ _ _ HA Hs).
      assert (HA1 := IH _ _ _ HA2 H).
      assert (E : sessions (e :: es) = sessions [e] ++ sessions es)
        by (unfold sessions; simpl; now rewrite app_nil_r).
      rewrite E, app_assoc. exact HA1. }
  intros H Hin.
  assert (HA : announced [] initial).
  { split; [|split]; simpl.
    - discriminate.
    - intros s [].
    - intros ? ? ? ? []. }
  destruct (G _ _ _ _ HA H) as (_ & _ & A3).
  apply sessions_In. exact (A3 _ _ _ _ Hin).
Qed.

(* ===================================================================== *)
(** * Masks and their buffers *)
(* ===================================================================== *)

(** Buffers are only ever pushed: each step of the normaliser returns the
    buffers it was given, followed by those it created. *)
Lemma decode_mask_prefix (label : value) (b : list value) (label' : value)
  (b' : list value) :
  decode_mask label b = Return (label', b') -> exists more, b' = b ++ more.
Proof.
  intros H. destruct label as [| | | | | |ps|]; simpl in H;
    try discriminate;
    try (injection H as _ <-; exists []; now rewrite app_nil_r).
  destruct (get ps "mask") as [| | | |text| | |];
    try (injection H as _ <-; exists []; now rewrite app_nil_r).
  destruct (deserialize text) as [mask|]; [|discriminate].
  inv_bind H. injection H as _ <-. eauto.
Qed.

Lemma forEach_prefix (labels : list value) (b : list value)
  (labels' : list value) (b' : list value) :
  forEach decode_mask labels b = Return (labels', b') ->
  exists more, b' = b ++ more.
Proof.
  revert b labels'. induction labels as [|l ls IH]; intros b ls' H;
    simpl in H.
  - injection H as _ <-. exists []. now rewrite app_nil_r.
  - inv_bind H. destruct a as [l' b1]. inv_bind H. destruct a as [r' b2].
    injection H as _ <-.
    apply decode_mask_prefix in Ha. destruct Ha as (m1 & ->).
    apply IH in Ha0. destruct Ha0 as (m2 & ->).
    exists (m1 ++ m2). now rewrite app_assoc.
Qed.

Lemma handleLabel_prefix (label : value) (b : list value) (label' : value)
  (b' : list value) :
  handleLabel label b = Return (label', b') -> exists more, b' = b ++ more.
Proof.
  intros H. unfold handleLabel in H.
  destruct (negb (ToBoolean label));
    [injection H as _ <-; exists []; now rewrite app_nil_r|].
  inv_bind H. inv_bind H. destruct (inherited a0); [discriminate|].
  inv_bind H. destruct a1 as [l1 b1].
  assert (H1 : exists more, b1 = b ++ more).
  { unfold DESERIALIZE in Ha1.
    destruct (String.eqb a0 "Detection");
      [eapply decode_mask_prefix; exact Ha1|].
    destruct (String.eqb a0 "Detections").
    { unfold deserialize_detections in Ha1.
      destruct label as [| | | | | |ps|]; try discriminate.
      destruct (get ps "detections") as [| | | | |ds| |]; try discriminate.
      inv_bind Ha1. destruct a1 as [ds' bd]. injection Ha1 as _ <-.
      eapply forEach_prefix. exact Ha2. }
    destruct (String.eqb a0 "Segmentation");
      [eapply decode_mask_prefix; exact Ha1|].
    injection Ha1 as _ <-. exists []. now rewrite app_nil_r. }
  destruct (LABELS a0).
  - destruct (LABEL_LISTS a0); inv_bind H; injection H as _ <-; exact H1.
  - injection H as _ <-. exact H1.
Qed.

Lemma handleFields_prefix (sample : record) (b : list value)
  (sample' : record) (b' : list value) :
  handleFields sample b = Return (sample', b') -> exists more, b' = b ++ more.
Proof.
  revert b sample'. induction sample as [|[k v] ps IH]; intros b ps' H;
    simpl in H.
  - injection H as _ <-. exists []. now rewrite app_nil_r.
  - inv_bind H. destruct a as [v' b1]. inv_bind H. destruct a as [r' b2].
    injection H as _ <-.
    apply handleLabel_prefix in Ha. destruct Ha as (m1 & ->).
    apply IH in Ha0. destruct Ha0 as (m2 & ->).
    exists (m1 ++ m2). now rewrite app_assoc.
Qed.

Lemma handleFields_field_buffers (sample : record) (b0 : list value)
  (sample' : record) (bf : list value) (k : string) (v : value) :
  handleFields sample b0 = Return (sample', bf) ->
  lookup k sample = Some v ->
  exists v' b b',
    lookup k sample' = Some v'
    /\ handleLabel v b = Return (v', b') /\ incl b' bf.
Proof.
  revert b0 sample'. induction sample as [|[k1 v1] ps IH]; intros b0 ps' H Hk;
    simpl in H, Hk; [discriminate|].
  inv_bind H. destruct a as [v1' b1]. inv_bind H. destruct a as [r' b2].
  injection H as <- <-. simpl.
  destruct (String.eqb k k1).
  - injection Hk as ->. exists v1', b0, b1.
    split; [reflexivity|]. split; [exact Ha|].
    apply handleFields_prefix in Ha0. destruct Ha0 as (m & ->).
    apply incl_appl, incl_refl.
  - exact (IH _ _ Ha0 Hk).
Qed.

(** X13.  A textual mask is decoded in place and its buffer is handed
    over.  When [handleLabels] returns, a detection or a segmentation whose
    [mask] was text holds the mask that [deserialize] made of the text, and
    the [buffer] of that mask is among the buffers returned, which
    [postMessage] transfers.  The class is assumed not to have [mask] as
    its list property in [LABEL_LISTS]. *)
Theorem mask_decoded_and_transferred (sample sample' : record)
  (buffers : list value) (k : string) (ps : record) (cls text : string) :
  handleLabels sample = Return (sample', buffers) ->
  lookup k sample = Some (VObject ps) ->
  get ps "_cls" = VString cls ->
  cls = "Detection" \/ cls = "Segmentation" ->
  get ps "mask" = VString text ->
  LABEL_LISTS cls <> Some "mask" ->
  exists (mask buffer : value) (ps' : record),
    deserialize text = Some mask
    /\ get_field mask "buffer" = Return buffer
    /\ lookup k sample' = Some (VObject ps')
    /\ get ps' "mask" = mask
    /\ In buffer buffers.
Proof.
  intros H Hk Hc Hcls Hm Hf.
  destruct (handleFields_field_buffers _ _ _ _ _ _ H Hk)
    as (v' & b & b' & Hl & Hh & Hi).
  unfold handleLabel in Hh. simpl in Hh. rewrite Hc in Hh. simpl in Hh.
  assert (Hd : inherited cls = false /\ DESERIALIZE cls = Some decode_mask)
    by (destruct Hcls as [-> | ->]; split; reflexivity).
  destruct Hd as [Hd1 Hd2]. rewrite Hd1, Hd2 in Hh.
  simpl in Hh. rewrite Hm in Hh.
  destruct (deserialize text) as [mask|]; [|discriminate].
  destruct (get_field mask "buffer") as [buffer| |] eqn:Hb;
    try discriminate.
  simpl in Hh.
  assert (Hv : exists ps',
             v' = VObject ps' /\ get ps' "mask" = mask
             /\ b' = b ++ [buffer]).
  { destruct (LABELS cls).
    - destruct (LABEL_LISTS cls) as [f|] eqn:Ef.
      + simpl in Hh.
        assert (Hne : f <> "mask") by (intros ->; now apply Hf).
        destruct (get (set_prop "mask" mask ps) f)
          as [| | | | |items| |] eqn:Eg;
          try (injection Hh as <- <-; eexists; split; [reflexivity|];
               split; [apply get_set_prop_same | reflexivity]).
        inv_bind Hh. injection Hh as <- <-. inv_bind Ha. injection Ha as <-.
        eexists. split; [reflexivity|]. split; [|reflexivity].
        rewrite get_set_prop_other by exact Hne. apply get_set_prop_same.
      + simpl in Hh. injection Hh as <- <-. eexists. split; [reflexivity|].
        split; [|reflexivity].
        unfold get. rewrite mapId_props_other by discriminate.
        rewrite lookup_set_prop_same. reflexivity.
    - injection Hh as <- <-. eexists. split; [reflexivity|].
      split; [apply get_set_prop_same | reflexivity]. }
  destruct Hv as (ps' & -> & Hmask & ->).
  exists mask, buffer, ps'. split; [reflexivity|]. split; [exact Hb|].
  split; [exact Hl|]. split; [exact Hmask|].
  apply Hi. apply in_or_app. right. now left.
Qed.

(* ===================================================================== *)
(** * A chunk that cannot be normalised *)
(* ===================================================================== *)

(** X14.  A chunk with a frame that cannot be normalised is lost.  When
    the response to the request of a stream arrives while a read is
    waiting, and [handleLabels] throws on one of its frames, the exception
    stays inside the continuation of the read: no message is posted, and
    the cursor has moved past the frames of the chunk all the same. *)
Theorem unnormalisable_chunk_is_dropped (w : Worker) (i : nat)
  (s : FrameStream) (u : string) (n : Z) (chunk : FrameChunk) (e : error) :
  nth_error (streams w) i = Some s ->
  waiting_at u n s ->
  collectFrames (frames chunk) [] = Throw e ->
  exists (w' : Worker) (s' : FrameStream),
    step w (FramesResponse i chunk) = Some w'
    /\ posted w' = posted w
    /\ nth_error (streams w') i = Some s'
    /\ frameNumber s' = (snd (range chunk) + 1)%Z
    /\ readRequests s' = [].
Proof.
  intros Hi Hw He.
  destruct (receive_waiting u n s chunk Hw)
    as (s1 & Hr & _ & _ & Hn & Hrest).
  assert (Hin : inflight s = [request_of s])
    by (destruct Hw as (_ & _ & _ & _ & _ & _ & _ & _ & Hin); exact Hin).
  assert (Hrr : readRequests s1 = []).
  { destruct (receive_serves chunk (set_inflight [] s)) as [L _].
    rewrite Hr in L.
    change (readRequests (set_inflight [] s)) with (readRequests s) in L.
    destruct Hw as (_ & _ & _ & _ & _ & _ & _ & Hrq & _).
    rewrite Hrq in L. cbn [fst snd List.length] in L.
    destruct (readRequests s1); [reflexivity | simpl in L; lia]. }
  exists (with_stream i s1 (posted w) w), s1.
  split.
  - unfold step. rewrite Hi, Hin, Hr. simpl.
    unfold getSendChunk. rewrite He. reflexivity.
  - split; [reflexivity|].
    split; [simpl; eapply nth_error_update_same; exact Hi|].
    split; [exact Hn | exact Hrr].
Qed.

(* ===================================================================== *)
(** * Detections without a list, and source samples *)
(* ===================================================================== *)

(** X15.  [DESERIALIZE.Detections] does not check what it iterates over.
    A label of class Detections whose [detections] property is not an array
    (it is missing, null, or anything else) makes [handleLabels] throw a
    TypeError, although the rewrite of the list that follows would skip
    such a label.  When the fields before the label are normalised without
    an exception, the request that carried the sample is not answered. *)
Theorem detections_without_list_not_answered (a : Args) (w : Worker)
  (before rest before' : record) (b0 : list value) (k : string)
  (ps : record) :
  sample a = before ++ (k, VObject ps) :: rest ->
  handleLabels before = Return (before', b0) ->
  get ps "_cls" = VString "Detections" ->
  (forall ds, get ps "detections" <> VArray ds) ->
  handleSample (sample a) = Throw TypeError
  /\ onmessage w {| method := "processSample"; args := a |}
     = Throw TypeError
  /\ step w (Message {| method := "processSample"; args := a |}) = Some w.
Proof.
  intros Hs Hb Hc Hn.
  assert (Hl : forall b, handleLabel (VObject ps) b = Throw TypeError).
  { intros b. unfold handleLabel. simpl. rewrite Hc. simpl.
    destruct (get ps "detections") as [| | | | |ds| |]; try reflexivity.
    exfalso. now apply (Hn ds). }
  assert (Hh : handleSample (sample a) = Throw TypeError).
  { unfold handleSample, handleLabels. rewrite Hs, handleFields_app.
    unfold handleLabels in Hb. rewrite Hb. simpl. rewrite Hl. reflexivity. }
  split; [exact Hh|].
  assert (Ho : onmessage w {| method := "processSample"; args := a |}
               = Throw TypeError).
  { unfold onmessage, processSample. simpl. rewrite Hh. reflexivity. }
  split; [exact Ho|]. unfold step. now rewrite Ho.
Qed.

Lemma remove_nth_last {A : Type} (xs : list A) (x : A) :
  remove_nth (List.length xs) (xs ++ [x]) = xs.
Proof. induction xs as [|y xs IH]; simpl; [reflexivity | now rewrite IH]. Qed.

(** X16.  A request for a source sample and its outcome.
    [requestSourceSample] posts nothing and leaves the streams alone.  When
    the response arrives, the worker posts one [sourceSample] message with
    the [uuid] of the request, the sample normalised by [handleSample], and
    its buffers; if [handleSample] throws, or if the request fails, the
    worker is back in the state before the request, and the host is told
    nothing. *)
Theorem sourceSample_round_trip (a : Args) (w : Worker) (smp : record) :
  exists w1 : Worker,
    onmessage w {| method := "requestSourceSample"; args := a |} = Return w1
    /\ posted w1 = posted w /\ streams w1 = streams w
    /\ (forall smp' buffers,
           handleSample smp = Return (smp', buffers) ->
           step w1 (SampleResponse (List.length (sampleRequests w)) smp)
           = Some {| stream := stream w; streamId := streamId w;
                     streams := streams w;
                     sampleRequests := sampleRequests w;
                     posted :=
                       posted w
                       ++ [PostSample "sourceSample" smp' (uuid a) buffers] |})
    /\ (forall e,
           handleSample smp = Throw e ->
           step w1 (SampleResponse (List.length (sampleRequests w)) smp)
           = Some w)
    /\ step w1 (SampleFailure (List.length (sampleRequests w))) = Some w.
Proof.
  eexists. split; [reflexivity|]. split; [reflexivity|].
  split; [reflexivity|].
  split; [|split].
  - intros smp' buffers H. unfold step. cbn [sampleRequests].
    rewrite nth_error_last. unfold sourceSample. rewrite H.
    cbn -[remove_nth]. now rewrite remove_nth_last.
  - intros e H. unfold step. cbn [sampleRequests].
    rewrite nth_error_last. unfold sourceSample. rewrite H.
    cbn -[remove_nth]. rewrite remove_nth_last. now destruct w.
  - unfold step. cbn [sampleRequests]. rewrite nth_error_last.
    cbn -[remove_nth]. rewrite remove_nth_last. now destruct w.
Qed.

(* ===================================================================== *)
(** * The order of the chunks *)
(* ===================================================================== *)

Lemma values_app (ds ds' : list delivery) :
  values (ds ++ ds') = values ds ++ values ds'.
Proof.
  induction ds as [|[u [c|]] ds IH]; simpl; [reflexivity| |exact IH].
  now rewrite IH.
Qed.

Lemma values_done (us : list string) :
  values (map (fun uuid => (uuid, ReadDone)) us) = [].
Proof. induction us as [|u us IH]; simpl; [reflexivity | exact IH]. Qed.

Lemma still_refl (s : FrameStream) : still s (s, []).
Proof. split; reflexivity. Qed.

Lemma still_seq (s s1 s2 : FrameStream) (ds1 ds2 : list delivery) :
  still s (s1, ds1) -> still s1 (s2, ds2) -> still s (s2, ds1 ++ ds2).
Proof.
  unfold still. cbn [fst snd]. intros [V1 Q1] [V2 Q2].
  rewrite values_app, V1, V2. split; [reflexivity | congruence].
Qed.

Lemma ReadableStreamClose_still s : still s (ReadableStreamClose s).
Proof.
  unfold ReadableStreamClose, still. cbn [fst snd].
  split; [apply values_done | reflexivity].
Qed.

Lemma ControllerClose_still s : still s (ControllerClose s).
Proof.
  unfold ControllerClose.
  change (queue (set_closeRequested true s)) with (queue s).
  destruct (queue s) eqn:Hq.
  - destruct (ReadableStreamClose_still (set_closeRequested true s))
      as [V Q].
    split; [exact V|]. rewrite Q. reflexivity.
  - split; reflexivity.
Qed.

Lemma pull_still (s : FrameStream) :
  CanCloseOrEnqueue s = true ->
  still s (fst (pull s)) /\ snd (pull s) <> Rejected.
Proof.
  intros Hc. unfold pull. rewrite Hc.
  destruct ((frameCount s <=? frameNumber s)%Z || cancelled s).
  - assert (H := ControllerClose_still s).
    destruct (ControllerClose s) as [s1 ds]. split; [exact H|discriminate].
  - split; [|discriminate]. split; reflexivity.
Qed.

Lemma pullFulfilled_still
  (again : FrameStream -> FrameStream * list delivery) (s : FrameStream) :
  (forall t, still t (again t)) -> still s (pullFulfilled again s).
Proof.
  intros Hagain. unfold pullFulfilled. simpl.
  destruct (pullAgain s); simpl.
  - exact (Hagain (set_pullAgain false (set_pulling false s))).
  - split; reflexivity.
Qed.

Lemma CallPullIfNeeded_step_still
  (again : FrameStream -> FrameStream * list delivery) (s : FrameStream) :
  (forall t, still t (again t)) -> still s (CallPullIfNeeded_step again s).
Proof.
  intros Hagain. unfold CallPullIfNeeded_step.
  destruct (ShouldCallPull s) eqn:Hs; simpl; [|apply still_refl].
  destruct (pulling s); simpl; [split; reflexivity|].
  destruct (ShouldCallPull_true s Hs) as (Hc & _ & _).
  assert (Hc' : CanCloseOrEnqueue (set_pulling true s) = true) by exact Hc.
  destruct (pull_still _ Hc') as [H1 Hp].
  destruct (pull (set_pulling true s)) as [[s1 ds] p].
  simpl in H1, Hp. destruct p; [| congruence |].
  - assert (H2 := pullFulfilled_still again s1 Hagain).
    destruct (pullFulfilled again s1) as [s2 ds'].
    exact (still_seq (set_pulling true s) s1 s2 ds ds' H1 H2).
  - exact H1.
Qed.

Lemma CallPullIfNeeded_still s : still s (CallPullIfNeeded s).
Proof.
  apply CallPullIfNeeded_step_still. intros t. apply still_refl.
Qed.

Lemma read_moves (u : string) (s : FrameStream) :
  moves [] (queue s) (read u s).
Proof.
  unfold moves. rewrite app_nil_r. unfold read. destruct (state s).
  - destruct (queue s) as [|chunk rest] eqn:Hq.
    + destruct (CallPullIfNeeded_still
                  (set_readRequests (readRequests s ++ [u]) s)) as [V Q].
      rewrite V, Q. simpl. exact Hq.
    + assert (H1 := CallPullIfNeeded_still (set_queue rest s)).
      assert (H2 := ReadableStreamClose_still (set_queue rest s)).
      assert (G : forall r, still (set_queue rest s) r ->
                  values (snd r ++ [(u, ReadValue chunk)]) ++ queue (fst r)
                  = chunk :: rest).
      { intros [s2 ds] [V Q]. cbn [fst snd] in *.
        rewrite values_app, V, Q. reflexivity. }
      destruct rest; simpl.
      * destruct (closeRequested s).
        -- specialize (G _ H2). destruct (ReadableStreamClose _). exact G.
        -- specialize (G _ H1). destruct (CallPullIfNeeded _). exact G.
      * specialize (G _ H1). destruct (CallPullIfNeeded _). exact G.
  - reflexivity.
  - reflexivity.
Qed.

Lemma receive_moves (chunk : FrameChunk) (s : FrameStream) :
  CanCloseOrEnqueue s = true ->
  (readRequests s <> [] -> queue s = []) ->
  moves [{| frames := frames chunk; range := range chunk |}] (queue s)
    (receive chunk s).
Proof.
  intros Hc Hw. unfold moves, receive. rewrite Hc.
  set (c := {| frames := frames chunk; range := range chunk |}).
  assert (H1 : exists s1 ds1,
             match readRequests s with
             | uuid :: rest => (set_readRequests rest s, [(uuid, ReadValue c)])
             | [] => (set_queue (queue s ++ [c]) s, [])
             end = (s1, ds1)
             /\ values ds1 ++ queue s1 = queue s ++ [c]
             /\ (values ds1 = [] \/ queue s1 = [])).
  { destruct (readRequests s) as [|u rest].
    - eexists. eexists. split; [reflexivity|]. simpl. auto.
    - eexists. eexists. split; [reflexivity|]. simpl.
      rewrite Hw by discriminate. auto. }
  destruct H1 as (s1 & ds1 & -> & E1 & Hor).
  destruct (CallPullIfNeeded_still s1) as [V2 Q2].
  destruct (CallPullIfNeeded s1) as [s2 ds2]. cbn [fst snd] in V2, Q2.
  destruct (pullFulfilled_still CallPullIfNeeded
              (set_frameNumber (snd (range chunk) + 1) s2)
              CallPullIfNeeded_still) as [V4 Q4].
  destruct (pullFulfilled CallPullIfNeeded _) as [s4 ds4].
  cbn [fst snd] in V4, Q4 |- *. simpl in Q4.
  rewrite !values_app, V2, V4, Q4, Q2, !app_nil_r. exact E1.
Qed.

Lemma deliver_values (ds : list delivery) (out out' : list Posted) :
  deliver ds out = Some out' ->
  Forall normalisable (values ds) ->
  posted_ranges out' = posted_ranges out ++ map range (values ds).
Proof.
  revert out. induction ds as [|[u [c|]] ds IH]; intros out H Hn;
    simpl in H, Hn |- *.
  - injection H as <-. now rewrite app_nil_r.
  - inversion Hn as [|c0 cs (fs & bs & Hc) Hrest]; subst.
    rewrite Hc in H. simpl in H.
    rewrite (IH _ H Hrest), posted_ranges_app. simpl.
    now rewrite <- app_assoc.
  - rewrite app_nil_r in H. exact (IH _ H Hn).
Qed.

Lemma nth_error_single {A : Type} (x y : A) (j : nat) :
  nth_error [x] j = Some y -> j = 0%nat /\ y = x.
Proof.
  destruct j as [|j]; simpl.
  - intros H. injection H as <-. auto.
  - destruct j; discriminate.
Qed.

Lemma in_order_posted (arrived : list (Z * Z)) (w : Worker)
  (out : list Posted) :
  in_order arrived w -> posted_ranges out = posted_ranges (posted w) ->
  in_order arrived
    {| stream := stream w; streamId := streamId w; streams := streams w;
       sampleRequests := sampleRequests w; posted := out |}.
Proof.
  intros (s & Hs & W & N & E) Hp. exists s. simpl. rewrite Hp. auto.
Qed.

Lemma in_order_stream (arrived : list (Z * Z)) (added : list FrameChunk)
  (w : Worker) (s s' : FrameStream) (ds : list delivery)
  (out : list Posted) :
  streams w = [s] -> Forall normalisable (queue s) ->
  posted_ranges (posted w) ++ map range (queue s) = arrived ->
  well_formed s' -> Forall normalisable added ->
  moves added (queue s) (s', ds) ->
  deliver ds (posted w) = Some out ->
  in_order (arrived ++ map range added) (with_stream 0 s' out w).
Proof.
  intros Hs N E W' Na M Hd. unfold moves in M. cbn [fst snd] in M.
  assert (Hall : Forall normalisable (values ds ++ queue s')).
  { rewrite M. apply Forall_app. now split. }
  apply Forall_app in Hall. destruct Hall as [Nv Nq].
  exists s'. simpl. rewrite Hs. simpl. split; [reflexivity|].
  split; [exact W'|]. split; [exact Nq|].
  rewrite (deliver_values _ _ _ Hd Nv), <- E.
  rewrite <- !app_assoc, <- !map_app. now rewrite M.
Qed.

Lemma step_in_order (arrived : list (Z * Z)) (w w' : Worker) (e : event) :
  in_order arrived w -> calm e -> step w e = Some w' ->
  in_order (arrived ++ responses [e]) w'.
Proof.
  intros Hin Hcalm H.
  assert (Hsame : forall out,
             posted_ranges out = posted_ranges (posted w) ->
             in_order (arrived ++ [])
               {| stream := stream w; streamId := streamId w;
                  streams := streams w; sampleRequests := sampleRequests w;
                  posted := out |})
    by (intros out Hp; rewrite app_nil_r; now apply in_order_posted).
  assert (Hw : in_order (arrived ++ []) w)
    by (rewrite app_nil_r; exact Hin).
  destruct e as [data|j chunk|j|k smp|k]; simpl in H, Hcalm.
  - change (responses [Message data]) with (@nil (Z * Z)).
    destruct (onmessage w data) as [w1|err|] eqn:Hm; try discriminate;
      injection H as <-; [|exact Hw].
    unfold onmessage in Hm.
    destruct (String.eqb (method data) "processSample").
    { unfold processSample in Hm. inv_bind Hm. destruct a as [s1 b1].
      injection Hm as <-. apply Hsame.
      rewrite posted_ranges_app. simpl. now rewrite app_nil_r. }
    destruct (String.eqb (method data) "requestFrameChunk").
    { unfold requestFrameChunk in Hm.
      destruct (streamId w) as [id|]; [|now injection Hm as <-].
      destruct (String.eqb (uuid (args data)) id); [|now injection Hm as <-].
      destruct (stream w) as [j|]; [|now injection Hm as <-].
      destruct (nth_error (streams w) j) as [sj|] eqn:Hj;
        [|now injection Hm as <-].
      destruct Hin as (s & Hs & W & N & E).
      rewrite Hs in Hj. apply nth_error_single in Hj.
      destruct Hj as [-> ->].
      assert (M := read_moves (uuid (args data)) s).
      assert (W' := read_well_formed (uuid (args data)) s W).
      destruct (read (uuid (args data)) s) as [s' ds]. cbn [fst] in W'.
      inv_bind Hm. injection Hm as <-.
      destruct (deliver ds (posted w)) as [out|] eqn:Hd; [|discriminate].
      simpl in Ha. injection Ha as <-.
      assert (G := in_order_stream arrived [] w s s' ds out Hs N E W'
                     (Forall_nil _) M Hd).
      exact G. }
    destruct (String.eqb (method data) "setStream") eqn:Es.
    { apply String.eqb_eq in Es. contradiction. }
    destruct (String.eqb (method data) "requestSourceSample").
    { unfold requestSourceSample in Hm. injection Hm as <-.
      now apply Hsame. }
    discriminate.
  - change (responses [FramesResponse j chunk]) with [range chunk].
    destruct (nth_error (streams w) j) as [sj|] eqn:Hj; [|discriminate].
    destruct (inflight sj) as [|r rest] eqn:Hi; [discriminate|].
    destruct Hin as (s & Hs & W & N & E).
    rewrite Hs in Hj. apply nth_error_single in Hj. destruct Hj as [-> ->].
    destruct (wf_inflight s W) as (_ & Hc & _); [congruence|].
    assert (M := receive_moves chunk (set_inflight rest s) Hc (wf_waiting s W)).
    assert (W' := receive_well_formed chunk s r rest W Hi).
    destruct (receive chunk (set_inflight rest s)) as [s' ds].
    cbn [fst] in W'.
    destruct (deliver ds (posted w)) as [out|] eqn:Hd; [|discriminate].
    injection H as <-.
    assert (Na : Forall normalisable
                   [{| frames := frames chunk; range := range chunk |}])
      by (constructor; [exact Hcalm | constructor]).
    exact (in_order_stream arrived _ w s s' ds out Hs N E W' Na M Hd).
  - contradiction.
  - change (responses [SampleResponse k smp]) with (@nil (Z * Z)).
    destruct (nth_error (sampleRequests w) k) as [r|]; [|discriminate].
    unfold sourceSample in H.
    destruct (handleSample smp) as [[smp' bs]| |]; simpl in H;
      try discriminate; injection H as <-.
    + destruct Hin as (s & Hs & W & N & E). exists s. simpl.
      rewrite posted_ranges_app. simpl. rewrite !app_nil_r. auto.
    + destruct Hin as (s & Hs & W & N & E). exists s. simpl.
      rewrite app_nil_r. auto.
  - change (responses [SampleFailure k]) with (@nil (Z * Z)).
    destruct (nth_error (sampleRequests w) k) as [r|]; [|discriminate].
    injection H as <-.
    destruct Hin as (s & Hs & W & N & E). exists s. simpl.
    rewrite app_nil_r. auto.
Qed.

Lemma setStream_in_order (a : Args) (w0 : Worker) :
  setStream a initial = Return w0 -> in_order [] w0.
Proof.
  intros H.
  assert (Hn : forall s', nth_error (streams w0) 0 = Some s' ->
               s' = new_stream a).
  { intros s' Hs'.
    apply (onmessage_new_stream initial w0
             {| method := "setStream"; args := a |} 0%nat s');
      [exact H | reflexivity | exact Hs']. }
  unfold setStream in H.
  assert (M1 := read_moves (uuid a)
                  (createReader CHUNK_SIZE (arg_frameCount a)
                     (arg_frameNumber a) (arg_sampleId a) (arg_source a)
                     (arg_url a))).
  destruct (read (uuid a) _) as [s1 ds1].
  assert (M2 := CallPullIfNeeded_still (set_started true s1)).
  destruct (CallPullIfNeeded (set_started true s1)) as [s2 ds2].
  inv_bind H. injection H as <-.
  destruct (deliver (ds1 ++ ds2) (posted initial)) as [out|] eqn:Hd;
    [|discriminate].
  simpl in Ha. injection Ha as <-.
  unfold moves in M1. cbn [fst snd] in M1. simpl in M1.
  apply app_eq_nil in M1. destruct M1 as [V1 Q1].
  destruct M2 as [V2 Q2]. cbn [fst snd] in V2, Q2. simpl in Q2.
  assert (Hv : values (ds1 ++ ds2) = [])
    by (now rewrite values_app, V1, V2).
  exists s2. simpl. split; [reflexivity|].
  split; [rewrite (Hn s2 eq_refl); apply new_stream_well_formed|].
  rewrite Q2, Q1. split; [constructor|].
  rewrite (deliver_values _ _ _ Hd) by (rewrite Hv; constructor).
  rewrite Hv. reflexivity.
Qed.

(** X17.  Chunks are neither lost, nor repeated, nor reordered.  In a
    session that runs undisturbed (one [setStream], no request that fails,
    chunks that can be normalised), whatever the host asks for and whenever
    it does, the chunks posted followed by the chunks that the stream still
    holds are the chunks that have arrived, in the order of arrival. *)
Theorem chunks_posted_in_arrival_order (a : Args) (es : list event)
  (w : Worker) :
  Forall calm es ->
  run initial (Message {| method := "setStream"; args := a |} :: es)
  = Some w ->
  exists s : FrameStream,
    streams w = [s]
    /\ posted_ranges (posted w) ++ map range (queue s) = responses es.
Proof.
  assert (G : forall es arrived w0 w1,
             in_order arrived w0 -> Forall calm es ->
             run w0 es = Some w1 ->
             in_order (arrived ++ responses es) w1).
  { clear. induction es as [|e es IH]; intros arrived w0 w1 Hin Hc H;
      simpl in H.
    - injection H as <-. simpl. now rewrite app_nil_r.
    - destruct (step w0 e) as [w2|] eqn:Hs; [|discriminate].
      inversion Hc as [|e0 es0 Hce Hces]; subst.
      assert (H2 := step_in_order _ _ _ _ Hin Hce Hs).
      assert (H1 := IH _ _ _ H2 Hces H).
      assert (E : responses (e :: es) = responses [e] ++ responses es)
        by (unfold responses; simpl; now rewrite app_nil_r).
      rewrite E, app_assoc. exact H1. }
  intros Hc H. cbn [run] in H.
  destruct (step initial (Message {| method := "setStream"; args := a |}))
    as [w0|] eqn:Hs; [|discriminate].
  assert (Hnt : forall err, setStream a initial <> Throw err).
  { intros err. unfold setStream.
    destruct (read _ _) as [s1 ds1].
    destruct (CallPullIfNeeded _) as [s2 ds2].
    destruct (deliver _ _); simpl; discriminate. }
  assert (H0 : in_order [] w0).
  { apply (setStream_in_order a). unfold step, onmessage in Hs. simpl in Hs.
    destruct (setStream a initial) as [w1|err|] eqn:Hset; try discriminate.
    - now injection Hs as <-.
    - exfalso. exact (Hnt err eq_refl). }
  destruct (G _ _ _ _ H0 Hc H) as (s & Hss & _ & _ & E).
  exists s. split; [exact Hss | exact E].
Qed.

(* ===================================================================== *)
(** * Chunk ordering under every schedule *)
(* ===================================================================== *)

Lemma chunk_ranges_fuel (C F : Z) :
  (0 < C)%Z ->
  forall (k k' : nat) (n : Z),
    (n < F)%Z -> (F - n <= Z.of_nat k)%Z -> (F - n <= Z.of_nat k')%Z ->
    chunk_ranges C F k n = chunk_ranges C F k' n.
Proof.
  intros HC. induction k as [|k IH]; intros k' n Hn Hk Hk'.
  - simpl in Hk. lia.
  - destruct k' as [|k']; [simpl in Hk'; lia|].
    cbn [chunk_ranges]. cbv zeta. f_equal.
    destruct (Z.leb_spec F (Z.min (n + C - 1) (F - 1) + 1)) as [Hle|Hgt];
      [reflexivity|].
    apply IH; lia.
Qed.

Lemma remaining_unfold (F n : Z) :
  (0 < CHUNK_SIZE)%Z -> (n < F)%Z ->
  remaining F n
  = (n, Z.min (n + CHUNK_SIZE - 1) (F - 1))
    :: remaining F (Z.min (n + CHUNK_SIZE - 1) (F - 1) + 1).
Proof.
  intros HC Hn. unfold remaining.
  destruct (Z.ltb_spec n F) as [_|]; [|lia].
  set (m := Z.min (n + CHUNK_SIZE - 1) (F - 1)).
  assert (Hk : Z.to_nat (F - n) = S (Z.to_nat (F - n - 1))) by lia.
  rewrite Hk. cbn [chunk_ranges]. cbv zeta. fold m. f_equal.
  destruct (Z.leb_spec F (m + 1)) as [Hle|Hgt];
    destruct (Z.ltb_spec (m + 1) F) as [Hlt|Hge]; try lia; [reflexivity|].
  apply chunk_ranges_fuel; subst m; lia.
Qed.

Lemma remaining_end (F n : Z) : (F <= n)%Z -> remaining F n = [].
Proof.
  intros H. unfold remaining. destruct (Z.ltb_spec n F); [lia | reflexivity].
Qed.

(** ** A source on course stays on course *)

Lemma CallPullIfNeeded_on_course (F : Z) (s : FrameStream) :
  on_course F s -> on_course F (fst (CallPullIfNeeded s)).
Proof.
  intros H. unfold CallPullIfNeeded, CallPullIfNeeded_step.
  destruct (ShouldCallPull s) eqn:Hs; [|exact H].
  destruct (ShouldCallPull_true s Hs) as (Hc & _ & _).
  destruct s as [cs fc fn sid src ur c st sta pl pa cr q rr fe inf].
  unfold on_course, CanCloseOrEnqueue, is_readable in *. simpl in *.
  destruct H as (-> & -> & -> & Hst & Hin & Hidle & Hcr & Hcl).
  destruct cr; [discriminate|]. destruct st; try discriminate.
  clear Hs Hc Hst.
  destruct pl; simpl.
  - unfold on_course, CanCloseOrEnqueue, is_readable, request_of. simpl.
    repeat split; auto; discriminate.
  - rewrite (Hidle eq_refl) in *. clear Hin Hidle.
    unfold pull, CanCloseOrEnqueue, is_readable, ControllerClose,
      ReadableStreamClose, pullFulfilled, request_of. simpl.
    rewrite orb_false_r.
    destruct (Z.leb_spec F fn) as [Hle|Hlt]; simpl.
    + destruct q as [|ch q]; simpl; destruct pa; simpl;
        repeat split; auto; try discriminate.
    + repeat split; auto; try discriminate.
Qed.

Lemma read_frameNumber (u : string) (s : FrameStream) :
  frameNumber (fst (read u s)) = frameNumber s.
Proof.
  unfold read. destruct (state s); try reflexivity.
  destruct (queue s) as [|chunk rest].
  - now rewrite CallPullIfNeeded_frameNumber.
  - assert (H := CallPullIfNeeded_frameNumber (set_queue rest s)).
    destruct rest; simpl.
    + destruct (closeRequested s); simpl; [reflexivity|].
      destruct (CallPullIfNeeded _). exact H.
    + destruct (CallPullIfNeeded _). exact H.
Qed.

Lemma read_on_course (F : Z) (u : string) (s : FrameStream) :
  on_course F s -> on_course F (fst (read u s)).
Proof.
  intros H. unfold read. destruct (state s) eqn:Hst; try exact H.
  assert (Hsame : forall t,
             settings t = settings s -> frameNumber t = frameNumber s ->
             cancelled t = cancelled s -> state t = state s ->
             inflight t = inflight s -> pulling t = pulling s ->
             closeRequested t = closeRequested s ->
             on_course F t).
  { intros t Hset Hfn Hcan Hstt Hinf Hpl Hcr.
    unfold settings in Hset. injection Hset as E1 E2 E3 E4 E5.
    destruct H as (A1 & A2 & A3 & A4 & A5 & A6 & A7 & A8).
    unfold on_course, CanCloseOrEnqueue, is_readable, request_of in *.
    rewrite Hfn, Hcan, Hstt, Hinf, Hpl, Hcr, E1, E2, E3, E4, E5.
    split; [exact A1|]. split; [exact A2|]. split; [exact A3|].
    split; [exact A4|]. split; [exact A5|]. split; [exact A6|].
    split; [exact A7|]. intros Hc. congruence. }
  destruct (queue s) as [|chunk rest] eqn:Hq.
  - apply CallPullIfNeeded_on_course. apply Hsame; reflexivity.
  - assert (H1 : on_course F (set_queue rest s))
      by (apply Hsame; reflexivity).
    apply CallPullIfNeeded_on_course in H1.
    destruct rest as [|c' rest']; simpl.
    + destruct (closeRequested s) eqn:Hcr; simpl.
      * destruct H as (A1 & A2 & A3 & A4 & A5 & A6 & A7 & A8).
        unfold on_course, CanCloseOrEnqueue, is_readable, request_of in *.
        simpl. rewrite Hcr in *. rewrite Hst in *.
        repeat split; auto; try discriminate.
      * destruct (CallPullIfNeeded (set_queue [] s)). exact H1.
    + destruct (CallPullIfNeeded (set_queue (c' :: rest') s)). exact H1.
Qed.

Lemma receive_on_course (F : Z) (chunk : FrameChunk) (s : FrameStream)
  (r : FramesRequest) (rest : list FramesRequest) :
  on_course F s -> inflight s = r :: rest ->
  rest = [] /\ r = request_of s /\ (frameNumber s < F)%Z
  /\ CanCloseOrEnqueue s = true
  /\ on_course F (fst (receive chunk (set_inflight rest s))).
Proof.
  intros H Hi.
  destruct H as (A1 & A2 & A3 & A4 & A5 & A6 & A7 & A8).
  destruct A5 as [A5|(A5 & B5 & C5 & D5)]; [congruence|].
  rewrite A5 in Hi. injection Hi as <- <-.
  split; [reflexivity|]. split; [reflexivity|]. split; [exact B5|].
  split; [exact D5|].
  unfold receive.
  change (CanCloseOrEnqueue (set_inflight [] s)) with (CanCloseOrEnqueue s).
  rewrite D5.
  set (e := match readRequests (set_inflight [] s) with
            | uuid :: rest => _
            | [] => _
            end).
  assert (He : settings (fst e) = settings s /\ cancelled (fst e) = false
               /\ state (fst e) = readable /\ inflight (fst e) = []
               /\ pulling (fst e) = true /\ closeRequested (fst e) = false).
  { unfold CanCloseOrEnqueue, is_readable in D5.
    destruct (closeRequested s) eqn:Hcr; [discriminate|].
    destruct (state s) eqn:Hst; try discriminate.
    subst e. destruct (readRequests (set_inflight [] s)); simpl;
      repeat split; auto. }
  destruct e as [s1 ds1]. cbn [fst] in He.
  destruct He as (E1 & E2 & E3 & E4 & E5 & E6).
  assert (H2 : settings (fst (CallPullIfNeeded s1)) = settings s
               /\ cancelled (fst (CallPullIfNeeded s1)) = false
               /\ state (fst (CallPullIfNeeded s1)) = readable
               /\ inflight (fst (CallPullIfNeeded s1)) = []
               /\ closeRequested (fst (CallPullIfNeeded s1)) = false).
  { unfold CallPullIfNeeded, CallPullIfNeeded_step.
    destruct (ShouldCallPull s1); simpl; [|auto].
    rewrite E5. simpl. auto. }
  destruct (CallPullIfNeeded s1) as [s2 ds2]. cbn [fst] in H2.
  destruct H2 as (G1 & G2 & G3 & G4 & G5).
  unfold pullFulfilled.
  assert (H3 : forall b,
             on_course F
               (set_pullAgain b
                  (set_pulling false
                     (set_frameNumber (snd (range chunk) + 1) s2)))).
  { intros b. unfold settings in G1. injection G1 as K1 K2 _ _ _.
    unfold on_course, CanCloseOrEnqueue, is_readable, request_of. simpl.
    rewrite G2, G3, G4, G5, K1, K2.
    repeat split; auto; discriminate. }
  cbn [pullAgain set_pulling].
  destruct (pullAgain (set_frameNumber (snd (range chunk) + 1) s2)) eqn:Hpa.
  - assert (H4 := CallPullIfNeeded_on_course F _ (H3 false)).
    destruct (CallPullIfNeeded _) as [s4 ds4]. exact H4.
  - assert (H4 := H3 false). clear H3.
    unfold on_course, CanCloseOrEnqueue, is_readable, request_of in *.
    simpl in *. exact H4.
Qed.

(** ** A live source stays live *)

Lemma ShouldCallPull_false (s : FrameStream) :
  CanCloseOrEnqueue s = true -> started s = true ->
  ShouldCallPull s = false ->
  readRequests s = [] /\ (HIGH_WATER_MARK <= List.length (queue s))%nat.
Proof.
  intros Hc Hsta Hs. unfold ShouldCallPull in Hs. rewrite Hc, Hsta in Hs.
  simpl in Hs. destruct (readRequests s); simpl in Hs; [|discriminate].
  split; [reflexivity|]. unfold desiredSize in Hs. apply Z.ltb_ge in Hs.
  unfold HIGH_WATER_MARK in *. lia.
Qed.

Lemma CallPullIfNeeded_busy (s : FrameStream) :
  pulling s = true ->
  CallPullIfNeeded s
  = ((if ShouldCallPull s then set_pullAgain true s else s), []).
Proof.
  intros Hp. unfold CallPullIfNeeded, CallPullIfNeeded_step.
  destruct (ShouldCallPull s); simpl; [|reflexivity]. now rewrite Hp.
Qed.

Lemma CallPullIfNeeded_live (F : Z) (s : FrameStream) :
  on_course F s -> started s = true ->
  (pulling s = true -> inflight s <> []) ->
  (state s = closed \/ inflight s <> [] \/ queue s <> []
   \/ (CanCloseOrEnqueue s = true
       /\ (readRequests s <> []
           \/ (List.length (queue s) < HIGH_WATER_MARK)%nat))) ->
  live (fst (CallPullIfNeeded s)).
Proof.
  intros C Hsta K Hpre. unfold CallPullIfNeeded, CallPullIfNeeded_step.
  destruct (ShouldCallPull s) eqn:Hs; simpl.
  2: { split; [exact Hsta|]. split; [exact K|].
       destruct Hpre as [H|[H|[H|[Hc Hd]]]]; auto.
       exfalso. destruct (ShouldCallPull_false s Hc Hsta Hs) as [Hr Hq].
       destruct Hd as [Hd|Hd]; [congruence | lia]. }
  destruct (pulling s) eqn:Hp; simpl.
  { split; [exact Hsta|]. split; [intros _; now apply K|].
    right. left. now apply K. }
  destruct (ShouldCallPull_true s Hs) as (Hc & _ & _).
  destruct C as (A1 & A2 & A3 & A4 & A5 & A6 & A7 & A8).
  assert (Hi : inflight s = []) by (apply A6; exact Hp).
  unfold pull. cbn [frameCount frameNumber cancelled set_pulling].
  rewrite A2, A3, orb_false_r.
  change (CanCloseOrEnqueue (set_pulling true s)) with (CanCloseOrEnqueue s).
  rewrite Hc.
  destruct (F <=? frameNumber s)%Z.
  - unfold ControllerClose. cbn [queue set_closeRequested set_pulling].
    destruct (queue s) as [|c q] eqn:Hq; unfold pullFulfilled, live; simpl;
      destruct (pullAgain s); simpl.
    + split; [exact Hsta|]. split; [discriminate|]. now left.
    + split; [exact Hsta|]. split; [discriminate|]. now left.
    + split; [exact Hsta|]. split; [discriminate|]. right. right.
      rewrite Hq. discriminate.
    + split; [exact Hsta|]. split; [discriminate|]. right. right.
      rewrite Hq. discriminate.
  - unfold live. simpl. rewrite Hi. simpl.
    split; [exact Hsta|]. split; [intros _; discriminate|].
    right. left. discriminate.
Qed.

Lemma on_course_readable (F : Z) (s t : FrameStream) :
  on_course F s -> state s = readable ->
  settings t = settings s -> frameNumber t = frameNumber s ->
  cancelled t = cancelled s -> state t = state s ->
  inflight t = inflight s -> pulling t = pulling s ->
  closeRequested t = closeRequested s ->
  on_course F t.
Proof.
  intros H Hst Hset Hfn Hcan Hstt Hinf Hpl Hcr.
  unfold settings in Hset. injection Hset as E1 E2 E3 E4 E5.
  destruct H as (A1 & A2 & A3 & A4 & A5 & A6 & A7 & A8).
  unfold on_course, CanCloseOrEnqueue, is_readable, request_of in *.
  rewrite Hfn, Hcan, Hstt, Hinf, Hpl, Hcr, E1, E2, E3, E4, E5.
  split; [exact A1|]. split; [exact A2|]. split; [exact A3|].
  split; [exact A4|]. split; [exact A5|]. split; [exact A6|].
  split; [exact A7|]. intros Hc. congruence.
Qed.

Lemma read_live (F : Z) (u : string) (s : FrameStream) :
  on_course F s -> live s -> live (fst (read u s)).
Proof.
  intros C (Hsta & K & J). unfold read.
  destruct (state s) eqn:Hst;
    [|split; [exact Hsta|]; split; [exact K|]; left; exact Hst
     |exfalso; destruct C as (_ & _ & _ & A4 & _); congruence].
  destruct (queue s) as [|chunk rest] eqn:Hq.
  - apply (CallPullIfNeeded_live F).
    + apply (on_course_readable F s); auto.
    + exact Hsta.
    + exact K.
    + destruct J as [J|[J|J]]; [congruence | right; left; exact J
                                | congruence].
  - assert (C1 : on_course F (set_queue rest s))
      by (apply (on_course_readable F s); auto).
    destruct rest as [|c' rest']; simpl.
    + destruct (closeRequested s) eqn:Hcr; simpl.
      * split; [exact Hsta|]. split; [exact K|]. now left.
      * assert (L : live (fst (CallPullIfNeeded (set_queue [] s)))).
        { apply (CallPullIfNeeded_live F); auto.
          right. right. right. split.
          - unfold CanCloseOrEnqueue, is_readable. simpl.
            now rewrite Hcr, Hst.
          - right. simpl. unfold HIGH_WATER_MARK. lia. }
        destruct (CallPullIfNeeded (set_queue [] s)). exact L.
    + assert (L : live (fst (CallPullIfNeeded (set_queue (c' :: rest') s)))).
      { apply (CallPullIfNeeded_live F); auto.
        right. right. left. discriminate. }
      destruct (CallPullIfNeeded (set_queue (c' :: rest') s)). exact L.
Qed.

Lemma receive_live (F : Z) (chunk : FrameChunk) (s : FrameStream)
  (r : FramesRequest) (rest : list FramesRequest) :
  well_formed s -> on_course F s -> live s -> inflight s = r :: rest ->
  live (fst (receive chunk (set_inflight rest s))).
Proof.
  intros W C (Hsta & K & J) Hi.
  destruct (receive_on_course F chunk s r rest C Hi)
    as (-> & Hr & Hlt & Hc & _).
  destruct C as (A1 & A2 & A3 & A4 & A5 & A6 & A7 & A8).
  destruct A5 as [A5|(A5 & B5 & C5 & D5)]; [congruence|].
  assert (Hcr : closeRequested s = false /\ state s = readable).
  { unfold CanCloseOrEnqueue, is_readable in Hc.
    destruct (closeRequested s); [discriminate|].
    destruct (state s); try discriminate. auto. }
  destruct Hcr as [Hcr Hst].
  unfold receive.
  change (CanCloseOrEnqueue (set_inflight [] s)) with (CanCloseOrEnqueue s).
  rewrite Hc.
  set (e := match readRequests (set_inflight [] s) with
            | uuid :: rest => _
            | [] => _
            end).
  assert (He : settings (fst e) = settings s /\ cancelled (fst e) = false
               /\ state (fst e) = readable /\ inflight (fst e) = []
               /\ pulling (fst e) = true /\ closeRequested (fst e) = false
               /\ started (fst e) = true
               /\ (queue (fst e) <> []
                   \/ (queue (fst e) = [] /\ pullAgain (fst e) = pullAgain s
                       /\ forall t, readRequests t = readRequests (fst e) ->
                                    queue t = [] -> started t = true ->
                                    CanCloseOrEnqueue t = true ->
                                    ShouldCallPull t = true))).
  { subst e. cbn [readRequests set_inflight].
    destruct (readRequests s) as [|u us] eqn:Hrr; cbn [fst].
    - simpl. repeat split; auto. left. now destruct (queue s).
    - simpl. repeat split; auto. right.
      split; [apply (wf_waiting s W); congruence|]. split; [reflexivity|].
      intros t Ht Hq Hs Hct. unfold ShouldCallPull.
      rewrite Hct, Hs, Ht. simpl.
      destruct us; simpl; [|reflexivity].
      unfold desiredSize. rewrite Hq. reflexivity. }
  destruct e as [s1 ds1]. cbn [fst] in He.
  destruct He as (E1 & E2 & E3 & E4 & E5 & E6 & E7 & E8).
  assert (Hc1 : CanCloseOrEnqueue s1 = true)
    by (unfold CanCloseOrEnqueue, is_readable; now rewrite E6, E3).
  rewrite (CallPullIfNeeded_busy s1 E5).
  unfold pullFulfilled.
  assert (H3 : forall t,
             settings t = settings s1 -> cancelled t = false ->
             state t = readable -> inflight t = [] -> pulling t = false ->
             closeRequested t = false ->
             on_course F t).
  { intros t T1 T2 T3 T4 T5 T6. rewrite E1 in T1.
    unfold settings in T1. injection T1 as K1 K2 _ _ _.
    unfold on_course, CanCloseOrEnqueue, is_readable, request_of.
    rewrite T2, T3, T4, T6, K1, K2.
    repeat split; auto; discriminate. }
  destruct (ShouldCallPull s1) eqn:Hs1.
  - cbn [pullAgain set_pulling set_frameNumber set_pullAgain].
    assert (L := CallPullIfNeeded_live F
                   (set_pullAgain false
                      (set_pulling false
                         (set_frameNumber (snd (range chunk) + 1)
                            (set_pullAgain true s1))))).
    destruct (CallPullIfNeeded _) as [s4 ds4]. cbn [fst] in *.
    apply L.
    + apply H3; auto.
    + exact E7.
    + discriminate.
    + destruct (ShouldCallPull_true s1 Hs1) as (_ & _ & Hd).
      right. right. right. split; [exact Hc1 | exact Hd].
  - destruct E8 as [E8|(Q8 & P8 & S8)].
    2: { rewrite (S8 s1 eq_refl Q8 E7 Hc1) in Hs1. discriminate. }
    cbn [pullAgain set_pulling set_frameNumber].
    destruct (pullAgain s1) eqn:Hpa.
    + assert (L := CallPullIfNeeded_live F
                     (set_pullAgain false
                        (set_pulling false
                           (set_frameNumber (snd (range chunk) + 1) s1)))).
      destruct (CallPullIfNeeded _) as [s4 ds4]. cbn [fst] in *.
      apply L.
      * apply H3; auto.
      * exact E7.
      * discriminate.
      * right. right. left. exact E8.
    + cbn [fst]. unfold live. simpl.
      split; [exact E7|]. split; [discriminate|]. right. right. exact E8.
Qed.

Lemma fetching_live (a : Args) : live (fetching a).
Proof.
  unfold live, fetching. simpl.
  split; [reflexivity|]. split; [discriminate|]. right. left. discriminate.
Qed.

(** ** The session under one turn *)

Lemma session_at_posted (F : Z) (i : nat) (total : list (Z * Z)) (w : Worker)
  (out : list Posted) (pending : list SampleRequest) :
  session_at F i total w -> posted_ranges out = posted_ranges (posted w) ->
  session_at F i total
    {| stream := stream w; streamId := streamId w; streams := streams w;
       sampleRequests := pending; posted := out |}.
Proof.
  intros (Hcur & s & Hs & W & C & L & B & N & E) Hp.
  split; [exact Hcur|]. exists s. simpl. rewrite Hp.
  exact (conj Hs (conj W (conj C (conj L (conj B (conj N E)))))).
Qed.

Lemma session_at_stream (F : Z) (i : nat) (total : list (Z * Z))
  (added : list FrameChunk) (w : Worker) (s s' : FrameStream)
  (ds : list delivery) (out : list Posted) :
  stream w = Some i -> nth_error (streams w) i = Some s ->
  Forall normalisable (queue s) ->
  posted_ranges (posted w) ++ map range (queue s)
  ++ remaining F (frameNumber s) = total ->
  well_formed s' -> on_course F s' -> live s' -> (frameNumber s' <= F)%Z ->
  Forall normalisable added ->
  moves added (queue s) (s', ds) ->
  map range added ++ remaining F (frameNumber s')
  = remaining F (frameNumber s) ->
  deliver ds (posted w) = Some out ->
  session_at F i total (with_stream i s' out w).
Proof.
  intros Hcur Hs N E W' C' L' B' Na M R Hd. unfold moves in M.
  cbn [fst snd] in M.
  assert (Hall : Forall normalisable (values ds ++ queue s')).
  { rewrite M. apply Forall_app. now split. }
  apply Forall_app in Hall. destruct Hall as [Nv Nq].
  split; [exact Hcur|]. exists s'. simpl.
  split; [eapply nth_error_update_same; exact Hs|].
  split; [exact W'|]. split; [exact C'|]. split; [exact L'|].
  split; [exact B'|]. split; [exact Nq|].
  rewrite (deliver_values _ _ _ Hd Nv), <- E, <- R.
  rewrite <- !app_assoc. f_equal.
  rewrite !app_assoc. f_equal.
  rewrite <- !map_app. now rewrite M.
Qed.

Lemma message_session_at (F : Z) (i : nat) (total : list (Z * Z))
  (w w' : Worker) (data : MessageData) :
  session_at F i total w -> method data <> "setStream" ->
  step w (Message data) = Some w' -> session_at F i total w'.
Proof.
  intros Hin Hcalm H. simpl in H.
  assert (Hsame : forall out,
             posted_ranges out = posted_ranges (posted w) ->
             session_at F i total
               {| stream := stream w; streamId := streamId w;
                  streams := streams w; sampleRequests := sampleRequests w;
                  posted := out |})
    by (intros out Hp; now apply session_at_posted).
  destruct (onmessage w data) as [w1|err|] eqn:Hm; try discriminate;
    injection H as <-; [|exact Hin].
  unfold onmessage in Hm.
  destruct (String.eqb (method data) "processSample").
  { unfold processSample in Hm. inv_bind Hm. destruct a as [s1 b1].
    injection Hm as <-. apply Hsame.
    rewrite posted_ranges_app. simpl. now rewrite app_nil_r. }
  destruct (String.eqb (method data) "requestFrameChunk").
  { unfold requestFrameChunk in Hm.
    destruct (streamId w) as [id|]; [|now injection Hm as <-].
    destruct (String.eqb (uuid (args data)) id); [|now injection Hm as <-].
    destruct Hin as (Hcur & s & Hs & W & C & L & B & N & E).
    rewrite Hcur, Hs in Hm.
    assert (M := read_moves (uuid (args data)) s).
    assert (W' := read_well_formed (uuid (args data)) s W).
    assert (C' := read_on_course F (uuid (args data)) s C).
    assert (L' := read_live F (uuid (args data)) s C L).
    assert (Hfn := read_frameNumber (uuid (args data)) s).
    destruct (read (uuid (args data)) s) as [s' ds].
    cbn [fst] in W', C', L', Hfn.
    inv_bind Hm. injection Hm as <-.
    destruct (deliver ds (posted w)) as [out|] eqn:Hd; [|discriminate].
    simpl in Ha. injection Ha as <-.
    apply (session_at_stream F i total [] w s s' ds out); auto.
    - now rewrite Hfn.
    - now rewrite Hfn. }
  destruct (String.eqb (method data) "setStream") eqn:Es.
  { apply String.eqb_eq in Es. contradiction. }
  destruct (String.eqb (method data) "requestSourceSample").
  { unfold requestSourceSample in Hm. injection Hm as <-.
    now apply session_at_posted. }
  discriminate.
Qed.

Lemma answer_session_at (frames_of : Z -> list value) (F : Z) (i : nat)
  (total : list (Z * Z)) (w w' : Worker) :
  (0 < CHUNK_SIZE)%Z ->
  (forall n, exists fs bs, collectFrames (frames_of n) [] = Return (fs, bs)) ->
  session_at F i total w ->
  take_turn frames_of w Answer = Some w' -> session_at F i total w'.
Proof.
  intros HC Hframes (Hcur & s & Hs & W & C & L & B & N & E) H.
  unfold take_turn, outstanding in H. rewrite Hcur, Hs in H.
  destruct (inflight s) as [|r rest] eqn:Hi; [discriminate|].
  unfold step in H. rewrite Hs, Hi in H.
  assert (L' := receive_live F (answer frames_of r) s r rest W C L Hi).
  destruct (receive_on_course F (answer frames_of r) s r rest C Hi)
    as (-> & Hr & Hlt & Hc & C').
  assert (HF : frameCount s = F) by apply C.
  assert (Hcs : chunkSize s = CHUNK_SIZE) by apply C.
  assert (Hrange : range (answer frames_of r)
                   = (frameNumber s,
                      Z.min (frameNumber s + CHUNK_SIZE - 1) (F - 1))).
  { rewrite Hr. unfold answer, request_of. simpl. now rewrite HF, Hcs. }
  assert (Hc0 : CanCloseOrEnqueue (set_inflight [] s) = true) by exact Hc.
  assert (M := receive_moves (answer frames_of r) (set_inflight [] s) Hc0
                 (wf_waiting s W)).
  assert (W' := receive_well_formed (answer frames_of r) s r [] W Hi).
  assert (Hfn := receive_frameNumber (answer frames_of r)
                   (set_inflight [] s) Hc0).
  destruct (receive (answer frames_of r) (set_inflight [] s)) as [s' ds].
  cbn [fst] in W', C', L', Hfn.
  destruct (deliver ds (posted w)) as [out|] eqn:Hd; [|discriminate].
  injection H as <-.
  rewrite Hrange in Hfn. cbn [snd] in Hfn.
  apply (session_at_stream F i total
           [{| frames := frames (answer frames_of r);
               range := range (answer frames_of r) |}] w s s' ds out); auto.
  - rewrite Hfn. lia.
  - constructor; [|constructor]. unfold normalisable. simpl.
    apply Hframes.
  - cbn [map app range]. rewrite Hfn, Hrange. symmetry.
    now apply remaining_unfold.
Qed.

Lemma play_session_at (frames_of : Z -> list value) (F : Z) (i : nat)
  (total : list (Z * Z)) :
  (0 < CHUNK_SIZE)%Z ->
  (forall n, exists fs bs, collectFrames (frames_of n) [] = Return (fs, bs)) ->
  forall (ts : list turn) (w w' : Worker),
    Forall same_session ts -> session_at F i total w ->
    play frames_of w ts = Some w' -> session_at F i total w'.
Proof.
  intros HC Hframes. induction ts as [|t ts IH]; intros w w' Hts Hin H.
  - simpl in H. now injection H as <-.
  - cbn [play] in H.
    destruct (take_turn frames_of w t) as [w1|] eqn:Ht; [|discriminate].
    inversion Hts as [|t0 ts0 Ht0 Hts0]; subst.
    apply (IH w1 w' Hts0); [|exact H].
    destruct t as [|data].
    + eapply answer_session_at; eassumption.
    + eapply message_session_at; eassumption.
Qed.

Lemma fetching_on_course (a : Args) :
  (arg_frameNumber a < arg_frameCount a)%Z ->
  on_course (arg_frameCount a) (fetching a).
Proof.
  intros Hlt. unfold on_course, fetching, CanCloseOrEnqueue, is_readable,
    request_of. simpl.
  repeat split; auto; try discriminate.
Qed.

Lemma setStream_session_at (a : Args) (w : Worker) :
  (arg_frameNumber a < arg_frameCount a)%Z ->
  exists w0,
    setStream a w = Return w0
    /\ session_at (arg_frameCount a) (List.length (streams w))
         (posted_ranges (posted w)
          ++ remaining (arg_frameCount a) (arg_frameNumber a)) w0.
Proof.
  intros Hlt. rewrite (setStream_fetching a w Hlt).
  eexists. split; [reflexivity|].
  split; [simpl; now rewrite cancel_current_length|].
  exists (fetching a). simpl.
  split; [rewrite <- (cancel_current_length w); apply nth_error_last|].
  split.
  { destruct (new_stream_fetching a Hlt) as (<- & _).
    apply new_stream_well_formed. }
  split; [now apply fetching_on_course|]. split; [apply fetching_live|].
  split; [lia|]. split; [constructor | reflexivity].
Qed.

(** ** Every session can run to its end *)

Lemma deliver_normalisable (ds : list delivery) (out : list Posted) :
  Forall normalisable (values ds) -> exists out', deliver ds out = Some out'.
Proof.
  revert out. induction ds as [|[u [c|]] ds IH]; intros out Hn;
    simpl in Hn |- *.
  - eauto.
  - inversion Hn as [|c0 cs (fs & bs & Hc) Hrest]; subst.
    rewrite Hc. simpl. apply IH. exact Hrest.
  - apply IH. exact Hn.
Qed.

Lemma read_queued (u : string) (s : FrameStream) (c : FrameChunk)
  (rest : list FrameChunk) :
  state s = readable -> queue s = c :: rest ->
  queue (fst (read u s)) = rest.
Proof.
  intros Hst Hq. unfold read. rewrite Hst, Hq.
  assert (H1 := CallPullIfNeeded_still (set_queue rest s)).
  destruct rest as [|c' rest']; simpl.
  - destruct (closeRequested s); simpl; [reflexivity|].
    destruct (CallPullIfNeeded (set_queue [] s)). apply H1.
  - destruct (CallPullIfNeeded (set_queue (c' :: rest') s)). apply H1.
Qed.

Lemma take_turn_streamId (frames_of : Z -> list value) (w w' : Worker)
  (t : turn) :
  same_session t -> take_turn frames_of w t = Some w' ->
  streamId w' = streamId w.
Proof.
  intros Ht H.
  assert (G : forall e, step w e = Some w' ->
              (forall data, e = Message data -> method data <> "setStream") ->
              streamId w' = streamId w).
  { intros e He Hm.
    destruct (step_shape _ _ _ He)
      as [(_ & E & _)
         | [(j & sj & sj' & ds & us & _ & _ & E & _)
           | (a & s2 & ds & -> & Hs & _)]]; auto.
    exfalso. exact (Hm a eq_refl Hs). }
  destruct t as [|data]; cbn [take_turn] in H.
  - destruct (outstanding w) as [[i r]|]; [|discriminate].
    apply (G (FramesResponse i (answer frames_of r)) H).
    intros data E. discriminate E.
  - apply (G (Message data) H). intros d E. injection E as <-. exact Ht.
Qed.

Lemma play_streamId (frames_of : Z -> list value) (ts : list turn) :
  forall w w' : Worker,
    Forall same_session ts -> play frames_of w ts = Some w' ->
    streamId w' = streamId w.
Proof.
  induction ts as [|t ts IH]; intros w w' Hts H.
  - simpl in H. now injection H as <-.
  - cbn [play] in H.
    destruct (take_turn frames_of w t) as [w1|] eqn:Ht; [|discriminate].
    inversion Hts as [|t0 ts0 Ht0 Hts0]; subst.
    rewrite (IH w1 w' Hts0 H). eapply take_turn_streamId; eassumption.
Qed.

(** The response to the outstanding request brings the session forward. *)
Lemma answer_progress (frames_of : Z -> list value) (F : Z) (i : nat)
  (total : list (Z * Z)) (w : Worker) (s : FrameStream) :
  (0 < CHUNK_SIZE)%Z ->
  (forall n, exists fs bs, collectFrames (frames_of n) [] = Return (fs, bs)) ->
  session_at F i total w -> nth_error (streams w) i = Some s ->
  inflight s <> [] ->
  exists (w1 : Worker) (s1 : FrameStream),
    take_turn frames_of w Answer = Some w1
    /\ nth_error (streams w1) i = Some s1
    /\ (todo F s1 < todo F s)%nat.
Proof.
  intros HC Hframes (Hcur & s0 & Hs0 & W & C & L & B & N & E) Hs Hne.
  assert (s0 = s) by congruence. subst s0. clear Hs0.
  unfold take_turn, outstanding. rewrite Hcur, Hs.
  destruct (inflight s) as [|r rest] eqn:Hi; [now elim Hne|].
  unfold step. rewrite Hs, Hi.
  destruct (receive_on_course F (answer frames_of r) s r rest C Hi)
    as (-> & Hr & Hlt & Hc & _).
  assert (HF : frameCount s = F) by apply C.
  assert (Hcs : chunkSize s = CHUNK_SIZE) by apply C.
  assert (Hrange : range (answer frames_of r)
                   = (frameNumber s,
                      Z.min (frameNumber s + CHUNK_SIZE - 1) (F - 1))).
  { rewrite Hr. unfold answer, request_of. simpl. now rewrite HF, Hcs. }
  assert (Hc0 : CanCloseOrEnqueue (set_inflight [] s) = true) by exact Hc.
  assert (M := receive_moves (answer frames_of r) (set_inflight [] s) Hc0
                 (wf_waiting s W)).
  assert (Hfn := receive_frameNumber (answer frames_of r)
                   (set_inflight [] s) Hc0).
  destruct (receive (answer frames_of r) (set_inflight [] s)) as [s' ds].
  unfold moves in M. cbn [fst snd] in M, Hfn.
  change (queue (set_inflight [] s)) with (queue s) in M.
  assert (Hall : Forall normalisable (values ds ++ queue s')).
  { rewrite M. apply Forall_app. split; [exact N|].
    constructor; [|constructor]. unfold normalisable. simpl.
    apply Hframes. }
  apply Forall_app in Hall. destruct Hall as [Nv _].
  destruct (deliver_normalisable ds (posted w) Nv) as [out Hd].
  rewrite Hd. exists (with_stream i s' out w), s'.
  split; [reflexivity|].
  split; [simpl; eapply nth_error_update_same; exact Hs|].
  assert (Hlen : (List.length (queue s') <= List.length (queue s) + 1)%nat).
  { assert (H1 : List.length (values ds ++ queue s')
                 = List.length (queue s ++ [{| frames := frames (answer frames_of r);
                                               range := range (answer frames_of r) |}]))
      by (now rewrite M).
    rewrite !length_app in H1. simpl in H1. lia. }
  unfold todo. rewrite Hfn, Hrange. cbn [snd].
  rewrite (remaining_unfold F (frameNumber s) HC Hlt). simpl List.length.
  lia.
Qed.

(** A request of the host for the next chunk brings the session forward
    when a chunk is queued. *)
Lemma ask_progress (frames_of : Z -> list value) (F : Z) (i : nat)
  (total : list (Z * Z)) (w : Worker) (s : FrameStream) (a : Args)
  (c : FrameChunk) (rest : list FrameChunk) :
  session_at F i total w -> streamId w = Some (uuid a) ->
  nth_error (streams w) i = Some s ->
  state s = readable -> queue s = c :: rest ->
  exists (w1 : Worker) (s1 : FrameStream),
    take_turn frames_of w
      (Host {| method := "requestFrameChunk"; args := a |}) = Some w1
    /\ nth_error (streams w1) i = Some s1
    /\ (todo F s1 < todo F s)%nat.
Proof.
  intros (Hcur & s0 & Hs0 & W & C & L & B & N & E) Hid Hs Hst Hq.
  assert (s0 = s) by congruence. subst s0. clear Hs0.
  unfold take_turn, step.
  rewrite (requestFrameChunk_current w
             {| method := "requestFrameChunk"; args := a |} i s
             eq_refl Hid Hcur Hs).
  cbn [args].
  assert (M := read_moves (uuid a) s).
  assert (Hfn := read_frameNumber (uuid a) s).
  assert (Hq' := read_queued (uuid a) s c rest Hst Hq).
  destruct (read (uuid a) s) as [s' ds].
  unfold moves in M. cbn [fst snd] in M, Hfn, Hq'.
  rewrite app_nil_r in M.
  assert (Hall : Forall normalisable (values ds ++ queue s'))
    by (rewrite M; exact N).
  apply Forall_app in Hall. destruct Hall as [Nv _].
  destruct (deliver_normalisable ds (posted w) Nv) as [out Hd].
  rewrite Hd. cbn [modelled bind].
  exists (with_stream i s' out w), s'.
  split; [reflexivity|].
  split; [simpl; eapply nth_error_update_same; exact Hs|].
  unfold todo. rewrite Hfn, Hq', Hq. simpl List.length. lia.
Qed.

Lemma session_completes (frames_of : Z -> list value) (F : Z) (i : nat)
  (total : list (Z * Z)) (a : Args) :
  (0 < CHUNK_SIZE)%Z ->
  (forall n, exists fs bs, collectFrames (frames_of n) [] = Return (fs, bs)) ->
  forall (n : nat) (w : Worker) (s : FrameStream),
    session_at F i total w -> streamId w = Some (uuid a) ->
    nth_error (streams w) i = Some s -> (todo F s <= n)%nat ->
    exists (ts : list turn) (w' : Worker) (s' : FrameStream),
      Forall same_session ts
      /\ play frames_of w ts = Some w'
      /\ nth_error (streams w') i = Some s'
      /\ state s' = closed.
Proof.
  intros HC Hframes.
  assert (Hnext : forall (n : nat) (w w1 : Worker) (s1 : FrameStream)
                    (t : turn),
             (forall (w : Worker) (s : FrameStream),
                 session_at F i total w -> streamId w = Some (uuid a) ->
                 nth_error (streams w) i = Some s -> (todo F s <= n)%nat ->
                 exists (ts : list turn) (w' : Worker) (s' : FrameStream),
                   Forall same_session ts
                   /\ play frames_of w ts = Some w'
                   /\ nth_error (streams w') i = Some s'
                   /\ state s' = closed) ->
             session_at F i total w -> streamId w = Some (uuid a) ->
             same_session t -> take_turn frames_of w t = Some w1 ->
             nth_error (streams w1) i = Some s1 -> (todo F s1 <= n)%nat ->
             exists (ts : list turn) (w' : Worker) (s' : FrameStream),
               Forall same_session ts
               /\ play frames_of w ts = Some w'
               /\ nth_error (streams w') i = Some s'
               /\ state s' = closed).
  { intros n w w1 s1 t IH Hin Hid Ht Hturn Hs1 Hle.
    assert (Hin1 : session_at F i total w1).
    { apply (play_session_at frames_of F i total HC Hframes [t] w w1);
        [constructor; [exact Ht | constructor] | exact Hin|].
      cbn [play]. now rewrite Hturn. }
    assert (Hid1 : streamId w1 = Some (uuid a))
      by (rewrite (take_turn_streamId frames_of w w1 t Ht Hturn); exact Hid).
    destruct (IH w1 s1 Hin1 Hid1 Hs1 Hle) as (ts & w' & s' & Hts & Hp & Hs' & Hc).
    exists (t :: ts), w', s'.
    split; [constructor; assumption|].
    split; [cbn [play]; rewrite Hturn; exact Hp|]. auto. }
  induction n as [|n IH]; intros w s Hin Hid Hs Hle.
  - destruct (state s) eqn:Hst.
    + exfalso.
      destruct Hin as (_ & s0 & Hs0 & _ & C & (_ & _ & J) & _).
      assert (s0 = s) by congruence. subst s0.
      destruct C as (_ & _ & _ & _ & A5 & _).
      unfold todo in Hle.
      destruct J as [J|[J|J]]; [congruence| |].
      * destruct A5 as [A5|(A5 & Hlt & _)]; [congruence|].
        rewrite (remaining_unfold F _ HC Hlt) in Hle. simpl in Hle. lia.
      * destruct (queue s); [congruence | simpl in Hle; lia].
    + exists [], w, s. split; [constructor|]. auto.
    + exfalso. destruct Hin as (_ & s0 & Hs0 & _ & C & _).
      assert (s0 = s) by congruence. subst s0.
      destruct C as (_ & _ & _ & A4 & _). congruence.
  - destruct (state s) eqn:Hst.
    + destruct (queue s) as [|c rest] eqn:Hq.
      * assert (Hne : inflight s <> []).
        { destruct Hin as (_ & s0 & Hs0 & _ & _ & (_ & _ & J) & _).
          assert (s0 = s) by congruence. subst s0.
          destruct J as [J|[J|J]]; [congruence | exact J | congruence]. }
        destruct (answer_progress frames_of F i total w s HC Hframes Hin Hs
                    Hne) as (w1 & s1 & Hturn & Hs1 & Hlt).
        apply (Hnext n w w1 s1 Answer IH Hin Hid I Hturn Hs1). lia.
      * destruct (ask_progress frames_of F i total w s a c rest Hin Hid Hs
                    Hst Hq) as (w1 & s1 & Hturn & Hs1 & Hlt).
        apply (Hnext n w w1 s1
                 (Host {| method := "requestFrameChunk"; args := a |})
                 IH Hin Hid); auto; [discriminate | lia].
    + exists [], w, s. split; [constructor|]. auto.
    + exfalso. destruct Hin as (_ & s0 & Hs0 & _ & C & _).
      assert (s0 = s) by congruence. subst s0.
      destruct C as (_ & _ & _ & A4 & _). congruence.
Qed.

Lemma session_at_closed (F : Z) (i : nat) (total : list (Z * Z))
  (w : Worker) (s : FrameStream) :
  session_at F i total w -> nth_error (streams w) i = Some s ->
  state s = closed ->
  frameNumber s = F /\ posted_ranges (posted w) = total.
Proof.
  intros (_ & s0 & Hs0 & _ & C & _ & B & _ & E) Hs Hclosed.
  assert (s0 = s) by congruence. subst s0.
  destruct C as (_ & _ & _ & _ & _ & _ & Hcr & Hcl).
  destruct (Hcl Hclosed) as [Hq Hreq].
  assert (Hend : frameNumber s = F) by (specialize (Hcr Hreq); lia).
  split; [exact Hend|].
  rewrite Hq, remaining_end in E by lia.
  simpl in E. now rewrite app_nil_r in E.
Qed.

(** C1.  Let the chunk size be positive, and let [setStream] open a
    session with cursor 0 and [F > 0] frames on a remote source that
    answers the request for cursor [n] with the range
    [[n, min(n + CHUNK_SIZE - 1, F - 1)]] and with frames that
    [handleLabels] accepts.  The pieces [chunk_ranges] into which chunks
    of that size cut the frames tile [[0, F - 1]].

    Whatever the schedule of the session, that is, in whatever order the
    responses arrive and the host sends its messages (short of opening
    another session), whether a chunk finds a read waiting for it or is
    queued ahead of the reads: the ranges of the chunks posted to the
    host, followed by those of the chunks queued in the stream and by
    those still to be fetched from the cursor on, are these pieces, in
    order.  No chunk is lost, repeated or overtaken, the stream does not
    fail, and once it has closed every piece has been posted and the
    cursor is at [F].

    The session cannot get stuck: whatever has happened so far, there are
    further responses and requests of the host after which the stream has
    closed and every piece has been posted.  One schedule that leads there
    is the one in which the host asks for the next chunk each time one has
    arrived: after as many rounds as there are pieces, the read that
    follows the last chunk finds the stream closed, and a further request
    changes nothing.

    The cursor is not moved by [pull] nor by a failed request; a retrieved
    chunk sets it to the upper bound of its range plus one. *)
Theorem chunk_ordering (frames_of : Z -> list value) (a : Args) (w : Worker) :
  (0 < CHUNK_SIZE)%Z ->
  arg_frameNumber a = 0%Z ->
  (0 < arg_frameCount a)%Z ->
  (forall n, exists fs bs, collectFrames (frames_of n) [] = Return (fs, bs)) ->
  tiles 0 (arg_frameCount a - 1)
    (chunk_ranges CHUNK_SIZE (arg_frameCount a)
       (Z.to_nat (arg_frameCount a)) 0)
  /\ (exists w0 : Worker,
        onmessage w {| method := "setStream"; args := a |} = Return w0
        /\ (forall (ts : list turn) (w' : Worker),
               Forall same_session ts ->
               play frames_of w0 ts = Some w' ->
               exists s : FrameStream,
                 stream w' = Some (List.length (streams w))
                 /\ nth_error (streams w') (List.length (streams w)) = Some s
                 /\ posted_ranges (posted w') ++ map range (queue s)
                    ++ remaining (arg_frameCount a) (frameNumber s)
                    = posted_ranges (posted w)
                      ++ chunk_ranges CHUNK_SIZE (arg_frameCount a)
                           (Z.to_nat (arg_frameCount a)) 0
                 /\ state s <> errored
                 /\ (state s = closed ->
                     frameNumber s = arg_frameCount a
                     /\ posted_ranges (posted w')
                        = posted_ranges (posted w)
                          ++ chunk_ranges CHUNK_SIZE (arg_frameCount a)
                               (Z.to_nat (arg_frameCount a)) 0))
        /\ (forall (ts : list turn) (w' : Worker),
               Forall same_session ts ->
               play frames_of w0 ts = Some w' ->
               exists (ts' : list turn) (w'' : Worker) (s'' : FrameStream),
                 Forall same_session ts'
                 /\ play frames_of w' ts' = Some w''
                 /\ nth_error (streams w'') (List.length (streams w))
                    = Some s''
                 /\ state s'' = closed
                 /\ posted_ranges (posted w'')
                    = posted_ranges (posted w)
                      ++ chunk_ranges CHUNK_SIZE (arg_frameCount a)
                           (Z.to_nat (arg_frameCount a)) 0)
        /\ (exists (w' : Worker) (s' : FrameStream),
               rounds frames_of a
                 (List.length
                    (chunk_ranges CHUNK_SIZE (arg_frameCount a)
                       (Z.to_nat (arg_frameCount a)) 0)) w0 = Some w'
               /\ posted_ranges (posted w')
                  = posted_ranges (posted w)
                    ++ chunk_ranges CHUNK_SIZE (arg_frameCount a)
                         (Z.to_nat (arg_frameCount a)) 0
               /\ nth_error (streams w') (List.length (streams w)) = Some s'
               /\ state s' = closed
               /\ frameNumber s' = arg_frameCount a
               /\ List.length (fetched s')
                  = List.length
                      (chunk_ranges CHUNK_SIZE (arg_frameCount a)
                         (Z.to_nat (arg_frameCount a)) 0)
               /\ onmessage w' {| method := "requestFrameChunk"; args := a |}
                  = Return w'))
  /\ (forall (s : FrameStream) (chunk : FrameChunk),
        frameNumber (fst (fst (pull s))) = frameNumber s
        /\ frameNumber (fst (pullRejected s)) = frameNumber s
        /\ (CanCloseOrEnqueue s = true ->
            frameNumber (fst (receive chunk s)) = (snd (range chunk) + 1)%Z)).
Proof.
  intros HC Hn HF Hframes.
  assert (Hfuel : (arg_frameCount a - 0
                   <= Z.of_nat (Z.to_nat (arg_frameCount a)) * CHUNK_SIZE)%Z)
    by nia.
  assert (Hlt : (arg_frameNumber a < arg_frameCount a)%Z) by lia.
  assert (Hfull : remaining (arg_frameCount a) (arg_frameNumber a)
                  = chunk_ranges CHUNK_SIZE (arg_frameCount a)
                      (Z.to_nat (arg_frameCount a)) 0).
  { unfold remaining. rewrite Hn.
    destruct (Z.ltb_spec 0 (arg_frameCount a)); [|lia].
    now rewrite Z.sub_0_r. }
  split; [apply tiles_chunk_ranges; auto|]. split.
  - destruct (setStream_session_at a w Hlt) as (w0 & Hset & Hin).
    rewrite Hfull in Hin.
    exists w0. split; [exact Hset|]. split; [|split].
    + intros ts w' Hts Hplay.
      assert (Hin' := play_session_at frames_of _ _ _ HC Hframes ts w0 w'
                        Hts Hin Hplay).
      destruct Hin' as (Hcur & s & Hs & W & C & L & B & N & E).
      exists s. split; [exact Hcur|]. split; [exact Hs|].
      split; [exact E|].
      split; [apply C|]. intros Hclosed.
      apply (session_at_closed (arg_frameCount a)
               (List.length (streams w)) _ w' s); auto.
      exact (conj Hcur
               (ex_intro _ s
                  (conj Hs (conj W (conj C (conj L (conj B (conj N E)))))))).
    + intros ts w' Hts Hplay.
      assert (Hin' := play_session_at frames_of _ _ _ HC Hframes ts w0 w'
                        Hts Hin Hplay).
      assert (Hid : streamId w' = Some (uuid a)).
      { rewrite (play_streamId frames_of ts w0 w' Hts Hplay).
        rewrite (setStream_fetching a w Hlt) in Hset.
        injection Hset as <-. reflexivity. }
      assert (Hs : exists s, nth_error (streams w') (List.length (streams w))
                             = Some s)
        by (destruct Hin' as (_ & s & Hs & _); eauto).
      destruct Hs as [s Hs].
      destruct (session_completes frames_of _ _ _ a HC Hframes
                  (todo (arg_frameCount a) s) w' s Hin' Hid Hs (le_n _))
        as (ts' & w'' & s'' & Hts' & Hplay' & Hs'' & Hclosed).
      exists ts', w'', s''. split; [exact Hts'|]. split; [exact Hplay'|].
      split; [exact Hs''|]. split; [exact Hclosed|].
      assert (Hin'' := play_session_at frames_of _ _ _ HC Hframes ts' w' w''
                         Hts' Hin' Hplay').
      exact (proj2 (session_at_closed _ _ _ w'' s'' Hin'' Hs'' Hclosed)).
    + destruct (fetching_waiting a) as (Hw & Hcs & Hfc & Hfe).
      rewrite Hn in Hw.
      rewrite (setStream_fetching a w Hlt) in Hset. injection Hset as <-.
      rewrite <- (cancel_current_length w).
      set (w0 := {| stream := Some (List.length (cancel_current w));
                    streamId := Some (uuid a);
                    streams := cancel_current w ++ [fetching a];
                    sampleRequests := sampleRequests w;
                    posted := posted w |}).
      destruct (rounds_waiting frames_of a CHUNK_SIZE (arg_frameCount a) HC
                  Hframes (Z.to_nat (arg_frameCount a)) 0%Z w0
                  (List.length (cancel_current w)) (fetching a))
        as (w' & s' & Hrounds & Hout & Hcur' & Hid' & Hi' & Hst' & Hfn'
            & Hin' & Hfe'); auto.
      { subst w0. simpl. apply nth_error_last. }
      exists w', s'.
      split; [exact Hrounds|]. split; [exact Hout|].
      split; [exact Hi'|]. split; [exact Hst'|]. split; [exact Hfn'|].
      split; [lia|].
      apply (requestFrameChunk_closed w'
               {| method := "requestFrameChunk"; args := a |}
               (List.length (cancel_current w)) s'); auto.
  - intros s chunk. split; [apply pull_frameNumber|].
    split; [apply ControllerError_frameNumber | apply receive_frameNumber].
Qed.

(* ===================================================================== *)
(** * A response that arrives for a superseded session *)
(* ===================================================================== *)

(** ** A stream stays started *)

Lemma ControllerClose_started s :
  started (fst (ControllerClose s)) = started s.
Proof. unfold ControllerClose. simpl. now destruct (queue s). Qed.

Lemma ControllerError_started s : started (ControllerError s) = started s.
Proof. unfold ControllerError. now destruct (is_readable s). Qed.

Lemma pull_started s : started (fst (fst (pull s))) = started s.
Proof.
  unfold pull. destruct (_ || _); [|reflexivity].
  destruct (CanCloseOrEnqueue s); [|reflexivity].
  pose proof (ControllerClose_started s).
  now destruct (ControllerClose s).
Qed.

Lemma CallPullIfNeeded_started s :
  started (fst (CallPullIfNeeded s)) = started s.
Proof.
  unfold CallPullIfNeeded, CallPullIfNeeded_step.
  destruct (ShouldCallPull s); simpl; [|reflexivity].
  destruct (pulling s); simpl; [reflexivity|].
  pose proof (pull_started (set_pulling true s)) as H.
  destruct (pull (set_pulling true s)) as [[s1 ds] p]. simpl in H.
  destruct p; simpl; auto.
  - unfold pullFulfilled. simpl. now destruct (pullAgain s1).
  - now rewrite ControllerError_started.
Qed.

Lemma read_started (u : string) (s : FrameStream) :
  started (fst (read u s)) = started s.
Proof.
  unfold read. destruct (state s); try reflexivity.
  destruct (queue s) as [|chunk rest].
  - now rewrite CallPullIfNeeded_started.
  - assert (H := CallPullIfNeeded_started (set_queue rest s)).
    destruct rest; simpl.
    + destruct (closeRequested s); simpl; [reflexivity|].
      destruct (CallPullIfNeeded _). exact H.
    + destruct (CallPullIfNeeded _). exact H.
Qed.

Lemma receive_started chunk s :
  started (fst (receive chunk s)) = started s.
Proof.
  unfold receive. destruct (CanCloseOrEnqueue s);
    [|apply ControllerError_started].
  set (e := match readRequests s with
            | uuid :: rest => _
            | [] => _
            end).
  assert (He : started (fst e) = started s)
    by (subst e; now destruct (readRequests s)).
  destruct e as [s1 ds1]. cbn [fst] in He.
  assert (H2 := CallPullIfNeeded_started s1).
  destruct (CallPullIfNeeded s1) as [s2 ds2]. cbn [fst] in H2.
  unfold pullFulfilled. simpl.
  destruct (pullAgain s2).
  - pose proof (CallPullIfNeeded_started
                  (set_pullAgain false
                     (set_pulling false
                        (set_frameNumber (snd (range chunk) + 1) s2)))) as E.
    destruct (CallPullIfNeeded _) as [s4 ds4]. simpl in *. congruence.
  - simpl. congruence.
Qed.

Lemma stream_op_started (s s' : FrameStream) :
  started s = true -> stream_op s s' -> started s' = true.
Proof.
  intros H Hop. destruct Hop as [| |u|chunk r rest Hin|r rest Hin].
  - exact H.
  - exact H.
  - now rewrite read_started.
  - now rewrite receive_started.
  - unfold pullRejected. simpl. now rewrite ControllerError_started.
Qed.

Lemma new_stream_started (a : Args) : started (new_stream a) = true.
Proof. unfold new_stream. now rewrite CallPullIfNeeded_started. Qed.

(** ** The response on a cancelled stream *)

(** When the response arrives on a cancelled stream on which reads wait,
    the first read is fulfilled with the chunk and the stream closes, which
    ends the other reads; when no read waits, the chunk is queued and the
    stream stays readable.  No request follows. *)
Lemma receive_superseded (s : FrameStream) (chunk : FrameChunk)
  (r : FramesRequest) (rest : list FramesRequest) :
  well_formed s -> started s = true -> cancelled s = true ->
  inflight s = r :: rest ->
  exists s',
    cancelled s' = true /\ inflight s' = [] /\ fetched s' = fetched s
    /\ match readRequests s with
       | u :: us =>
           receive chunk (set_inflight rest s)
           = (s', (u, ReadValue {| frames := frames chunk;
                                  range := range chunk |})
                  :: map (fun uuid => (uuid, ReadDone)) us)
           /\ state s' = closed /\ queue s' = []
       | [] =>
           receive chunk (set_inflight rest s) = (s', [])
           /\ state s' = readable
           /\ queue s'
              = queue s ++ [{| frames := frames chunk;
                               range := range chunk |}]
       end.
Proof.
  intros W Hsta Hcan Hi.
  assert (Hrest : rest = []).
  { pose proof (wf_single s W) as H. rewrite Hi in H. simpl in H.
    destruct rest; [reflexivity | simpl in H; lia]. }
  subst rest.
  destruct (wf_inflight s W) as (Hp & Hc & Hd); [congruence|].
  pose proof (wf_waiting s W) as Hw.
  destruct s as [cs fc fn sid src ur c st sta pl pa cr q rr fe inf].
  unfold CanCloseOrEnqueue, is_readable in Hc. simpl in *.
  subst sta c pl inf.
  destruct cr; [discriminate|]. destruct st; try discriminate.
  clear Hc W.
  unfold receive, CanCloseOrEnqueue, is_readable. cbn [closeRequested state
    negb andb readRequests set_inflight].
  destruct rr as [|u us].
  - clear Hd Hw.
    unfold CallPullIfNeeded, CallPullIfNeeded_step, ShouldCallPull,
      CanCloseOrEnqueue, is_readable, desiredSize, pullFulfilled, pull,
      ControllerClose, ReadableStreamClose.
    destruct q as [|c0 q]; simpl.
    all: rewrite ?orb_true_r.
    all: repeat match goal with
           | |- context [(0 <? ?x)%Z] => destruct (0 <? x)%Z eqn:?; simpl
           end.
    all: destruct pa; simpl.
    all: rewrite ?orb_true_r; simpl; rewrite ?app_nil_r.
    all: eexists; split; [|split; [|split; [|split; [reflexivity|]]]];
           try reflexivity; split; reflexivity.
  - rewrite (Hw ltac:(discriminate)) in *. clear Hw Hd.
    unfold CallPullIfNeeded, CallPullIfNeeded_step, ShouldCallPull,
      CanCloseOrEnqueue, is_readable, desiredSize, pullFulfilled, pull,
      ControllerClose, ReadableStreamClose.
    destruct us as [|u' us']; simpl.
    all: rewrite ?orb_true_r; simpl; rewrite ?app_nil_r.
    all: eexists; split; [|split; [|split; [|split; [reflexivity|]]]];
           try reflexivity; split; reflexivity.
Qed.

(** ** What one task does to the streams *)

Lemma setStream_returns (a : Args) (w : Worker) (err : error) :
  setStream a w <> Throw err.
Proof.
  unfold setStream.
  destruct (read _ _) as [s1 ds1]. destruct (CallPullIfNeeded _) as [s2 ds2].
  destruct (deliver _ _); simpl; discriminate.
Qed.

(** A task either opens a session, which cancels the current stream and
    adds a new one, or it leaves the session alone and touches at most one
    stream: the current one with a read, or any one with the outcome of
    its request. *)
Lemma step_cases (w w' : Worker) (e : event) :
  step w e = Some w' ->
  (sessions [e] = [] /\ stream w' = stream w /\ streamId w' = streamId w
   /\ (streams w' = streams w
       \/ exists j s s',
            nth_error (streams w) j = Some s
            /\ streams w' = update j s' (streams w)
            /\ ((exists u, stream w = Some j /\ streamId w = Some u
                           /\ s' = fst (read u s))
                \/ (exists chunk r rest,
                       e = FramesResponse j chunk /\ inflight s = r :: rest
                       /\ s' = fst (receive chunk (set_inflight rest s)))
                \/ (exists r rest,
                       e = FramesFailure j /\ inflight s = r :: rest
                       /\ s' = ControllerError (set_inflight rest s)))))
  \/ (exists a,
         sessions [e] = [uuid a]
         /\ streams w' = cancel_current w ++ [new_stream a]
         /\ stream w' = Some (List.length (streams w))
         /\ streamId w' = Some (uuid a)).
Proof.
  intros H. destruct e as [data|j chunk|j|k smp|k]; simpl in H.
  - assert (Hsess : sessions [Message data]
                    = if String.eqb (method data) "setStream"
                      then [uuid (args data)] else [])
      by (simpl; now destruct (String.eqb (method data) "setStream")).
    destruct (onmessage w data) as [w1|err|] eqn:Hm; try discriminate;
      injection H as <-; unfold onmessage in Hm.
    + destruct (String.eqb (method data) "processSample") eqn:E1.
      { apply String.eqb_eq in E1.
        assert (Hs0 : sessions [Message data] = [])
          by (rewrite Hsess, E1; reflexivity).
        unfold processSample in Hm. inv_bind Hm. destruct a as [s1 b1].
        injection Hm as <-. left. simpl. auto. }
      destruct (String.eqb (method data) "requestFrameChunk") eqn:E2.
      { apply String.eqb_eq in E2.
        assert (Hs0 : sessions [Message data] = [])
          by (rewrite Hsess, E2; reflexivity).
        assert (Hsame : Return w = Return w1 ->
                  sessions [Message data] = [] /\ stream w1 = stream w
                  /\ streamId w1 = streamId w
                  /\ (streams w1 = streams w
                      \/ exists j s s',
                           nth_error (streams w) j = Some s
                           /\ streams w1 = update j s' (streams w)
                           /\ ((exists u, stream w = Some j
                                          /\ streamId w = Some u
                                          /\ s' = fst (read u s))
                               \/ (exists chunk r rest,
                                      Message data = FramesResponse j chunk
                                      /\ inflight s = r :: rest
                                      /\ s' = fst (receive chunk
                                                     (set_inflight rest s)))
                               \/ (exists r rest,
                                      Message data = FramesFailure j
                                      /\ inflight s = r :: rest
                                      /\ s' = ControllerError
                                                (set_inflight rest s)))))
          by (intros E; injection E as <-; auto).
        unfold requestFrameChunk in Hm.
        destruct (streamId w) as [id|] eqn:Hid; [|left; now apply Hsame].
        destruct (String.eqb (uuid (args data)) id) eqn:Eu;
          [|left; now apply Hsame].
        apply String.eqb_eq in Eu.
        destruct (stream w) as [j|] eqn:Hcur; [|left; now apply Hsame].
        destruct (nth_error (streams w) j) as [sj|] eqn:Hj;
          [|left; now apply Hsame].
        clear Hsame.
        destruct (read (uuid (args data)) sj) as [sj' ds] eqn:Hread.
        inv_bind Hm. injection Hm as <-. left. simpl.
        split; [exact Hs0|]. split; [exact Hcur|]. split; [exact Hid|].
        right. exists j, sj, sj'. split; [exact Hj|]. split; [reflexivity|].
        left. exists (uuid (args data)).
        split; [reflexivity|]. split; [now rewrite Eu|].
        now rewrite Hread. }
      destruct (String.eqb (method data) "setStream") eqn:E3.
      { right. exists (args data). split; [exact Hsess|].
        unfold setStream in Hm. unfold new_stream.
        destruct (read _ _) as [s1 ds1]. cbn [fst].
        destruct (CallPullIfNeeded _) as [s2 ds2]. cbn [fst].
        inv_bind Hm. injection Hm as <-. simpl.
        rewrite cancel_current_length. auto. }
      destruct (String.eqb (method data) "requestSourceSample").
      { unfold requestSourceSample in Hm. injection Hm as <-. left. simpl.
        auto. }
      discriminate.
    + left. split; [|auto]. rewrite Hsess.
      destruct (String.eqb (method data) "processSample") eqn:E1.
      { apply String.eqb_eq in E1. now rewrite E1. }
      destruct (String.eqb (method data) "requestFrameChunk") eqn:E2.
      { apply String.eqb_eq in E2. now rewrite E2. }
      destruct (String.eqb (method data) "setStream") eqn:E3; [|reflexivity].
      exfalso. exact (setStream_returns _ _ _ Hm).
  - destruct (nth_error (streams w) j) as [sj|] eqn:Hj; [|discriminate].
    destruct (inflight sj) as [|r rest] eqn:Hi; [discriminate|].
    destruct (receive chunk (set_inflight rest sj)) as [sj' ds] eqn:Hrec.
    destruct (deliver ds (posted w)) as [out|]; [|discriminate].
    injection H as <-. left. simpl.
    split; [reflexivity|]. split; [reflexivity|]. split; [reflexivity|].
    right. exists j, sj, sj'. split; [exact Hj|]. split; [reflexivity|].
    right. left. exists chunk, r, rest. rewrite Hrec. auto.
  - destruct (nth_error (streams w) j) as [sj|] eqn:Hj; [|discriminate].
    destruct (inflight sj) as [|r rest] eqn:Hi; [discriminate|].
    unfold pullRejected in H. injection H as <-. left. simpl.
    split; [reflexivity|]. split; [reflexivity|]. split; [reflexivity|].
    right. exists j, sj, (ControllerError (set_inflight rest sj)).
    split; [exact Hj|]. split; [reflexivity|].
    right. right. exists r, rest. auto.
  - destruct (nth_error (sampleRequests w) k) as [r|]; [|discriminate].
    destruct (sourceSample r smp (posted w)); try discriminate;
      injection H as <-; left; simpl; auto.
  - destruct (nth_error (sampleRequests w) k) as [r|]; [|discriminate].
    injection H as <-. left. simpl. auto.
Qed.

(** ** The reads of a stream hold the identifier of its session *)

Lemma new_stream_reads (a : Args) :
  incl (readRequests (new_stream a)) [uuid a].
Proof.
  assert (H := createReader_serves a). cbv zeta in H. unfold new_stream.
  destruct (read (uuid a) _) as [s1 ds1]. cbn [fst].
  destruct (CallPullIfNeeded (set_started true s1)) as [s2 ds2].
  destruct H as [_ I]. cbn [fst snd] in *.
  intros x Hx. apply (I x). apply in_or_app. now right.
Qed.

Lemma cancel_current_nth (w : Worker) (j : nat) (s : FrameStream) :
  nth_error (cancel_current w) j = Some s ->
  exists s0,
    nth_error (streams w) j = Some s0
    /\ ((stream w <> Some j /\ s = s0) \/ (stream w = Some j /\ s = cancel s0)).
Proof.
  unfold cancel_current.
  destruct (stream w) as [i|]; [|intros H; exists s; split; [exact H|]; left;
                                  split; [discriminate | reflexivity]].
  destruct (nth_error (streams w) i) as [si|] eqn:Hi.
  - rewrite nth_error_update. destruct (Nat.eqb_spec j i) as [->|Hne].
    + rewrite Hi. intros E. injection E as <-. exists si. auto.
    + intros H. exists s. split; [exact H|]. left.
      split; [congruence | reflexivity].
  - intros H. exists s. split; [exact H|]. left.
    split; [congruence | reflexivity].
Qed.

Lemma sessions_cons (e : event) (es : list event) :
  sessions (e :: es) = sessions [e] ++ sessions es.
Proof. unfold sessions. simpl. now rewrite app_nil_r. Qed.

Lemma tagged_initial : tagged [] initial.
Proof.
  split; [reflexivity|]. split; [discriminate|].
  intros j s u Hj. destruct j; discriminate.
Qed.

Lemma step_tagged (U : list string) (w w' : Worker) (e : event) :
  tagged U w -> step w e = Some w' -> tagged (U ++ sessions [e]) w'.
Proof.
  intros (L & Hc & Hr) H.
  destruct (step_cases _ _ _ H)
    as [(Es & E1 & E2 & Hss) | (a & Es & Hss & E1 & E2)].
  - rewrite Es, app_nil_r.
    destruct Hss as [Hss | (j & s & s' & Hj & Hss & Hop)].
    + split; [now rewrite Hss|]. split.
      * rewrite E1, E2. exact Hc.
      * rewrite Hss. exact Hr.
    + split; [now rewrite Hss, update_length|]. split.
      * rewrite E1, E2. exact Hc.
      * intros i t u Hi Hu. rewrite Hss, nth_error_update in Hi.
        destruct (Nat.eqb_spec i j) as [->|Hne]; [|exact (Hr i t u Hi Hu)].
        rewrite Hj in Hi. injection Hi as <-.
        assert (Hin : In u (readRequests s)
                      \/ (stream w = Some j /\ streamId w = Some u)).
        { destruct Hop as [(u0 & Hcur & Hid & ->)
                          | [(chunk & r & rest & _ & _ & ->)
                            | (r & rest & _ & _ & ->)]].
          - destruct (read_serves u0 s) as [_ I].
            assert (Hx : In u (readRequests s ++ [u0]))
              by (apply I; apply in_or_app; now right).
            apply in_app_or in Hx. destruct Hx as [Hx | [<- | []]]; auto.
          - destruct (receive_serves chunk (set_inflight rest s)) as [_ I].
            left.
            assert (Hx : In u (readRequests (set_inflight rest s) ++ []))
              by (apply I; apply in_or_app; now right).
            rewrite app_nil_r in Hx. exact Hx.
          - destruct (ControllerError_serves (set_inflight rest s)) as [_ I].
            left.
            assert (Hx : In u (readRequests (set_inflight rest s) ++ []))
              by (apply I; apply in_or_app; now right).
            rewrite app_nil_r in Hx. exact Hx. }
        destruct Hin as [Hin | [Hcur Hid]];
          [exact (Hr j s u Hj Hin) | exact (Hc j u Hcur Hid)].
  - rewrite Es.
    assert (Hlen : List.length (cancel_current w) = List.length U)
      by (now rewrite cancel_current_length).
    split; [rewrite Hss, !length_app, Hlen; reflexivity|]. split.
    + intros j u Hj Hu. rewrite E1 in Hj. injection Hj as <-.
      rewrite E2 in Hu. injection Hu as <-.
      rewrite L. apply nth_error_last.
    + intros j s u Hj Hu. rewrite Hss in Hj.
      destruct (Nat.lt_ge_cases j (List.length (cancel_current w)))
        as [Hlt|Hge].
      * rewrite nth_error_app1 in Hj by exact Hlt.
        rewrite nth_error_app1 by (rewrite <- Hlen; exact Hlt).
        destruct (cancel_current_nth w j s Hj)
          as (s0 & H0 & [[_ ->] | [_ ->]]); exact (Hr j s0 u H0 Hu).
      * rewrite nth_error_app2 in Hj by exact Hge.
        destruct (j - List.length (cancel_current w))%nat as [|k] eqn:Hk;
          simpl in Hj; [|destruct k; discriminate].
        injection Hj as <-.
        assert (Hua : u = uuid a).
        { destruct (new_stream_reads a u Hu) as [<- | []]. reflexivity. }
        subst u.
        assert (Ej : j = List.length U) by lia.
        rewrite Ej. apply nth_error_last.
Qed.

Lemma run_tagged (es : list event) :
  forall (U : list string) (w w' : Worker),
    tagged U w -> run w es = Some w' -> tagged (U ++ sessions es) w'.
Proof.
  induction es as [|e es IH]; intros U w w' Ht H; simpl in H.
  - injection H as <-. simpl. now rewrite app_nil_r.
  - destruct (step w e) as [w1|] eqn:Hs; [|discriminate].
    rewrite sessions_cons, app_assoc.
    apply (IH _ w1 w'); [|exact H].
    eapply step_tagged; eassumption.
Qed.

(** ** The streams that a session has left behind *)

Lemma reachable_superseded (w : Worker) :
  reachable w ->
  forall (i : nat) (s : FrameStream),
    nth_error (streams w) i = Some s -> stream w <> Some i ->
    cancelled s = true.
Proof.
  induction 1 as [|w e w' Hw IH Hstep]; intros i s Hi Hne.
  - destruct i; discriminate.
  - destruct (step_cases _ _ _ Hstep)
      as [(_ & E1 & _ & Hss) | (a & _ & Hss & E1 & _)].
    + rewrite E1 in Hne.
      destruct Hss as [Hss | (j & sj & sj' & Hj & Hss & Hop)].
      * rewrite Hss in Hi. exact (IH i s Hi Hne).
      * rewrite Hss, nth_error_update in Hi.
        destruct (Nat.eqb_spec i j) as [->|Hij]; [|exact (IH i s Hi Hne)].
        rewrite Hj in Hi. injection Hi as <-.
        assert (Hc := IH j sj Hj Hne).
        destruct Hop as [(u & Hcur & _)
                        | [(chunk & r & rest & _ & _ & ->)
                          | (r & rest & _ & _ & ->)]].
        -- congruence.
        -- destruct (receive_cancelled chunk (set_inflight rest sj) Hc)
             as [C _]. exact C.
        -- destruct (ControllerError_quiet (set_inflight rest sj))
             as (_ & _ & C & _). rewrite C. exact Hc.
    + rewrite Hss in Hi. rewrite E1 in Hne.
      assert (Hlt : (i < List.length (cancel_current w))%nat).
      { assert (Hi0 : (i < List.length (cancel_current w ++ [new_stream a]))%nat)
          by (apply nth_error_Some; congruence).
        rewrite length_app in Hi0. simpl in Hi0.
        rewrite cancel_current_length in *.
        assert (i <> List.length (streams w)) by congruence. lia. }
      rewrite nth_error_app1 in Hi by exact Hlt.
      destruct (cancel_current_nth w i s Hi)
        as (s0 & H0 & [[Hcur ->] | [_ ->]]).
      * exact (IH i s0 H0 Hcur).
      * reflexivity.
Qed.

(** A stream that is not the current one and has no request outstanding
    is never touched again. *)
Lemma step_frozen (w w' : Worker) (e : event) (i : nat) (s : FrameStream) :
  nth_error (streams w) i = Some s -> stream w <> Some i ->
  inflight s = [] -> step w e = Some w' ->
  nth_error (streams w') i = Some s /\ stream w' <> Some i.
Proof.
  intros Hi Hne Hin H.
  destruct (step_cases _ _ _ H)
    as [(_ & E1 & _ & Hss) | (a & _ & Hss & E1 & _)].
  - rewrite E1. split; [|exact Hne].
    destruct Hss as [-> | (j & sj & sj' & Hj & -> & Hop)]; [exact Hi|].
    rewrite nth_error_update.
    destruct (Nat.eqb_spec i j) as [->|Hij]; [|exact Hi].
    exfalso. rewrite Hi in Hj. injection Hj as <-.
    destruct Hop as [(u & Hcur & _)
                    | [(chunk & r & rest & _ & Hr & _)
                      | (r & rest & _ & Hr & _)]]; congruence.
  - assert (Hlt : (i < List.length (streams w))%nat)
      by (apply nth_error_Some; congruence).
    rewrite Hss, E1. split; [|intros E; injection E as E; lia].
    rewrite nth_error_app1 by (rewrite cancel_current_length; exact Hlt).
    unfold cancel_current.
    destruct (stream w) as [j|]; [|exact Hi].
    destruct (nth_error (streams w) j) as [sj|]; [|exact Hi].
    rewrite nth_error_update.
    destruct (Nat.eqb_spec i j) as [->|Hij]; [|exact Hi].
    exfalso. now apply Hne.
Qed.

Lemma run_frozen (es : list event) :
  forall (w w' : Worker) (i : nat) (s : FrameStream),
    nth_error (streams w) i = Some s -> stream w <> Some i ->
    inflight s = [] -> run w es = Some w' ->
    nth_error (streams w') i = Some s.
Proof.
  induction es as [|e es IH]; intros w w' i s Hi Hne Hin H; simpl in H.
  - now injection H as <-.
  - destruct (step w e) as [w1|] eqn:Hs; [|discriminate].
    destruct (step_frozen w w1 e i s Hi Hne Hin Hs) as [Hi1 Hne1].
    exact (IH w1 w' i s Hi1 Hne1 Hin H).
Qed.

(** ** The late response *)

(** C3.  Let the worker have run the tasks [es], let [s] be the stream of
    the session that the [i]-th [setStream] opened with the identifier
    [A], let a later [setStream] have superseded that session (the stream
    is not the current one), and let a request of [s] still be
    outstanding.  When the response arrives, the worker compares no
    session identifiers; what becomes of the chunk depends on the reads of
    [s] alone.
    - If a read of [s] waits, the chunk is posted to the host as a
      [frameChunk] message tagged with [A], whatever the current session,
      and [s] closes.
    - If no read waits (the request fetched ahead of the reads), the chunk
      is queued in [s] and nothing is posted; [s] stays readable.
    In both cases the source, being cancelled, sends no further request,
    and no task touches [s] any more: what it has queued is never read. *)
Theorem late_response_not_identified (es : list event) (w : Worker) (i : nat)
  (A : string) (s : FrameStream) (r : FramesRequest)
  (rest : list FramesRequest) (chunk : FrameChunk)
  (frames' buffers : list value) :
  run initial es = Some w ->
  nth_error (sessions es) i = Some A ->
  nth_error (streams w) i = Some s ->
  stream w <> Some i ->
  inflight s = r :: rest ->
  collectFrames (frames chunk) [] = Return (frames', buffers) ->
  exists (w' : Worker) (s' : FrameStream),
    step w (FramesResponse i chunk) = Some w'
    /\ stream w' = stream w /\ streamId w' = streamId w
    /\ nth_error (streams w') i = Some s'
    /\ cancelled s' = true /\ inflight s' = [] /\ fetched s' = fetched s
    /\ (readRequests s <> [] ->
        posted w'
        = posted w ++ [PostFrameChunk frames' (range chunk) A buffers]
        /\ state s' = closed /\ queue s' = [])
    /\ (readRequests s = [] ->
        posted w' = posted w
        /\ state s' = readable
        /\ queue s'
           = queue s ++ [{| frames := frames chunk; range := range chunk |}])
    /\ (forall (es' : list event) (w'' : Worker),
           run w' es' = Some w'' -> nth_error (streams w'') i = Some s').
Proof.
  intros Hrun HA Hi Hne Hin Hframes.
  assert (Hreach : reachable w)
    by (eapply run_reachable; [constructor | exact Hrun]).
  assert (W : well_formed s).
  { apply (reachable_streams well_formed) with (w := w) (i := i); auto.
    - apply new_stream_well_formed.
    - apply stream_op_well_formed. }
  assert (Hsta : started s = true).
  { apply (reachable_streams (fun t => started t = true))
      with (w := w) (i := i); auto.
    - apply new_stream_started.
    - apply stream_op_started. }
  assert (Hcan : cancelled s = true)
    by exact (reachable_superseded w Hreach i s Hi Hne).
  assert (Htag : tagged (sessions es) w)
    by exact (run_tagged es [] initial w tagged_initial Hrun).
  destruct (receive_superseded s chunk r rest W Hsta Hcan Hin)
    as (s' & C' & I' & F' & Hcase).
  assert (Hfrozen : forall out (es' : list event) (w'' : Worker),
             run (with_stream i s' out w) es' = Some w'' ->
             nth_error (streams w'') i = Some s').
  { intros out es' w'' Hrun'.
    apply (run_frozen es' (with_stream i s' out w) w'' i s'); auto.
    simpl. eapply nth_error_update_same. exact Hi. }
  unfold step. rewrite Hi, Hin.
  destruct (readRequests s) as [|u us] eqn:Hrr.
  - destruct Hcase as (Hrec & Hst & Hq). rewrite Hrec. cbn [deliver].
    exists (with_stream i s' (posted w) w), s'.
    split; [reflexivity|]. split; [reflexivity|]. split; [reflexivity|].
    split; [simpl; eapply nth_error_update_same; exact Hi|].
    split; [exact C'|]. split; [exact I'|]. split; [exact F'|].
    split; [intros Hx; now elim Hx|].
    split; [intros _; auto|].
    apply Hfrozen.
  - destruct Hcase as (Hrec & Hst & Hq). rewrite Hrec.
    assert (Hu : u = A).
    { destruct Htag as (_ & _ & Hr).
      assert (H1 := Hr i s u Hi). rewrite Hrr in H1.
      specialize (H1 (or_introl eq_refl)). congruence. }
    subst u.
    cbn [deliver getSendChunk frames range]. rewrite Hframes. cbn [bind].
    rewrite (deliver_done _ _ (all_done_map us)).
    exists (with_stream i s'
              (posted w ++ [PostFrameChunk frames' (range chunk) A buffers])
              w), s'.
    split; [reflexivity|]. split; [reflexivity|]. split; [reflexivity|].
    split; [simpl; eapply nth_error_update_same; exact Hi|].
    split; [exact C'|]. split; [exact I'|]. split; [exact F'|].
    split; [intros _; auto|].
    split; [intros Hx; discriminate Hx|].
    apply Hfrozen.
Qed.

End Worker.

(* ===================================================================== *)
(** * The properties at concrete inputs *)
(* ===================================================================== *)

Abbreviation ex_handleLabels :=
  (handleLabels example_LABELS example_LABEL_LISTS example_deserialize).
Abbreviation ex_handleSample :=
  (handleSample example_LABELS example_LABEL_LISTS example_deserialize).
Abbreviation ex_onmessage C :=
  (onmessage example_LABELS example_LABEL_LISTS example_deserialize C).
Abbreviation ex_step C :=
  (step example_LABELS example_LABEL_LISTS example_deserialize C).
Abbreviation ex_run C :=
  (run example_LABELS example_LABEL_LISTS example_deserialize C).
Abbreviation ex_rounds C :=
  (rounds example_LABELS example_LABEL_LISTS example_deserialize C).
Abbreviation ex_play C :=
  (play example_LABELS example_LABEL_LISTS example_deserialize C).
Abbreviation ex_reachable C :=
  (reachable example_LABELS example_LABEL_LISTS example_deserialize C).

(** ** Chunk ordering *)

(** The example of the spec: chunks of 2 frames out of 5, under three
    schedules.  When the three responses arrive before the host asks for
    a second chunk, the first chunk is posted and the other two are queued
    ahead of the reads; two requests of the host then have them posted in
    order, and the stream closes.  When the host asks for the next chunk
    each time one has arrived, each chunk finds a read waiting. *)
Lemma chunk_ordering_witness :
  tiles 0 (5 - 1) (chunk_ranges 2 5 (Z.to_nat 5) 0)
  /\ exists w0 : Worker,
       ex_onmessage 2%Z initial (start_stream "A" 5) = Return w0
       /\ (exists (w1 : Worker) (s1 : FrameStream),
              ex_play 2%Z (fun _ => []) w0 [Answer; Answer; Answer] = Some w1
              /\ nth_error (streams w1) 0 = Some s1
              /\ posted_ranges (posted w1) = [(0, 1)]%Z
              /\ map range (queue s1) = [(2, 3); (4, 4)]%Z
              /\ frameNumber s1 = 5%Z /\ state s1 = readable
              /\ exists (ts' : list turn) (w'' : Worker) (s'' : FrameStream),
                   Forall same_session ts'
                   /\ ex_play 2%Z (fun _ => []) w1 ts' = Some w''
                   /\ nth_error (streams w'') 0 = Some s''
                   /\ state s'' = closed
                   /\ posted_ranges (posted w'')
                      = [(0, 1); (2, 3); (4, 4)]%Z)
       /\ (exists (w2 : Worker) (s2 : FrameStream),
              ex_play 2%Z (fun _ => []) w0
                [Answer; Answer; Answer;
                 Host (next_chunk "A"); Host (next_chunk "A")] = Some w2
              /\ nth_error (streams w2) 0 = Some s2
              /\ state s2 = closed
              /\ frameNumber s2 = 5%Z
              /\ posted_ranges (posted w2) = [(0, 1); (2, 3); (4, 4)]%Z)
       /\ (exists (w' : Worker) (s' : FrameStream),
              ex_rounds 2%Z (fun _ => []) (example_args "A" 5) 3 w0 = Some w'
              /\ posted_ranges (posted w') = [(0, 1); (2, 3); (4, 4)]%Z
              /\ nth_error (streams w') 0 = Some s'
              /\ state s' = closed
              /\ frameNumber s' = 5%Z
              /\ List.length (fetched s') = 3%nat
              /\ ex_onmessage 2%Z w'
                   {| method := "requestFrameChunk";
                      args := example_args "A" 5 |}
                 = Return w').
Proof.
  destruct (chunk_ordering example_LABELS example_LABEL_LISTS
              example_deserialize 2%Z (fun _ => []) (example_args "A" 5)
              initial) as (T & (w0 & Hset & Hall & Hend & R) & _).
  - lia.
  - reflexivity.
  - simpl. lia.
  - intros n. exists [], []. reflexivity.
  - split; [exact T|]. exists w0. split; [exact Hset|].
    vm_compute in Hset. injection Hset as <-.
    split; [|split; [|exact R]].
    + pose (w1 := match ex_play 2%Z (fun _ => [])
                          {| stream := Some 0%nat; streamId := Some "A";
                             streams := [fetching 2 (example_args "A" 5)];
                             sampleRequests := []; posted := [] |}
                          [Answer; Answer; Answer] with
                   | Some w => w
                   | None => initial
                   end).
      destruct (Hall [Answer; Answer; Answer] w1)
        as (s1 & _ & Hs1 & E1 & _ & _).
      * repeat constructor.
      * vm_compute. reflexivity.
      * vm_compute in Hs1. injection Hs1 as <-.
        assert (Hplay1 : ex_play 2%Z (fun _ => [])
                           {| stream := Some 0%nat; streamId := Some "A";
                              streams := [fetching 2 (example_args "A" 5)];
                              sampleRequests := []; posted := [] |}
                           [Answer; Answer; Answer] = Some w1)
          by (vm_compute; reflexivity).
        destruct (Hend [Answer; Answer; Answer] w1
                    ltac:(repeat constructor) Hplay1)
          as (ts' & w'' & s'' & Hts' & Hplay' & Hs'' & Hclosed & Hposted).
        exists w1. eexists. split; [exact Hplay1|].
        split; [vm_compute; reflexivity|].
        split; [vm_compute; reflexivity|].
        split; [vm_compute; reflexivity|].
        split; [reflexivity|]. split; [reflexivity|].
        exists ts', w'', s''. split; [exact Hts'|]. split; [exact Hplay'|].
        split; [exact Hs''|]. split; [exact Hclosed | exact Hposted].
    + pose (w2 := match ex_play 2%Z (fun _ => [])
                          {| stream := Some 0%nat; streamId := Some "A";
                             streams := [fetching 2 (example_args "A" 5)];
                             sampleRequests := []; posted := [] |}
                          [Answer; Answer; Answer;
                           Host (next_chunk "A"); Host (next_chunk "A")] with
                   | Some w => w
                   | None => initial
                   end).
      destruct (Hall [Answer; Answer; Answer;
                      Host (next_chunk "A"); Host (next_chunk "A")] w2)
        as (s2 & _ & Hs2 & _ & _ & Hcl).
      * repeat constructor; discriminate.
      * vm_compute. reflexivity.
      * vm_compute in Hs2. injection Hs2 as <-.
        destruct (Hcl eq_refl) as [Hfn Hposted].
        exists w2. eexists. split; [vm_compute; reflexivity|].
        split; [vm_compute; reflexivity|].
        split; [reflexivity|]. split; [exact Hfn | exact Hposted].
Defined.

(** ** The identifier rewrite *)

Lemma identifier_rewrite_witness :
  ex_handleSample example_sample = Return (example_sample_normalised, [])
  /\ lookup "id" example_sample_normalised = Some (VString "x")
  /\ lookup "_id" example_sample_normalised = None
  /\ exists ps' l',
       lookup "ground_truth" example_sample_normalised = Some (VObject ps')
       /\ get ps' "detections" = VArray l'
       /\ Forall2 rewritten
            [VObject [("_cls", VString "Detection"); ("_id", VString "d");
                      ("label", VString "cat")]] l'.
Proof.
  assert (H : ex_handleSample example_sample
              = Return (example_sample_normalised, [])) by reflexivity.
  destruct (identifier_rewrite example_LABELS example_LABEL_LISTS
              example_deserialize example_sample example_sample_normalised []
              (VString "x") eq_refl H) as ((x' & Hx' & _ & Hsame) & Hno & Hlist).
  split; [exact H|]. split; [|split; [exact Hno|]].
  - rewrite Hx'. f_equal. apply Hsame. intros ps. discriminate.
  - apply (Hlist "ground_truth" example_detections_props "Detections"
             "detections");
      try reflexivity; discriminate.
Defined.

(** ** Labels after normalisation *)

(** The container keeps its [_id] and gets no [id]; its element is
    rewritten. *)
Lemma container_keeps_internal_id :
  ex_handleLabels [("ground_truth", example_detections)]
  = Return
      ([("ground_truth",
         VObject [("_cls", VString "Detections"); ("_id", VString "c");
                  ("detections",
                   VArray [VObject [("_cls", VString "Detection");
                                    ("label", VString "cat");
                                    ("id", VString "d")]])])],
       []).
Proof. reflexivity. Qed.

Lemma labels_after_normalisation_witness :
  exists ps',
    lookup "ground_truth" example_sample_normalised = Some (VObject ps')
    /\ has_key "_id" ps' = true
    /\ lookup "id" ps' = None.
Proof.
  destruct (labels_after_normalisation example_LABELS example_LABEL_LISTS
              example_deserialize
              [("ground_truth", example_detections)]
              [("ground_truth",
                VObject [("_cls", VString "Detections"); ("_id", VString "c");
                         ("detections",
                          VArray [VObject [("_cls", VString "Detection");
                                           ("label", VString "cat");
                                           ("id", VString "d")]])])]
              [] "ground_truth" example_detections_props "Detections"
              eq_refl eq_refl eq_refl eq_refl)
    as (ps' & Hk & Hkey & _ & Hid & _).
  exists ps'. split; [|split].
  - simpl in *. exact Hk.
  - exact Hkey.
  - rewrite Hid by discriminate. reflexivity.
Defined.

(** ** Records that need no normalising *)

(** A record without [_id] and without masks loses its [id]. *)
Lemma normalisation_overwrites_id :
  no_internal_id (VObject example_plain_sample) = true
  /\ no_encoded_mask (VObject example_plain_sample) = true
  /\ ex_handleSample example_plain_sample
     = Return ([("id", VUndefined); ("filepath", VString "a.png")], []).
Proof. repeat split; reflexivity. Qed.

Lemma normalisation_without_identifiers_witness :
  ex_handleSample example_plain_sample
  = Return ([("id", VUndefined); ("filepath", VString "a.png")], [])
  /\ strip_id (VObject [("id", VUndefined); ("filepath", VString "a.png")])
     = strip_id (VObject example_plain_sample).
Proof.
  assert (H : ex_handleSample example_plain_sample
              = Return ([("id", VUndefined); ("filepath", VString "a.png")],
                        [])) by reflexivity.
  split; [exact H|].
  apply (normalisation_without_identifiers example_LABELS example_LABEL_LISTS
           example_deserialize example_plain_sample _ [] eq_refl eq_refl H).
Defined.

(** ** The message handler *)

Lemma onmessage_unknown_method_witness :
  ex_onmessage 2%Z initial {| method := "ping"; args := example_args "A" 5 |}
  = Throw (Error "unknown method").
Proof.
  apply (onmessage_unknown_method example_LABELS example_LABEL_LISTS
           example_deserialize 2%Z).
  reflexivity.
Defined.

Lemma stale_requestFrameChunk_witness :
  exists w : Worker,
    ex_onmessage 2%Z initial (start_stream "B" 5) = Return w
    /\ streamId w = Some "B"
    /\ ex_onmessage 2%Z w (next_chunk "A") = Return w.
Proof.
  destruct (stale_requestFrameChunk_ignored example_LABELS example_LABEL_LISTS
              example_deserialize 2%Z initial (next_chunk "A"))
    as [_ Hnext].
  - reflexivity.
  - discriminate.
  - eexists. split; [reflexivity|].
    apply (Hnext (start_stream "B" 5)).
    + reflexivity.
    + discriminate.
    + reflexivity.
Defined.

(** ** Cancellation *)

Lemma cancelled_source_witness :
  snd (pull (cancel (fetching 2 (example_args "A" 5)))) = Fulfilled
  /\ fetched (fst (fst (pull (cancel (fetching 2 (example_args "A" 5))))))
     = fetched (fetching 2 (example_args "A" 5)).
Proof.
  destruct (cancelled_source_sends_no_request example_LABELS
              example_LABEL_LISTS example_deserialize 2%Z
              (cancel (fetching 2 (example_args "A" 5))) eq_refl)
    as (_ & Hfetched & Hclose & _).
  split; [apply Hclose; reflexivity | exact Hfetched].
Defined.

(** ** A response that arrives after its session was superseded *)

(** Session "B" supersedes session "A" before the first response for "A"
    has arrived; the response is then posted, tagged "A". *)
Lemma late_chunk_reaches_host :
  option_map (fun w => (streamId w, posted w))
    (ex_run 2%Z initial
       [Message (start_stream "A" 5); Message (start_stream "B" 5);
        FramesResponse 0 (chunk_of 0 1)])
  = Some (Some "B", [PostFrameChunk [] (0, 1)%Z "A" []]).
Proof. vm_compute. reflexivity. Qed.

(** The two cases, with session "B" superseding session "A".  When "B"
    arrives before the first response for "A", the read of the first chunk
    still waits on the stream of "A": the late chunk is posted, tagged "A",
    and the stream closes.  When "B" arrives after the first response, the
    request outstanding on the stream of "A" is the one it has sent ahead
    of the reads: the late chunk is queued there, nothing is posted, and
    the stream stays readable. *)
Lemma late_response_not_identified_witness :
  (exists (w w' : Worker) (s' : FrameStream),
      ex_run 2%Z initial
        [Message (start_stream "A" 5); Message (start_stream "B" 5)] = Some w
      /\ ex_step 2%Z w (FramesResponse 0 (chunk_of 0 1)) = Some w'
      /\ streamId w' = Some "B"
      /\ posted w' = posted w ++ [PostFrameChunk [] (0, 1)%Z "A" []]
      /\ nth_error (streams w') 0 = Some s'
      /\ state s' = closed /\ queue s' = []
      /\ List.length (fetched s') = 1%nat)
  /\ (exists (w w' : Worker) (s' : FrameStream),
         ex_run 2%Z initial
           [Message (start_stream "A" 5); FramesResponse 0 (chunk_of 0 1);
            Message (start_stream "B" 5)] = Some w
         /\ ex_step 2%Z w (FramesResponse 0 (chunk_of 2 3)) = Some w'
         /\ streamId w' = Some "B"
         /\ posted w = [PostFrameChunk [] (0, 1)%Z "A" []]
         /\ posted w' = posted w
         /\ nth_error (streams w') 0 = Some s'
         /\ state s' = readable
         /\ map range (queue s') = [(2, 3)]%Z
         /\ List.length (fetched s') = 2%nat).
Proof.
  split.
  - pose (es := [Message (start_stream "A" 5); Message (start_stream "B" 5)]).
    pose (w := match ex_run 2%Z initial es with
               | Some w => w
               | None => initial
               end).
    pose (s := nth 0 (streams w) (fetching 2 (example_args "A" 5))).
    destruct (late_response_not_identified example_LABELS example_LABEL_LISTS
                example_deserialize 2%Z es w 0%nat "A" s
                (hd (request_of s) (inflight s)) (tl (inflight s))
                (chunk_of 0 1) [] [])
      as (w' & s' & Hstep & _ & Hid & Hs' & _ & _ & Hfe & Hwait & _ & _).
    + vm_compute. reflexivity.
    + reflexivity.
    + vm_compute. reflexivity.
    + vm_compute. discriminate.
    + vm_compute. reflexivity.
    + reflexivity.
    + destruct Hwait as (Hposted & Hst & Hq); [vm_compute; discriminate|].
      exists w, w', s'. split; [vm_compute; reflexivity|].
      split; [exact Hstep|]. split; [rewrite Hid; reflexivity|].
      split; [exact Hposted|]. split; [exact Hs'|].
      split; [exact Hst|]. split; [exact Hq|].
      rewrite Hfe. reflexivity.
  - pose (es := [Message (start_stream "A" 5);
                 FramesResponse 0 (chunk_of 0 1);
                 Message (start_stream "B" 5)]).
    pose (w := match ex_run 2%Z initial es with
               | Some w => w
               | None => initial
               end).
    pose (s := nth 0 (streams w) (fetching 2 (example_args "A" 5))).
    destruct (late_response_not_identified example_LABELS example_LABEL_LISTS
                example_deserialize 2%Z es w 0%nat "A" s
                (hd (request_of s) (inflight s)) (tl (inflight s))
                (chunk_of 2 3) [] [])
      as (w' & s' & Hstep & _ & Hid & Hs' & _ & _ & Hfe & _ & Hnone & _).
    + vm_compute. reflexivity.
    + reflexivity.
    + vm_compute. reflexivity.
    + vm_compute. discriminate.
    + vm_compute. reflexivity.
    + reflexivity.
    + destruct Hnone as (Hposted & Hst & Hq); [vm_compute; reflexivity|].
      exists w, w', s'. split; [vm_compute; reflexivity|].
      split; [exact Hstep|]. split; [rewrite Hid; reflexivity|].
      split; [vm_compute; reflexivity|].
      split; [exact Hposted|]. split; [exact Hs'|].
      split; [exact Hst|].
      split; [rewrite Hq; vm_compute; reflexivity|].
      rewrite Hfe. reflexivity.
Defined.

(** ** Single flight and the bounded queue *)

(** After the first chunk has been delivered, the stream has sent its
    second request although no read is waiting: two requests for one
    read. *)
Lemma fetch_without_demand :
  exists (w : Worker) (s : FrameStream),
    ex_run 2%Z initial
      [Message (start_stream "A" 5); FramesResponse 0 (chunk_of 0 1)] = Some w
    /\ ex_reachable 2%Z w
    /\ nth_error (streams w) 0 = Some s
    /\ readRequests s = [] /\ queue s = []
    /\ List.length (inflight s) = 1%nat
    /\ List.length (fetched s) = 2%nat
    /\ List.length (posted w) = 1%nat.
Proof.
  eexists. eexists. split; [vm_compute; reflexivity|]. split.
  - apply (run_reachable example_LABELS example_LABEL_LISTS
             example_deserialize 2%Z
             [Message (start_stream "A" 5); FramesResponse 0 (chunk_of 0 1)]
             initial);
      [apply reachable_initial | vm_compute; reflexivity].
  - split; [vm_compute; reflexivity|]. repeat split; reflexivity.
Qed.

Lemma single_flight_witness :
  exists (w : Worker) (s : FrameStream),
    ex_run 2%Z initial
      [Message (start_stream "A" 5); FramesResponse 0 (chunk_of 0 1)] = Some w
    /\ nth_error (streams w) 0 = Some s
    /\ (List.length (inflight s) <= 1)%nat
    /\ (List.length (queue s) <= HIGH_WATER_MARK)%nat.
Proof.
  pose (events := [Message (start_stream "A" 5);
                   FramesResponse 0 (chunk_of 0 1)]).
  pose (w := match ex_run 2%Z initial events with
             | Some w => w
             | None => initial
             end).
  pose (s := match nth_error (streams w) 0 with
             | Some s => s
             | None => fetching 2 (example_args "A" 5)
             end).
  assert (Hrun : ex_run 2%Z initial events = Some w)
    by (vm_compute; reflexivity).
  assert (Hs : nth_error (streams w) 0 = Some s) by (vm_compute; reflexivity).
  exists w, s. split; [exact Hrun|]. split; [exact Hs|].
  destruct (single_flight_bounded_queue example_LABELS example_LABEL_LISTS
              example_deserialize 2%Z w 0 s) as (H1 & H2 & _).
  - exact (run_reachable example_LABELS example_LABEL_LISTS
             example_deserialize 2%Z events initial w
             (reachable_initial _ _ _ _) Hrun).
  - exact Hs.
  - split; [exact H1 | exact H2].
Defined.

(** ** Requests to a stream that has ended *)

(** Three responses have brought the cursor to the frame count while two
    chunks wait in the queue; the next request is answered with the first
    of them. *)
Lemma buffered_chunk_after_last_frame :
  exists (w w' : Worker) (s : FrameStream),
    ex_run 2%Z initial
      [Message (start_stream "A" 5); FramesResponse 0 (chunk_of 0 1);
       FramesResponse 0 (chunk_of 2 3); FramesResponse 0 (chunk_of 4 4)]
    = Some w
    /\ stream w = Some 0%nat /\ streamId w = Some "A"
    /\ nth_error (streams w) 0 = Some s
    /\ frameNumber s = frameCount s /\ terminated s = true
    /\ cancelled s = false /\ closeRequested s = true
    /\ ex_onmessage 2%Z w (next_chunk "A") = Return w'
    /\ posted w' = posted w ++ [PostFrameChunk [] (2, 3)%Z "A" []].
Proof.
  eexists. eexists. eexists. split; [vm_compute; reflexivity|].
  repeat (split; [vm_compute; reflexivity|]). vm_compute; reflexivity.
Qed.

Lemma requestFrameChunk_after_end_witness :
  exists (w : Worker),
    ex_run 2%Z initial
      [Message (start_stream "A" 5); FramesResponse 0 (chunk_of 0 1);
       Message (next_chunk "A"); FramesResponse 0 (chunk_of 2 3);
       Message (next_chunk "A"); FramesResponse 0 (chunk_of 4 4);
       Message (next_chunk "A")] = Some w
    /\ posted_ranges (posted w) = [(0, 1); (2, 3); (4, 4)]%Z
    /\ ex_onmessage 2%Z w (next_chunk "A") = Return w.
Proof.
  pose (events := [Message (start_stream "A" 5);
                   FramesResponse 0 (chunk_of 0 1);
                   Message (next_chunk "A"); FramesResponse 0 (chunk_of 2 3);
                   Message (next_chunk "A"); FramesResponse 0 (chunk_of 4 4);
                   Message (next_chunk "A")]).
  pose (w := match ex_run 2%Z initial events with
             | Some w => w
             | None => initial
             end).
  pose (s := match nth_error (streams w) 0 with
             | Some s => s
             | None => fetching 2 (example_args "A" 5)
             end).
  exists w. split; [vm_compute; reflexivity|].
  split; [vm_compute; reflexivity|].
  apply (requestFrameChunk_after_end example_LABELS example_LABEL_LISTS
           example_deserialize 2%Z w (next_chunk "A") 0 s).
  - reflexivity.
  - vm_compute; reflexivity.
  - vm_compute; reflexivity.
  - vm_compute; reflexivity.
  - left. vm_compute; reflexivity.
  - vm_compute; reflexivity.
Defined.

(** ** Further properties of the label normaliser *)

Lemma normalisation_keeps_fields_witness :
  ex_handleSample example_sample = Return (example_sample_normalised, [])
  /\ map fst example_sample_normalised = ["filepath"; "ground_truth"; "id"].
Proof.
  split; [reflexivity|].
  apply (proj2 (normalisation_keeps_fields example_LABELS example_LABEL_LISTS
                  example_deserialize example_sample
                  example_sample_normalised [])).
  reflexivity.
Defined.

Lemma unrecognised_field_unchanged_witness :
  exists sample' : record,
    ex_handleLabels example_sample = Return (sample', [])
    /\ lookup "filepath" sample' = Some (VString "a.png").
Proof.
  pose (s' := match ex_handleLabels example_sample with
              | Return (s, _) => s
              | _ => []
              end).
  exists s'. split; [vm_compute; reflexivity|].
  apply (unrecognised_field_unchanged example_LABELS example_LABEL_LISTS
           example_deserialize example_sample s' []
           "filepath" (VString "a.png")).
  - vm_compute. reflexivity.
  - reflexivity.
  - intros ps key H. discriminate H.
Defined.

Lemma normalising_twice_erases_id_witness :
  lookup "id" example_sample_normalised = Some (VString "x")
  /\ exists s2 : record,
       ex_handleSample example_sample_normalised = Return (s2, [])
       /\ lookup "_id" example_sample_normalised = None
       /\ lookup "id" s2 = Some VUndefined
       /\ lookup "_id" s2 = None.
Proof.
  split; [reflexivity|].
  pose (s2 := match ex_handleSample example_sample_normalised with
              | Return (s, _) => s
              | _ => []
              end).
  exists s2. split; [vm_compute; reflexivity|].
  apply (normalising_twice_erases_id example_LABELS example_LABEL_LISTS
           example_deserialize example_sample example_sample_normalised s2
           [] []).
  - reflexivity.
  - vm_compute. reflexivity.
Defined.

Lemma sample_frames_normalised_witness :
  exists (sample' : record) (elems' : list value),
    ex_handleSample
      [("_id", VString "x");
       ("frames", VArray [VObject [("gt", example_detections)]])]
    = Return (sample', [])
    /\ lookup "frames" sample' = Some (VArray elems')
    /\ Forall2
         (fun y y' =>
            exists b,
              handleLabels_frame example_LABELS example_LABEL_LISTS
                example_deserialize y = Return (y', b))
         [VObject [("gt", example_detections)]] elems'.
Proof.
  pose (s' := match ex_handleSample
                      [("_id", VString "x");
                       ("frames", VArray [VObject [("gt", example_detections)]])]
              with
              | Return (s, _) => s
              | _ => []
              end).
  destruct (sample_frames_normalised example_LABELS example_LABEL_LISTS
              example_deserialize
              [("_id", VString "x");
               ("frames", VArray [VObject [("gt", example_detections)]])]
              s' [] (VObject [("gt", example_detections)]) [])
    as (elems' & Hl & Hf).
  - vm_compute. reflexivity.
  - reflexivity.
  - exists s', elems'. split; [vm_compute; reflexivity|].
    split; [exact Hl | exact Hf].
Defined.

Lemma undecodable_mask_no_answer_witness :
  ex_handleSample
    [("filepath", VString "a.png");
     ("gt", VObject [("_cls", VString "Detection"); ("mask", VString "")])]
  = Throw DecodeError
  /\ ex_onmessage 2%Z initial
       {| method := "processSample";
          args :=
            {| uuid := "A";
               sample :=
                 [("filepath", VString "a.png");
                  ("gt", VObject [("_cls", VString "Detection");
                                  ("mask", VString "")])];
               arg_sampleId := ""; arg_source := false;
               arg_frameNumber := 0; arg_frameCount := 0; arg_url := "" |} |}
     = Throw DecodeError
  /\ ex_step 2%Z initial
       (Message
          {| method := "processSample";
             args :=
               {| uuid := "A";
                  sample :=
                    [("filepath", VString "a.png");
                     ("gt", VObject [("_cls", VString "Detection");
                                     ("mask", VString "")])];
                  arg_sampleId := ""; arg_source := false;
                  arg_frameNumber := 0; arg_frameCount := 0;
                  arg_url := "" |} |})
     = Some initial.
Proof.
  apply (undecodable_mask_no_answer example_LABELS example_LABEL_LISTS
           example_deserialize 2%Z
           {| uuid := "A";
              sample :=
                [("filepath", VString "a.png");
                 ("gt", VObject [("_cls", VString "Detection");
                                 ("mask", VString "")])];
              arg_sampleId := ""; arg_source := false;
              arg_frameNumber := 0; arg_frameCount := 0; arg_url := "" |}
           initial
           [("filepath", VString "a.png")] [] [("filepath", VString "a.png")]
           [] "gt" [("_cls", VString "Detection"); ("mask", VString "")]
           "Detection" "").
  - reflexivity.
  - reflexivity.
  - reflexivity.
  - left. reflexivity.
  - reflexivity.
  - reflexivity.
Defined.

(** ** Further properties of the chunked frame source *)

Lemma setStream_without_frames_witness :
  exists s : FrameStream,
    setStream example_LABELS example_LABEL_LISTS example_deserialize 2%Z
      (example_args "A" 0) initial
    = Return {| stream := Some 0%nat; streamId := Some "A"; streams := [s];
                sampleRequests := []; posted := [] |}
    /\ state s = closed /\ fetched s = [] /\ inflight s = []
    /\ queue s = [] /\ readRequests s = [].
Proof.
  destruct (setStream_without_frames example_LABELS example_LABEL_LISTS
              example_deserialize 2%Z (example_args "A" 0) initial)
    as (s & H & Hs).
  - simpl. lia.
  - exists s. split; [exact H | exact Hs].
Defined.

Lemma failed_request_silences_session_witness :
  exists (w' : Worker) (s' : FrameStream),
    ex_step 2%Z
      {| stream := Some 0%nat; streamId := Some "A";
         streams := [fetching 2 (example_args "A" 5)];
         sampleRequests := []; posted := [] |}
      (FramesFailure 0) = Some w'
    /\ posted w' = []
    /\ nth_error (streams w') 0 = Some s'
    /\ state s' = errored
    /\ ex_onmessage 2%Z w' (next_chunk "A") = Return w'.
Proof.
  destruct (failed_request_silences_session example_LABELS
              example_LABEL_LISTS example_deserialize 2%Z
              {| stream := Some 0%nat; streamId := Some "A";
                 streams := [fetching 2 (example_args "A" 5)];
                 sampleRequests := []; posted := [] |}
              0%nat (fetching 2 (example_args "A" 5))
              (request_of (createReader 2 5 0 "sample" false
                             "http://localhost:5151")) [])
    as (w' & s' & Hstep & Hp & _ & _ & Hi & Hst & _ & _ & _ & _ & _ & Hm).
  - reflexivity.
  - reflexivity.
  - reflexivity.
  - exists w', s'. split; [exact Hstep|]. split; [exact Hp|].
    split; [exact Hi|]. split; [exact Hst|].
    apply Hm; reflexivity.
Defined.

Lemma requests_within_bounds_witness :
  exists (w : Worker) (s : FrameStream) (r : FramesRequest),
    ex_run 2%Z initial
      [Message (start_stream "A" 5); FramesResponse 0 (chunk_of 0 1)] = Some w
    /\ nth_error (streams w) 0 = Some s
    /\ fetched s = [request_of (createReader 2 5 0 "sample" false
                                  "http://localhost:5151"); r]
    /\ q_frameNumber r = 2%Z
    /\ (q_frameNumber r < q_frameCount r)%Z
    /\ q_numFrames r = 2%Z.
Proof.
  pose (events := [Message (start_stream "A" 5);
                   FramesResponse 0 (chunk_of 0 1)]).
  pose (w := match ex_run 2%Z initial events with
             | Some w => w
             | None => initial
             end).
  pose (s := match nth_error (streams w) 0 with
             | Some s => s
             | None => fetching 2 (example_args "A" 5)
             end).
  pose (r := request_of (set_frameNumber 2 (fetching 2 (example_args "A" 5)))).
  assert (Hrun : ex_run 2%Z initial events = Some w)
    by (vm_compute; reflexivity).
  assert (Hs : nth_error (streams w) 0 = Some s) by (vm_compute; reflexivity).
  exists w, s, r. split; [exact Hrun|]. split; [exact Hs|].
  split; [vm_compute; reflexivity|]. split; [reflexivity|].
  destruct (requests_within_bounds example_LABELS example_LABEL_LISTS
              example_deserialize 2%Z w 0 s r) as (H1 & H2 & _).
  - exact (run_reachable example_LABELS example_LABEL_LISTS
             example_deserialize 2%Z events initial w
             (reachable_initial _ _ _ _) Hrun).
  - exact Hs.
  - vm_compute. right. left. reflexivity.
  - split; [exact H1 | exact H2].
Defined.

Lemma superseded_sources_cancelled_witness :
  exists (w : Worker) (sa : FrameStream),
    ex_run 2%Z initial
      [Message (start_stream "A" 5); Message (start_stream "B" 5)] = Some w
    /\ stream w = Some 1%nat
    /\ List.length (streams w) = 2%nat
    /\ nth_error (streams w) 0 = Some sa
    /\ cancelled sa = true.
Proof.
  pose (events := [Message (start_stream "A" 5);
                   Message (start_stream "B" 5)]).
  pose (w := match ex_run 2%Z initial events with
             | Some w => w
             | None => initial
             end).
  pose (sa := match nth_error (streams w) 0 with
              | Some s => s
              | None => fetching 2 (example_args "A" 5)
              end).
  assert (Hrun : ex_run 2%Z initial events = Some w)
    by (vm_compute; reflexivity).
  assert (Hs : nth_error (streams w) 0 = Some sa) by (vm_compute; reflexivity).
  exists w, sa. split; [exact Hrun|].
  destruct (superseded_sources_cancelled example_LABELS example_LABEL_LISTS
              example_deserialize 2%Z w) as [_ H].
  - exact (run_reachable example_LABELS example_LABEL_LISTS
             example_deserialize 2%Z events initial w
             (reachable_initial _ _ _ _) Hrun).
  - destruct (H 1%nat) as (Hlen & _ & Hc); [vm_compute; reflexivity|].
    split; [vm_compute; reflexivity|].
    split; [symmetry; exact Hlen|]. split; [exact Hs|].
    apply (Hc 0%nat sa); [discriminate | exact Hs].
Defined.

Lemma one_chunk_per_request_witness :
  exists w : Worker,
    ex_run 2%Z initial
      [Message (start_stream "A" 5); FramesResponse 0 (chunk_of 0 1);
       FramesResponse 0 (chunk_of 2 3)] = Some w
    /\ List.length (posted_ranges (posted w)) = 1%nat
    /\ (List.length (posted_ranges (posted w)) + reads_waiting (streams w)
        <= 1)%nat.
Proof.
  pose (events := [Message (start_stream "A" 5);
                   FramesResponse 0 (chunk_of 0 1);
                   FramesResponse 0 (chunk_of 2 3)]).
  pose (w := match ex_run 2%Z initial events with
             | Some w => w
             | None => initial
             end).
  assert (Hrun : ex_run 2%Z initial events = Some w)
    by (vm_compute; reflexivity).
  exists w. split; [exact Hrun|]. split; [vm_compute; reflexivity|].
  exact (one_chunk_per_request example_LABELS example_LABEL_LISTS
           example_deserialize 2%Z events w Hrun).
Defined.

Lemma chunks_carry_announced_sessions_witness :
  exists (w : Worker) (data : MessageData),
    ex_run 2%Z initial
      [Message (start_stream "A" 5); FramesResponse 0 (chunk_of 0 1)] = Some w
    /\ posted w = [PostFrameChunk [] (0, 1)%Z "A" []]
    /\ In (Message data)
         [Message (start_stream "A" 5); FramesResponse 0 (chunk_of 0 1)]
    /\ method data = "setStream"
    /\ uuid (args data) = "A".
Proof.
  pose (events := [Message (start_stream "A" 5);
                   FramesResponse 0 (chunk_of 0 1)]).
  pose (w := match ex_run 2%Z initial events with
             | Some w => w
             | None => initial
             end).
  assert (Hrun : ex_run 2%Z initial events = Some w)
    by (vm_compute; reflexivity).
  destruct (chunks_carry_announced_sessions example_LABELS
              example_LABEL_LISTS example_deserialize 2%Z events w
              [] (0, 1)%Z "A" [] Hrun) as (data & H1 & H2 & H3).
  - vm_compute. left. reflexivity.
  - exists w, data. split; [exact Hrun|]. split; [vm_compute; reflexivity|].
    split; [exact H1|]. split; [exact H2 | exact H3].
Defined.

(** ** Masks and chunks *)

Lemma mask_decoded_and_transferred_witness :
  exists (sample' : record) (ps' : record),
    ex_handleLabels
      [("gt", VObject [("_cls", VString "Segmentation");
                       ("mask", VString "m")])]
    = Return (sample', [VBuffer []])
    /\ example_deserialize "m"
       = Some (VObject [("buffer", VBuffer []); ("shape", VArray [])])
    /\ lookup "gt" sample' = Some (VObject ps')
    /\ get ps' "mask" = VObject [("buffer", VBuffer []); ("shape", VArray [])]
    /\ In (VBuffer []) [VBuffer []].
Proof.
  pose (input := [("gt", VObject [("_cls", VString "Segmentation");
                                  ("mask", VString "m")])]).
  pose (s' := match ex_handleLabels input with
              | Return (s, _) => s
              | _ => []
              end).
  destruct (mask_decoded_and_transferred example_LABELS example_LABEL_LISTS
              example_deserialize input s' [VBuffer []] "gt"
              [("_cls", VString "Segmentation"); ("mask", VString "m")]
              "Segmentation" "m")
    as (mask & buffer & ps' & Hd & Hb & Hl & Hm & Hin).
  - vm_compute. reflexivity.
  - reflexivity.
  - reflexivity.
  - right. reflexivity.
  - reflexivity.
  - discriminate.
  - exists s', ps'. split; [vm_compute; reflexivity|].
    split; [reflexivity|]. split; [exact Hl|].
    assert (Em : mask = VObject [("buffer", VBuffer []); ("shape", VArray [])])
      by (vm_compute in Hd; now injection Hd as <-).
    split; [rewrite <- Em; exact Hm | left; reflexivity].
Defined.

Lemma unnormalisable_chunk_is_dropped_witness :
  exists (w' : Worker) (s' : FrameStream),
    ex_step 2%Z
      {| stream := Some 0%nat; streamId := Some "A";
         streams := [fetching 2 (example_args "A" 5)];
         sampleRequests := []; posted := [] |}
      (FramesResponse 0
         {| frames :=
              [VObject [("gt", VObject [("_cls", VString "Detection");
                                       ("mask", VString "")])]];
            range := (0, 1)%Z |}) = Some w'
    /\ posted w' = []
    /\ nth_error (streams w') 0 = Some s'
    /\ frameNumber s' = 2%Z
    /\ readRequests s' = [].
Proof.
  destruct (unnormalisable_chunk_is_dropped example_LABELS
              example_LABEL_LISTS example_deserialize 2%Z
              {| stream := Some 0%nat; streamId := Some "A";
                 streams := [fetching 2 (example_args "A" 5)];
                 sampleRequests := []; posted := [] |}
              0%nat (fetching 2 (example_args "A" 5)) "A" 0%Z
              {| frames :=
                   [VObject [("gt", VObject [("_cls", VString "Detection");
                                            ("mask", VString "")])]];
                 range := (0, 1)%Z |}
              DecodeError)
    as (w' & s' & H).
  - reflexivity.
  - unfold waiting_at. simpl. repeat split; reflexivity.
  - reflexivity.
  - exists w', s'. exact H.
Defined.

Lemma detections_without_list_not_answered_witness :
  ex_handleSample
    [("gt", VObject [("_cls", VString "Detections"); ("detections", VNull)])]
  = Throw TypeError
  /\ ex_step 2%Z initial
       (Message
          {| method := "processSample";
             args :=
               {| uuid := "A";
                  sample :=
                    [("gt", VObject [("_cls", VString "Detections");
                                     ("detections", VNull)])];
                  arg_sampleId := ""; arg_source := false;
                  arg_frameNumber := 0; arg_frameCount := 0;
                  arg_url := "" |} |})
     = Some initial.
Proof.
  destruct (detections_without_list_not_answered example_LABELS
              example_LABEL_LISTS example_deserialize 2%Z
              {| uuid := "A";
                 sample :=
                   [("gt", VObject [("_cls", VString "Detections");
                                    ("detections", VNull)])];
                 arg_sampleId := ""; arg_source := false;
                 arg_frameNumber := 0; arg_frameCount := 0; arg_url := "" |}
              initial [] [] [] [] "gt"
              [("_cls", VString "Detections"); ("detections", VNull)])
    as (H1 & _ & H3).
  - reflexivity.
  - reflexivity.
  - reflexivity.
  - intros ds H. discriminate H.
  - split; [exact H1 | exact H3].
Defined.

Lemma sourceSample_round_trip_witness :
  exists w1 : Worker,
    ex_onmessage 2%Z initial
      {| method := "requestSourceSample"; args := example_args "S" 0 |}
    = Return w1
    /\ ex_step 2%Z w1 (SampleResponse 0 example_sample)
       = Some {| stream := None; streamId := None; streams := [];
                 sampleRequests := [];
                 posted :=
                   [PostSample "sourceSample" example_sample_normalised "S"
                      []] |}
    /\ ex_step 2%Z w1 (SampleFailure 0) = Some initial.
Proof.
  destruct (sourceSample_round_trip example_LABELS example_LABEL_LISTS
              example_deserialize 2%Z (example_args "S" 0) initial
              example_sample)
    as (w1 & H1 & _ & _ & H4 & _ & H6).
  exists w1. split; [exact H1|]. split; [|exact H6].
  exact (H4 example_sample_normalised [] eq_refl).
Defined.

Lemma chunks_posted_in_arrival_order_witness :
  exists (w : Worker) (s : FrameStream),
    ex_run 2%Z initial
      [Message (start_stream "A" 5); FramesResponse 0 (chunk_of 0 1);
       FramesResponse 0 (chunk_of 2 3); Message (next_chunk "A");
       FramesResponse 0 (chunk_of 4 4)] = Some w
    /\ streams w = [s]
    /\ posted_ranges (posted w) = [(0, 1); (2, 3)]%Z
    /\ map range (queue s) = [(4, 4)%Z]
    /\ posted_ranges (posted w) ++ map range (queue s)
       = [(0, 1); (2, 3); (4, 4)]%Z.
Proof.
  pose (events := [FramesResponse 0 (chunk_of 0 1);
                   FramesResponse 0 (chunk_of 2 3); Message (next_chunk "A");
                   FramesResponse 0 (chunk_of 4 4)]).
  pose (w := match ex_run 2%Z initial
                     (Message (start_stream "A" 5) :: events) with
             | Some w => w
             | None => initial
             end).
  assert (Hrun : ex_run 2%Z initial (Message (start_stream "A" 5) :: events)
                 = Some w) by (vm_compute; reflexivity).
  destruct (chunks_posted_in_arrival_order example_LABELS
              example_LABEL_LISTS example_deserialize 2%Z
              (example_args "A" 5) events w) as (s & Hs & E).
  - repeat constructor; try discriminate; exists [], []; reflexivity.
  - exact Hrun.
  - exists w, s. split; [exact Hrun|]. split; [exact Hs|].
    assert (Hq : map range (queue s) = [(4, 4)%Z]).
    { assert (Hs' : nth_error (streams w) 0 = Some s) by (now rewrite Hs).
      vm_compute in Hs'. injection Hs' as <-. reflexivity. }
    split; [vm_compute; reflexivity|]. split; [exact Hq | exact E].
Defined.

(* ===================================================================== *)
(** * Properties of the selectors *)
(* ===================================================================== *)

Ltac inv_outcome H :=
  let a := fresh "a" in
  let Ha := fresh "Ha" in
  apply bind_Return in H; destruct H as [a [Ha H]].

(** ** Element names *)

(** X18.  The two names that [elementNames] gives for the elements of a
    view belong together: the singular is one of clip, frame, patch and
    sample, and the plural is the plural of that singular, whatever the
    class of the view is. *)
Theorem elementNames_consistent (stateDescription : record) :
  let names := Selectors.elementNames stateDescription in
  In (Selectors.singular names, Selectors.plural names)
    [("clip", "clips"); ("frame", "frames"); ("patch", "patches");
     ("sample", "samples")].
Proof.
  unfold Selectors.elementNames, Selectors.rootElementNamePlural,
    Selectors.rootElementName. cbn [Selectors.singular Selectors.plural].
  destruct (Selectors.includes Selectors.PATCH_VIEWS
              (Selectors.viewCls stateDescription)).
  { right. right. left. reflexivity. }
  destruct (Selectors.is_string Selectors.CLIPS_VIEW
              (Selectors.viewCls stateDescription)).
  { left. reflexivity. }
  destruct (Selectors.is_string Selectors.FRAMES_VIEW
              (Selectors.viewCls stateDescription)).
  { right. left. reflexivity. }
  right. right. right. left. reflexivity.
Qed.

(** X19.  The kinds of view exclude one another: a view is at most one of
    a clips view, a patches view and a frames view, and a root view (whose
    class is undefined, null or the dataset view) is none of them, has the
    element name sample, and has no source. *)
Theorem view_kinds_exclusive (stateDescription : record) :
  Selectors.isClipsView stateDescription
  && Selectors.isPatchesView stateDescription = false
  /\ Selectors.isClipsView stateDescription
     && Selectors.isFramesView stateDescription = false
  /\ Selectors.isPatchesView stateDescription
     && Selectors.isFramesView stateDescription = false
  /\ (Selectors.isRootView stateDescription = true ->
      Selectors.rootElementName stateDescription = "sample"
      /\ Selectors.isClipsView stateDescription = false
      /\ Selectors.isPatchesView stateDescription = false
      /\ Selectors.isFramesView stateDescription = false
      /\ Selectors.hasSource stateDescription = false).
Proof.
  unfold Selectors.isClipsView, Selectors.isPatchesView,
    Selectors.isFramesView, Selectors.hasSource.
  assert (Hn : In (Selectors.rootElementName stateDescription)
                 ["clip"; "frame"; "patch"; "sample"]).
  { unfold Selectors.rootElementName.
    destruct (Selectors.includes _ _); [simpl; auto|].
    destruct (Selectors.is_string _ _); [simpl; auto|].
    destruct (Selectors.is_string _ _); simpl; auto. }
  split; [|split; [|split]].
  - destruct Hn as [<- | [<- | [<- | [<- | []]]]]; reflexivity.
  - destruct Hn as [<- | [<- | [<- | [<- | []]]]]; reflexivity.
  - destruct Hn as [<- | [<- | [<- | [<- | []]]]]; reflexivity.
  - clear Hn. intros Hroot. rewrite Hroot.
    assert (Hs : Selectors.rootElementName stateDescription = "sample").
    { unfold Selectors.isRootView in Hroot. unfold Selectors.rootElementName.
      destruct (Selectors.viewCls stateDescription) as [| | | |s| | |];
        try reflexivity; try discriminate.
      cbn -[String.eqb] in Hroot. rewrite orb_false_r in Hroot.
      apply String.eqb_eq in Hroot. subst s. reflexivity. }
    rewrite Hs. repeat split; reflexivity.
Qed.

Lemma view_kinds_exclusive_witness :
  Selectors.isRootView
    [("view_cls", VString "fiftyone.core.view.DatasetView")] = true
  /\ Selectors.rootElementName
       [("view_cls", VString "fiftyone.core.view.DatasetView")] = "sample"
  /\ Selectors.hasSource
       [("view_cls", VString "fiftyone.core.view.DatasetView")] = false.
Proof.
  split; [reflexivity|].
  destruct (view_kinds_exclusive
              [("view_cls", VString "fiftyone.core.view.DatasetView")])
    as (_ & _ & _ & H).
  destruct (H eq_refl) as (H1 & _ & _ & _ & H5).
  split; [exact H1 | exact H5].
Defined.

(** ** Counts *)

Lemma find_snoc {A : Type} (p : A -> bool) (xs : list A) (x : A) :
  find p (xs ++ [x])
  = match find p xs with
    | Some y => Some y
    | None => if p x then Some x else None
    end.
Proof.
  induction xs as [|z xs IH]; simpl; [reflexivity|].
  destruct (p z); [reflexivity | exact IH].
Qed.

Lemma reduce_count_objects (elems : list value) (acc : value) :
  Forall Selectors.is_object elems ->
  Selectors.reduce_count elems acc
  = Return (match find Selectors.unnamed (rev elems) with
            | Some cur => Selectors.field cur "result"
            | None => acc
            end).
Proof.
  intros H. revert acc. induction H as [|x xs [ps ->] _ IH]; intros acc.
  - reflexivity.
  - simpl. rewrite find_snoc. unfold Selectors.unnamed at 2. simpl.
    destruct (get ps "name"); simpl; rewrite IH;
      destruct (find Selectors.unnamed (rev xs)); reflexivity.
Qed.

(** X20.  [totalCount] is the [result] of the last statistic whose [name]
    is null, and null when there is none or when there are no statistics
    at all; [currentCount] is the filtered count unless that count is
    missing or zero, in which case it is the total count. *)
Theorem totalCount_last_unnamed (elems : list value) :
  Forall Selectors.is_object elems ->
  Selectors.totalCount (VArray elems)
  = Return (match find Selectors.unnamed (rev elems) with
            | Some cur => Selectors.field cur "result"
            | None => VNull
            end)
  /\ Selectors.totalCount VNull = Return VNull
  /\ forall (extended filtered : value),
       Selectors.filteredCount extended = Return filtered ->
       Selectors.currentCount extended (VArray elems)
       = if ToBoolean filtered then Return filtered
         else Selectors.totalCount (VArray elems).
Proof.
  intros H. split; [|split].
  - unfold Selectors.totalCount, Selectors.count. simpl.
    now apply reduce_count_objects.
  - reflexivity.
  - intros extended filtered Hf. unfold Selectors.currentCount.
    rewrite Hf. reflexivity.
Qed.

(** ** Similarity keys *)

Lemma destructure_config_field (v : value) (k : string) (x : value) :
  Selectors.destructure_config v k = Return x ->
  x = Selectors.config_field v k.
Proof.
  unfold Selectors.destructure_config, Selectors.config_field,
    Selectors.field.
  destruct v as [| | | | | |ps|]; simpl; try discriminate;
    try (intros H; now injection H as <-).
  destruct (get ps "config") as [| | | | | |cs|]; simpl; try discriminate;
    intros H; now injection H as <-.
Qed.

Lemma filter_similarity_filter (es kept : list (string * value)) :
  Selectors.filter_similarity es = Return kept ->
  kept = filter (fun kv => Selectors.is_similarity (snd kv)) es.
Proof.
  revert kept. induction es as [|[key v] es IH]; intros kept H; simpl in H.
  - now injection H as <-.
  - inv_outcome H. inv_outcome H. injection H as <-.
    apply destructure_config_field in Ha. subst a.
    rewrite (IH _ Ha0). simpl.
    change (Selectors.is_string "similarity"
              (Selectors.config_field v "method"))
      with (Selectors.is_similarity v).
    destruct (Selectors.is_similarity v); reflexivity.
Qed.

Lemma reduce_keys_partition (es : list (string * value))
  (acc r : Selectors.SimilarityKeys) :
  Selectors.reduce_keys es acc = Return r ->
  Selectors.patches r
  = Selectors.patches acc
    ++ map (fun kv => (fst kv, Selectors.config_field (snd kv) "patches_field"))
         (filter (fun kv =>
                    ToBoolean (Selectors.config_field (snd kv) "patches_field"))
            es)
  /\ Selectors.samples r
     = Selectors.samples acc
       ++ map fst
            (filter (fun kv =>
                       negb (ToBoolean
                               (Selectors.config_field (snd kv)
                                  "patches_field")))
               es).
Proof.
  revert acc. induction es as [|[key v] es IH]; intros acc H; simpl in H.
  - injection H as <-. simpl. now rewrite !app_nil_r.
  - inv_outcome H. apply destructure_config_field in Ha. subst a.
    apply IH in H. destruct H as [Hp Hs]. simpl.
    destruct (ToBoolean (Selectors.config_field v "patches_field"));
      simpl in *; rewrite Hp, Hs; rewrite <- ?app_assoc; split; reflexivity.
Qed.

(** X21.  [similarityKeys] sorts the brain methods that compute a
    similarity into two lists, in the order of the object: those with a
    patches field go to [patches], with that field, and all others go to
    [samples]; a method of another kind appears in neither list. *)
Theorem similarityKeys_partition (stateDescription dataset : record)
  (brain_methods : record) (r : Selectors.SimilarityKeys) :
  lookup "dataset" stateDescription = Some (VObject dataset) ->
  lookup "brain_methods" dataset = Some (VObject brain_methods) ->
  Selectors.similarityKeys (VObject stateDescription) = Return r ->
  Selectors.patches r
  = map (fun kv => (fst kv, Selectors.config_field (snd kv) "patches_field"))
      (filter (fun kv =>
                 Selectors.is_similarity (snd kv)
                 && ToBoolean (Selectors.config_field (snd kv) "patches_field"))
         brain_methods)
  /\ Selectors.samples r
     = map fst
         (filter (fun kv =>
                    Selectors.is_similarity (snd kv)
                    && negb (ToBoolean
                               (Selectors.config_field (snd kv)
                                  "patches_field")))
            brain_methods).
Proof.
  intros Hd Hb H. unfold Selectors.similarityKeys in H. simpl in H.
  unfold get in H. rewrite Hd in H. simpl in H.
  unfold get in H. rewrite Hb in H. simpl in H.
  inv_outcome H. apply filter_similarity_filter in Ha. subst a.
  apply reduce_keys_partition in H. simpl in H. destruct H as [Hp Hs].
  rewrite Hp, Hs. clear.
  induction brain_methods as [|[key v] es [IH1 IH2]]; simpl;
    [split; reflexivity|].
  destruct (Selectors.is_similarity v); simpl.
  - destruct (ToBoolean (Selectors.config_field v "patches_field")); simpl;
      rewrite IH1, IH2; split; reflexivity.
  - split; [exact IH1 | exact IH2].
Qed.

(** A state description without a dataset has no similarity keys. *)
Lemma similarityKeys_without_dataset :
  Selectors.similarityKeys VNull
  = Return {| Selectors.patches := []; Selectors.samples := [] |}.
Proof. reflexivity. Qed.

Lemma totalCount_last_unnamed_witness :
  Selectors.totalCount
    (VArray
       [VObject [("name", VNull); ("result", VString "first")];
        VObject [("name", VString "tags"); ("result", VString "other")];
        VObject [("name", VNull); ("result", VString "last")]])
  = Return (VString "last")
  /\ Selectors.currentCount
       (VArray [VObject [("name", VNull); ("result", VNumber (S754_zero false))]])
       (VArray
          [VObject [("name", VNull); ("result", VString "first")];
           VObject [("name", VString "tags"); ("result", VString "other")];
           VObject [("name", VNull); ("result", VString "last")]])
     = Return (VString "last").
Proof.
  destruct (totalCount_last_unnamed
              [VObject [("name", VNull); ("result", VString "first")];
               VObject [("name", VString "tags"); ("result", VString "other")];
               VObject [("name", VNull); ("result", VString "last")]])
    as (H1 & _ & H3).
  - repeat constructor; eexists; reflexivity.
  - split; [exact H1|].
    rewrite (H3 (VArray [VObject [("name", VNull);
                                  ("result", VNumber (S754_zero false))]])
               (VNumber (S754_zero false)) eq_refl).
    exact H1.
Defined.

Lemma similarityKeys_partition_witness :
  exists r : Selectors.SimilarityKeys,
    Selectors.similarityKeys
      (VObject
         [("dataset",
           VObject
             [("brain_methods",
               VObject
                 [("sim", VObject [("config",
                                    VObject [("method", VString "similarity")])]);
                  ("viz", VObject [("config",
                                    VObject [("method", VString "visualization")])]);
                  ("objs", VObject [("config",
                                     VObject [("method", VString "similarity");
                                              ("patches_field",
                                               VString "ground_truth")])])])])])
    = Return r
    /\ Selectors.patches r = [("objs", VString "ground_truth")]
    /\ Selectors.samples r = ["sim"].
Proof.
  pose (bm := [("sim", VObject [("config",
                                 VObject [("method", VString "similarity")])]);
               ("viz", VObject [("config",
                                 VObject [("method", VString "visualization")])]);
               ("objs", VObject [("config",
                                  VObject [("method", VString "similarity");
                                           ("patches_field",
                                            VString "ground_truth")])])]).
  pose (r := {| Selectors.patches := [("objs", VString "ground_truth")];
                Selectors.samples := ["sim"] |}).
  exists r. split; [reflexivity|].
  exact (similarityKeys_partition
           [("dataset", VObject [("brain_methods", VObject bm)])]
           [("brain_methods", VObject bm)] bm r eq_refl eq_refl eq_refl).
Defined.

(** ** Selected fields *)

Lemma lookup_filter_key (p : string -> bool) (ps : record) (k : string) :
  lookup k (filter (fun kv => p (fst kv)) ps)
  = if p k then lookup k ps else None.
Proof.
  induction ps as [|[k1 v1] ps IH]; simpl; [now destruct (p k)|].
  destruct (String.eqb k k1) eqn:E.
  - apply String.eqb_eq in E. subst k1.
    destruct (p k) eqn:Ep; simpl.
    + now rewrite String.eqb_refl.
    + exact IH.
  - destruct (p k1); simpl; [rewrite E|]; exact IH.
Qed.

Lemma lookup_delete_sub (ps : record) (n k : string) (v : value) :
  lookup k (delete n ps) = Some v -> lookup k ps = Some v.
Proof.
  destruct (String.eqb n k) eqn:E.
  - apply String.eqb_eq in E. subst. now rewrite lookup_delete_same.
  - apply String.eqb_neq in E. now rewrite lookup_delete_other.
Qed.

Lemma lookup_fold_delete_sub (names : list string) (ps : record) (k : string)
  (v : value) :
  lookup k (fold_left (fun fs n => delete n fs) names ps) = Some v ->
  lookup k ps = Some v.
Proof.
  revert ps. induction names as [|n names IH]; intros ps H; simpl in H;
    [exact H|].
  apply IH in H. eapply lookup_delete_sub. exact H.
Qed.

Lemma lookup_fold_delete (names : list string) (ps : record) (k : string) :
  lookup k (fold_left (fun fs n => delete n fs) names ps)
  = if Selectors.has names k then None else lookup k ps.
Proof.
  revert ps. induction names as [|n names IH]; intros ps; simpl;
    [reflexivity|].
  rewrite IH. unfold Selectors.has. simpl.
  destruct (String.eqb k n) eqn:E; simpl.
  - apply String.eqb_eq in E. subst n. rewrite lookup_delete_same.
    now destruct (existsb (String.eqb k) names).
  - apply String.eqb_neq in E.
    rewrite lookup_delete_other by (intros ->; now apply E).
    reflexivity.
Qed.

Lemma apply_stage_sub (R : list string) (video : bool) (dimension : string)
  (fields_ : record) (stage : Selectors.Stage) (k : string) (v : value) :
  lookup k (Selectors.apply_stage R video dimension fields_ stage) = Some v ->
  lookup k fields_ = Some v.
Proof.
  unfold Selectors.apply_stage.
  destruct (String.eqb (Selectors._cls stage) _).
  { rewrite (lookup_filter_key
               (Selectors.has
                  (if video && String.eqb dimension "frame"
                   then map Selectors.slice_frames
                          (Selectors.supplied stage ++ R)
                   else Selectors.supplied stage ++ R))).
    destruct (Selectors.has _ k); [auto | discriminate]. }
  destruct (String.eqb (Selectors._cls stage) _); [|auto].
  apply lookup_fold_delete_sub.
Qed.

(** X22.  [selectedFields] only ever takes fields away: every field that
    it returns is a field of the schema, with the same value, whatever the
    stages of the view are; and while a source sample is shown in the modal
    it returns the fields of the schema as they are. *)
Theorem selectedFields_sub_record (RESERVED_FIELDS : list string)
  (view_ : list Selectors.Stage) (fields : record) (video : bool)
  (source : value) (dimension : string) :
  (forall k v,
      lookup k (Selectors.selectedFields RESERVED_FIELDS view_ fields video
                  source dimension) = Some v ->
      lookup k fields = Some v)
  /\ (ToBoolean source = true ->
      Selectors.selectedFields RESERVED_FIELDS view_ fields video source
        dimension = fields).
Proof.
  unfold Selectors.selectedFields. split.
  - destruct (negb (ToBoolean source)); [|auto].
    revert fields. induction view_ as [|st sts IH]; intros fields k v H;
      simpl in H; [exact H|].
    apply IH in H. eapply apply_stage_sub. exact H.
  - intros ->. reflexivity.
Qed.

Lemma has_filter_prefix (names : list string) (k : string) :
  String.prefix "frames." k = false ->
  Selectors.has (filter (String.prefix "frames.") names) k = false.
Proof.
  intros Hk. unfold Selectors.has.
  induction names as [|n names IH]; simpl; [reflexivity|].
  destruct (String.prefix "frames." n) eqn:En; simpl; [|exact IH].
  rewrite IH, orb_false_r. apply String.eqb_neq. intros ->. congruence.
Qed.

(** X23.  What an [ExcludeFields] stage excludes.  In a dataset that is
    not a video, the stage removes every field that it names.  In a video
    dataset, for a dimension other than frame, it removes only the fields
    whose names start with "frames.": a sample field that the stage names
    stays selected. *)
Theorem ExcludeFields_on_video_samples (RESERVED_FIELDS : list string)
  (names : list string) (fields : record) (dimension : string) (k : string) :
  let stage :=
    {| Selectors._cls := "fiftyone.core.stages.ExcludeFields";
       Selectors.supplied := names |} in
  (In k names ->
   lookup k (Selectors.selectedFields RESERVED_FIELDS [stage] fields false
               VNull dimension) = None)
  /\ (dimension <> "frame" ->
      String.prefix "frames." k = false ->
      lookup k (Selectors.selectedFields RESERVED_FIELDS [stage] fields true
                  VNull dimension)
      = lookup k fields).
Proof.
  cbv zeta. unfold Selectors.selectedFields, Selectors.apply_stage.
  cbn [negb ToBoolean fold_left Selectors._cls Selectors.supplied].
  change (String.eqb "fiftyone.core.stages.ExcludeFields"
            "fiftyone.core.stages.SelectFields") with false.
  change (String.eqb "fiftyone.core.stages.ExcludeFields"
            "fiftyone.core.stages.ExcludeFields") with true.
  cbv iota. split.
  - intros Hin. cbn [andb]. rewrite lookup_fold_delete.
    assert (Hh : Selectors.has names k = true).
    { unfold Selectors.has. apply existsb_exists. exists k.
      split; [exact Hin | apply String.eqb_refl]. }
    now rewrite Hh.
  - intros Hd Hk. apply String.eqb_neq in Hd. cbn [andb]. rewrite Hd.
    rewrite lookup_fold_delete, has_filter_prefix by exact Hk.
    reflexivity.
Qed.

Lemma selectedFields_sub_record_witness :
  Selectors.selectedFields ["id"; "filepath"]
    [{| Selectors._cls := "fiftyone.core.stages.SelectFields";
        Selectors.supplied := ["ground_truth"] |}]
    [("filepath", VString "StringField");
     ("ground_truth", VString "Detections");
     ("predictions", VString "Detections")]
    false (VObject []) "sample"
  = [("filepath", VString "StringField");
     ("ground_truth", VString "Detections");
     ("predictions", VString "Detections")]
  /\ Selectors.selectedFields ["id"; "filepath"]
       [{| Selectors._cls := "fiftyone.core.stages.SelectFields";
           Selectors.supplied := ["ground_truth"] |}]
       [("filepath", VString "StringField");
        ("ground_truth", VString "Detections");
        ("predictions", VString "Detections")]
       false VNull "sample"
     = [("filepath", VString "StringField");
        ("ground_truth", VString "Detections")].
Proof.
  split; [|reflexivity].
  apply (proj2 (selectedFields_sub_record ["id"; "filepath"]
                  [{| Selectors._cls := "fiftyone.core.stages.SelectFields";
                      Selectors.supplied := ["ground_truth"] |}]
                  [("filepath", VString "StringField");
                   ("ground_truth", VString "Detections");
                   ("predictions", VString "Detections")]
                  false (VObject []) "sample")).
  reflexivity.
Defined.

Lemma ExcludeFields_on_video_samples_witness :
  lookup "predictions"
    (Selectors.selectedFields ["id"; "filepath"]
       [{| Selectors._cls := "fiftyone.core.stages.ExcludeFields";
           Selectors.supplied := ["predictions"] |}]
       [("filepath", VString "StringField");
        ("predictions", VString "Detections")]
       false VNull "sample")
  = None
  /\ lookup "predictions"
       (Selectors.selectedFields ["id"; "filepath"]
          [{| Selectors._cls := "fiftyone.core.stages.ExcludeFields";
              Selectors.supplied := ["predictions"] |}]
          [("filepath", VString "StringField");
           ("predictions", VString "Detections")]
          true VNull "sample")
     = Some (VString "Detections").
Proof.
  destruct (ExcludeFields_on_video_samples ["id"; "filepath"]
              ["predictions"]
              [("filepath", VString "StringField");
               ("predictions", VString "Detections")]
              "sample" "predictions") as [H1 H2].
  split.
  - apply H1. left. reflexivity.
  - rewrite H2; [reflexivity | discriminate | reflexivity].
Defined.
